(** * The adb sync client (adb/file_sync_client.cpp), embedded in Rocq

  The client speaks the framed sync protocol over one duplex byte
  stream.  The embedding follows the C++ source function by function:
  every function of the source that touches the connection, the local
  file system or the terminal becomes a computation in a small monad
  over an explicit [world]; a computation either returns a value and
  a new world or ends in undefined behaviour ([Fault]).

  The world records, in chronological order, every call to the
  transport, to the local file system and to the line printer, so that
  statements about "what was written before what was read" are
  statements about the [trace].

  The walk over a local directory reads what the host shows of it
  from a tree given with the call.  The atomic operations of
  libcutils/atomic.c (the variant for i386 and x86_64) are embedded
  in a module of their own, over a memory of words that other
  threads may change between two accesses of this one. *)

From Stdlib Require Import ZArith List Lia Strings.Ascii Strings.String
Strings.Byte Numbers.DecimalString.
From stdpp Require Import gmap strings list.
Import ListNotations.
Local Open Scope Z_scope.

(** ** Machine integers and the wire encoding *)

Module Wire.

(** [unsigned] and [uint64_t] arithmetic wraps around. *)
Definition u32 (z : Z) : Z := z mod 2 ^ 32.
Definition u64 (z : Z) : Z := z mod 2 ^ 64.

(** [static_cast<int>] of an unsigned value. *)
Definition to_int (z : Z) : Z :=
  let m := z mod 2 ^ 32 in if m <? 2 ^ 31 then m else m - 2 ^ 32.

Definition Z_of_byte (b : byte) : Z := Z.of_N (Byte.to_N b).

Definition byte_of_Z (z : Z) : byte :=
  match Byte.of_N (Z.to_N (z mod 256)) with
  | Some b => b
  | None => x00
  end.

(** A 32-bit field as it lies in the buffer (little-endian host). *)
Definition le32 (z : Z) : list byte :=
  [ byte_of_Z z; byte_of_Z (z / 2 ^ 8);
    byte_of_Z (z / 2 ^ 16); byte_of_Z (z / 2 ^ 24) ].

(** The 32-bit field at byte offset [off] of a buffer. *)
Definition rd32 (off : nat) (bs : list byte) : Z :=
  Z_of_byte (nth off bs x00)
  + 2 ^ 8 * Z_of_byte (nth (off + 1) bs x00)
  + 2 ^ 16 * Z_of_byte (nth (off + 2) bs x00)
  + 2 ^ 24 * Z_of_byte (nth (off + 3) bs x00).

Definition blen (bs : list byte) : Z := Z.of_nat (length bs).

(** Modelled from the spec: the protocol constants of
    file_sync_service.h, which is not among the sources.  The message
    identifiers are the four ASCII letters of their names packed by
    MKID; MAX_CHUNK is 64 KiB. *)
Definition MKID (a b c d : byte) : Z :=
  Z.lor (Z.lor (Z.lor (Z_of_byte a) (Z.shiftl (Z_of_byte b) 8))
               (Z.shiftl (Z_of_byte c) 16))
        (Z.shiftl (Z_of_byte d) 24).

Definition ID_STAT : Z := Eval cbv in MKID "S" "T" "A" "T".
Definition ID_LIST : Z := Eval cbv in MKID "L" "I" "S" "T".
Definition ID_SEND : Z := Eval cbv in MKID "S" "E" "N" "D".
Definition ID_RECV : Z := Eval cbv in MKID "R" "E" "C" "V".
Definition ID_DENT : Z := Eval cbv in MKID "D" "E" "N" "T".
Definition ID_DONE : Z := Eval cbv in MKID "D" "O" "N" "E".
Definition ID_DATA : Z := Eval cbv in MKID "D" "A" "T" "A".
Definition ID_OKAY : Z := Eval cbv in MKID "O" "K" "A" "Y".
Definition ID_FAIL : Z := Eval cbv in MKID "F" "A" "I" "L".
Definition ID_QUIT : Z := Eval cbv in MKID "Q" "U" "I" "T".

Definition SYNC_DATA_MAX : Z := 64 * 1024.

(** Modelled from the spec: the sizes of the members of the [syncmsg]
    union of file_sync_service.h.  A request, a data header and a
    status header are [(id, length)]; a stat reply is
    [(id, mode, size, time)]; a dent is
    [(id, mode, size, time, namelen)]. *)
Definition sizeof_SyncRequest : Z := 8.
Definition sizeof_data : Z := 8.
Definition sizeof_status : Z := 8.
Definition sizeof_stat : Z := 16.
Definition sizeof_dent : Z := 20.

(** <sys/stat.h> file type tests (octal 0170000, 0100000, 0120000,
    0040000). *)
Definition S_IFMT : Z := 0xF000.
Definition S_IFREG : Z := 0x8000.
Definition S_IFLNK : Z := 0xA000.
Definition S_IFDIR : Z := 0x4000.
Definition S_ISREG (m : Z) : bool := Z.land m S_IFMT =? S_IFREG.
Definition S_ISLNK (m : Z) : bool := Z.land m S_IFMT =? S_IFLNK.
Definition S_ISDIR (m : Z) : bool := Z.land m S_IFMT =? S_IFDIR.

Definition PATH_MAX : Z := 4096.

(** The C string held by a buffer: the bytes before the first NUL. *)
Fixpoint c_str (bs : list byte) : list byte :=
  match bs with
  | [] => []
  | b :: r => if Byte.eqb b x00 then [] else b :: c_str r
  end.

(** [%d] of an [int]. *)
Definition fmt_d (z : Z) : string := NilZero.string_of_int (Z.to_int z).

End Wire.
Export Wire.

(** ** The world: connection, transport, local file system, trace *)

Module Sys.

(** An argument of a printf-style call. [AErrno] stands for
    [strerror(errno)] or the error text of adb_connect,
    [ATransferRate] for the text of TransferRate(). *)
Inductive arg :=
| AStr (s : string)
| ABytes (bs : list byte)
| AInt (z : Z)
| AErrno
| ATransferRate.

Inductive event :=
| EvWrite (buf : list byte) (ok : bool)
    (** WriteFdExactly(sc.fd, buf, len) and its result *)
| EvRead (len : Z) (got : option (list byte))
    (** ReadFdExactly(sc.fd, ., len) and what it delivered *)
| EvShutdown                      (** ReadOrderlyShutdown(sc.fd) *)
| EvCloseConn                     (** adb_close(sc.fd) *)
| EvPrint (s : string)            (** LinePrinter, ELIDE *)
| EvPrintf (fmt : string) (args : list arg)
| EvError (fmt : string) (args : list arg)   (** LinePrinter, FULL *)
| EvStderr (fmt : string) (args : list arg)
| EvUnlink (p : string)
| EvMkdirs (p : string)
| EvCreat (p : string) (r : Z)
| EvOpen (p : string) (r : Z)
| EvClose (lfd : Z)
| EvFileRead (lfd : Z) (count : Z) (ret : Z)
| EvFileWrite (lfd : Z) (buf : list byte) (ok : bool).

(** A local file system object.  [n_size] is what stat reports as
    st_size (it need not be the number of bytes a read delivers: a
    procfs file reports 0); [n_data] is the content of a regular file
    or the text of a symbolic link; [n_noopen] makes adb_open fail;
    [n_rdlimit = Some k] makes every read at an offset of [k] or more
    fail. *)
Record node := {
  n_mode : Z;
  n_size : Z;
  n_data : list byte;
  n_noopen : bool;
  n_rdlimit : option Z
}.

Record world := {
  (** class SyncConnection *)
  fd : Z;
  total_bytes : Z;
  max : Z;
  (** the peer: the bytes it will still deliver before it closes, and
      the number of bytes it will still accept *)
  inp : list byte;
  wbudget : Z;
  (** the local file system: objects by path, open descriptors with
      their path and offset, paths adb_creat refuses, free space, and
      the file mode creation mask of the process *)
  files : gmap string node;
  lfds : gmap Z (string * Z);
  next_fd : Z;
  nocreat : gset string;
  disk_free : Z;
  umask : Z;
  trace : list event
}.

Definition set_conn (f t m : Z) (w : world) : world :=
  {| fd := f; total_bytes := t; max := m;
     inp := inp w; wbudget := wbudget w;
     files := files w; lfds := lfds w; next_fd := next_fd w;
     nocreat := nocreat w; disk_free := disk_free w;
     umask := umask w; trace := trace w |}.

Definition set_total_bytes (t : Z) (w : world) : world :=
  set_conn (fd w) t (max w) w.

Definition set_net (i : list byte) (b : Z) (w : world) : world :=
  {| fd := fd w; total_bytes := total_bytes w; max := max w;
     inp := i; wbudget := b;
     files := files w; lfds := lfds w; next_fd := next_fd w;
     nocreat := nocreat w; disk_free := disk_free w;
     umask := umask w; trace := trace w |}.

Definition set_fs (fs : gmap string node) (ds : gmap Z (string * Z))
    (nx free : Z) (w : world) : world :=
  {| fd := fd w; total_bytes := total_bytes w; max := max w;
     inp := inp w; wbudget := wbudget w;
     files := fs; lfds := ds; next_fd := nx;
     nocreat := nocreat w; disk_free := free;
     umask := umask w; trace := trace w |}.

Definition log (e : event) (w : world) : world :=
  {| fd := fd w; total_bytes := total_bytes w; max := max w;
     inp := inp w; wbudget := wbudget w;
     files := files w; lfds := lfds w; next_fd := next_fd w;
     nocreat := nocreat w; disk_free := disk_free w;
     umask := umask w; trace := trace w ++ [e] |}.

(** A computation returns a value and the next world, or ends in
    undefined behaviour. *)
Inductive stop := DivByZero | OutOfFuel.

Inductive outcome (A : Type) :=
| Ret (a : A) (w : world)
| Fault (why : stop) (w : world).
Arguments Ret {A} a w.
Arguments Fault {A} why w.

Definition M (A : Type) : Type := world -> outcome A.

Definition ret {A} (a : A) : M A := fun w => Ret a w.

Definition bind {A B} (c : M A) (k : A -> M B) : M B :=
  fun w => match c w with
           | Ret a w' => k a w'
           | Fault why w' => Fault why w'
           end.

Definition fault {A} (why : stop) : M A := fun w => Fault why w.

Definition emit (e : event) : M unit := fun w => Ret tt (log e w).

Definition get {A} (f : world -> A) : M A := fun w => Ret (f w) w.

End Sys.
Export Sys.

Declare Scope sync_scope.
Delimit Scope sync_scope with sync.
Notation "'do' x <- c ; k" := (bind c (fun x => k))
(at level 10, x name, c at level 100, k at level 200) : sync_scope.
Notation "'run' c ; k" := (bind c (fun _ => k))
(at level 10, c at level 100, k at level 200) : sync_scope.
Local Open Scope sync_scope.

(** ** System calls and adb_io *)

Module Io.

(** ReadFdExactly(sc.fd, buf, len): all [len] bytes, or failure when
    the peer closes first (what had arrived is consumed). *)
Definition ReadFdExactly (len : Z) : M (option (list byte)) := fun w =>
  if blen (inp w) <? len then
    Ret None (log (EvRead len None) (set_net [] (wbudget w) w))
  else
    let got := firstn (Z.to_nat len) (inp w) in
    Ret (Some got)
        (log (EvRead len (Some got))
             (set_net (skipn (Z.to_nat len) (inp w)) (wbudget w) w)).

(** ReadFdExactly(sc.fd, buf, len) with [len] positive and a buffer
    that has no room at all: the first read is refused (EFAULT) and
    nothing is taken from the stream. *)
Definition ReadFdExactly_no_room (len : Z) : M (option (list byte)) :=
  fun w => Ret None (log (EvRead len None) w).

(** WriteFdExactly(sc.fd, buf, len): the whole buffer, or failure when
    the peer stops accepting bytes. *)
Definition WriteFdExactly (buf : list byte) : M bool := fun w =>
  if blen buf <=? wbudget w then
    Ret true (log (EvWrite buf true)
                  (set_net (inp w) (wbudget w - blen buf) w))
  else
    Ret false (log (EvWrite buf false) (set_net (inp w) 0 w)).

(** Modelled from the spec: ReadOrderlyShutdown of adb_io, which is not
    among the sources; it reads the peer's remaining bytes to EOF. *)
Definition ReadOrderlyShutdown : M unit := fun w =>
  Ret tt (log EvShutdown (set_net [] (wbudget w) w)).

(** adb_close(sc.fd) *)
Definition adb_close_conn : M unit := emit EvCloseConn.

(** LinePrinter *)
Definition Print (s : string) : M unit := emit (EvPrint s).
Definition Printf (fmt : string) (args : list arg) : M unit :=
  emit (EvPrintf fmt args).
Definition Error (fmt : string) (args : list arg) : M unit :=
  emit (EvError fmt args).
Definition fprintf_stderr (fmt : string) (args : list arg) : M unit :=
  emit (EvStderr fmt args).

(** stat(path, &st): st_mode and st_size, or failure. *)
Definition stat (p : string) : M (option (Z * Z)) := fun w =>
  Ret (match files w !! p with
       | Some nd => Some (n_mode nd, n_size nd)
       | None => None
       end) w.

(** readlink(path, buf, bufsiz): the link text, cut at [bufsiz]. *)
Definition readlink (p : string) (bufsiz : Z) : M (option (list byte)) :=
  fun w =>
    Ret (match files w !! p with
         | Some nd =>
             if S_ISLNK (n_mode nd)
             then Some (firstn (Z.to_nat bufsiz) (n_data nd))
             else None
         | None => None
         end) w.

Definition rd_fails (nd : node) (off : Z) : bool :=
  match n_rdlimit nd with
  | Some k => k <=? off
  | None => false
  end.

(** android::base::ReadFileToString: the whole content, or failure
    when the file cannot be opened or a read fails before the end. *)
Definition ReadFileToString (p : string) : M (option (list byte)) :=
  fun w =>
    Ret (match files w !! p with
         | Some nd =>
             if n_noopen nd || rd_fails nd (blen (n_data nd))
             then None else Some (n_data nd)
         | None => None
         end) w.

(** adb_open(path, O_RDONLY) *)
Definition adb_open (p : string) : M Z := fun w =>
  match files w !! p with
  | Some nd =>
      if n_noopen nd then Ret (-1) (log (EvOpen p (-1)) w)
      else
        let r := next_fd w in
        Ret r (log (EvOpen p r)
                   (set_fs (files w) (<[r := (p, 0)]> (lfds w))
                           (r + 1) (disk_free w) w))
  | None => Ret (-1) (log (EvOpen p (-1)) w)
  end.

(** adb_read(lfd, buf, count): the bytes read (their number is the
    return value), or [None] for -1. *)
Definition adb_read (lfd : Z) (count : Z) : M (option (list byte)) :=
  fun w =>
    match lfds w !! lfd with
    | Some (p, off) =>
        match files w !! p with
        | Some nd =>
            if rd_fails nd off then
              Ret None (log (EvFileRead lfd count (-1)) w)
            else
              let got := firstn (Z.to_nat count)
                                (skipn (Z.to_nat off) (n_data nd)) in
              Ret (Some got)
                  (log (EvFileRead lfd count (blen got))
                       (set_fs (files w)
                               (<[lfd := (p, off + blen got)]> (lfds w))
                               (next_fd w) (disk_free w) w))
        | None => Ret None (log (EvFileRead lfd count (-1)) w)
        end
    | None => Ret None (log (EvFileRead lfd count (-1)) w)
    end.

(** adb_close(lfd) *)
Definition adb_close (lfd : Z) : M unit := fun w =>
  Ret tt (log (EvClose lfd)
              (set_fs (files w) (delete lfd (lfds w))
                      (next_fd w) (disk_free w) w)).

(** adb_unlink(path) *)
Definition adb_unlink (p : string) : M unit := fun w =>
  Ret tt (log (EvUnlink p)
              (set_fs (delete p (files w)) (lfds w)
                      (next_fd w) (disk_free w) w)).

(** mkdirs(path): creates the missing parent directories; directories
    are not objects of [files]. *)
Definition mkdirs (p : string) : M unit := emit (EvMkdirs p).

Definition empty_file (mode : Z) : node :=
  {| n_mode := Z.lor S_IFREG mode; n_size := 0; n_data := [];
     n_noopen := false; n_rdlimit := None |}.

(** adb_creat(path, mode): create or truncate, open for writing; the
    permission bits of the new file are [mode & ~umask]. *)
Definition adb_creat (p : string) (mode : Z) : M Z := fun w =>
  if decide (p ∈ nocreat w) then Ret (-1) (log (EvCreat p (-1)) w)
  else
    let r := next_fd w in
    Ret r (log (EvCreat p r)
               (set_fs (<[p := empty_file (Z.land mode (Z.lnot (umask w)))]>
                          (files w))
                       (<[r := (p, 0)]> (lfds w))
                       (r + 1) (disk_free w) w)).

Definition append_data (bs : list byte) (nd : node) : node :=
  {| n_mode := n_mode nd;
     n_size := blen (n_data nd ++ bs);
     n_data := n_data nd ++ bs;
     n_noopen := n_noopen nd; n_rdlimit := n_rdlimit nd |}.

(** WriteFdExactly(lfd, buf, len) on a local descriptor: the whole
    buffer, or failure when the disk fills up (what fitted stays in
    the file) or the descriptor is not open. *)
Definition WriteFdExactly_file (lfd : Z) (buf : list byte) : M bool :=
  fun w =>
    match lfds w !! lfd with
    | Some (p, off) =>
        if blen buf <=? disk_free w then
          Ret true
              (log (EvFileWrite lfd buf true)
                   (set_fs (alter (append_data buf) p (files w))
                           (<[lfd := (p, off + blen buf)]> (lfds w))
                           (next_fd w) (disk_free w - blen buf) w))
        else
          let part := firstn (Z.to_nat (disk_free w)) buf in
          Ret false
              (log (EvFileWrite lfd buf false)
                   (set_fs (alter (append_data part) p (files w))
                           (<[lfd := (p, off + blen part)]> (lfds w))
                           (next_fd w) 0 w))
    | None => Ret false (log (EvFileWrite lfd buf false) w)
    end.

End Io.
Export Io.

(** ** file_sync_client.cpp *)

Module Sync.

Definition strlen (s : string) : Z := Z.of_nat (String.length s).

(** SyncConnection::SyncConnection(); [connected] is what adb_connect
    returned. *)
Definition SyncConnection_ctor (connected : Z) : M unit := fun w =>
  let w1 := set_conn connected 0 SYNC_DATA_MAX w in
  if connected <? 0
  then Error "connect failed: %s" [AErrno] w1
  else Ret tt w1.

Definition IsValid : M bool := get (fun w => 0 <=? fd w).

Definition SendRequest (id : Z) (path_and_mode : string) : M bool :=
  let path_length := strlen path_and_mode in
  if 1024 <? path_length then
    run Error "SendRequest failed: path too long: %zu" [AInt path_length];
    ret false
  else
    WriteFdExactly (le32 id ++ le32 path_length
                      ++ list_byte_of_string path_and_mode).

Definition SendQuit : M bool := SendRequest ID_QUIT EmptyString.

(** SyncConnection::~SyncConnection() *)
Definition SyncConnection_dtor : M unit :=
  do valid <- IsValid;
  if negb valid then ret tt
  else
    do sent <- SendQuit;
    run (if sent then ReadOrderlyShutdown else ret tt);
    adb_close_conn.

(** total_bytes += n *)
Definition add_total_bytes (n : Z) : M unit := fun w =>
  Ret tt (set_total_bytes (u64 (total_bytes w + n)) w).

Definition SendSmallFile (path_and_mode rpath : string)
    (data : list byte) (mtime : Z) : M bool :=
  let data_length := blen data in
  run Print rpath;
  let path_length := strlen path_and_mode in
  if 1024 <? path_length then
    run Error "SendSmallFile failed: path too long: %zu" [AInt path_length];
    ret false
  else
    let buf :=
      le32 ID_SEND ++ le32 path_length ++ list_byte_of_string path_and_mode
      ++ le32 ID_DATA ++ le32 data_length ++ data
      ++ le32 ID_DONE ++ le32 mtime in
    do ok <- WriteFdExactly buf;
    if negb ok then ret false
    else
      run add_total_bytes data_length;
      ret true.

(** [msglen] is msg.status.msglen of the message passed in.  The
    buffer has [msglen + 1] bytes, an unsigned sum: at
    [msglen = 0xFFFFFFFF] it wraps to 0, the vector is empty and the
    read of [msglen] bytes finds no room behind [&buf[0]].  The
    allocation of the vector is taken to succeed. *)
Definition ReportCopyFailure (from to : string) (msglen : Z) : M bool :=
  let buf_size := u32 (msglen + 1) in
  do r <- (if buf_size =? 0 then ReadFdExactly_no_room msglen
           else ReadFdExactly msglen);
  match r with
  | None =>
      run Error "failed to copy '%s' to '%s'; failed to read reason (!): %s"
                [AStr from; AStr to; AErrno];
      ret false
  | Some buf =>
      run Error "failed to copy '%s' to '%s': %s"
                [AStr from; AStr to; ABytes (c_str buf)];
      ret false
  end.

Definition CopyDone (from to : string) : M bool :=
  do r <- ReadFdExactly sizeof_status;
  match r with
  | None =>
      run Error "failed to copy '%s' to '%s': no ID_DONE: %s"
                [AStr from; AStr to; AErrno];
      ret false
  | Some msg =>
      if rd32 0 msg =? ID_OKAY then ret true
      else if negb (rd32 0 msg =? ID_FAIL) then
        run Error "failed to copy '%s' to '%s': unknown reason %d"
                  [AStr from; AStr to; AInt (to_int (rd32 0 msg))];
        ret false
      else ReportCopyFailure from to (rd32 4 msg)
  end.

(** The loop of sync_ls.  [func] is the callback, acting on the state
    [s] it captures; the name it receives is the C string in [buf]. *)
Fixpoint sync_ls_loop {S : Type} (fuel : nat)
    (func : Z -> Z -> Z -> list byte -> S -> S) (s : S) : M (bool * S) :=
  match fuel with
  | O => fault OutOfFuel
  | Datatypes.S fuel' =>
      do r <- ReadFdExactly sizeof_dent;
      match r with
      | None => ret (false, s)
      | Some msg =>
          if rd32 0 msg =? ID_DONE then ret (true, s)
          else if negb (rd32 0 msg =? ID_DENT) then ret (false, s)
          else
            let len := rd32 16 msg in
            if 256 <? len then ret (false, s)
            else
              do r2 <- ReadFdExactly len;
              match r2 with
              | None => ret (false, s)
              | Some buf =>
                  sync_ls_loop fuel' func
                    (func (rd32 4 msg) (rd32 8 msg) (rd32 12 msg)
                          (c_str buf) s)
              end
      end
  end.

(** Every iteration consumes a dent header, so the loop runs at most
    once per byte the peer still delivers. *)
Definition sync_ls {S : Type} (path : string)
    (func : Z -> Z -> Z -> list byte -> S -> S) (s : S) : M (bool * S) :=
  do ok <- SendRequest ID_LIST path;
  if negb ok then ret (false, s)
  else
    do fuel <- get (fun w => Datatypes.S (length (inp w)));
    sync_ls_loop fuel func s.

(** The result is [(timestamp, mode, size)]. *)
Definition sync_finish_stat : M (option (Z * Z * Z)) :=
  do r <- ReadFdExactly sizeof_stat;
  match r with
  | None => ret None
  | Some msg =>
      if negb (rd32 0 msg =? ID_STAT) then ret None
      else ret (Some (rd32 12 msg, rd32 4 msg, rd32 8 msg))
  end.

Definition sync_stat (path : string) : M (option (Z * Z * Z)) :=
  do ok <- SendRequest ID_STAT path;
  if negb ok then ret None else sync_finish_stat.

(** The loop of SendLargeFile; [true] stands for leaving the loop by
    [break], [false] for [return false]. *)
Fixpoint SendLargeFile_loop (fuel : nat) (lfd : Z) (lpath rpath : string)
    (total_size bytes_copied : Z) : M bool :=
  match fuel with
  | O => fault OutOfFuel
  | Datatypes.S fuel' =>
      do count <- get max;
      do r <- adb_read lfd count;
      match r with
      | None =>
          run Error "cannot read '%s': %s" [AStr lpath; AErrno];
          run adb_close lfd;
          ret false
      | Some chunk =>
          let ret_ := blen chunk in
          if ret_ <=? 0 then ret true
          else
            do ok <- WriteFdExactly (le32 ID_DATA ++ le32 ret_ ++ chunk);
            if negb ok then
              run adb_close lfd;
              ret false
            else
              run add_total_bytes ret_;
              let bytes_copied := u64 (bytes_copied + ret_) in
              if total_size =? 0 then fault DivByZero
              else
                let percentage :=
                  to_int (u64 (bytes_copied * 100) / total_size) in
                run Printf "%s: %d%%" [AStr rpath; AInt percentage];
                SendLargeFile_loop fuel' lfd lpath rpath
                                   total_size bytes_copied
      end
  end.

Definition SendLargeFile (path_and_mode lpath rpath : string)
    (mtime : Z) : M bool :=
  do ok <- SendRequest ID_SEND path_and_mode;
  if negb ok then
    run Error "failed to send ID_SEND message '%s': %s"
              [AStr path_and_mode; AErrno];
    ret false
  else
    do st <- stat lpath;
    match st with
    | None =>
        run Error "cannot stat '%s': %s" [AStr lpath; AErrno];
        ret false
    | Some (_, st_size) =>
        let total_size := u64 st_size in
        do lfd <- adb_open lpath;
        if lfd <? 0 then
          run Error "cannot open '%s': %s" [AStr lpath; AErrno];
          ret false
        else
          do fuel <- get (fun w =>
                       match files w !! lpath with
                       | Some nd => Datatypes.S (length (n_data nd))
                       | None => 1%nat
                       end);
          do finished <- SendLargeFile_loop fuel lfd lpath rpath
                                            total_size 0;
          if negb finished then ret false
          else
            run adb_close lfd;
            do ok <- WriteFdExactly (le32 ID_DONE ++ le32 mtime);
            if negb ok then
              run Error "failed to send ID_DONE message for '%s': %s"
                        [AStr rpath; AErrno];
              ret false
            else ret true
    end.

Definition sync_send (lpath rpath : string) (mtime mode : Z) : M bool :=
  let path_and_mode := (rpath ++ "," ++ fmt_d mode)%string in
  if S_ISLNK mode then
    do r <- readlink lpath (PATH_MAX - 1);
    match r with
    | None =>
        run Error "readlink '%s' failed: %s" [AStr lpath; AErrno];
        ret false
    | Some target =>
        do ok <- SendSmallFile path_and_mode rpath (target ++ [x00]) mtime;
        if negb ok then ret false else CopyDone lpath rpath
    end
  else if negb (S_ISREG mode) then
    run Error "local file '%s' has unsupported mode: 0o%o"
              [AStr lpath; AInt mode];
    ret false
  else
    do st <- stat lpath;
    match st with
    | None =>
        run Error "failed to stat local file '%s': %s" [AStr lpath; AErrno];
        ret false
    | Some (_, st_size) =>
        if st_size <? SYNC_DATA_MAX then
          do d <- ReadFileToString lpath;
          match d with
          | None =>
              run Error "failed to read all of '%s': %s"
                        [AStr lpath; AErrno];
              ret false
          | Some data =>
              do ok <- SendSmallFile path_and_mode rpath data mtime;
              if negb ok then ret false else CopyDone lpath rpath
          end
        else
          do ok <- SendLargeFile path_and_mode lpath rpath mtime;
          if negb ok then ret false else CopyDone lpath rpath
    end.

(** The loop of sync_recv, with the same convention as above. *)
Fixpoint sync_recv_loop (fuel : nat) (rpath lpath : string) (lfd : Z)
    (size bytes_copied : Z) : M bool :=
  match fuel with
  | O => fault OutOfFuel
  | Datatypes.S fuel' =>
      do r <- ReadFdExactly sizeof_data;
      match r with
      | None =>
          run adb_close lfd;
          run adb_unlink lpath;
          ret false
      | Some msg =>
          let data_size := rd32 4 msg in
          if rd32 0 msg =? ID_DONE then ret true
          else if negb (rd32 0 msg =? ID_DATA) then
            run adb_close lfd;
            run adb_unlink lpath;
            do _r <- ReportCopyFailure rpath lpath data_size;
            ret false
          else
            do limit <- get max;
            if limit <? data_size then
              run Error "msg.data.size too large: %u (max %zu)"
                        [AInt data_size; AInt limit];
              run adb_close lfd;
              run adb_unlink lpath;
              ret false
            else
              do r2 <- ReadFdExactly data_size;
              match r2 with
              | None =>
                  run adb_close lfd;
                  run adb_unlink lpath;
                  ret false
              | Some buffer =>
                  do ok <- WriteFdExactly_file lfd buffer;
                  if negb ok then
                    run Error "cannot write '%s': %s" [AStr lpath; AErrno];
                    run adb_close lfd;
                    run adb_unlink lpath;
                    ret false
                  else
                    run add_total_bytes data_size;
                    let bytes_copied := u64 (bytes_copied + data_size) in
                    if size =? 0 then fault DivByZero
                    else
                      let percentage :=
                        to_int (u64 (bytes_copied * 100) / size) in
                      run Printf "%s: %d%%" [AStr rpath; AInt percentage];
                      sync_recv_loop fuel' rpath lpath lfd
                                     size bytes_copied
              end
      end
  end.

Definition sync_recv (rpath lpath : string) : M bool :=
  run Print rpath;
  do st <- sync_stat rpath;
  match st with
  | None => ret false
  | Some (_, _, size) =>
      do ok <- SendRequest ID_RECV rpath;
      if negb ok then ret false
      else
        run adb_unlink lpath;
        run mkdirs lpath;
        do lfd <- adb_creat lpath 420;
        if lfd <? 0 then
          run Error "cannot create '%s': %s" [AStr lpath; AErrno];
          ret false
        else
          do fuel <- get (fun w => Datatypes.S (length (inp w)));
          do finished <- sync_recv_loop fuel rpath lpath lfd size 0;
          if negb finished then ret false
          else
            run adb_close lfd;
            ret true
  end.

(** struct copyinfo *)
Record copyinfo := {
  ci_src : string;
  ci_dst : string;
  ci_time : Z;
  ci_mode : Z;
  ci_size : Z;
  ci_flag : Z
}.

Definition set_flag (f : Z) (ci : copyinfo) : copyinfo :=
  {| ci_src := ci_src ci; ci_dst := ci_dst ci; ci_time := ci_time ci;
     ci_mode := ci_mode ci; ci_size := ci_size ci; ci_flag := f |}.

Definition mkcopyinfo (spath dpath name : string) (isdir : bool)
  : copyinfo :=
  {| ci_src := (spath ++ name ++ (if isdir then "/" else EmptyString))%string;
     ci_dst := (dpath ++ name ++ (if isdir then "/" else EmptyString))%string;
     ci_time := 0; ci_mode := 0; ci_size := 0; ci_flag := 0 |}.

(** copy_local_dir_remote, first loop of the check_timestamps block *)
Fixpoint stat_request_loop (filelist : list copyinfo) : M bool :=
  match filelist with
  | [] => ret true
  | ci :: rest =>
      do ok <- SendRequest ID_STAT (ci_dst ci);
      if negb ok then ret false else stat_request_loop rest
  end.

(** The body of the second loop, after sync_finish_stat succeeded. *)
Definition mark_skip (ci : copyinfo) (timestamp mode size : Z)
  : copyinfo :=
  if size =? ci_size ci then
    if (S_ISREG (Z.land (ci_mode ci) mode) && (timestamp =? ci_time ci))
       || (S_ISLNK (Z.land (ci_mode ci) mode) && (ci_time ci <=? timestamp))
    then set_flag 1 ci
    else ci
  else ci.

(** copy_local_dir_remote, second loop of the check_timestamps block;
    [None] stands for [return false], otherwise the list as the loop
    leaves it. *)
Fixpoint stat_reply_loop (filelist : list copyinfo)
  : M (option (list copyinfo)) :=
  match filelist with
  | [] => ret (Some [])
  | ci :: rest =>
      do r <- sync_finish_stat;
      match r with
      | None => ret None
      | Some (timestamp, mode, size) =>
          do rest' <- stat_reply_loop rest;
          ret (option_map (cons (mark_skip ci timestamp mode size)) rest')
      end
  end.

Definition check_timestamps_block (filelist : list copyinfo)
  : M (option (list copyinfo)) :=
  do ok <- stat_request_loop filelist;
  if negb ok then ret None else stat_reply_loop filelist.

(** copy_local_dir_remote, the transfer loop; the result is
    [(pushed, skipped)]. *)
Fixpoint push_loop (list_only : bool) (filelist : list copyinfo)
    (pushed skipped : Z) : M (option (Z * Z)) :=
  match filelist with
  | [] => ret (Some (pushed, skipped))
  | ci :: rest =>
      if ci_flag ci =? 0 then
        if list_only then
          run fprintf_stderr "would push: %s -> %s\n"
                             [AStr (ci_src ci); AStr (ci_dst ci)];
          push_loop list_only rest (pushed + 1) skipped
        else
          do ok <- sync_send (ci_src ci) (ci_dst ci) (ci_time ci) (ci_mode ci);
          if negb ok then ret None
          else push_loop list_only rest (pushed + 1) skipped
      else push_loop list_only rest pushed (skipped + 1)
  end.

Definition plural (n : Z) : string := if n =? 1 then EmptyString else "s".

(** copy_local_dir_remote from the point where local_build_list has
    filled [filelist] (with [rpath] already ending in a slash). *)
Definition copy_local_dir_remote (filelist : list copyinfo)
    (rpath : string) (check_timestamps list_only : bool) : M bool :=
  do checked <- (if check_timestamps then check_timestamps_block filelist
                 else ret (Some filelist));
  match checked with
  | None => ret false
  | Some filelist =>
      do counts <- push_loop list_only filelist 0 0;
      match counts with
      | None => ret false
      | Some (pushed, skipped) =>
          run Printf "%s: %d file%s pushed. %d file%s skipped.%s\n"
                     [AStr rpath; AInt pushed; AStr (plural pushed);
                      AInt skipped; AStr (plural skipped); ATransferRate];
          ret true
      end
  end.

End Sync.
Export Sync.

(** ** Vocabulary of the statements *)

Module Spec.

(** The buffers handed to WriteFdExactly on the connection, in order. *)
Fixpoint stream_writes (t : list event) : list (list byte) :=
  match t with
  | [] => []
  | EvWrite buf _ :: r => buf :: stream_writes r
  | _ :: r => stream_writes r
  end.

(** The lengths asked of ReadFdExactly on the connection, in order. *)
Fixpoint stream_reads (t : list event) : list Z :=
  match t with
  | [] => []
  | EvRead len _ :: r => len :: stream_reads r
  | _ :: r => stream_reads r
  end.

Definition is_read (e : event) : bool :=
  match e with EvRead _ _ => true | _ => false end.

(** A request as SendRequest lays it out. *)
Definition request (id : Z) (path : string) : list byte :=
  le32 id ++ le32 (strlen path) ++ list_byte_of_string path.

(** A STAT reply as the peer lays it out. *)
Definition stat_reply (mode size time : Z) : list byte :=
  le32 ID_STAT ++ le32 mode ++ le32 size ++ le32 time.

(** A DATA header and a DATA frame. *)
Definition data_header (size : Z) : list byte := le32 ID_DATA ++ le32 size.
Definition data_frame (payload : list byte) : list byte :=
  le32 ID_DATA ++ le32 (blen payload) ++ payload.

(** A DONE frame carrying the mtime. *)
Definition done_frame (mtime : Z) : list byte := le32 ID_DONE ++ le32 mtime.

(** The burst of SendSmallFile: request, one DATA frame, DONE. *)
Definition burst (path_and_mode : string) (data : list byte) (mtime : Z)
  : list byte :=
  le32 ID_SEND ++ le32 (strlen path_and_mode)
    ++ list_byte_of_string path_and_mode
    ++ le32 ID_DATA ++ le32 (blen data) ++ data
    ++ le32 ID_DONE ++ le32 mtime.

(** A connected session on an empty file system whose peer accepts
    [budget] bytes and delivers [input]; the creation mask is 022. *)
Definition session (input : list byte) (budget : Z) : world :=
  {| fd := 3; total_bytes := 0; max := SYNC_DATA_MAX;
     inp := input; wbudget := budget;
     files := ∅; lfds := ∅; next_fd := 4; nocreat := ∅;
     disk_free := 2 ^ 40; umask := 18; trace := [] |}.

Definition with_file (p : string) (nd : node) (w : world) : world :=
  set_fs (<[p := nd]> (files w)) (lfds w) (next_fd w) (disk_free w) w.

Definition regular (data : list byte) : node :=
  {| n_mode := Z.lor S_IFREG 420; n_size := blen data; n_data := data;
     n_noopen := false; n_rdlimit := None |}.

(** The world a computation ends in. *)
Definition world_of {A} (o : outcome A) : world :=
  match o with Ret _ w => w | Fault _ w => w end.

Definition long_path : string :=
  string_of_list_ascii (repeat "a"%char 1025).

(** A local regular file and a remote directory that agree on size
    and time. *)
Definition file_4096 : copyinfo :=
  {| ci_src := "l/f"; ci_dst := "r/f"; ci_time := 5;
     ci_mode := Z.lor S_IFREG 420; ci_size := 4096; ci_flag := 0 |}.
Definition remote_dir_mode : Z := Z.lor S_IFDIR 493.

(** A local symbolic link. *)
Definition link_9 : copyinfo :=
  {| ci_src := "l/s"; ci_dst := "r/s"; ci_time := 5;
     ci_mode := Z.lor S_IFLNK 511; ci_size := 9; ci_flag := 0 |}.

(** A FAIL reply with its message. *)
Definition fail_reply (msg : string) : list byte :=
  le32 ID_FAIL ++ le32 (strlen msg) ++ list_byte_of_string msg.

(** A session about to push the three-byte file l/a to a peer that
    will answer FAIL. *)
Definition refused_push : world :=
  with_file "l/a" (regular ["a"; "b"; "c"]%byte)
            (session (fail_reply "disk full") 4096).

(** The events of the skip-check phase. *)
Definition stat_write (ci : copyinfo) : event :=
  EvWrite (request ID_STAT (ci_dst ci)) true.

Definition stat_read (m : list byte) : event :=
  EvRead sizeof_stat (Some m).

(** The bytes the STAT requests for the destinations of a list take
    on the connection. *)
Definition stat_traffic (filelist : list copyinfo) : Z :=
  fold_right (fun ci n => 8 + strlen (ci_dst ci) + n) 0 filelist.

(** A reply of the size of a STAT reply that carries its identifier. *)
Definition is_stat_reply (m : list byte) : Prop :=
  blen m = sizeof_stat /\ rd32 0 m = ID_STAT.

(** The decision taken for an item from the STAT reply [m]. *)
Definition decided (ci : copyinfo) (m : list byte) : copyinfo :=
  mark_skip ci (rd32 12 m) (rd32 4 m) (rd32 8 m).

(** A DENT reply as it arrives: the 20-byte header and the name. *)
Definition dent : Type := list byte * list byte.

Definition valid_dent (d : dent) : Prop :=
  blen (fst d) = sizeof_dent /\ rd32 0 (fst d) = ID_DENT
  /\ rd32 16 (fst d) = blen (snd d) /\ blen (snd d) <= 256.

Definition dent_bytes (ds : list dent) : list byte :=
  concat (map (fun d => fst d ++ snd d) ds).

(** A DENT reply as the peer lays it out. *)
Definition dent_reply (mode size time : Z) (name : string) : dent :=
  (le32 ID_DENT ++ le32 mode ++ le32 size ++ le32 time
     ++ le32 (strlen name),
   list_byte_of_string name).

(** The terminating frame of a listing, of the size of a dent. *)
Definition done_reply : list byte :=
  le32 ID_DONE ++ le32 0 ++ le32 0 ++ le32 0 ++ le32 0.

(** A frame that ends a listing with an error: an identifier that is
    neither DENT nor DONE, or a DENT with a name longer than 256. *)
Definition malformed (term : list byte) : Prop :=
  (rd32 0 term <> ID_DONE /\ rd32 0 term <> ID_DENT)
  \/ (rd32 0 term = ID_DENT /\ 256 < rd32 16 term).

(** The callback run once per dent, first to last. *)
Definition deliver {S : Type} (func : Z -> Z -> Z -> list byte -> S -> S)
    (ds : list dent) (s : S) : S :=
  fold_left
    (fun s d => func (rd32 4 (fst d)) (rd32 8 (fst d)) (rd32 12 (fst d))
                     (c_str (snd d)) s)
    ds s.

(** The callback of do_sync_ls, collecting what it would print. *)
Definition collect (mode size time : Z) (name : list byte)
    (out : list (Z * Z * Z * list byte)) : list (Z * Z * Z * list byte) :=
  out ++ [(mode, size, time, name)].

(** The DATA payload bytes a buffer written to the connection
    carries: the payload of a DATA frame, or of the DATA frame inside
    a burst (what follows the SEND request, less the DATA and DONE
    headers); a bare request or a DONE frame carries none. *)
Definition payload_sent (buf : list byte) : Z :=
  if rd32 0 buf =? ID_DATA then blen buf - 8
  else if rd32 0 buf =? ID_SEND
       then Z.max 0 (blen buf - (8 + rd32 4 buf) - 16)
       else 0.

(** The DATA payload bytes moved by a run: sent to the peer by a
    successful write, or stored in the destination file by a
    successful local write. *)
Fixpoint moved (t : list event) : Z :=
  match t with
  | [] => 0
  | EvWrite buf true :: r => payload_sent buf + moved r
  | EvFileWrite _ buf true :: r => blen buf + moved r
  | _ :: r => moved r
  end.

(** Events of the local file system. *)
Definition fs_event (e : event) : bool :=
  match e with
  | EvUnlink _ | EvMkdirs _ | EvCreat _ _ | EvOpen _ _ | EvClose _
  | EvFileRead _ _ _ | EvFileWrite _ _ _ => true
  | _ => false
  end.

(** A successful adb_creat. *)
Definition created (e : event) : bool :=
  match e with
  | EvCreat _ r => 0 <=? r
  | _ => false
  end.

(** From [w] to [w'] the descriptor [lfd] was closed and then the
    path [lpath] unlinked, nothing touched the file system afterwards,
    and in [w'] the path is absent and the descriptor not open. *)
Definition cleaned_up (lpath : string) (lfd : Z) (w w' : world) : Prop :=
  files w' !! lpath = None
  /\ lfds w' !! lfd = None
  /\ exists t1 t2,
       trace w' = trace w ++ t1 ++ [EvClose lfd; EvUnlink lpath] ++ t2
       /\ Forall (fun e => fs_event e = false) t2.

(** The five ways the bytes in flight make the next turn of the
    receive loop of sync_recv fail, for the chunk limit [limit] and
    [free] bytes left on the local disk: the peer closes inside a
    frame header; the frame is neither DATA nor DONE; the DATA frame
    announces more than the limit; the peer closes inside the payload;
    the payload does not fit on the disk. *)
Inductive fails_next (limit free : Z) : list byte -> Prop :=
| short_header tail :
    blen tail < sizeof_data -> fails_next limit free tail
| unknown_frame hdr rest :
    blen hdr = sizeof_data ->
    rd32 0 hdr <> ID_DONE -> rd32 0 hdr <> ID_DATA ->
    fails_next limit free (hdr ++ rest)
| oversized_frame n rest :
    limit < n -> 0 <= n < 2 ^ 32 ->
    fails_next limit free (data_header n ++ rest)
| short_payload n rest :
    n <= limit -> 0 <= n < 2 ^ 32 -> blen rest < n ->
    fails_next limit free (data_header n ++ rest)
| disk_full payload rest :
    blen payload <= limit -> blen payload < 2 ^ 32 ->
    free < blen payload ->
    fails_next limit free (data_frame payload ++ rest).

(** Running [c] from [w] adds to total_bytes the payload bytes it
    moved, in the 64 bits of the counter: as long as the sum fits
    them, the counter has grown by exactly the bytes moved and has
    not decreased. *)
Definition accounts_at {A} (c : M A) (w : world) : Prop :=
  0 <= total_bytes w < 2 ^ 64 ->
  exists t,
    trace (world_of (c w)) = trace w ++ t
    /\ 0 <= moved t
    /\ total_bytes (world_of (c w)) = u64 (total_bytes w + moved t)
    /\ (total_bytes w + moved t < 2 ^ 64 ->
        total_bytes (world_of (c w)) = total_bytes w + moved t
        /\ total_bytes w <= total_bytes (world_of (c w))).

Definition accounts {A} (c : M A) : Prop := forall w, accounts_at c w.

(** The world in which the receive loop of sync_recv starts, when the
    two requests went out, the peer answered STAT with [reply] and has
    [body] in flight after it, and the destination was created. *)
Definition recv_started (rpath lpath : string) (reply body : list byte)
    (w : world) : world :=
  let b1 := wbudget w - (8 + strlen rpath) in
  let w1 := log (EvWrite (request ID_STAT rpath) true)
                (set_net (inp w) b1 (log (EvPrint rpath) w)) in
  let w2 := log (stat_read reply) (set_net body b1 w1) in
  let w3 := log (EvWrite (request ID_RECV rpath) true)
                (set_net body (b1 - (8 + strlen rpath)) w2) in
  let w4 := log (EvMkdirs lpath)
                (log (EvUnlink lpath)
                     (set_fs (delete lpath (files w)) (lfds w)
                             (next_fd w) (disk_free w) w3)) in
  log (EvCreat lpath (next_fd w))
      (set_fs (<[lpath := empty_file (Z.land 420 (Z.lnot (umask w)))]>
                 (delete lpath (files w)))
              (<[next_fd w := (lpath, 0)]> (lfds w))
              (next_fd w + 1) (disk_free w) w4).

(** Running [c] from [w] leaves total_bytes as it was. *)
Definition keeps_total {A} (c : M A) (w : world) : Prop :=
  total_bytes (world_of (c w)) = total_bytes w.

(** A pull of a remote file whose STAT reply says size 0 although a
    DATA frame follows (as for a file of procfs). *)
Definition zero_size_pull : world :=
  session (stat_reply (Z.lor S_IFREG 292) 0 7
             ++ data_frame ["L"; "i"; "n"; "u"; "x"]%byte
             ++ done_frame 0)
          4096.

(** A pull that the peer completes, and one it fails after the first
    DATA frame. *)
Definition completed_pull : world :=
  session (stat_reply (Z.lor S_IFREG 420) 5 7
             ++ data_frame ["L"; "i"; "n"; "u"; "x"]%byte
             ++ done_frame 0)
          4096.

Definition failed_pull : world :=
  session (stat_reply (Z.lor S_IFREG 420) 100 7
             ++ data_frame ["a"; "b"; "c"]%byte
             ++ fail_reply "disk full")
          4096.

(** A pull cut off by the peer after the first DATA frame. *)
Definition dropped_pull : world :=
  session (stat_reply (Z.lor S_IFREG 420) 100 7
             ++ data_frame ["a"; "b"; "c"]%byte)
          4096.

(** A pull whose first frame is larger than the chunk limit. *)
Definition oversized_pull : world :=
  session (stat_reply (Z.lor S_IFREG 420) 100 7
             ++ data_header (SYNC_DATA_MAX + 1) ++ ["a"; "b"]%byte)
          4096.

(** Sessions about to push a file of SYNC_DATA_MAX - 1 bytes and a
    file of SYNC_DATA_MAX bytes to a peer that answers OKAY. *)
Definition okay_reply : list byte := le32 ID_OKAY ++ le32 0.




(** A session whose chunk limit was lowered to 4, about to stream
    the ten-byte file l/t. *)
Definition ten_bytes : world :=
  set_conn 3 0 4
    (with_file "l/t" (regular (list_byte_of_string "0123456789"))
               (session [] 4096)).

(** The listing of three entries followed by DONE. *)
Definition three_dents : list dent :=
  [ dent_reply (Z.lor S_IFDIR 493) 0 100 "a";
    dent_reply (Z.lor S_IFREG 420) 7 200 "b.txt";
    dent_reply (Z.lor S_IFLNK 511) 9 300 "l" ].

Definition listing : world :=
  session (dent_bytes three_dents ++ done_reply) 64.

(** Two local files of which the peer has one unchanged. *)
Definition file_a : copyinfo :=
  {| ci_src := "l/a"; ci_dst := "r/a"; ci_time := 5;
     ci_mode := Z.lor S_IFREG 420; ci_size := 10; ci_flag := 0 |}.
Definition file_b : copyinfo :=
  {| ci_src := "l/b"; ci_dst := "r/b"; ci_time := 5;
     ci_mode := Z.lor S_IFREG 420; ci_size := 10; ci_flag := 0 |}.

Definition two_stats : world :=
  session (stat_reply (Z.lor S_IFREG 420) 10 5
             ++ stat_reply (Z.lor S_IFREG 420) 11 5)
          64.

End Spec.
Export Spec.
(** ** file_sync_client.cpp: directories, listings and entry points *)

Module Dirs.

(** What the host shows at a path during a walk: the answer of lstat,
    [(st_mode, st_mtime, st_size)], and, when opendir succeeds, the
    entries readdir delivers, each with what is found at
    [path ++ d_name]. *)
#[warnings="-register-all"]
Inductive lnode : Type :=
| LNode (st : option (Z * Z * Z)) (dir : option (list (string * lnode))).

Definition l_stat (t : lnode) : option (Z * Z * Z) :=
  match t with LNode st _ => st end.

Definition l_dir (t : lnode) : option (list (string * lnode)) :=
  match t with LNode _ dir => dir end.

(** Induction on what the host shows, with the hypothesis for
    everything below a directory. *)
Fixpoint lnode_below_ind (P : lnode -> Prop)
    (Hleaf : forall st, P (LNode st None))
    (Hdir : forall st entries,
        Forall (fun e => P (snd e)) entries -> P (LNode st (Some entries)))
    (t : lnode) {struct t} : P t :=
  match t with
  | LNode st None => Hleaf st
  | LNode st (Some entries) =>
      Hdir st entries
        ((fix below (es : list (string * lnode))
            : Forall (fun e => P (snd e)) es :=
            match es with
            | [] => @Lists.List.Forall_nil _ _
            | e :: es' =>
                @Lists.List.Forall_cons _ _ e es'
                  (match e as e0 return P (snd e0) with
                   | (_, child) => lnode_below_ind P Hleaf Hdir child
                   end)
                  (below es')
            end) entries)
  end.

(** [name[i]] of a C string: the terminating NUL at its length. *)
Definition char_at (name : string) (i : nat) : ascii :=
  match String.get i name with
  | Some c => c
  | None => zero
  end.

Definition IsDotOrDotDot (name : string) : bool :=
  Ascii.eqb (char_at name 0) "."
  && (Ascii.eqb (char_at name 1) zero
      || (Ascii.eqb (char_at name 1) "." && Ascii.eqb (char_at name 2) zero)).

(** ci.time = ..; ci.mode = ..; ci.size = ..; *)
Definition set_stat (time mode size : Z) (ci : copyinfo) : copyinfo :=
  {| ci_src := ci_src ci; ci_dst := ci_dst ci; ci_time := time;
     ci_mode := mode; ci_size := size; ci_flag := ci_flag ci |}.

(** local_build_list, the body of the readdir loop for the entry
    [name], acting on [(dirlist, filelist)]. *)
Definition local_entry (lpath rpath name : string) (t : lnode)
    (s : list copyinfo * list copyinfo)
  : M (list copyinfo * list copyinfo) :=
  if IsDotOrDotDot name then ret s
  else if PATH_MAX <? strlen lpath + strlen name + 1 then
    run Error "skipping long path '%s%s'" [AStr lpath; AStr name];
    ret s
  else
    match l_stat t with
    | Some (st_mode, st_mtime, st_size) =>
        if S_ISDIR st_mode then
          ret (fst s ++ [mkcopyinfo lpath rpath name true], snd s)
        else if negb (S_ISREG st_mode) && negb (S_ISLNK st_mode) then
          run Error "skipping special file '%s'" [AStr lpath];
          ret s
        else
          ret (fst s,
               snd s ++ [set_stat (u32 st_mtime) (u32 st_mode) (u64 st_size)
                                  (mkcopyinfo lpath rpath name false)])
    | None =>
        run Error "cannot lstat '%s': %s"
                  [AStr (lpath ++ name)%string; AErrno];
        ret s
    end.

(** local_build_list, the readdir loop *)
Fixpoint readdir_loop (lpath rpath : string)
    (entries : list (string * lnode)) (s : list copyinfo * list copyinfo)
  : M (list copyinfo * list copyinfo) :=
  match entries with
  | [] => ret s
  | (name, t) :: rest =>
      do s' <- local_entry lpath rpath name t s;
      readdir_loop lpath rpath rest s'
  end.

(** The entries the readdir loop puts on dirlist. *)
Definition is_subdir (lpath name : string) (t : lnode) : bool :=
  negb (IsDotOrDotDot name)
  && negb (PATH_MAX <? strlen lpath + strlen name + 1)
  && match l_stat t with
     | Some (st_mode, _, _) => S_ISDIR st_mode
     | None => false
     end.

(** local_build_list, the loop over dirlist; [recurse] is
    local_build_list itself.  The loop walks the entries again and
    visits those that were put on dirlist, with the item that was
    made for them; the results of the calls are dropped as in the
    source. *)
Definition dirlist_loop
    (recurse : lnode -> list copyinfo -> string -> string
               -> M (Z * list copyinfo))
    (lpath rpath : string)
  : list (string * lnode) -> list copyinfo -> M (list copyinfo) :=
  fix go entries filelist :=
    match entries with
    | [] => ret filelist
    | (name, t) :: rest =>
        if is_subdir lpath name t then
          let ci := mkcopyinfo lpath rpath name true in
          do r <- recurse t filelist (ci_src ci) (ci_dst ci);
          go rest (snd r)
        else go rest filelist
    end.

(** The result is the return value and the list behind [filelist]. *)
Fixpoint local_build_list (t : lnode) (filelist : list copyinfo)
    (lpath rpath : string) {struct t} : M (Z * list copyinfo) :=
  match t with
  | LNode _ None =>
      run Error "cannot open '%s': %s" [AStr lpath; AErrno];
      ret (-1, filelist)
  | LNode _ (Some entries) =>
      do s <- readdir_loop lpath rpath entries ([], filelist);
      do filelist' <- dirlist_loop local_build_list lpath rpath
                                   entries (snd s);
      ret (0, filelist')
  end.

(** [path[strlen(path) - 1] != '/'] *)
Definition no_slash_at_end (path : string) : bool :=
  negb (Ascii.eqb (char_at path (String.length path - 1)) "/").

Definition with_slash (path : string) : string :=
  if no_slash_at_end path then (path ++ "/")%string else path.

(** copy_local_dir_remote as a whole; [t] is what the host shows at
    [lpath], and malloc is taken to succeed. *)
Definition copy_local_dir_remote_full (t : lnode) (lpath rpath : string)
    (check_timestamps list_only : bool) : M bool :=
  if Ascii.eqb (char_at lpath 0) zero || Ascii.eqb (char_at rpath 0) zero
  then ret false
  else
    let lpath := with_slash lpath in
    let rpath := with_slash rpath in
    do r <- local_build_list t [] lpath rpath;
    if negb (fst r =? 0) then ret false
    else copy_local_dir_remote (snd r) rpath check_timestamps list_only.

(** do_sync_sync; the connection is made by the constructor and
    dropped by the destructor when the function returns. *)
Definition do_sync_sync (connected : Z) (t : lnode) (lpath rpath : string)
    (list_only : bool) : M bool :=
  run SyncConnection_ctor connected;
  do valid <- IsValid;
  do r <- (if negb valid then ret false
           else copy_local_dir_remote_full t lpath rpath true list_only);
  run SyncConnection_dtor;
  ret r.

(** [%08x] of an [unsigned]. *)
Definition hex_digit (d : Z) : ascii :=
  nth (Z.to_nat d)
      ["0"; "1"; "2"; "3"; "4"; "5"; "6"; "7";
       "8"; "9"; "a"; "b"; "c"; "d"; "e"; "f"]%char "0"%char.

Fixpoint hex_digits (n : nat) (v : Z) : string :=
  match n with
  | O => EmptyString
  | Datatypes.S n' =>
      (hex_digits n' (v / 16) ++ String (hex_digit (v mod 16)) EmptyString)%string
  end.

Definition fmt_08x (v : Z) : string := hex_digits 8 (u32 v).

Definition newline : string := String (ascii_of_nat 10) EmptyString.

(** The callback of do_sync_ls, acting on the text of stdout. *)
Definition ls_line (mode size time : Z) (name : list byte) (out : string)
  : string :=
  (out ++ fmt_08x mode ++ " " ++ fmt_08x size ++ " " ++ fmt_08x time
       ++ " " ++ string_of_list_byte name ++ newline)%string.

(** do_sync_ls; the result is the return value and what was printed
    on stdout. *)
Definition do_sync_ls (connected : Z) (path : string) : M (bool * string) :=
  run SyncConnection_ctor connected;
  do valid <- IsValid;
  do r <- (if negb valid then ret (false, EmptyString)
           else sync_ls path ls_line EmptyString);
  run SyncConnection_dtor;
  ret r.

(** sync_ls with a callback that acts on the session as well as on
    the state it captures. *)
Fixpoint sync_ls_cb_loop {S : Type} (fuel : nat)
    (func : Z -> Z -> Z -> list byte -> S -> M S) (s : S) : M (bool * S) :=
  match fuel with
  | O => fault OutOfFuel
  | Datatypes.S fuel' =>
      do r <- ReadFdExactly sizeof_dent;
      match r with
      | None => ret (false, s)
      | Some msg =>
          if rd32 0 msg =? ID_DONE then ret (true, s)
          else if negb (rd32 0 msg =? ID_DENT) then ret (false, s)
          else
            let len := rd32 16 msg in
            if 256 <? len then ret (false, s)
            else
              do r2 <- ReadFdExactly len;
              match r2 with
              | None => ret (false, s)
              | Some buf =>
                  do s' <- func (rd32 4 msg) (rd32 8 msg) (rd32 12 msg)
                                (c_str buf) s;
                  sync_ls_cb_loop fuel' func s'
              end
      end
  end.

Definition sync_ls_cb {S : Type} (path : string)
    (func : Z -> Z -> Z -> list byte -> S -> M S) (s : S) : M (bool * S) :=
  do ok <- SendRequest ID_LIST path;
  if negb ok then ret (false, s)
  else
    do fuel <- get (fun w => Datatypes.S (length (inp w)));
    sync_ls_cb_loop fuel func s.

(** The callback of remote_build_list, acting on
    [(dirlist, filelist)]. *)
Definition remote_entry (rpath lpath : string) (mode size time : Z)
    (name : list byte) (s : list copyinfo * list copyinfo)
  : M (list copyinfo * list copyinfo) :=
  let name := string_of_list_byte name in
  if S_ISDIR mode then
    if IsDotOrDotDot name then ret s
    else ret (fst s ++ [mkcopyinfo rpath lpath name true], snd s)
  else if S_ISREG mode || S_ISLNK mode then
    ret (fst s,
         snd s ++ [set_stat time mode size
                            (mkcopyinfo rpath lpath name false)])
  else
    run Print ("skipping special file '" ++ name ++ "'" ++ newline)%string;
    ret s.

(** remote_build_list, the loop that empties dirlist from its back;
    [recurse] is remote_build_list itself and [stack] is dirlist
    with its back first. *)
Fixpoint dirlist_pop_loop
    (recurse : list copyinfo -> string -> string
               -> M (bool * list copyinfo))
    (stack filelist : list copyinfo) : M (bool * list copyinfo) :=
  match stack with
  | [] => ret (true, filelist)
  | current :: stack' =>
      do r <- recurse filelist (ci_src current) (ci_dst current);
      if negb (fst r) then ret (false, snd r)
      else dirlist_pop_loop recurse stack' (snd r)
  end.

(** The result is the return value and the list behind [filelist];
    [fuel] bounds the depth of the recursion. *)
Fixpoint remote_build_list (fuel : nat) (filelist : list copyinfo)
    (rpath lpath : string) : M (bool * list copyinfo) :=
  match fuel with
  | O => fault OutOfFuel
  | Datatypes.S fuel' =>
      do r <- sync_ls_cb rpath (remote_entry rpath lpath) ([], filelist);
      if negb (fst r) then ret (false, snd (snd r))
      else dirlist_pop_loop (remote_build_list fuel')
                            (rev (fst (snd r))) (snd (snd r))
  end.

(** utime(lpath, &times) and chmod(lpath, mode) on the local files.
    The files of the model keep no times, so that utime is only its
    result; chmod replaces the twelve permission bits. *)
Definition utime (lpath : string) : M Z := fun w =>
  Ret (match files w !! lpath with Some _ => 0 | None => -1 end) w.

Definition chmod (lpath : string) (mode : Z) : M Z := fun w =>
  match files w !! lpath with
  | Some nd =>
      Ret 0 (set_fs (<[lpath :=
                        {| n_mode := Z.lor (Z.land (n_mode nd) S_IFMT)
                                           (Z.land mode 0xFFF);
                           n_size := n_size nd; n_data := n_data nd;
                           n_noopen := n_noopen nd;
                           n_rdlimit := n_rdlimit nd |}]> (files w))
                    (lfds w) (next_fd w) (disk_free w) w)
  | None => Ret (-1) w
  end.

(** set_time_and_mode; [mask] is what umask(0000) returns, the
    creation mask of the process, which the second call of umask
    restores. *)
Definition set_time_and_mode (lpath : string) (time mode : Z) : M Z :=
  do r1 <- utime lpath;
  do mask <- get umask;
  do r2 <- chmod lpath (Z.land mode (Z.lnot mask));
  ret (if r1 =? 0 then r2 else r1).

(** copy_remote_dir_local, the transfer loop; the result is
    [(pulled, skipped)]. *)
Fixpoint pull_loop (copy_attrs : bool)
    (filelist : list copyinfo) (pulled skipped : Z) : M (option (Z * Z)) :=
  match filelist with
  | [] => ret (Some (pulled, skipped))
  | ci :: rest =>
      if ci_flag ci =? 0 then
        run Printf "pull: %s -> %s" [AStr (ci_src ci); AStr (ci_dst ci)];
        do ok <- sync_recv (ci_src ci) (ci_dst ci);
        if negb ok then ret None
        else
          do failed <-
            (if copy_attrs then
               do r <- set_time_and_mode (ci_dst ci) (ci_time ci) (ci_mode ci);
               ret (negb (r =? 0))
             else ret false);
          if failed then ret None
          else pull_loop copy_attrs rest (pulled + 1) skipped
      else pull_loop copy_attrs rest pulled (skipped + 1)
  end.

Definition copy_remote_dir_local (rpath lpath : string)
    (copy_attrs : bool) : M bool :=
  if String.eqb rpath EmptyString || String.eqb lpath EmptyString
  then ret false
  else
    let rpath_clean := with_slash rpath in
    let lpath_clean := with_slash lpath in
    run Print "pull: building file list...";
    do fuel <- get (fun w => Datatypes.S (length (inp w)));
    do r <- remote_build_list fuel [] rpath_clean lpath_clean;
    if negb (fst r) then ret false
    else
      do counts <- pull_loop copy_attrs (snd r) 0 0;
      match counts with
      | None => ret false
      | Some (pulled, skipped) =>
          run Printf "%s: %d file%s pulled. %d file%s skipped.%s\n"
                     [AStr rpath; AInt pulled; AStr (plural pulled);
                      AInt skipped; AStr (plural skipped); ATransferRate];
          ret true
      end.

End Dirs.
Export Dirs.
(** ** libcutils/atomic.c, the variant for i386 and x86_64 *)

Module Atomic.

(** int32_t *)
Definition INT32_MIN : Z := - 2 ^ 31.
Definition INT32_MAX : Z := 2 ^ 31 - 1.
Definition is_int32 (z : Z) : bool := (INT32_MIN <=? z) && (z <=? INT32_MAX).

(** The int32_t a 32-bit register holds for [z]: the processor adds
    modulo 2^32 and does not trap on a signed overflow. *)
Definition wrap32 (z : Z) : Z := (z + 2 ^ 31) mod 2 ^ 32 - 2 ^ 31.

(** The address lock cmpxchg uses for the operand [(%edx)]: the low
    32 bits of the pointer in the register.  On i386 that is the
    pointer; on x86_64 it is its lower half. *)
Definition edx (addr : Z) : Z := addr mod 2 ^ 32.

(** What happens to the memory, in order: the accesses of this
    thread with their address, its barriers, and the values other
    threads leave in a word in between.  [Cas a oldvalue newvalue
    seen] is one execution of lock cmpxchg on the word at [a] that
    found [seen] there. *)
Inductive access : Type :=
| Load (addr v : Z)
| Store (addr v : Z)
| Cas (a oldvalue newvalue seen : Z)
| Membar
| Other (addr v : Z).

(** The mapped words by their address, what the other threads will
    do before each of the coming accesses of this thread (nothing,
    or store a value in a word), and what happened so far.  Memory
    is taken to be sequentially consistent, so that a barrier only
    marks its place. *)
Record shared : Type := {
  memory : gmap Z Z;
  others : list (option (Z * Z));
  history : list access
}.

(** An access to an address that is not mapped ends the process. *)
Inductive astop : Type := Segv | Spinning.

Inductive aoutcome (A : Type) : Type :=
| ARet (a : A) (s : shared)
| AFault (why : astop) (s : shared).
Arguments ARet {A} a s.
Arguments AFault {A} why s.

Definition A (T : Type) : Type := shared -> aoutcome T.

Definition aret {T} (a : T) : A T := fun s => ARet a s.

Definition abind {T U} (c : A T) (k : T -> A U) : A U := fun s =>
  match c s with
  | ARet a s' => k a s'
  | AFault why s' => AFault why s'
  end.

Definition afault {T} (why : astop) : A T := fun s => AFault why s.

Definition note (e : access) : A unit := fun s =>
  ARet tt {| memory := memory s; others := others s;
             history := history s ++ [e] |}.

(** The other threads run before an access of this one; they store
    to mapped words only. *)
Definition interfere : A unit := fun s =>
  match others s with
  | [] => ARet tt s
  | None :: rest =>
      ARet tt {| memory := memory s; others := rest; history := history s |}
  | Some (a, v) :: rest =>
      ARet tt {| memory := alter (fun _ => v) a (memory s); others := rest;
                 history := history s ++ [Other a v] |}
  end.

(** [*addr] *)
Definition load (addr : Z) : A Z :=
  abind interfere (fun _ => fun s =>
    match memory s !! addr with
    | Some v =>
        ARet v {| memory := memory s; others := others s;
                  history := history s ++ [Load addr v] |}
    | None => AFault Segv s
    end).

(** [*addr = value] *)
Definition store (value addr : Z) : A unit :=
  abind interfere (fun _ => fun s =>
    match memory s !! addr with
    | Some _ =>
        ARet tt {| memory := <[addr := value]> (memory s);
                   others := others s;
                   history := history s ++ [Store addr value] |}
    | None => AFault Segv s
    end).

(** Modelled from the spec: ANDROID_MEMBAR_FULL of
    cutils/atomic-inline.h, which is not among the sources: a full
    memory barrier. *)
Definition ANDROID_MEMBAR_FULL : A unit := note Membar.

(** cas: lock cmpxchg %ecx, (%edx) stores [newvalue] in the word at
    [(%edx)] when that word holds [oldvalue], and sets ZF
    accordingly; setne and andl make the result 0 for a swap and 1
    otherwise. *)
Definition cas (oldvalue newvalue addr : Z) : A Z :=
  abind interfere (fun _ => fun s =>
    match memory s !! edx addr with
    | Some seen =>
        if seen =? oldvalue then
          ARet 0 {| memory := <[edx addr := newvalue]> (memory s);
                    others := others s;
                    history := history s
                                 ++ [Cas (edx addr) oldvalue newvalue seen] |}
        else
          ARet 1 {| memory := memory s; others := others s;
                    history := history s
                                 ++ [Cas (edx addr) oldvalue newvalue seen] |}
    | None => AFault Segv s
    end).

Definition android_atomic_acquire_load (addr : Z) : A Z :=
  abind (load addr) (fun value =>
  abind ANDROID_MEMBAR_FULL (fun _ =>
  aret value)).

Definition android_atomic_release_load (addr : Z) : A Z :=
  abind ANDROID_MEMBAR_FULL (fun _ => load addr).

Definition android_atomic_acquire_store (value addr : Z) : A unit :=
  abind (store value addr) (fun _ => ANDROID_MEMBAR_FULL).

Definition android_atomic_release_store (value addr : Z) : A unit :=
  abind ANDROID_MEMBAR_FULL (fun _ => store value addr).

Definition android_atomic_acquire_cas (oldvalue newvalue addr : Z) : A Z :=
  abind (cas oldvalue newvalue addr) (fun xchg =>
  abind (if xchg =? 0 then ANDROID_MEMBAR_FULL else aret tt) (fun _ =>
  aret xchg)).

Definition android_atomic_release_cas (oldvalue newvalue addr : Z) : A Z :=
  abind ANDROID_MEMBAR_FULL (fun _ => cas oldvalue newvalue addr).

(** The loops [do { oldValue = *addr; } while (cas(..))]; [fuel]
    bounds the number of turns. *)
Fixpoint android_atomic_add_loop (fuel : nat) (value addr : Z) : A Z :=
  match fuel with
  | O => afault Spinning
  | S fuel' =>
      abind (load addr) (fun oldValue =>
      abind (android_atomic_release_cas
               oldValue (wrap32 (oldValue + value)) addr) (fun failed =>
      if negb (failed =? 0) then android_atomic_add_loop fuel' value addr
      else aret oldValue))
  end.

Definition android_atomic_add (fuel : nat) (value addr : Z) : A Z :=
  android_atomic_add_loop fuel value addr.

Definition android_atomic_inc (fuel : nat) (addr : Z) : A Z :=
  android_atomic_add fuel 1 addr.

Definition android_atomic_dec (fuel : nat) (addr : Z) : A Z :=
  android_atomic_add fuel (-1) addr.

Fixpoint android_atomic_and_loop (fuel : nat) (value addr : Z) : A Z :=
  match fuel with
  | O => afault Spinning
  | S fuel' =>
      abind (load addr) (fun oldValue =>
      abind (android_atomic_release_cas
               oldValue (Z.land oldValue value) addr) (fun failed =>
      if negb (failed =? 0) then android_atomic_and_loop fuel' value addr
      else aret oldValue))
  end.

Definition android_atomic_and (fuel : nat) (value addr : Z) : A Z :=
  android_atomic_and_loop fuel value addr.

Fixpoint android_atomic_or_loop (fuel : nat) (value addr : Z) : A Z :=
  match fuel with
  | O => afault Spinning
  | S fuel' =>
      abind (load addr) (fun oldValue =>
      abind (android_atomic_release_cas
               oldValue (Z.lor oldValue value) addr) (fun failed =>
      if negb (failed =? 0) then android_atomic_or_loop fuel' value addr
      else aret oldValue))
  end.

Definition android_atomic_or (fuel : nat) (value addr : Z) : A Z :=
  android_atomic_or_loop fuel value addr.

Fixpoint swap_loop (fuel : nat) (value addr : Z) : A Z :=
  match fuel with
  | O => afault Spinning
  | S fuel' =>
      abind (load addr) (fun oldValue =>
      abind (cas oldValue value addr) (fun failed =>
      if negb (failed =? 0) then swap_loop fuel' value addr
      else aret oldValue))
  end.

Definition android_atomic_acquire_swap (fuel : nat) (value addr : Z) : A Z :=
  abind (swap_loop fuel value addr) (fun oldValue =>
  abind ANDROID_MEMBAR_FULL (fun _ =>
  aret oldValue)).

Definition android_atomic_release_swap (fuel : nat) (value addr : Z) : A Z :=
  abind ANDROID_MEMBAR_FULL (fun _ => swap_loop fuel value addr).

(** The executions of lock cmpxchg by this thread in a stretch of
    history, and whether one of them swapped. *)
Definition swapped (e : access) : bool :=
  match e with
  | Cas _ oldvalue _ seen => seen =? oldvalue
  | _ => false
  end.

(** A word that lock cmpxchg reaches through [(%edx)]: its address
    fits in 32 bits.  Every word of an i386 process does; of an
    x86_64 process the words below 4 GiB do. *)
Definition low_word (addr : Z) : Prop := 0 <= addr < 2 ^ 32.

(** From [s] to [s'] this thread replaced [old] by [f old] in the
    word at [addr] in one execution of lock cmpxchg, the last thing
    it did; no earlier execution in between swapped. *)
Definition updates_atomically (addr : Z) (f : Z -> Z) (old : Z)
    (s s' : shared) : Prop :=
  exists t,
    history s' = history s ++ t ++ [Cas addr old (f old) old]
    /\ Forall (fun e => swapped e = false) t
    /\ memory s' !! addr = Some (f old).

(** The same words are mapped. *)
Definition same_words (s s' : shared) : Prop :=
  forall a, is_Some (memory s' !! a) <-> is_Some (memory s !! a).

(** What the loops ask of the compare-and-swap they retry, on a
    word that is mapped. *)
Definition cas_like (casf : Z -> Z -> Z -> A Z) : Prop :=
  forall oldvalue newvalue addr s,
    is_Some (memory s !! edx addr) ->
    exists seen s1 t,
      casf oldvalue newvalue addr s
      = ARet (if seen =? oldvalue then 0 else 1) s1
      /\ history s1 = history s ++ t ++ [Cas (edx addr) oldvalue newvalue seen]
      /\ Forall (fun e => swapped e = false) t
      /\ memory s1 !! edx addr
         = Some (if seen =? oldvalue then newvalue else seen)
      /\ same_words s s1
      /\ (length (others s1) <= length (others s))%nat
      /\ (memory s !! edx addr <> Some seen ->
          (length (others s1) < length (others s))%nat).

(** The state an operation ends in. *)
Definition state_of {T} (o : aoutcome T) : shared :=
  match o with ARet _ s => s | AFault _ s => s end.

(** One word at [addr] that no other thread touches any more. *)
Definition quiet (addr w : Z) (h : list access) : shared :=
  {| memory := {[addr := w]}; others := []; history := h |}.

(** A word at address 64 that another thread changes once, between
    the load and the cmpxchg of the first turn. *)
Definition contended : shared :=
  {| memory := {[64 := 5]}; others := [None; Some (64, 9)]; history := [] |}.

(** A word of an x86_64 process above 4 GiB, with nothing mapped at
    the low half of its address. *)
Definition high_word : shared :=
  {| memory := {[0x7ffd00001000 := 5]}; others := []; history := [] |}.

End Atomic.
(** ** Vocabulary for lists of items, trees and transfers *)

Module Views.

(** The second item is the first one, possibly marked as skipped. *)
Definition marked (ci ci' : copyinfo) : Prop :=
  ci_src ci' = ci_src ci /\ ci_dst ci' = ci_dst ci
  /\ ci_time ci' = ci_time ci /\ ci_mode ci' = ci_mode ci
  /\ ci_size ci' = ci_size ci
  /\ (ci_flag ci' = ci_flag ci \/ ci_flag ci' = 1).

(** The items the transfer loop pushes. *)
Definition to_push (filelist : list copyinfo) : list copyinfo :=
  List.filter (fun ci => ci_flag ci =? 0) filelist.

Definition would_push (ci : copyinfo) : event :=
  EvStderr "would push: %s -> %s\n" [AStr (ci_src ci); AStr (ci_dst ci)].

(** The closing line of a directory push. *)
Definition summary (rpath : string) (pushed skipped : Z) : event :=
  EvPrintf "%s: %d file%s pushed. %d file%s skipped.%s\n"
           [AStr rpath; AInt pushed; AStr (plural pushed);
            AInt skipped; AStr (plural skipped); ATransferRate].

(** The connection and the local files are as they were. *)
Definition untouched (w w' : world) : Prop :=
  inp w' = inp w /\ wbudget w' = wbudget w /\ files w' = files w
  /\ lfds w' = lfds w /\ total_bytes w' = total_bytes w
  /\ fd w' = fd w
  /\ stream_writes (trace w') = stream_writes (trace w)
  /\ stream_reads (trace w') = stream_reads (trace w).

(** A regular file with the given permission bits and content. *)
Definition regular_file (perm : Z) (data : list byte) : node :=
  {| n_mode := Z.lor S_IFREG perm; n_size := blen data; n_data := data;
     n_noopen := false; n_rdlimit := None |}.

(** A symbolic link with the given text. *)
Definition symlink (target : list byte) : node :=
  {| n_mode := Z.lor S_IFLNK 511; n_size := blen target; n_data := target;
     n_noopen := false; n_rdlimit := None |}.

(** The frames of a pull as the peer lays them out: the DATA frames
    of the chunks, in order, and the closing DONE. *)
Definition pull_body (chunks : list (list byte)) : list byte :=
  concat (map data_frame chunks) ++ done_frame 0.

(** A chunk the receive loop accepts. *)
Definition chunk_ok (limit : Z) (c : list byte) : Prop :=
  blen c <= limit /\ blen c < 2 ^ 32.

(** Descriptors from next_fd on are not in use. *)
Definition fresh_fds (w : world) : Prop :=
  0 <= next_fd w /\ forall k, next_fd w <= k -> lfds w !! k = None.

(** All pieces but the last have exactly [n] bytes, and the last is
    not empty and not longer. *)
Fixpoint full_but_last (n : Z) (chunks : list (list byte)) : Prop :=
  match chunks with
  | [] => True
  | c :: rest =>
      match rest with
      | [] => 0 < blen c <= n
      | _ :: _ => blen c = n /\ full_but_last n rest
      end
  end.

(** A computation that, when it returns, has left the local files
    as they were and no descriptor open that was not open before. *)
Definition tidy {A} (c : M A) : Prop :=
  forall w a w',
    fresh_fds w -> c w = Ret a w' ->
    files w' = files w /\ lfds w' = lfds w /\ fresh_fds w'.

(** A name as a C string holds it: no NUL inside. *)
Fixpoint no_nul (name : string) : bool :=
  match name with
  | EmptyString => true
  | String c rest => negb (Ascii.eqb c zero) && no_nul rest
  end.

(** An item made for a regular file or a symbolic link: its source
    is [spath] followed by some text [rel], its destination is [dpath]
    followed by the same text.  The text is made of the names of the
    entries on the way to the file; the names are used as they come,
    so that for a listing sent by the peer nothing keeps [rel] from
    holding slashes or the name "..". *)
Definition item_under (spath dpath : string) (ci : copyinfo) : Prop :=
  (exists rel, ci_src ci = (spath ++ rel)%string
               /\ ci_dst ci = (dpath ++ rel)%string)
  /\ ci_flag ci = 0
  /\ (S_ISREG (ci_mode ci) = true \/ S_ISLNK (ci_mode ci) = true).

(** The entry [name] of the directory [lpath], at which the host
    shows [t], is a regular file or a symbolic link whose path fits
    in PATH_MAX, and [ci] is the item for it. *)
Definition file_entry (lpath rpath name : string) (t : lnode)
    (ci : copyinfo) : Prop :=
  IsDotOrDotDot name = false
  /\ strlen lpath + strlen name + 1 <= PATH_MAX
  /\ exists st_mode st_mtime st_size,
       l_stat t = Some (st_mode, st_mtime, st_size)
       /\ S_ISDIR st_mode = false
       /\ (S_ISREG st_mode = true \/ S_ISLNK st_mode = true)
       /\ ci = set_stat (u32 st_mtime) (u32 st_mode) (u64 st_size)
                        (mkcopyinfo lpath rpath name false).

(** [ci] is the item of a file that the walk from the directory
    [lpath], at which the host shows [t], can reach: a file entry of
    the directory itself, or one reached from a subdirectory that is
    not "." or "..", whose path fits, and that lstat shows as a
    directory. *)
Inductive reachable : lnode -> string -> string -> copyinfo -> Prop :=
| reach_here t entries lpath rpath name child ci :
    l_dir t = Some entries ->
    In (name, child) entries ->
    file_entry lpath rpath name child ci ->
    reachable t lpath rpath ci
| reach_below t entries lpath rpath name child ci :
    l_dir t = Some entries ->
    In (name, child) entries ->
    is_subdir lpath name child = true ->
    reachable child (lpath ++ name ++ "/")%string
              (rpath ++ name ++ "/")%string ci ->
    reachable t lpath rpath ci.

(** From [w] to [w'] the local files, the descriptors, the counter
    and the connection stayed as they were, and every buffer handed
    to the connection satisfies [P]. *)
Definition sends_only (P : list byte -> Prop) (w w' : world) : Prop :=
  files w' = files w /\ lfds w' = lfds w
  /\ total_bytes w' = total_bytes w /\ fd w' = fd w
  /\ exists bufs,
       stream_writes (trace w') = stream_writes (trace w) ++ bufs
       /\ Forall P bufs.

(** A buffer that begins with the identifier STAT. *)
Definition stat_request (buf : list byte) : Prop := rd32 0 buf = ID_STAT.

(** The value of a text of hexadecimal digits. *)
Definition hex_digit_value (c : ascii) : Z :=
  let n := Z.of_nat (nat_of_ascii c) in
  if (48 <=? n) && (n <=? 57) then n - 48
  else if (97 <=? n) && (n <=? 102) then n - 87
  else 0.

Fixpoint hex_value_from (acc : Z) (s : string) : Z :=
  match s with
  | EmptyString => acc
  | String c rest => hex_value_from (16 * acc + hex_digit_value c) rest
  end.

Definition hex_value (s : string) : Z := hex_value_from 0 s.

(** The line do_sync_ls prints for a dent. *)
Definition dent_line (d : dent) : string :=
  (fmt_08x (rd32 4 (fst d)) ++ " " ++ fmt_08x (rd32 8 (fst d)) ++ " "
     ++ fmt_08x (rd32 12 (fst d)) ++ " "
     ++ string_of_list_byte (c_str (snd d)) ++ newline)%string.

Fixpoint lines (ls : list string) : string :=
  match ls with
  | [] => EmptyString
  | l :: rest => (l ++ lines rest)%string
  end.

(** An item made for a subdirectory of [spath], other than "." and
    "..", to be listed next. *)
Definition subdir_item (spath dpath : string) (ci : copyinfo) : Prop :=
  exists name,
    IsDotOrDotDot name = false
    /\ ci_src ci = (spath ++ name ++ "/")%string
    /\ ci_dst ci = (dpath ++ name ++ "/")%string.

(** A buffer that begins with the identifier LIST. *)
Definition list_request (buf : list byte) : Prop := rd32 0 buf = ID_LIST.

(** A dent that announces a regular file or a symbolic link. *)
Definition file_dent (d : dent) : Prop :=
  S_ISREG (rd32 4 (fst d)) || S_ISLNK (rd32 4 (fst d)) = true.

(** The item remote_build_list makes for such a dent: the name is
    appended to both paths as the peer sent it, up to its first NUL. *)
Definition remote_item (rpath lpath : string) (d : dent) : copyinfo :=
  set_stat (rd32 12 (fst d)) (rd32 4 (fst d)) (rd32 8 (fst d))
           (mkcopyinfo rpath lpath
                       (string_of_list_byte (c_str (snd d))) false).

(** From [w] to [w'] the connection took [sent] bytes and what is
    left in flight is [rest]; apart from that only the trace moved. *)
Definition advanced (sent : Z) (rest : list byte) (w w' : world) : Prop :=
  inp w' = rest /\ wbudget w' = wbudget w - sent
  /\ fd w' = fd w /\ total_bytes w' = total_bytes w /\ max w' = max w
  /\ files w' = files w /\ lfds w' = lfds w /\ next_fd w' = next_fd w
  /\ nocreat w' = nocreat w /\ disk_free w' = disk_free w
  /\ umask w' = umask w.

(** The requests sync_recv writes for an item. *)
Definition recv_requests (ci : copyinfo) : list (list byte) :=
  [request ID_STAT (ci_src ci); request ID_RECV (ci_src ci)].

(** A listing in which the peer names a file outside the directory
    it lists. *)
Definition escaping_listing : world :=
  session (dent_bytes [dent_reply (Z.lor S_IFREG 420) 5 200 "../../x"]
             ++ done_reply) 64.

(** What the host shows at a directory that holds ".", the regular
    file a.txt, the directory sub with the symbolic link b, a
    character device, and a directory that cannot be opened. *)
Definition sample_tree : lnode :=
  LNode (Some (Z.lor S_IFDIR 493, 1, 4096))
    (Some
       [ (".", LNode (Some (Z.lor S_IFDIR 493, 1, 4096)) None);
         ("a.txt", LNode (Some (Z.lor S_IFREG 420, 5, 10)) None);
         ("sub",
          LNode (Some (Z.lor S_IFDIR 493, 2, 4096))
                (Some [("b", LNode (Some (Z.lor S_IFLNK 511, 6, 3)) None)]));
         ("tty", LNode (Some (Z.lor 0x2000 420, 7, 0)) None);
         ("locked", LNode (Some (Z.lor S_IFDIR 448, 3, 4096)) None) ]%string).

Definition item_a_txt : copyinfo :=
  {| ci_src := "l/a.txt"; ci_dst := "r/a.txt"; ci_time := 5;
     ci_mode := Z.lor S_IFREG 420; ci_size := 10; ci_flag := 0 |}.

Definition item_sub_b : copyinfo :=
  {| ci_src := "l/sub/b"; ci_dst := "r/sub/b"; ci_time := 6;
     ci_mode := Z.lor S_IFLNK 511; ci_size := 3; ci_flag := 0 |}.

(** The closing line of a directory pull. *)
Definition pull_summary (rpath : string) (pulled skipped : Z) : event :=
  EvPrintf "%s: %d file%s pulled. %d file%s skipped.%s\n"
           [AStr rpath; AInt pulled; AStr (plural pulled);
            AInt skipped; AStr (plural skipped); ATransferRate].

(** A peer that lists the one file "a" in a directory and then
    serves its five bytes. *)
Definition one_file_pull : world :=
  session (dent_bytes [dent_reply (Z.lor S_IFREG 420) 5 200 "a"]
             ++ done_reply
             ++ stat_reply (Z.lor S_IFREG 420) 5 200
             ++ data_frame ["L"; "i"; "n"; "u"; "x"]%byte
             ++ done_frame 0) 4096.

(** Only reports were added to the trace. *)
Definition only_reports (w w' : world) : Prop :=
  exists t, trace w' = trace w ++ t
            /\ Forall (fun e => match e with
                                | EvError _ _ | EvPrint _ => True
                                | _ => False
                                end) t.

(** What the walk from one directory does, whatever the list and the
    paths it is called with. *)
Definition walks (t : lnode) : Prop :=
  forall filelist lpath rpath w,
  exists r new w',
    local_build_list t filelist lpath rpath w = Ret (r, filelist ++ new) w'
    /\ (forall ci, In ci new <-> reachable t lpath rpath ci)
    /\ only_reports w w' /\ untouched w w'
    /\ (r = 0 /\ l_dir t <> None
        \/ r = -1 /\ l_dir t = None /\ new = []
           /\ trace w' = trace w ++ [EvError "cannot open '%s': %s"
                                            [AStr lpath; AErrno]]).

(** What remote_build_list does with a given fuel, whatever the
    list and the paths it is called with. *)
Definition lists_remote (fuel : nat) : Prop :=
  forall filelist rpath lpath w,
    (length (inp w) < fuel)%nat ->
    exists ok new w',
      remote_build_list fuel filelist rpath lpath w
      = Ret (ok, filelist ++ new) w'
      /\ Forall (item_under rpath lpath) new
      /\ sends_only list_request w w'
      /\ (length (inp w') <= length (inp w))%nat.

End Views.
Export Views.

(** * Properties *)

(** ** The wire encoding *)

Section WireFacts.

Lemma Z_of_byte_range b : 0 <= Z_of_byte b < 256.
Proof. unfold Z_of_byte. pose proof (Byte.to_N_bounded b). lia. Qed.

Lemma Z_of_byte_of_Z z : Z_of_byte (byte_of_Z z) = z mod 256.
Proof.
  unfold Z_of_byte, byte_of_Z.
  assert (H : 0 <= z mod 256 < 256) by (apply Z.mod_pos_bound; lia).
  destruct (Byte.of_N (Z.to_N (z mod 256))) as [b|] eqn:E.
  - apply Byte.to_of_N in E. rewrite E. lia.
  - apply Byte.of_N_None_iff in E. lia.
Qed.

Lemma four_bytes z :
  z mod 256 + 256 * ((z / 256) mod 256) + 65536 * ((z / 65536) mod 256)
  + 16777216 * ((z / 16777216) mod 256) = z mod 4294967296.
Proof.
  change 4294967296 with (256 * (256 * (256 * 256))).
  rewrite (Z.rem_mul_r z 256) by lia.
  rewrite (Z.rem_mul_r (z / 256) 256) by lia.
  rewrite (Z.rem_mul_r (z / 256 / 256) 256) by lia.
  rewrite !Z.div_div by lia.
  change (256 * 256) with 65536. change (65536 * 256) with 16777216. lia.
Qed.

(** Reading back a field that was stored at the end of [pre]. *)
Lemma rd32_le32 pre z post :
  rd32 (length pre) (pre ++ le32 z ++ post) = z mod 2 ^ 32.
Proof.
  unfold rd32.
  rewrite (app_nth2 pre _ x00 (n := length pre)) by lia.
  rewrite (app_nth2 pre _ x00 (n := length pre + 1)) by lia.
  rewrite (app_nth2 pre _ x00 (n := length pre + 2)) by lia.
  rewrite (app_nth2 pre _ x00 (n := length pre + 3)) by lia.
  replace (length pre - length pre)%nat with 0%nat by lia.
  replace (length pre + 1 - length pre)%nat with 1%nat by lia.
  replace (length pre + 2 - length pre)%nat with 2%nat by lia.
  replace (length pre + 3 - length pre)%nat with 3%nat by lia.
  cbn [le32 app nth]. rewrite !Z_of_byte_of_Z.
  change (2 ^ 8) with 256. change (2 ^ 16) with 65536.
  change (2 ^ 24) with 16777216. change (2 ^ 32) with 4294967296.
  apply four_bytes.
Qed.

Lemma rd32_range off bs : 0 <= rd32 off bs < 2 ^ 32.
Proof.
  unfold rd32.
  pose proof (Z_of_byte_range (nth off bs x00)).
  pose proof (Z_of_byte_range (nth (off + 1) bs x00)).
  pose proof (Z_of_byte_range (nth (off + 2) bs x00)).
  pose proof (Z_of_byte_range (nth (off + 3) bs x00)).
  lia.
Qed.

Lemma length_le32 z : length (le32 z) = 4%nat.
Proof. reflexivity. Qed.

Lemma rd32_0 a post : rd32 0 (le32 a ++ post) = a mod 2 ^ 32.
Proof. apply (rd32_le32 [] a post). Qed.

Lemma rd32_4 a b post : rd32 4 (le32 a ++ le32 b ++ post) = b mod 2 ^ 32.
Proof. apply (rd32_le32 (le32 a) b post). Qed.

Lemma rd32_8 a b c post :
  rd32 8 (le32 a ++ le32 b ++ le32 c ++ post) = c mod 2 ^ 32.
Proof.
  rewrite (app_assoc (le32 a)). apply (rd32_le32 (le32 a ++ le32 b) c post).
Qed.

Lemma rd32_12 a b c d post :
  rd32 12 (le32 a ++ le32 b ++ le32 c ++ le32 d ++ post) = d mod 2 ^ 32.
Proof.
  rewrite (app_assoc (le32 b)), (app_assoc (le32 a)).
  apply (rd32_le32 (le32 a ++ le32 b ++ le32 c) d post).
Qed.

Lemma rd32_16 a b c d e post :
  rd32 16 (le32 a ++ le32 b ++ le32 c ++ le32 d ++ le32 e ++ post)
  = e mod 2 ^ 32.
Proof.
  rewrite (app_assoc (le32 c)), (app_assoc (le32 b)), (app_assoc (le32 a)).
  apply (rd32_le32 (le32 a ++ le32 b ++ le32 c ++ le32 d) e post).
Qed.

Lemma blen_app (a b : list byte) : blen (a ++ b) = blen a + blen b.
Proof. unfold blen. rewrite length_app. lia. Qed.

Lemma blen_nonneg (a : list byte) : 0 <= blen a.
Proof. unfold blen. lia. Qed.

Lemma u64_range z : 0 <= u64 z < 2 ^ 64.
Proof. unfold u64. apply Z.mod_pos_bound. lia. Qed.

Lemma u64_small z : 0 <= z < 2 ^ 64 -> u64 z = z.
Proof. unfold u64. intros. apply Z.mod_small. lia. Qed.

Lemma u64_add_l a b : u64 (u64 a + b) = u64 (a + b).
Proof. unfold u64. apply Zplus_mod_idemp_l. Qed.

(** Both file types have the bit of S_IFREG; the test on the
    conjunction of two modes succeeds when it succeeds on each. *)
Lemma land_fmt l r :
  Z.land (Z.land l r) S_IFMT = Z.land (Z.land l S_IFMT) (Z.land r S_IFMT).
Proof.
  rewrite <- (Z.land_assoc l r), (Z.land_comm (Z.land l S_IFMT)).
  rewrite <- (Z.land_assoc r), (Z.land_assoc S_IFMT).
  rewrite (Z.land_comm S_IFMT l), <- (Z.land_assoc l), Z.land_diag.
  rewrite (Z.land_assoc r), (Z.land_comm r l), <- (Z.land_assoc l).
  reflexivity.
Qed.

Lemma S_ISREG_land l r :
  S_ISREG l = true -> S_ISREG r = true -> S_ISREG (Z.land l r) = true.
Proof.
  unfold S_ISREG. rewrite land_fmt. intros Hl%Z.eqb_eq Hr%Z.eqb_eq.
  rewrite Hl, Hr. reflexivity.
Qed.

Lemma S_ISLNK_land l r :
  S_ISLNK l = true -> S_ISLNK r = true -> S_ISLNK (Z.land l r) = true.
Proof.
  unfold S_ISLNK. rewrite land_fmt. intros Hl%Z.eqb_eq Hr%Z.eqb_eq.
  rewrite Hl, Hr. reflexivity.
Qed.

Lemma S_ISREG_not_LNK m : S_ISREG m = true -> S_ISLNK m = false.
Proof.
  unfold S_ISREG, S_ISLNK. intros H%Z.eqb_eq. rewrite H. reflexivity.
Qed.

Lemma S_ISLNK_not_REG m : S_ISLNK m = true -> S_ISREG m = false.
Proof.
  unfold S_ISREG, S_ISLNK. intros H%Z.eqb_eq. rewrite H. reflexivity.
Qed.

End WireFacts.

(** ** One step of the transport *)

Section Steps.

Lemma SendRequest_short id path w :
  strlen path <= 1024 ->
  SendRequest id path w = WriteFdExactly (request id path) w.
Proof.
  intros H. unfold SendRequest.
  destruct (Z.ltb_spec 1024 (strlen path)); [lia | reflexivity].
Qed.

Lemma length_list_byte_of_string s :
  length (list_byte_of_string s) = String.length s.
Proof.
  unfold list_byte_of_string. rewrite length_map.
  induction s as [|a s IH]; cbn; [reflexivity | now rewrite IH].
Qed.

Lemma blen_request id path : blen (request id path) = 8 + strlen path.
Proof.
  unfold request, blen, strlen.
  rewrite !length_app, !length_le32, length_list_byte_of_string. lia.
Qed.

Lemma strlen_nonneg s : 0 <= strlen s.
Proof. unfold strlen. lia. Qed.

Lemma WriteFdExactly_fits buf w :
  blen buf <= wbudget w ->
  WriteFdExactly buf w
  = Ret true (log (EvWrite buf true)
                  (set_net (inp w) (wbudget w - blen buf) w)).
Proof.
  intros H. unfold WriteFdExactly.
  destruct (Z.leb_spec (blen buf) (wbudget w)); [reflexivity | lia].
Qed.

Lemma WriteFdExactly_refused buf w :
  wbudget w < blen buf ->
  WriteFdExactly buf w
  = Ret false (log (EvWrite buf false) (set_net (inp w) 0 w)).
Proof.
  intros H. unfold WriteFdExactly.
  destruct (Z.leb_spec (blen buf) (wbudget w)); [lia | reflexivity].
Qed.

Lemma firstn_blen (msg rest : list byte) :
  firstn (Z.to_nat (blen msg)) (msg ++ rest) = msg.
Proof.
  unfold blen. rewrite Nat2Z.id.
  rewrite firstn_app, firstn_all, Nat.sub_diag. cbn. apply app_nil_r.
Qed.

Lemma skipn_blen (msg rest : list byte) :
  skipn (Z.to_nat (blen msg)) (msg ++ rest) = rest.
Proof.
  unfold blen. rewrite Nat2Z.id.
  rewrite skipn_app, skipn_all, Nat.sub_diag. reflexivity.
Qed.

(** The peer has [msg] in flight: a read of its length delivers it. *)
Lemma ReadFdExactly_delivers msg rest w :
  inp w = msg ++ rest ->
  ReadFdExactly (blen msg) w
  = Ret (Some msg)
        (log (EvRead (blen msg) (Some msg)) (set_net rest (wbudget w) w)).
Proof.
  intros H. unfold ReadFdExactly. rewrite H, blen_app.
  pose proof (blen_nonneg rest).
  destruct (Z.ltb_spec (blen msg + blen rest) (blen msg)); [lia|].
  rewrite firstn_blen, skipn_blen. reflexivity.
Qed.

(** What a read delivers is a prefix of what was in flight. *)
Lemma ReadFdExactly_inv len w msg w' :
  0 <= len ->
  ReadFdExactly len w = Ret (Some msg) w' ->
  exists rest,
    inp w = msg ++ rest /\ blen msg = len
    /\ w' = log (EvRead len (Some msg)) (set_net rest (wbudget w) w).
Proof.
  intros Hlen. unfold ReadFdExactly.
  destruct (Z.ltb_spec (blen (inp w)) len); [discriminate|].
  intros [= <- <-]. exists (skipn (Z.to_nat len) (inp w)).
  rewrite firstn_skipn.
  split; [reflexivity|]. split; [|reflexivity].
  unfold blen in *. rewrite length_firstn. lia.
Qed.

Lemma ReadFdExactly_fail_inv len w w' :
  ReadFdExactly len w = Ret None w' ->
  w' = log (EvRead len None) (set_net [] (wbudget w) w).
Proof.
  unfold ReadFdExactly.
  destruct (blen (inp w) <? len); [|discriminate].
  intros [= <-]. reflexivity.
Qed.

Lemma bind_ret_eq {A B} (c : M A) (k : A -> M B) w a w1 :
  c w = Ret a w1 -> bind c k w = k a w1.
Proof. intros E. unfold bind. rewrite E. reflexivity. Qed.

Lemma bind_ret_fault {A B} (c : M A) (k : A -> M B) w why w1 :
  c w = Fault why w1 -> bind c k w = Fault why w1.
Proof. intros E. unfold bind. rewrite E. reflexivity. Qed.

Lemma bind_inv {A B} (c : M A) (k : A -> M B) w b w' :
  bind c k w = Ret b w' ->
  exists a w1, c w = Ret a w1 /\ k a w1 = Ret b w'.
Proof.
  unfold bind. destruct (c w) as [a w1|]; [eauto | discriminate].
Qed.

Lemma rd32_data_header_0 n : rd32 0 (data_header n) = ID_DATA.
Proof. unfold data_header. rewrite rd32_0. reflexivity. Qed.

Lemma rd32_data_header_4 n : 0 <= n < 2 ^ 32 -> rd32 4 (data_header n) = n.
Proof.
  intros H. unfold data_header.
  rewrite <- (app_nil_r (le32 n)), rd32_4. apply Z.mod_small. exact H.
Qed.

(** A request either goes out in one write, or is refused by the
    peer, or is rejected with an error report; in each case it leaves
    one event, which is neither a read nor a file system call. *)
Lemma SendRequest_event id path w :
  exists ok bud e,
    SendRequest id path w = Ret ok (log e (set_net (inp w) bud w))
    /\ is_read e = false /\ fs_event e = false.
Proof.
  unfold SendRequest, WriteFdExactly, bind, Error, emit, ret.
  destruct (1024 <? strlen path).
  - exists false, (wbudget w). eexists.
    split; [destruct w; reflexivity|]. split; reflexivity.
  - destruct (_ <=? _); eexists _, _, _; (split; [reflexivity|]);
      split; reflexivity.
Qed.

Lemma sync_finish_stat_event w :
  exists r rest e,
    sync_finish_stat w = Ret r (log e (set_net rest (wbudget w) w))
    /\ is_read e = true /\ fs_event e = false.
Proof.
  unfold sync_finish_stat, ReadFdExactly, bind, ret.
  destruct (_ <? _); [eexists _, _, _; split; [reflexivity|]; auto|].
  destruct (negb _); eexists _, _, _; (split; [reflexivity|]); auto.
Qed.

Lemma SendRequest_goes_out id path w :
  strlen path <= 1024 ->
  8 + strlen path <= wbudget w ->
  SendRequest id path w
  = Ret true (log (EvWrite (request id path) true)
                  (set_net (inp w) (wbudget w - (8 + strlen path)) w)).
Proof.
  intros Hp Hb. rewrite SendRequest_short by assumption.
  rewrite WriteFdExactly_fits; rewrite blen_request; [reflexivity | lia].
Qed.

Lemma rd32_stat_reply mode size time :
  let m := stat_reply mode size time in
  rd32 0 m = ID_STAT /\ rd32 4 m = u32 mode
  /\ rd32 8 m = u32 size /\ rd32 12 m = u32 time.
Proof.
  cbv zeta. unfold stat_reply.
  rewrite <- (app_nil_r (le32 time)).
  rewrite rd32_0, rd32_4, rd32_8, rd32_12. auto.
Qed.

Lemma sync_finish_stat_delivers mode size time rest w :
  inp w = stat_reply mode size time ++ rest ->
  sync_finish_stat w
  = Ret (Some (u32 time, u32 mode, u32 size))
        (log (stat_read (stat_reply mode size time))
             (set_net rest (wbudget w) w)).
Proof.
  intros Hi. unfold sync_finish_stat.
  change sizeof_stat with (blen (stat_reply mode size time)).
  rewrite (bind_ret_eq _ _ _ _ _ (ReadFdExactly_delivers _ _ _ Hi)).
  destruct (rd32_stat_reply mode size time) as (-> & -> & -> & ->).
  reflexivity.
Qed.

(** Steps that add only events foreign to the file system. *)
Lemma SendRequest_trace id path w ok w1 :
  SendRequest id path w = Ret ok w1 ->
  exists e, trace w1 = trace w ++ [e] /\ fs_event e = false.
Proof.
  destruct (SendRequest_event id path w) as (ok' & bud & e & -> & _ & He).
  intros [= <- <-]. exists e. auto.
Qed.

Lemma sync_finish_stat_trace1 w r w1 :
  sync_finish_stat w = Ret r w1 ->
  exists e, trace w1 = trace w ++ [e] /\ fs_event e = false.
Proof.
  destruct (sync_finish_stat_event w) as (r' & rest & e & -> & _ & He).
  intros [= <- <-]. exists e. auto.
Qed.

Lemma sync_stat_trace path w r w1 :
  sync_stat path w = Ret r w1 ->
  exists t, trace w1 = trace w ++ t
            /\ Forall (fun e => fs_event e = false) t.
Proof.
  unfold sync_stat. intros H.
  apply bind_inv in H as (ok & w0 & E1 & H).
  apply SendRequest_trace in E1 as (e1 & Ht1 & He1).
  destruct ok; cbn [negb] in H.
  - apply sync_finish_stat_trace1 in H as (e2 & Ht2 & He2).
    exists [e1; e2]. rewrite Ht2, Ht1, <- app_assoc. auto.
  - injection H as <- <-. exists [e1]. auto.
Qed.

End Steps.

(** ** Requests with a long path *)

Section PathLength.

Lemma stream_writes_app t1 t2 :
  stream_writes (t1 ++ t2) = stream_writes t1 ++ stream_writes t2.
Proof.
  induction t1 as [|e t1 IH]; [reflexivity|].
  destruct e; simpl; rewrite ?IH; reflexivity.
Qed.

(** C4. A request (SendRequest) and a small-file send (SendSmallFile)
    whose path, or path-and-mode string, is longer than 1024 bytes
    return false; nothing is handed to the connection and the peer's
    write budget is untouched. *)
Theorem long_path_rejected_before_write
    (id : Z) (path_and_mode rpath : string) (data : list byte)
    (mtime : Z) (w : world) :
  1024 < strlen path_and_mode ->
  (exists w', SendRequest id path_and_mode w = Ret false w'
              /\ stream_writes (trace w') = stream_writes (trace w)
              /\ wbudget w' = wbudget w /\ inp w' = inp w)
  /\ (exists w', SendSmallFile path_and_mode rpath data mtime w = Ret false w'
                 /\ stream_writes (trace w') = stream_writes (trace w)
                 /\ wbudget w' = wbudget w /\ inp w' = inp w).
Proof.
  intros Hlen. apply Z.ltb_lt in Hlen.
  split; eexists; (split; [|cbn; split]).
  - unfold SendRequest. rewrite Hlen. reflexivity.
  - cbn. rewrite stream_writes_app, app_nil_r. reflexivity.
  - auto.
  - unfold SendSmallFile, bind, Print, emit. rewrite Hlen. reflexivity.
  - cbn. rewrite !stream_writes_app, !app_nil_r. reflexivity.
  - auto.
Qed.

Lemma long_path_rejected_before_write_witness :
  1024 < strlen long_path
  /\ exists w', SendRequest ID_STAT long_path (session [] 100) = Ret false w'
                /\ stream_writes (trace w') = []
                /\ wbudget w' = 100.
Proof.
  split; [vm_compute; reflexivity|].
  destruct (long_path_rejected_before_write ID_STAT long_path long_path
              [] 0 (session [] 100)) as [[w' (H1 & H2 & H3 & _)] _].
  - vm_compute; reflexivity.
  - exists w'. auto.
Defined.

End PathLength.

(** ** The skip decision of a timestamped push *)

Section SkipDecision.

Lemma mark_skip_flag ci timestamp mode size :
  ci_flag ci = 0 ->
  ci_flag (mark_skip ci timestamp mode size) = 1
  <-> size = ci_size ci
      /\ ((S_ISREG (Z.land (ci_mode ci) mode) = true
           /\ timestamp = ci_time ci)
          \/ (S_ISLNK (Z.land (ci_mode ci) mode) = true
              /\ ci_time ci <= timestamp)).
Proof.
  intros H0. unfold mark_skip.
  destruct (size =? ci_size ci) eqn:Es;
    [apply Z.eqb_eq in Es | apply Z.eqb_neq in Es].
  - destruct (S_ISREG _) eqn:Er; destruct (S_ISLNK _) eqn:El;
      destruct (Z.eqb_spec timestamp (ci_time ci));
      destruct (Z.leb_spec (ci_time ci) timestamp); cbn;
      rewrite ?H0;
      intuition (try discriminate; try lia).
  - rewrite H0. split; [discriminate | tauto].
Qed.

(** C1, as the code has it.  For an item whose remote STAT reply has
    the local size, skip is chosen exactly when the file type test,
    applied to the bitwise AND of the local and the remote mode, says
    regular file and the timestamps are equal, or says symbolic link
    and the remote timestamp is not older.  In particular a local
    regular file that is a regular file on the remote side is skipped
    iff the timestamps are equal, and a local link that is a link on
    the remote side iff the remote timestamp is at least the local. *)
Theorem skip_decision (ci : copyinfo) (timestamp mode size : Z) :
  size = ci_size ci ->
  ci_flag ci = 0 ->
  let chosen := ci_flag (mark_skip ci timestamp mode size) = 1 in
  (chosen <->
     (S_ISREG (Z.land (ci_mode ci) mode) = true /\ timestamp = ci_time ci)
     \/ (S_ISLNK (Z.land (ci_mode ci) mode) = true
         /\ ci_time ci <= timestamp))
  /\ (S_ISREG (ci_mode ci) = true -> S_ISREG mode = true ->
      (chosen <-> timestamp = ci_time ci))
  /\ (S_ISLNK (ci_mode ci) = true -> S_ISLNK mode = true ->
      (chosen <-> ci_time ci <= timestamp)).
Proof.
  intros Hs H0 chosen. subst chosen.
  pose proof (mark_skip_flag ci timestamp mode size H0) as H.
  split; [|split].
  - rewrite H. tauto.
  - intros Hl Hr. pose proof (S_ISREG_land _ _ Hl Hr) as Hreg.
    rewrite H, Hreg, (S_ISREG_not_LNK _ Hreg).
    intuition discriminate.
  - intros Hl Hr. pose proof (S_ISLNK_land _ _ Hl Hr) as Hlnk.
    rewrite H, Hlnk, (S_ISLNK_not_REG _ Hlnk).
    intuition discriminate.
Qed.

Lemma skip_decision_witness :
  ci_flag (mark_skip file_4096 5 (ci_mode file_4096) 4096) = 1 <-> 5 = 5.
Proof.
  refine (proj1 (proj2 (skip_decision file_4096 5 (ci_mode file_4096) 4096
                          _ _)) _ _);
    vm_compute; reflexivity.
Defined.

(** The local item is a regular file, the remote STAT reply (of a
    directory) has the same size and the same timestamp, and skip is
    not chosen. *)
Lemma skip_not_chosen_against_directory :
  S_ISREG (ci_mode file_4096) = true
  /\ (exists w',
         check_timestamps_block [file_4096]
           (session (stat_reply remote_dir_mode 4096 5) 64)
         = Ret (Some [file_4096]) w')
  /\ ~ (ci_flag (mark_skip file_4096 5 remote_dir_mode (ci_size file_4096)) = 1
        <-> 5 = ci_time file_4096).
Proof.
  split; [reflexivity|]. split.
  - eexists. vm_compute. reflexivity.
  - intros [_ H]. specialize (H eq_refl). vm_compute in H. discriminate.
Qed.

End SkipDecision.

(** ** Destruction of the session *)

Section Shutdown.

(** C6, as the code has it.  The destructor looks at the descriptor
    only.  A session that never connected sends nothing.  A connected
    session always hands a QUIT request to the connection, whatever
    happened before; the stream is drained exactly when that write
    succeeds, and the descriptor is closed. *)
Theorem dtor_quits_whenever_connected (w : world) :
  exists w',
    SyncConnection_dtor w = Ret tt w'
    /\ trace w' =
       trace w ++
         (if 0 <=? fd w then
            if 8 <=? wbudget w
            then [EvWrite (request ID_QUIT EmptyString) true;
                  EvShutdown; EvCloseConn]
            else [EvWrite (request ID_QUIT EmptyString) false; EvCloseConn]
          else []).
Proof.
  unfold SyncConnection_dtor, IsValid, SendQuit, bind, get.
  destruct (0 <=? fd w) eqn:Ev; cbn [negb].
  - rewrite SendRequest_short by (vm_compute; discriminate).
    destruct (Z.leb_spec 8 (wbudget w)).
    + rewrite WriteFdExactly_fits by (change (blen _) with 8; lia).
      eexists. split; [reflexivity|]. cbn.
      rewrite <- !app_assoc. reflexivity.
    + rewrite WriteFdExactly_refused by (change (blen _) with 8; lia).
      eexists. split; [reflexivity|]. cbn.
      rewrite <- !app_assoc. reflexivity.
  - eexists. split; [reflexivity|]. rewrite app_nil_r. reflexivity.
Qed.

(** A push is refused by the peer, sync_send returns false, and the
    destructor still sends QUIT and drains the stream. *)
Lemma quit_sent_after_failed_push :
  exists w1 w2,
    sync_send "l/a" "r/a" 5 (Z.lor S_IFREG 420) refused_push = Ret false w1
    /\ SyncConnection_dtor w1 = Ret tt w2
    /\ trace w2 = trace w1 ++ [EvWrite (request ID_QUIT EmptyString) true;
                               EvShutdown; EvCloseConn].
Proof.
  do 2 eexists. split; [vm_compute; reflexivity|].
  split; vm_compute; reflexivity.
Qed.

End Shutdown.

(** ** The pipelined STAT requests of a timestamped push *)

Section Pipeline.

(** The first loop only writes (or reports a long path); it reads
    nothing, and when it succeeds it has written one STAT request per
    item, in list order. *)
Lemma stat_request_loop_trace filelist w :
  exists b w' ws,
    stat_request_loop filelist w = Ret b w'
    /\ trace w' = trace w ++ ws
    /\ inp w' = inp w
    /\ Forall (fun e => is_read e = false) ws
    /\ (b = true -> ws = map stat_write filelist).
Proof.
  revert w. induction filelist as [|ci rest IH]; intros w.
  - exists true, w, []. cbn. rewrite app_nil_r. auto.
  - cbn [stat_request_loop]. unfold bind, SendRequest.
    destruct (1024 <? strlen (ci_dst ci)) eqn:El.
    + eexists false, _, [_]. cbn.
      repeat split; try reflexivity; [|discriminate].
      repeat constructor.
    + unfold WriteFdExactly.
      destruct (blen _ <=? wbudget w) eqn:Eb; cbn [negb].
      * match goal with |- context [stat_request_loop rest ?w1] =>
          destruct (IH w1) as (b & w' & ws & -> & Ht & Hi & Hw & Hb) end.
        cbn in Ht, Hi.
        exists b, w', (stat_write ci :: ws).
        split; [reflexivity|]. split.
        { rewrite Ht, <- app_assoc. reflexivity. }
        split; [exact Hi|]. split.
        { constructor; [reflexivity | exact Hw]. }
        intros ->. rewrite Hb by reflexivity. reflexivity.
      * eexists false, _, [_]. cbn.
        repeat split; try reflexivity; [|discriminate].
        repeat constructor.
Qed.

Lemma sync_finish_stat_trace w :
  exists r w' e,
    sync_finish_stat w = Ret r w'
    /\ trace w' = trace w ++ [e]
    /\ is_read e = true
    /\ match r with
       | Some (timestamp, mode, size) =>
           exists m, e = stat_read m /\ inp w = m ++ inp w'
                     /\ blen m = sizeof_stat /\ rd32 0 m = ID_STAT
                     /\ timestamp = rd32 12 m /\ mode = rd32 4 m
                     /\ size = rd32 8 m
       | None => True
       end.
Proof.
  unfold sync_finish_stat, bind.
  destruct (ReadFdExactly sizeof_stat w) as [[msg|] w1|] eqn:E;
    [| |unfold ReadFdExactly in E; destruct (_ <? _); discriminate].
  - apply ReadFdExactly_inv in E as (rest1 & Hi & Hl & ->); [|vm_compute; discriminate].
    destruct (Z.eqb_spec (rd32 0 msg) ID_STAT) as [Hid|Hid]; cbn [negb].
    + eexists _, _, _. split; [reflexivity|]. cbn.
      repeat split. exists msg. cbn in Hi. auto 10.
    + eexists None, _, _. split; [reflexivity|]. cbn. auto.
  - apply ReadFdExactly_fail_inv in E as ->.
    eexists None, _, _. split; [reflexivity|]. cbn. auto.
Qed.

(** The second loop only reads; when it succeeds it has read one
    reply per item, in list order, and decided each item from the
    reply at the same position. *)
Lemma stat_reply_loop_trace filelist w :
  exists r w' rs,
    stat_reply_loop filelist w = Ret r w'
    /\ trace w' = trace w ++ rs
    /\ Forall (fun e => is_read e = true) rs
    /\ match r with
       | Some filelist' =>
           exists replies,
             rs = map stat_read replies
             /\ inp w = concat replies ++ inp w'
             /\ Forall (fun m => blen m = sizeof_stat
                                 /\ rd32 0 m = ID_STAT) replies
             /\ length replies = length filelist
             /\ filelist' = zip_with decided filelist replies
       | None => True
       end.
Proof.
  revert w. induction filelist as [|ci rest IH]; intros w.
  - exists (Some []), w, []. cbn. rewrite app_nil_r.
    repeat split; auto. exists []. auto.
  - cbn [stat_reply_loop]. unfold bind.
    destruct (sync_finish_stat_trace w) as (r & w1 & e & -> & Ht & He & Hr).
    destruct r as [[[timestamp mode] size]|].
    + destruct Hr as (m & -> & Hi & Hl & Hid & -> & -> & ->).
      destruct (IH w1) as (r & w' & rs & -> & Ht' & Hrs & Hr).
      exists (option_map (cons (decided ci m)) r), w', (stat_read m :: rs).
      split; [reflexivity|]. split.
      { rewrite Ht', Ht, <- app_assoc. reflexivity. }
      split; [constructor; auto|].
      destruct r as [fl'|]; cbn; [|trivial].
      destruct Hr as (replies & -> & Hi' & Hall & Hlen & ->).
      exists (m :: replies). cbn.
      rewrite Hi, Hi', <- app_assoc, Hlen. auto 10.
    + exists None, w1, [e]. auto.
Qed.

(** The phase always returns. *)
Lemma check_timestamps_block_returns filelist w :
  exists r w', check_timestamps_block filelist w = Ret r w'.
Proof.
  unfold check_timestamps_block.
  destruct (stat_request_loop_trace filelist w) as (b & w1 & ws & E1 & _).
  rewrite (bind_ret_eq _ _ _ _ _ E1).
  destruct b; cbn [negb].
  - destruct (stat_reply_loop_trace filelist w1) as (r & w' & rs & E2 & _).
    eauto.
  - unfold ret. eauto.
Qed.

(** A reply that is there and carries STAT is decoded from its
    three fields. *)
Lemma sync_finish_stat_reads m rest w :
  is_stat_reply m ->
  inp w = m ++ rest ->
  sync_finish_stat w
  = Ret (Some (rd32 12 m, rd32 4 m, rd32 8 m))
        (log (stat_read m) (set_net rest (wbudget w) w)).
Proof.
  intros [Hl Hid] Hi. unfold sync_finish_stat. rewrite <- Hl.
  rewrite (bind_ret_eq _ _ _ _ _ (ReadFdExactly_delivers _ _ _ Hi)).
  rewrite Hid, Z.eqb_refl, Hl. reflexivity.
Qed.

(** When every path fits a request and the peer takes them all, the
    first loop writes one STAT request per item and succeeds. *)
Lemma stat_request_loop_goes_out filelist : forall w,
  Forall (fun ci => strlen (ci_dst ci) <= 1024) filelist ->
  stat_traffic filelist <= wbudget w ->
  exists w',
    stat_request_loop filelist w = Ret true w'
    /\ trace w' = trace w ++ map stat_write filelist
    /\ inp w' = inp w
    /\ wbudget w' = wbudget w - stat_traffic filelist.
Proof.
  induction filelist as [|ci rest IH]; intros w Hp Hb.
  - exists w. cbn. rewrite app_nil_r, Z.sub_0_r. auto.
  - apply Forall_cons_1 in Hp as [Hc Hp]. cbn [stat_traffic fold_right] in Hb.
    fold (stat_traffic rest) in Hb.
    assert (0 <= stat_traffic rest).
    { clear. induction rest as [|c r IHr]; cbn; [lia|].
      fold (stat_traffic r). pose proof (strlen_nonneg (ci_dst c)). lia. }
    pose proof (strlen_nonneg (ci_dst ci)).
    cbn [stat_request_loop].
    rewrite (bind_ret_eq _ _ _ _ _
               (SendRequest_goes_out ID_STAT (ci_dst ci) w Hc ltac:(lia))).
    cbn [negb].
    match goal with |- context [stat_request_loop rest ?w1] =>
      destruct (IH w1 Hp) as (w' & E & Ht & Hi & Hbud) end.
    { cbn [wbudget log set_net]. lia. }
    exists w'. split; [exact E|].
    cbn [trace inp wbudget log set_net] in Ht, Hi, Hbud.
    rewrite Ht, Hi, Hbud, <- app_assoc.
    cbn [map stat_traffic fold_right]. fold (stat_traffic rest).
    repeat split; try reflexivity. lia.
Qed.

(** When a STAT reply arrives for every item, the second loop reads
    them in order and decides every item from the reply at its
    position. *)
Lemma stat_reply_loop_delivers filelist : forall replies rest w,
  length replies = length filelist ->
  Forall is_stat_reply replies ->
  inp w = concat replies ++ rest ->
  exists w',
    stat_reply_loop filelist w
    = Ret (Some (zip_with decided filelist replies)) w'
    /\ trace w' = trace w ++ map stat_read replies
    /\ inp w' = rest
    /\ wbudget w' = wbudget w.
Proof.
  induction filelist as [|ci fl IH]; intros replies rest w Hlen Hall Hi.
  - destruct replies; [|discriminate]. exists w. cbn.
    rewrite app_nil_r. auto.
  - destruct replies as [|m replies]; [discriminate|].
    apply Forall_cons_1 in Hall as [Hm Hall].
    cbn [concat] in Hi. rewrite <- app_assoc in Hi.
    cbn [stat_reply_loop].
    rewrite (bind_ret_eq _ _ _ _ _ (sync_finish_stat_reads _ _ _ Hm Hi)).
    match goal with |- context [bind (stat_reply_loop fl) _ ?w1] =>
      destruct (IH replies rest w1) as (w' & E & Ht & Hi' & Hbud);
        [cbn in Hlen; lia | exact Hall | reflexivity |];
      rewrite (bind_ret_eq _ _ _ _ _ E)
    end.
    exists w'. split; [reflexivity|].
    cbn [trace wbudget log set_net] in Ht, Hbud.
    rewrite Ht, <- app_assoc. auto.
Qed.

(** C7. In the skip-check phase every STAT request is written before
    any STAT reply is read.

    First, on any run the events of the phase are writes (or error
    reports) followed by reads; when the phase succeeds it has written
    one request per item in list order, then read as many replies in
    arrival order, and for every N the item at position N was decided
    from the reply at position N.

    Second, the phase does succeed on a peer that answers: when every
    destination path fits a request, the peer takes the requests and
    a STAT reply arrives for every item, the phase writes the STAT
    requests of all items in list order, then reads the replies in
    arrival order, and returns the list in which the item at each
    position is decided from the reply at the same position; what the
    peer sent after the replies is still unread. *)
Theorem stat_requests_before_replies (filelist : list copyinfo) :
  (forall w,
    exists r w' ws rs,
      check_timestamps_block filelist w = Ret r w'
      /\ trace w' = trace w ++ ws ++ rs
      /\ Forall (fun e => is_read e = false) ws
      /\ Forall (fun e => is_read e = true) rs
      /\ match r with
         | Some filelist' =>
             exists replies,
               ws = map stat_write filelist
               /\ rs = map stat_read replies
               /\ inp w = concat replies ++ inp w'
               /\ length replies = length filelist
               /\ length filelist' = length filelist
               /\ forall (N : nat) (ci : copyinfo),
                    filelist !! N = Some ci ->
                    exists m, replies !! N = Some m
                              /\ rd32 0 m = ID_STAT
                              /\ filelist' !! N = Some (decided ci m)
         | None => True
         end)
  /\ (forall replies rest w,
        Forall (fun ci => strlen (ci_dst ci) <= 1024) filelist ->
        stat_traffic filelist <= wbudget w ->
        length replies = length filelist ->
        Forall is_stat_reply replies ->
        inp w = concat replies ++ rest ->
        exists w',
          check_timestamps_block filelist w
          = Ret (Some (zip_with decided filelist replies)) w'
          /\ trace w' =
             trace w ++ map stat_write filelist ++ map stat_read replies
          /\ inp w' = rest
          /\ forall (N : nat) (ci : copyinfo) (m : list byte),
               filelist !! N = Some ci -> replies !! N = Some m ->
               zip_with decided filelist replies !! N
               = Some (decided ci m)).
Proof.
  split.
  2:{ intros replies rest w Hp Hb Hlen Hall Hi.
      destruct (stat_request_loop_goes_out filelist w Hp Hb)
        as (w1 & E1 & Ht1 & Hi1 & _).
      destruct (stat_reply_loop_delivers filelist replies rest w1 Hlen Hall)
        as (w' & E2 & Ht2 & Hi2 & _); [congruence|].
      exists w'. unfold check_timestamps_block.
      rewrite (bind_ret_eq _ _ _ _ _ E1). cbn [negb].
      split; [exact E2|]. split.
      { rewrite Ht2, Ht1, <- app_assoc. reflexivity. }
      split; [exact Hi2|].
      intros N ci m HN Hm. rewrite lookup_zip_with, HN. cbn.
      rewrite Hm. reflexivity. }
  intros w.
  unfold check_timestamps_block, bind.
  destruct (stat_request_loop_trace filelist w)
    as (b & w1 & ws & -> & Ht & Hi & Hws & Hb).
  destruct b; cbn [negb].
  - destruct (stat_reply_loop_trace filelist w1)
      as (r & w' & rs & -> & Ht' & Hrs & Hr).
    exists r, w', ws, rs. split; [reflexivity|]. split.
    { rewrite Ht', Ht, <- app_assoc. reflexivity. }
    do 2 (split; [assumption|]).
    destruct r as [fl'|]; [|trivial].
    destruct Hr as (replies & -> & Hi' & Hall & Hlen & ->).
    exists replies. rewrite <- Hi, Hb by reflexivity.
    repeat split; auto.
    { rewrite length_zip_with. lia. }
    intros N ci HN.
    destruct (lookup_lt_is_Some_2 replies N) as [m Hm].
    { rewrite Hlen. eapply lookup_lt_Some; eauto. }
    exists m. split; [exact Hm|]. split.
    { eapply Forall_lookup_1 in Hall; [|exact Hm]. apply Hall. }
    rewrite lookup_zip_with, HN. cbn. rewrite Hm. reflexivity.
  - exists None, w1, ws, []. rewrite app_nil_r. auto 10.
Qed.

End Pipeline.

(** ** Listing a remote directory *)

Section Listing.

Context {S : Type} (func : Z -> Z -> Z -> list byte -> S -> S).

Lemma dent_bytes_cons d ds :
  dent_bytes (d :: ds) = fst d ++ snd d ++ dent_bytes ds.
Proof. unfold dent_bytes. cbn. rewrite <- app_assoc. reflexivity. Qed.

(** The loop on a listing of well-formed dents closed by [term]. *)
Lemma sync_ls_loop_run ds : forall fuel s w term rest,
  Forall valid_dent ds ->
  (length ds < fuel)%nat ->
  blen term = sizeof_dent ->
  inp w = dent_bytes ds ++ term ++ rest ->
  (rd32 0 term = ID_DONE ->
   exists w', sync_ls_loop fuel func s w = Ret (true, deliver func ds s) w'
              /\ inp w' = rest)
  /\ (malformed term ->
      exists w', sync_ls_loop fuel func s w
                 = Ret (false, deliver func ds s) w'
                 /\ inp w' = rest).
Proof.
  induction ds as [|[m name] ds IH]; intros fuel s w term rest Hv Hf Ht Hi;
    (destruct fuel as [|fuel]; [cbn in Hf; lia|]);
    cbn [sync_ls_loop]; unfold bind.
  - cbn in Hi. rewrite <- Ht.
    rewrite (ReadFdExactly_delivers term rest w Hi).
    split.
    + intros Hd. rewrite Hd. cbn. eauto.
    + intros [[Hn1 Hn2]|[He Hl]].
      * destruct (Z.eqb_spec (rd32 0 term) ID_DONE); [contradiction|].
        destruct (Z.eqb_spec (rd32 0 term) ID_DENT); [contradiction|].
        cbn. eauto.
      * rewrite He. cbn.
        destruct (Z.ltb_spec 256 (rd32 16 term)); [|lia]. cbn. eauto.
  - inversion Hv as [|? ? (Hm & Hid & Hn & Hle) Hv']; subst.
    cbn [fst snd length] in *.
    rewrite dent_bytes_cons in Hi. cbn [fst snd] in Hi.
    rewrite <- !app_assoc in Hi. rewrite <- Hm.
    rewrite (ReadFdExactly_delivers m _ w Hi).
    rewrite Hid. cbn [Z.eqb ID_DONE ID_DENT Pos.eqb negb].
    rewrite Hn. destruct (Z.ltb_spec 256 (blen name)); [lia|].
    match goal with |- context [ReadFdExactly _ ?w1] =>
      rewrite (ReadFdExactly_delivers name (dent_bytes ds ++ term ++ rest) w1)
        by reflexivity end.
    match goal with |- context [sync_ls_loop fuel func ?s1 ?w1] =>
      apply (IH fuel s1 w1 term rest Hv'); cbn; auto; lia end.
Qed.

(** The loop returns true only after a DONE frame, having run the
    callback on the well-formed dents that came before it. *)
Lemma sync_ls_loop_true fuel : forall s w s' w',
  sync_ls_loop fuel func s w = Ret (true, s') w' ->
  exists ds term,
    Forall valid_dent ds /\ blen term = sizeof_dent
    /\ rd32 0 term = ID_DONE
    /\ inp w = dent_bytes ds ++ term ++ inp w'
    /\ s' = deliver func ds s.
Proof.
  induction fuel as [|fuel IH]; intros s w s' w'; [discriminate|].
  cbn [sync_ls_loop]. unfold bind.
  destruct (ReadFdExactly sizeof_dent w) as [[m|] w1|] eqn:E;
    [| discriminate | discriminate].
  apply ReadFdExactly_inv in E as (rest1 & Hi & Hl & ->); [|vm_compute; discriminate].
  destruct (Z.eqb_spec (rd32 0 m) ID_DONE) as [Hd|Hd].
  { intros [= <- <-]. exists [], m. cbn in Hi. cbn. auto. }
  destruct (Z.eqb_spec (rd32 0 m) ID_DENT) as [Hid|Hid]; [|discriminate].
  cbn [negb]. destruct (Z.ltb_spec 256 (rd32 16 m)); [discriminate|].
  match goal with |- context [ReadFdExactly _ ?w1] =>
    destruct (ReadFdExactly (rd32 16 m) w1) as [[name|] w2|] eqn:E2 end;
    [| discriminate | discriminate].
  apply ReadFdExactly_inv in E2 as (rest2 & Hi2 & Hl2 & ->);
    [|apply rd32_range].
  intros Hrun. apply IH in Hrun as (ds & term & Hv & Ht & Hdn & Hi3 & ->).
  exists ((m, name) :: ds), term. cbn in Hi, Hi2, Hi3.
  repeat split; auto.
  - constructor; [|exact Hv]. unfold valid_dent. cbn. repeat split; auto; lia.
  - rewrite dent_bytes_cons. cbn [fst snd].
    rewrite Hi, Hi2, Hi3, <- !app_assoc. reflexivity.
Qed.

(** The loop ends before the fuel does. *)
Lemma sync_ls_loop_total fuel : forall s w,
  (length (inp w) < fuel)%nat ->
  exists r w', sync_ls_loop fuel func s w = Ret r w'.
Proof.
  induction fuel as [|fuel IH]; intros s w Hf; [lia|].
  cbn [sync_ls_loop]. unfold bind.
  destruct (ReadFdExactly sizeof_dent w) as [[m|] w1|] eqn:E;
    [| eauto | unfold ReadFdExactly in E; destruct (_ <? _); discriminate].
  apply ReadFdExactly_inv in E as (rest1 & Hi & Hl & ->); [|vm_compute; discriminate].
  destruct (rd32 0 m =? ID_DONE); [eauto|].
  destruct (rd32 0 m =? ID_DENT); cbn [negb]; [|eauto].
  destruct (256 <? rd32 16 m); [eauto|].
  match goal with |- context [ReadFdExactly _ ?w1] =>
    destruct (ReadFdExactly (rd32 16 m) w1) as [[name|] w2|] eqn:E2 end;
    [| eauto | unfold ReadFdExactly in E2; destruct (_ <? _); discriminate].
  apply ReadFdExactly_inv in E2 as (rest2 & Hi2 & Hl2 & ->); [|apply rd32_range].
  apply IH. cbn in *. rewrite Hi, Hi2, !length_app in Hf.
  unfold blen, sizeof_dent in Hl. lia.
Qed.

Lemma dent_bytes_length ds :
  Forall valid_dent ds -> (20 * length ds <= length (dent_bytes ds))%nat.
Proof.
  induction 1 as [|d ds (Hm & _) _ IH]; [cbn; lia|].
  rewrite dent_bytes_cons, !length_app. cbn [length].
  unfold blen, sizeof_dent in Hm. lia.
Qed.

(** C8. A LIST transaction whose request goes out always returns.  On
    a reply stream of well-formed DENT frames followed by a DONE frame
    it runs the callback once per DENT, in arrival order, and returns
    true; followed instead by a frame that is neither DENT nor DONE,
    or by a DENT whose namelen exceeds 256, it returns false having
    run the callback on the earlier entries only, and reads nothing
    after that frame.  It returns true in no other case. *)
Theorem sync_ls_until_DONE (path : string) (s : S) (w : world) :
  strlen path <= 1024 ->
  blen (request ID_LIST path) <= wbudget w ->
  (exists r w', sync_ls path func s w = Ret r w')
  /\ (forall ds term rest,
        Forall valid_dent ds ->
        blen term = sizeof_dent ->
        inp w = dent_bytes ds ++ term ++ rest ->
        (rd32 0 term = ID_DONE ->
         exists w', sync_ls path func s w
                    = Ret (true, deliver func ds s) w'
                    /\ inp w' = rest)
        /\ (malformed term ->
            exists w', sync_ls path func s w
                       = Ret (false, deliver func ds s) w'
                       /\ inp w' = rest))
  /\ (forall s' w',
        sync_ls path func s w = Ret (true, s') w' ->
        exists ds term,
          Forall valid_dent ds /\ blen term = sizeof_dent
          /\ rd32 0 term = ID_DONE
          /\ inp w = dent_bytes ds ++ term ++ inp w'
          /\ s' = deliver func ds s).
Proof.
  intros Hp Hb. unfold sync_ls, bind, get.
  rewrite SendRequest_short, WriteFdExactly_fits by assumption.
  cbn [negb inp log set_net].
  split; [|split].
  - apply sync_ls_loop_total. cbn. lia.
  - intros ds term rest Hv Ht Hi.
    apply sync_ls_loop_run; auto.
    pose proof (dent_bytes_length ds Hv). rewrite Hi, !length_app. lia.
  - intros s' w' H. apply sync_ls_loop_true in H. exact H.
Qed.

End Listing.

(** ** The byte counter of the session *)

Section Accounting.

Lemma moved_app t1 t2 : moved (t1 ++ t2) = moved t1 + moved t2.
Proof.
  induction t1 as [|e t1 IH]; [reflexivity|].
  destruct e; cbn [app moved]; try lia;
    match goal with b : bool |- _ => destruct b end; lia.
Qed.

Lemma accounts_world w w' t :
  0 <= total_bytes w < 2 ^ 64 ->
  trace w' = trace w ++ t ->
  0 <= moved t ->
  total_bytes w' = u64 (total_bytes w + moved t) ->
  exists t0,
    trace w' = trace w ++ t0
    /\ 0 <= moved t0
    /\ total_bytes w' = u64 (total_bytes w + moved t0)
    /\ (total_bytes w + moved t0 < 2 ^ 64 ->
        total_bytes w' = total_bytes w + moved t0
        /\ total_bytes w <= total_bytes w').
Proof.
  intros Hr Ht Hm Hb. exists t.
  split; [exact Ht|]. split; [exact Hm|]. split; [exact Hb|].
  intros Hs. rewrite Hb, u64_small; lia.
Qed.

Lemma accounts_intro {A} (c : M A) w t :
  trace (world_of (c w)) = trace w ++ t ->
  0 <= moved t ->
  total_bytes (world_of (c w)) = u64 (total_bytes w + moved t) ->
  accounts_at c w.
Proof.
  intros Ht Hm Hb Hr. exists t.
  split; [exact Ht|]. split; [exact Hm|]. split; [exact Hb|].
  intros Hs. rewrite Hb, u64_small; lia.
Qed.

(** A step that leaves the counter alone and moves no payload. *)
Lemma accounts_quiet {A} (c : M A) w t :
  trace (world_of (c w)) = trace w ++ t ->
  moved t = 0 ->
  total_bytes (world_of (c w)) = total_bytes w ->
  accounts_at c w.
Proof.
  intros Ht Hm Hb Hr. exists t. rewrite Hm, Z.add_0_r, u64_small by lia.
  split; [exact Ht|]. split; [lia|]. split; [exact Hb|]. lia.
Qed.

Lemma accounts_ret {A} (a : A) w : accounts_at (ret a) w.
Proof.
  apply (accounts_quiet _ _ []); cbn; auto using app_nil_r.
Qed.

Lemma accounts_fault {A} why w : accounts_at (@fault A why) w.
Proof.
  apply (accounts_quiet _ _ []); cbn; auto. symmetry. apply app_nil_r.
Qed.

Lemma accounts_bind {A B} (c : M A) (k : A -> M B) w :
  accounts_at c w ->
  (forall a w1, c w = Ret a w1 -> accounts_at (k a) w1) ->
  accounts_at (bind c k) w.
Proof.
  intros Hc Hk Hr. destruct (Hc Hr) as (t1 & Ht1 & Hm1 & Hb1 & Hs1).
  unfold bind. destruct (c w) as [a w1|why w1] eqn:E; cbn in *.
  - destruct (Hk a w1 eq_refl) as (t2 & Ht2 & Hm2 & Hb2 & _).
    { rewrite Hb1. apply u64_range. }
    assert (Hb : total_bytes (world_of (k a w1))
                 = u64 (total_bytes w + moved (t1 ++ t2))).
    { rewrite Hb2, Hb1, u64_add_l, moved_app. f_equal. lia. }
    exists (t1 ++ t2). rewrite Ht2, Ht1, app_assoc.
    split; [reflexivity|]. split; [rewrite moved_app; lia|].
    split; [exact Hb|].
    intros Hs. rewrite Hb, u64_small; rewrite moved_app in *; lia.
  - exists t1. auto.
Qed.

Ltac quiet_leaf :=
  cbn [world_of trace total_bytes log set_net set_fs set_conn
       set_total_bytes];
  first [ exists (@nil event); rewrite app_nil_r; split; [reflexivity|]
        | eexists; split; [reflexivity|] ];
  cbn [moved]; rewrite Z.add_0_r, u64_small by lia;
  repeat split; lia.

Ltac quiet :=
  unfold accounts_at; intros ?; cbv beta; repeat case_match; quiet_leaf.

Lemma accounts_emit e w :
  match e with
  | EvWrite _ _ | EvFileWrite _ _ _ => False
  | _ => True
  end -> accounts_at (emit e) w.
Proof. destruct e; intros []; unfold emit; quiet. Qed.

Lemma accounts_get {A} (f : world -> A) w : accounts_at (get f) w.
Proof. unfold get. quiet. Qed.

Lemma accounts_ReadFdExactly len w : accounts_at (ReadFdExactly len) w.
Proof. unfold ReadFdExactly. quiet. Qed.

Lemma accounts_WriteFdExactly buf w :
  payload_sent buf = 0 -> accounts_at (WriteFdExactly buf) w.
Proof.
  intros Hp. unfold WriteFdExactly, accounts_at. intros Hr. cbv beta.
  case_match; cbn [world_of trace total_bytes log set_net];
    (eexists; split; [reflexivity|]); cbn [moved]; rewrite ?Hp;
    rewrite Z.add_0_r, u64_small by lia; repeat split; lia.
Qed.

Lemma accounts_stat p w : accounts_at (stat p) w.
Proof. unfold stat. unfold accounts_at. intros. quiet_leaf. Qed.

Lemma accounts_readlink p n w : accounts_at (readlink p n) w.
Proof. unfold readlink. unfold accounts_at. intros. quiet_leaf. Qed.

Lemma accounts_ReadFileToString p w : accounts_at (ReadFileToString p) w.
Proof. unfold ReadFileToString. unfold accounts_at. intros. quiet_leaf. Qed.

Lemma accounts_adb_open p w : accounts_at (adb_open p) w.
Proof. unfold adb_open. quiet. Qed.

Lemma accounts_adb_read lfd n w : accounts_at (adb_read lfd n) w.
Proof. unfold adb_read. quiet. Qed.

Lemma accounts_adb_close lfd w : accounts_at (adb_close lfd) w.
Proof. unfold adb_close. quiet. Qed.

Lemma accounts_adb_unlink p w : accounts_at (adb_unlink p) w.
Proof. unfold adb_unlink. quiet. Qed.

Lemma accounts_adb_creat p m w : accounts_at (adb_creat p m) w.
Proof. unfold adb_creat. quiet. Qed.

Lemma accounts_ReadOrderlyShutdown w : accounts_at ReadOrderlyShutdown w.
Proof. unfold ReadOrderlyShutdown. quiet. Qed.

Create HintDb accounts.
#[local] Hint Resolve accounts_ret accounts_fault accounts_get accounts_ReadFdExactly
  accounts_stat accounts_readlink accounts_ReadFileToString
  accounts_adb_open accounts_adb_read accounts_adb_close
  accounts_adb_unlink accounts_adb_creat accounts_ReadOrderlyShutdown
  : accounts.

Ltac acc_emit :=
  first [ apply accounts_emit; exact I ].

(** Splits a computation along its binds and branches. *)
Ltac acc :=
  repeat first
    [ progress intros
    | apply accounts_bind
    | solve [auto with accounts]
    | solve [unfold Print, Printf, Error, fprintf_stderr, mkdirs,
                    adb_close_conn; acc_emit]
    | match goal with
      | |- accounts_at (if ?b then _ else _) _ => destruct b
      | |- accounts_at (match ?x with _ => _ end) _ => destruct x
      end ].

Lemma payload_sent_request id path :
  u32 id <> ID_DATA -> strlen path <= 1024 ->
  payload_sent (request id path) = 0.
Proof.
  intros Hid Hp. unfold payload_sent.
  pose proof (strlen_nonneg path).
  assert (H0 : rd32 0 (request id path) = u32 id) by apply rd32_0.
  assert (H4 : rd32 4 (request id path) = strlen path).
  { unfold request. rewrite rd32_4. apply Z.mod_small. lia. }
  rewrite H0, H4, blen_request.
  destruct (Z.eqb_spec (u32 id) ID_DATA); [contradiction|].
  destruct (u32 id =? ID_SEND); lia.
Qed.

Lemma payload_sent_data_frame chunk :
  payload_sent (data_frame chunk) = blen chunk.
Proof.
  unfold payload_sent, data_frame. rewrite rd32_0.
  change (ID_DATA mod 2 ^ 32 =? ID_DATA) with true. cbn match.
  rewrite !blen_app. change (blen (le32 _)) with 4 at 1.
  change (blen (le32 (blen chunk))) with 4. lia.
Qed.

Lemma payload_sent_done_frame mtime : payload_sent (done_frame mtime) = 0.
Proof. unfold payload_sent, done_frame. rewrite rd32_0. reflexivity. Qed.

Lemma payload_sent_burst pm data mtime :
  strlen pm <= 1024 -> payload_sent (burst pm data mtime) = blen data.
Proof.
  intros Hp. pose proof (strlen_nonneg pm). pose proof (blen_nonneg data).
  unfold payload_sent, burst. rewrite rd32_0, rd32_4.
  change (ID_SEND mod 2 ^ 32 =? ID_DATA) with false.
  change (ID_SEND mod 2 ^ 32 =? ID_SEND) with true. cbn match.
  rewrite Z.mod_small by lia.
  rewrite !blen_app.
  replace (blen (list_byte_of_string pm)) with (strlen pm)
    by (unfold blen, strlen; now rewrite length_list_byte_of_string).
  change (blen (le32 ID_SEND)) with 4. change (blen (le32 (strlen pm))) with 4.
  change (blen (le32 ID_DATA)) with 4. change (blen (le32 (blen data))) with 4.
  change (blen (le32 ID_DONE)) with 4. change (blen (le32 mtime)) with 4.
  lia.
Qed.

Lemma accounts_SendRequest id path w :
  u32 id <> ID_DATA -> accounts_at (SendRequest id path) w.
Proof.
  intros Hid. unfold SendRequest.
  destruct (Z.ltb_spec 1024 (strlen path)); [acc|].
  apply accounts_WriteFdExactly. apply payload_sent_request; auto.
Qed.

(** A write to the connection followed, when it succeeds, by the
    addition of its payload to the counter. *)
Lemma accounts_write_add {A} buf n (X Y : M A) w :
  payload_sent buf = n -> 0 <= n ->
  (forall w1, accounts_at X w1) -> (forall w1, accounts_at Y w1) ->
  accounts_at (do ok <- WriteFdExactly buf;
               if negb ok then X else run add_total_bytes n; Y) w.
Proof.
  intros Hp Hn HX HY Hr. unfold bind, WriteFdExactly, add_total_bytes.
  destruct (blen buf <=? wbudget w); cbn [negb total_bytes log set_net].
  - match goal with |- context [Y ?w2] =>
      destruct (HY w2) as (t & Ht & Hm & Hb & _) end.
    { cbn. apply u64_range. }
    cbn [trace total_bytes log set_net set_fs set_total_bytes set_conn]
      in Ht, Hb.
    apply (accounts_world _ _ (EvWrite buf true :: t)); auto.
    + rewrite Ht, <- app_assoc. reflexivity.
    + cbn. lia.
    + rewrite Hb, u64_add_l. cbn [moved]. f_equal. lia.
  - match goal with |- context [X ?w2] =>
      destruct (HX w2) as (t & Ht & Hm & Hb & _) end; [exact Hr|].
    cbn [trace total_bytes log set_net set_fs set_total_bytes set_conn]
      in Ht, Hb.
    apply (accounts_world _ _ (EvWrite buf false :: t)); auto.
    rewrite Ht, <- app_assoc. reflexivity.
Qed.

(** The same for a write to the destination file. *)
Lemma accounts_file_write_add {A} lfd buf n (X Y : M A) w :
  blen buf = n ->
  (forall w1, accounts_at X w1) -> (forall w1, accounts_at Y w1) ->
  accounts_at (do ok <- WriteFdExactly_file lfd buf;
               if negb ok then X else run add_total_bytes n; Y) w.
Proof.
  intros Hp HX HY Hr. pose proof (blen_nonneg buf).
  unfold bind, WriteFdExactly_file, add_total_bytes.
  destruct (lfds w !! lfd) as [[p off]|];
    [destruct (blen buf <=? disk_free w)|];
    cbn [negb total_bytes log set_fs].
  - match goal with |- context [Y ?w2] =>
      destruct (HY w2) as (t & Ht & Hm & Hb & _) end.
    { cbn. apply u64_range. }
    cbn [trace total_bytes log set_net set_fs set_total_bytes set_conn]
      in Ht, Hb.
    apply (accounts_world _ _ (EvFileWrite lfd buf true :: t)); auto.
    + rewrite Ht, <- app_assoc. reflexivity.
    + cbn. lia.
    + rewrite Hb, u64_add_l. cbn [moved]. f_equal. lia.
  - match goal with |- context [X ?w2] =>
      destruct (HX w2) as (t & Ht & Hm & Hb & _) end; [exact Hr|].
    cbn [trace total_bytes log set_net set_fs set_total_bytes set_conn]
      in Ht, Hb.
    apply (accounts_world _ _ (EvFileWrite lfd buf false :: t)); auto.
    rewrite Ht, <- app_assoc. reflexivity.
  - match goal with |- context [X ?w2] =>
      destruct (HX w2) as (t & Ht & Hm & Hb & _) end; [exact Hr|].
    cbn [trace total_bytes log set_net set_fs set_total_bytes set_conn]
      in Ht, Hb.
    apply (accounts_world _ _ (EvFileWrite lfd buf false :: t)); auto.
    rewrite Ht, <- app_assoc. reflexivity.
Qed.

Lemma accounts_SendSmallFile pm rpath data mtime w :
  accounts_at (SendSmallFile pm rpath data mtime) w.
Proof.
  unfold SendSmallFile. apply accounts_bind; [acc|]. intros _ w1 _.
  destruct (Z.ltb_spec 1024 (strlen pm)); [acc|].
  apply accounts_write_add; [|apply blen_nonneg|acc|acc].
  apply payload_sent_burst. assumption.
Qed.

Lemma accounts_ReportCopyFailure from to msglen w :
  accounts_at (ReportCopyFailure from to msglen) w.
Proof. unfold ReportCopyFailure. acc. Qed.

Lemma accounts_CopyDone from to w : accounts_at (CopyDone from to) w.
Proof.
  unfold CopyDone. acc; try apply accounts_ReportCopyFailure.
Qed.

Lemma accounts_sync_finish_stat w : accounts_at sync_finish_stat w.
Proof. unfold sync_finish_stat. acc. Qed.

Lemma accounts_sync_stat path w : accounts_at (sync_stat path) w.
Proof.
  unfold sync_stat. apply accounts_bind.
  - apply accounts_SendRequest. vm_compute. discriminate.
  - acc; try apply accounts_sync_finish_stat.
Qed.

Lemma accounts_sync_ls_loop {S} (func : Z -> Z -> Z -> list byte -> S -> S)
    fuel : forall s w, accounts_at (sync_ls_loop fuel func s) w.
Proof.
  induction fuel as [|fuel IH]; intros s w; cbn [sync_ls_loop]; acc;
    try apply IH.
Qed.

Lemma accounts_sync_ls {S} path
    (func : Z -> Z -> Z -> list byte -> S -> S) s w :
  accounts_at (sync_ls path func s) w.
Proof.
  unfold sync_ls. apply accounts_bind.
  - apply accounts_SendRequest. vm_compute. discriminate.
  - acc; try apply accounts_sync_ls_loop.
Qed.

Lemma accounts_SendLargeFile_loop lfd lpath rpath total_size fuel :
  forall bytes_copied w,
    accounts_at (SendLargeFile_loop fuel lfd lpath rpath
                                    total_size bytes_copied) w.
Proof.
  induction fuel as [|fuel IH]; intros bc w; cbn [SendLargeFile_loop];
    [acc|].
  apply accounts_bind; [acc|]. intros count w1 _.
  apply accounts_bind; [acc|]. intros [chunk|] w2 _; [|acc].
  destruct (blen chunk <=? 0); [acc|].
  apply accounts_write_add;
    [apply payload_sent_data_frame | apply blen_nonneg | acc |].
  intros w3. destruct (total_size =? 0); [acc|].
  apply accounts_bind; [acc|]. intros _ w4 _. apply IH.
Qed.

Lemma accounts_SendLargeFile pm lpath rpath mtime w :
  accounts_at (SendLargeFile pm lpath rpath mtime) w.
Proof.
  unfold SendLargeFile. apply accounts_bind.
  { apply accounts_SendRequest. vm_compute. discriminate. }
  intros [|] w1 _; cbn [negb]; [|acc].
  apply accounts_bind; [acc|]. intros [[m sz]|] w2 _; [|acc].
  apply accounts_bind; [acc|]. intros lfd w3 _.
  destruct (lfd <? 0); [acc|].
  apply accounts_bind; [acc|]. intros fuel w4 _.
  apply accounts_bind; [apply accounts_SendLargeFile_loop|].
  intros [|] w5 _; cbn [negb]; [|acc].
  apply accounts_bind; [acc|]. intros _ w6 _.
  apply accounts_bind; [|acc].
  apply accounts_WriteFdExactly, payload_sent_done_frame.
Qed.

Lemma accounts_sync_send lpath rpath mtime mode w :
  accounts_at (sync_send lpath rpath mtime mode) w.
Proof.
  unfold sync_send.
  destruct (S_ISLNK mode).
  { apply accounts_bind; [acc|]. intros [target|] w1 _; [|acc].
    apply accounts_bind; [apply accounts_SendSmallFile|].
    acc; try apply accounts_CopyDone. }
  destruct (S_ISREG mode); cbn [negb]; [|acc].
  apply accounts_bind; [acc|]. intros [[m sz]|] w1 _; [|acc].
  destruct (sz <? SYNC_DATA_MAX).
  - apply accounts_bind; [acc|]. intros [data|] w2 _; [|acc].
    apply accounts_bind; [apply accounts_SendSmallFile|].
    acc; try apply accounts_CopyDone.
  - apply accounts_bind; [apply accounts_SendLargeFile|].
    acc; try apply accounts_CopyDone.
Qed.

Lemma accounts_sync_recv_loop rpath lpath lfd size fuel :
  forall bytes_copied w,
    accounts_at (sync_recv_loop fuel rpath lpath lfd size bytes_copied) w.
Proof.
  induction fuel as [|fuel IH]; intros bc w; cbn [sync_recv_loop]; [acc|].
  apply accounts_bind; [acc|]. intros [msg|] w1 _; [|acc].
  destruct (rd32 0 msg =? ID_DONE); [acc|].
  destruct (rd32 0 msg =? ID_DATA); cbn [negb].
  2:{ acc; try apply accounts_ReportCopyFailure. }
  apply accounts_bind; [acc|]. intros limit w2 _.
  destruct (limit <? rd32 4 msg); [acc|].
  apply accounts_bind; [acc|]. intros [buffer|] w3 Hread; [|acc].
  apply ReadFdExactly_inv in Hread as (? & _ & Hlen & _); [|apply rd32_range].
  apply accounts_file_write_add; [exact Hlen | acc |].
  intros w4. destruct (size =? 0); [acc|].
  apply accounts_bind; [acc|]. intros _ w5 _. apply IH.
Qed.

Lemma accounts_sync_recv rpath lpath w :
  accounts_at (sync_recv rpath lpath) w.
Proof.
  unfold sync_recv. apply accounts_bind; [acc|]. intros _ w1 _.
  apply accounts_bind; [apply accounts_sync_stat|].
  intros [[[t m] size]|] w2 _; [|acc].
  apply accounts_bind.
  { apply accounts_SendRequest. vm_compute. discriminate. }
  intros [|] w3 _; cbn [negb]; [|acc].
  apply accounts_bind; [acc|]. intros _ w4 _.
  apply accounts_bind; [acc|]. intros _ w5 _.
  apply accounts_bind; [acc|]. intros lfd w6 _.
  destruct (lfd <? 0); [acc|].
  apply accounts_bind; [acc|]. intros fuel w7 _.
  apply accounts_bind; [apply accounts_sync_recv_loop|].
  acc.
Qed.

Lemma accounts_stat_request_loop filelist :
  forall w, accounts_at (stat_request_loop filelist) w.
Proof.
  induction filelist as [|ci rest IH]; intros w; cbn [stat_request_loop];
    [acc|].
  apply accounts_bind.
  { apply accounts_SendRequest. vm_compute. discriminate. }
  intros [|] w1 _; cbn [negb]; [apply IH | acc].
Qed.

Lemma accounts_stat_reply_loop filelist :
  forall w, accounts_at (stat_reply_loop filelist) w.
Proof.
  induction filelist as [|ci rest IH]; intros w; cbn [stat_reply_loop];
    [acc|].
  apply accounts_bind; [apply accounts_sync_finish_stat|].
  intros [[[t m] size]|] w1 _; [|acc].
  apply accounts_bind; [apply IH | acc].
Qed.

Lemma accounts_push_loop list_only filelist :
  forall pushed skipped w,
    accounts_at (push_loop list_only filelist pushed skipped) w.
Proof.
  induction filelist as [|ci rest IH]; intros pushed skipped w;
    cbn [push_loop]; [acc|].
  destruct (ci_flag ci =? 0); [|apply IH].
  destruct list_only.
  - apply accounts_bind; [acc | intros; apply IH].
  - apply accounts_bind; [apply accounts_sync_send|].
    intros [|] w1 _; cbn [negb]; [apply IH | acc].
Qed.

Lemma accounts_copy_local_dir_remote filelist rpath check list_only w :
  accounts_at (copy_local_dir_remote filelist rpath check list_only) w.
Proof.
  unfold copy_local_dir_remote, check_timestamps_block.
  apply accounts_bind.
  { destruct check; [|acc]. apply accounts_bind.
    - apply accounts_stat_request_loop.
    - intros [|] w1 _; cbn [negb]; [apply accounts_stat_reply_loop | acc]. }
  intros [fl|] w1 _; [|acc].
  apply accounts_bind; [apply accounts_push_loop | acc].
Qed.

(** Operations that move no payload leave the counter alone. *)
Lemma keeps_bind {A B} (c : M A) (k : A -> M B) w :
  keeps_total c w ->
  (forall a w1, c w = Ret a w1 -> keeps_total (k a) w1) ->
  keeps_total (bind c k) w.
Proof.
  unfold keeps_total, bind. intros Hc Hk.
  destruct (c w) as [a w1|why w1]; cbn in *; [|exact Hc].
  rewrite (Hk a w1 eq_refl). exact Hc.
Qed.

Lemma keeps_ReadFdExactly len w : keeps_total (ReadFdExactly len) w.
Proof. unfold keeps_total, ReadFdExactly. case_match; reflexivity. Qed.

Lemma keeps_SendRequest id path w : keeps_total (SendRequest id path) w.
Proof.
  unfold keeps_total, SendRequest, WriteFdExactly, bind, Error, emit, ret.
  repeat case_match; reflexivity.
Qed.

Lemma keeps_sync_finish_stat w : keeps_total sync_finish_stat w.
Proof.
  unfold sync_finish_stat. apply keeps_bind; [apply keeps_ReadFdExactly|].
  intros [msg|] w1 _; [destruct (negb _)|]; reflexivity.
Qed.

Lemma keeps_sync_stat path w : keeps_total (sync_stat path) w.
Proof.
  unfold sync_stat. apply keeps_bind; [apply keeps_SendRequest|].
  intros [|] w1 _; [apply keeps_sync_finish_stat | reflexivity].
Qed.

Lemma keeps_sync_ls_loop {S} (func : Z -> Z -> Z -> list byte -> S -> S)
    fuel : forall s w, keeps_total (sync_ls_loop fuel func s) w.
Proof.
  induction fuel as [|fuel IH]; intros s w; [reflexivity|].
  cbn [sync_ls_loop]. apply keeps_bind; [apply keeps_ReadFdExactly|].
  intros [msg|] w1 _; [|reflexivity].
  destruct (_ =? ID_DONE); [reflexivity|].
  destruct (negb _); [reflexivity|].
  destruct (256 <? _); [reflexivity|].
  apply keeps_bind; [apply keeps_ReadFdExactly|].
  intros [buf|] w2 _; [apply IH | reflexivity].
Qed.

Lemma keeps_sync_ls {S} path (func : Z -> Z -> Z -> list byte -> S -> S)
    s w : keeps_total (sync_ls path func s) w.
Proof.
  unfold sync_ls. apply keeps_bind; [apply keeps_SendRequest|].
  intros [|] w1 _; [|reflexivity]. cbn [negb].
  apply keeps_bind; [reflexivity|]. intros fuel w2 _.
  apply keeps_sync_ls_loop.
Qed.

(** C9.  total_bytes starts at 0 and never decreases: every
    operation of the session adds to it the DATA payload bytes the
    operation moved.  Sending a small file, sending a large file,
    pushing a file or a list of files, and receiving a file add what
    they moved (possibly nothing); stat and list leave the counter
    unchanged.  The counter is a uint64_t, so that the sum is taken in
    64 bits: as long as it fits them, which it does until a session
    has moved 2^64 bytes, the counter after an operation is the
    counter before it plus the bytes moved, and is not smaller. *)
Theorem total_bytes_counts_payload :
  (forall connected w,
      total_bytes (world_of (SyncConnection_ctor connected w)) = 0)
  /\ (forall pm rpath data mtime,
        accounts (SendSmallFile pm rpath data mtime))
  /\ (forall pm lpath rpath mtime,
        accounts (SendLargeFile pm lpath rpath mtime))
  /\ (forall lpath rpath mtime mode,
        accounts (sync_send lpath rpath mtime mode))
  /\ (forall rpath lpath, accounts (sync_recv rpath lpath))
  /\ (forall filelist rpath check_timestamps list_only,
        accounts (copy_local_dir_remote filelist rpath
                                        check_timestamps list_only))
  /\ (forall path w, keeps_total (sync_stat path) w)
  /\ (forall (S : Type) path
             (func : Z -> Z -> Z -> list byte -> S -> S) s w,
        keeps_total (sync_ls path func s) w).
Proof.
  split.
  { intros connected w. unfold SyncConnection_ctor. cbv zeta.
    destruct (connected <? 0); reflexivity. }
  repeat (match goal with |- _ /\ _ => split end); intros.
  - intros w. apply accounts_SendSmallFile.
  - intros w. apply accounts_SendLargeFile.
  - intros w. apply accounts_sync_send.
  - intros w. apply accounts_sync_recv.
  - intros w. apply accounts_copy_local_dir_remote.
  - apply keeps_sync_stat.
  - apply keeps_sync_ls.
Qed.

End Accounting.

(** ** Pulling one file *)

Section Receive.

Variables (rpath lpath : string) (lfd size : Z).

Lemma cleaned_up_later w0 w w' t0 :
  trace w = trace w0 ++ t0 ->
  cleaned_up lpath lfd w w' -> cleaned_up lpath lfd w0 w'.
Proof.
  intros Ht (Hf & Hd & t1 & t2 & Htr & Hq).
  split; [exact Hf|]. split; [exact Hd|].
  exists (t0 ++ t1), t2. split; [|exact Hq].
  rewrite Htr, Ht, <- !app_assoc. reflexivity.
Qed.

Ltac before_close l :=
  lazymatch l with
  | EvClose _ :: _ => constr:(@nil event)
  | ?e :: ?r => let p := before_close r in constr:(e :: p)
  end.

Ltac after_unlink l :=
  lazymatch l with
  | EvClose _ :: EvUnlink _ :: ?r => constr:(r)
  | _ :: ?r => after_unlink r
  end.

(** Closes the goal [cleaned_up lpath lfd w W] for an explicit [W]. *)
Ltac clean_leaf :=
  unfold cleaned_up;
  cbn [files lfds trace log set_fs set_net set_total_bytes set_conn];
  split; [apply lookup_delete_eq|];
  split; [apply lookup_delete_eq|];
  rewrite <- ?app_assoc; cbn [app];
  lazymatch goal with
  | |- exists t1 t2, _ ++ ?l = _ /\ _ =>
      let p := before_close l in
      let q := after_unlink l in
      exists p, q; split; [reflexivity | repeat constructor]
  end.

(** ReportCopyFailure returns false, whatever the peer sends for the
    reason; it reads and reports and leaves the local side alone. *)
Lemma ReportCopyFailure_returns from to msglen w :
  exists w', ReportCopyFailure from to msglen w = Ret false w'.
Proof.
  unfold ReportCopyFailure. cbv zeta. unfold bind at 1.
  destruct (u32 (msglen + 1) =? 0).
  - unfold ReadFdExactly_no_room, bind, Error, emit, ret.
    eexists. reflexivity.
  - unfold ReadFdExactly. destruct (blen (inp w) <? msglen);
      unfold bind, Error, emit, ret; eexists; reflexivity.
Qed.

Lemma ReportCopyFailure_quiet from to msglen w b w' :
  ReportCopyFailure from to msglen w = Ret b w' ->
  b = false /\ files w' = files w /\ lfds w' = lfds w
  /\ exists t, trace w' = trace w ++ t
               /\ Forall (fun e => fs_event e = false) t.
Proof.
  unfold ReportCopyFailure. cbv zeta. unfold bind at 1.
  destruct (u32 (msglen + 1) =? 0).
  - unfold ReadFdExactly_no_room, bind, Error, emit, ret.
    intros [= <- <-]. cbn [files lfds trace log].
    rewrite <- app_assoc.
    repeat (match goal with |- _ /\ _ => split end); try reflexivity.
    eexists. split; [reflexivity | repeat constructor].
  - unfold ReadFdExactly. destruct (blen (inp w) <? msglen);
      unfold bind, Error, emit, ret; intros [= <- <-];
      cbn [files lfds trace log set_net]; rewrite <- app_assoc;
      (repeat (match goal with |- _ /\ _ => split end); try reflexivity);
      eexists; (split; [reflexivity | repeat constructor]).
Qed.

(** Every way the loop returns false first closes the destination
    descriptor and unlinks the destination path. *)
Lemma sync_recv_loop_false fuel : forall bytes_copied w w',
  sync_recv_loop fuel rpath lpath lfd size bytes_copied w = Ret false w' ->
  cleaned_up lpath lfd w w'.
Proof.
  induction fuel as [|fuel IH]; intros bc w w' H; [discriminate|].
  cbn [sync_recv_loop] in H. unfold bind at 1 in H.
  destruct (ReadFdExactly sizeof_data w) as [[msg|] w1|] eqn:E1;
    [| |discriminate].
  2:{ (* short read of the header *)
    apply ReadFdExactly_fail_inv in E1 as ->.
    unfold bind, adb_close, adb_unlink, ret in H. simplify_eq. clean_leaf. }
  apply ReadFdExactly_inv in E1 as (rest1 & Hi & Hl & ->); [|vm_compute; discriminate].
  destruct (rd32 0 msg =? ID_DONE); [discriminate|].
  destruct (rd32 0 msg =? ID_DATA); cbn [negb] in H.
  2:{ (* neither DATA nor DONE *)
    apply bind_inv in H as ([] & w2 & E2 & H). injection E2 as <-.
    apply bind_inv in H as ([] & w3 & E3 & H). injection E3 as <-.
    apply bind_inv in H as (b & w4 & E4 & H). injection H as <-.
    apply ReportCopyFailure_quiet in E4 as (_ & Hf & Hd & t & Ht & Hq).
    unfold cleaned_up. rewrite Hf, Hd, Ht.
    cbn [files lfds trace log set_fs set_net].
    split; [apply lookup_delete_eq|]. split; [apply lookup_delete_eq|].
    rewrite <- !app_assoc. cbn [app].
    exists [EvRead sizeof_data (Some msg)], t.
    split; [reflexivity | exact Hq]. }
  unfold bind at 1, get at 1 in H. cbn [max log set_net] in H.
  destruct (max w <? rd32 4 msg).
  { (* oversized DATA *)
    unfold bind, Error, emit, adb_close, adb_unlink, ret in H.
    simplify_eq. clean_leaf. }
  unfold bind at 1 in H.
  match type of H with context [ReadFdExactly ?n ?w1] =>
    destruct (ReadFdExactly n w1) as [[buffer|] w2|] eqn:E2 end;
    [| |discriminate].
  2:{ (* short read of the payload *)
    apply ReadFdExactly_fail_inv in E2 as ->.
    unfold bind, adb_close, adb_unlink, ret in H. simplify_eq. clean_leaf. }
  apply ReadFdExactly_inv in E2 as (rest2 & Hi2 & Hl2 & ->); [|apply rd32_range].
  unfold bind at 1, WriteFdExactly_file in H.
  cbn [lfds disk_free log set_net] in H.
  destruct (lfds w !! lfd) as [[p off]|];
    [destruct (blen buffer <=? disk_free w)|]; cbn [negb] in H.
  - (* the chunk is stored: next iteration *)
    unfold bind at 1, add_total_bytes in H.
    destruct (size =? 0); [discriminate|].
    unfold bind at 1, Printf, emit in H.
    apply IH in H. eapply cleaned_up_later; [|exact H].
    cbn [trace log set_fs set_net set_total_bytes set_conn].
    rewrite <- !app_assoc. reflexivity.
  - (* local write failure *)
    unfold bind, Error, emit, adb_close, adb_unlink, ret in H.
    simplify_eq. clean_leaf.
  - unfold bind, Error, emit, adb_close, adb_unlink, ret in H.
    simplify_eq. clean_leaf.
Qed.

(** An oversized DATA header ends the loop at once. *)
Lemma sync_recv_loop_oversized fuel bytes_copied n rest w :
  inp w = data_header n ++ rest ->
  0 <= max w ->
  max w < n < 2 ^ 32 ->
  exists w',
    sync_recv_loop (S fuel) rpath lpath lfd size bytes_copied w
    = Ret false w'
    /\ inp w' = rest
    /\ trace w' =
       trace w ++
         [EvRead sizeof_data (Some (data_header n));
          EvError "msg.data.size too large: %u (max %zu)"
                  [AInt n; AInt (max w)];
          EvClose lfd; EvUnlink lpath]
    /\ files w' !! lpath = None
    /\ lfds w' !! lfd = None
    /\ total_bytes w' = total_bytes w.
Proof.
  intros Hi Hm Hn. cbn [sync_recv_loop].
  change sizeof_data with (blen (data_header n)).
  rewrite (bind_ret_eq _ _ _ _ _ (ReadFdExactly_delivers _ _ _ Hi)).
  rewrite rd32_data_header_0, rd32_data_header_4 by lia.
  change (ID_DATA =? ID_DONE) with false.
  change (ID_DATA =? ID_DATA) with true. cbn [negb].
  unfold bind at 1, get at 1. cbn [max log set_net].
  destruct (Z.ltb_spec (max w) n); [|lia].
  eexists. split; [reflexivity|].
  cbn [inp trace files lfds total_bytes log set_net set_fs].
  rewrite <- !app_assoc.
  repeat split; apply lookup_delete_eq.
Qed.

(** Each of the five failures ends the turn it is met in with
    the result false. *)
Lemma sync_recv_loop_fails fuel bytes_copied w :
  fails_next (max w) (disk_free w) (inp w) ->
  exists w',
    sync_recv_loop (S fuel) rpath lpath lfd size bytes_copied w
    = Ret false w'.
Proof.
  intros H. remember (inp w) as bytes eqn:Hi. symmetry in Hi.
  destruct H as [tail Hlen | hdr rest Hlen Hdone Hdata
                 | n rest Hbig Hn | n rest Hfit Hn Hshort
                 | payload rest Hfit H32 Hfull];
    cbn [sync_recv_loop].
  - (* the peer closes inside the header *)
    unfold bind at 1, ReadFdExactly. rewrite Hi.
    destruct (Z.ltb_spec (blen tail) sizeof_data); [|lia].
    unfold bind, adb_close, adb_unlink, ret. eexists. reflexivity.
  - (* neither DATA nor DONE *)
    rewrite <- Hlen.
    rewrite (bind_ret_eq _ _ _ _ _ (ReadFdExactly_delivers _ _ _ Hi)).
    destruct (Z.eqb_spec (rd32 0 hdr) ID_DONE); [contradiction|].
    destruct (Z.eqb_spec (rd32 0 hdr) ID_DATA); [contradiction|].
    cbn [negb]. unfold bind at 1 2, adb_close, adb_unlink.
    match goal with |- context [bind (ReportCopyFailure ?f ?t ?n) _ ?w0] =>
      destruct (ReportCopyFailure_returns f t n w0) as [w' E];
      rewrite (bind_ret_eq _ _ _ _ _ E)
    end.
    eexists. reflexivity.
  - (* more than the limit *)
    change sizeof_data with (blen (data_header n)).
    rewrite (bind_ret_eq _ _ _ _ _ (ReadFdExactly_delivers _ _ _ Hi)).
    rewrite rd32_data_header_0, rd32_data_header_4 by lia.
    change (ID_DATA =? ID_DONE) with false.
    change (ID_DATA =? ID_DATA) with true. cbn [negb].
    unfold bind at 1, get at 1. cbn [max log set_net].
    destruct (Z.ltb_spec (max w) n); [|lia].
    unfold bind, Error, emit, adb_close, adb_unlink, ret.
    eexists. reflexivity.
  - (* the peer closes inside the payload *)
    change sizeof_data with (blen (data_header n)).
    rewrite (bind_ret_eq _ _ _ _ _ (ReadFdExactly_delivers _ _ _ Hi)).
    rewrite rd32_data_header_0, rd32_data_header_4 by lia.
    change (ID_DATA =? ID_DONE) with false.
    change (ID_DATA =? ID_DATA) with true. cbn [negb].
    unfold bind at 1, get at 1. cbn [max log set_net].
    destruct (Z.ltb_spec (max w) n); [lia|].
    unfold bind at 1, ReadFdExactly. cbn [inp log set_net].
    destruct (Z.ltb_spec (blen rest) n); [|lia].
    unfold bind, adb_close, adb_unlink, ret. eexists. reflexivity.
  - (* the payload does not fit on the disk *)
    pose proof (blen_nonneg payload) as Hnn.
    assert (Hi0 : inp w = data_header (blen payload) ++ payload ++ rest).
    { rewrite Hi. unfold data_frame, data_header.
      rewrite <- !app_assoc. reflexivity. }
    change sizeof_data with (blen (data_header (blen payload))).
    rewrite (bind_ret_eq _ _ _ _ _ (ReadFdExactly_delivers _ _ _ Hi0)).
    rewrite rd32_data_header_0, rd32_data_header_4 by lia.
    change (ID_DATA =? ID_DONE) with false.
    change (ID_DATA =? ID_DATA) with true. cbn [negb].
    unfold bind at 1, get at 1. cbn [max log set_net].
    destruct (Z.ltb_spec (max w) (blen payload)); [lia|].
    lazymatch goal with
    | |- context [bind (ReadFdExactly (blen payload)) _ ?w2] =>
        rewrite (bind_ret_eq _ _ _ _ _
                   (ReadFdExactly_delivers payload rest w2 eq_refl))
    end.
    unfold bind at 1, WriteFdExactly_file.
    cbn [lfds disk_free log set_net].
    destruct (lfds w !! lfd) as [[p off]|].
    + destruct (Z.leb_spec (blen payload) (disk_free w)); [lia|].
      cbn [negb]. unfold bind, Error, emit, adb_close, adb_unlink, ret.
      eexists. reflexivity.
    + cbn [negb]. unfold bind, Error, emit, adb_close, adb_unlink, ret.
      eexists. reflexivity.
Qed.

Lemma append_data_app c1 c2 nd :
  append_data c2 (append_data c1 nd) = append_data (c1 ++ c2) nd.
Proof. unfold append_data. cbn. rewrite app_assoc. reflexivity. Qed.

(** One turn of the receive loop on a DATA frame that fits: the
    payload goes to the destination file and is counted. *)
Lemma sync_recv_loop_step fuel bytes_copied payload rest w off :
  inp w = data_frame payload ++ rest ->
  chunk_ok (max w) payload ->
  lfds w !! lfd = Some (lpath, off) ->
  blen payload <= disk_free w ->
  size <> 0 ->
  exists w1 bytes_copied',
    sync_recv_loop (S fuel) rpath lpath lfd size bytes_copied w
    = sync_recv_loop fuel rpath lpath lfd size bytes_copied' w1
    /\ inp w1 = rest /\ max w1 = max w
    /\ lfds w1 = <[lfd := (lpath, off + blen payload)]> (lfds w)
    /\ files w1 = alter (append_data payload) lpath (files w)
    /\ disk_free w1 = disk_free w - blen payload
    /\ total_bytes w1 = u64 (total_bytes w + blen payload)
    /\ stream_writes (trace w1) = stream_writes (trace w)
    /\ exists t, trace w1 = trace w ++ t.
Proof.
  intros Hi [Hmax H32] Hfd Hdisk Hsz.
  pose proof (blen_nonneg payload) as Hnn.
  assert (Hi0 : inp w = data_header (blen payload) ++ payload ++ rest).
  { rewrite Hi. unfold data_frame, data_header.
    rewrite <- !app_assoc. reflexivity. }
  cbn [sync_recv_loop].
  change sizeof_data with (blen (data_header (blen payload))).
  rewrite (bind_ret_eq _ _ _ _ _ (ReadFdExactly_delivers _ _ _ Hi0)).
  rewrite rd32_data_header_0, rd32_data_header_4 by lia.
  change (ID_DATA =? ID_DONE) with false.
  change (ID_DATA =? ID_DATA) with true. cbn [negb].
  unfold bind at 1, get at 1. cbn [max log set_net].
  destruct (Z.ltb_spec (max w) (blen payload)); [lia|].
  lazymatch goal with
  | |- context [bind (ReadFdExactly (blen payload)) _ ?w2] =>
      rewrite (bind_ret_eq _ _ _ _ _
                 (ReadFdExactly_delivers payload rest w2 eq_refl))
  end.
  unfold bind at 1, WriteFdExactly_file.
  cbn [lfds disk_free log set_net]. rewrite Hfd.
  destruct (Z.leb_spec (blen payload) (disk_free w)); [|lia].
  cbn [negb]. unfold bind at 1, add_total_bytes.
  destruct (Z.eqb_spec size 0); [contradiction|].
  unfold bind at 1, Printf, emit.
  eexists _, _. split; [reflexivity|].
  cbn [inp max lfds files disk_free total_bytes trace
       log set_fs set_net set_total_bytes set_conn].
  rewrite !stream_writes_app. cbn [stream_writes]. rewrite !app_nil_r.
  rewrite <- !app_assoc.
  repeat (match goal with |- _ /\ _ => split end); try reflexivity.
  eexists. reflexivity.
Qed.

Lemma blen_data_frame c : blen (data_frame c) = 8 + blen c.
Proof.
  unfold data_frame. rewrite !blen_app. unfold blen.
  rewrite !length_le32. lia.
Qed.

Lemma length_frames chunks :
  (8 * length chunks <= length (concat (map data_frame chunks)))%nat.
Proof.
  induction chunks as [|c chunks IH]; [cbn; lia|].
  cbn [map concat length]. rewrite length_app.
  pose proof (blen_data_frame c) as H. pose proof (blen_nonneg c).
  unfold blen in *. lia.
Qed.

(** The loop on DATA frames that fit: one turn each, after which the
    loop goes on with what follows them. *)
Lemma sync_recv_loop_chunks chunks :
  forall fuel bytes_copied w off tail,
    inp w = concat (map data_frame chunks) ++ tail ->
    Forall (chunk_ok (max w)) chunks ->
    lfds w !! lfd = Some (lpath, off) ->
    blen (concat chunks) <= disk_free w ->
    (chunks <> [] -> size <> 0) ->
    exists w1 bytes_copied' t,
      sync_recv_loop (length chunks + fuel) rpath lpath lfd size
                     bytes_copied w
      = sync_recv_loop fuel rpath lpath lfd size bytes_copied' w1
      /\ inp w1 = tail /\ max w1 = max w
      /\ disk_free w1 = disk_free w - blen (concat chunks)
      /\ trace w1 = trace w ++ t.
Proof.
  induction chunks as [|c chunks IH];
    intros fuel bc w off tail Hi Hall Hfd Hdisk Hsz.
  - exists w, bc, []. cbn [length Nat.add concat].
    change (blen []) with 0. rewrite app_nil_r, Z.sub_0_r. auto.
  - cbn [map concat] in Hi. rewrite <- app_assoc in Hi.
    apply Forall_cons_1 in Hall as [Hc Hall].
    cbn [concat] in Hdisk. rewrite blen_app in Hdisk.
    pose proof (blen_nonneg c) as Hc0.
    pose proof (blen_nonneg (concat chunks)) as Hcs0.
    cbn [length Nat.add].
    destruct (sync_recv_loop_step (length chunks + fuel) bc c _ w off
                Hi Hc Hfd)
      as (w1 & bc' & -> & Hi1 & Hm1 & Hfd1 & _ & Hd1 & _ & _ & t1 & Ht1);
      [lia | apply Hsz; discriminate |].
    destruct (IH fuel bc' w1 (off + blen c) tail)
      as (w2 & bc2 & t2 & E & Hi2 & Hm2 & Hd2 & Ht2).
    + exact Hi1.
    + rewrite Hm1. exact Hall.
    + rewrite Hfd1. apply lookup_insert_eq.
    + lia.
    + intros _. apply Hsz. discriminate.
    + exists w2, bc2, (t1 ++ t2). split; [exact E|].
      split; [exact Hi2|]. split; [congruence|].
      split.
      { rewrite Hd2, Hd1. cbn [concat]. rewrite blen_app. lia. }
      rewrite Ht2, Ht1, <- app_assoc. reflexivity.
Qed.

End Receive.

Section ReceiveFile.

Lemma created_of_fs (e : event) : fs_event e = false -> created e = false.
Proof. destruct e; cbn; congruence. Qed.

Lemma Forall_created_of_fs (t : list event) :
  Forall (fun e => fs_event e = false) t ->
  Forall (fun e => created e = false) t.
Proof.
  intros H. induction H as [|e t He _ IH]; constructor; [|exact IH].
  destruct e; cbn in *; congruence.
Qed.

(** The prelude of sync_recv on a peer that answers: STAT request,
    STAT reply, RECV request, unlink, mkdirs, creat, and then the loop. *)
Lemma sync_recv_starts rpath lpath mode size time body w :
  strlen rpath <= 1024 ->
  2 * (8 + strlen rpath) <= wbudget w ->
  lpath ∉ nocreat w ->
  0 <= next_fd w ->
  inp w = stat_reply mode size time ++ body ->
  sync_recv rpath lpath w
  = bind (sync_recv_loop (S (length body)) rpath lpath (next_fd w)
                         (u32 size) 0)
         (fun finished =>
            if negb finished then ret false
            else bind (adb_close (next_fd w)) (fun _ => ret true))
         (recv_started rpath lpath (stat_reply mode size time) body w).
Proof.
  intros Hp Hb Hc Hfd Hi.
  pose proof (strlen_nonneg rpath) as Hnn.
  unfold sync_recv.
  unfold bind at 1, Print, emit. cbv beta iota.
  unfold sync_stat. unfold bind at 1 2.
  rewrite SendRequest_goes_out by (cbn [wbudget log]; lia).
  cbn [negb].
  erewrite sync_finish_stat_delivers by (cbn [inp log set_net]; exact Hi).
  unfold bind at 1.
  rewrite SendRequest_goes_out by (cbn [wbudget log set_net]; lia).
  cbn [negb].
  unfold bind at 1 2 3, adb_unlink, mkdirs, emit, adb_creat.
  cbn [nocreat next_fd log set_net set_fs].
  destruct (decide (lpath ∈ nocreat w)); [contradiction|].
  destruct (Z.ltb_spec (next_fd w) 0); [lia|].
  unfold bind at 1, get at 1.
  cbn [inp files lfds disk_free wbudget log set_net set_fs].
  reflexivity.
Qed.

(** C2. Every failure of a pull after the destination was created
    ends in false with the descriptor closed and the path unlinked.

    First, at any turn of the receive loop of a session whose chunk
    limit does not exceed the receive buffer, each of the five failures
    (a short read of a frame header, a frame that is neither DATA nor
    DONE, an oversized DATA frame, a short read of the payload, a
    failed local write) makes the loop return false; the descriptor
    has been closed and then the path unlinked, nothing touches the
    file system afterwards, and on return the path is absent and the
    descriptor is not open.

    Second, for the whole of sync_recv: when the peer answers STAT,
    takes the RECV request and sends any number of DATA frames that
    are stored, and then one of the five failures occurs, sync_recv
    returns false; the trace holds the creation of the destination,
    later the close of its descriptor followed by the unlink of the
    path, and no file system call after them; the path is absent and
    the descriptor is not open.

    Third, whenever sync_recv returns false, either the destination
    was never created, or it was, and then it has been closed and
    unlinked in the same way. *)
Theorem sync_recv_failure_removes_destination (rpath lpath : string) :
  (forall lfd size fuel bytes_copied w,
      max w <= SYNC_DATA_MAX ->
      fails_next (max w) (disk_free w) (inp w) ->
      exists w',
        sync_recv_loop (S fuel) rpath lpath lfd size bytes_copied w
        = Ret false w'
        /\ cleaned_up lpath lfd w w')
  /\ (forall mode size time chunks tail w,
        strlen rpath <= 1024 ->
        2 * (8 + strlen rpath) <= wbudget w ->
        lpath ∉ nocreat w ->
        0 <= next_fd w ->
        max w <= SYNC_DATA_MAX ->
        inp w = stat_reply mode size time
                  ++ concat (map data_frame chunks) ++ tail ->
        Forall (chunk_ok (max w)) chunks ->
        blen (concat chunks) <= disk_free w ->
        (chunks <> [] -> u32 size <> 0) ->
        fails_next (max w) (disk_free w - blen (concat chunks)) tail ->
        exists w' t1 t2,
          sync_recv rpath lpath w = Ret false w'
          /\ trace w' =
             trace w ++
               [EvPrint rpath;
                EvWrite (request ID_STAT rpath) true;
                stat_read (stat_reply mode size time);
                EvWrite (request ID_RECV rpath) true;
                EvUnlink lpath; EvMkdirs lpath;
                EvCreat lpath (next_fd w)]
               ++ t1 ++ [EvClose (next_fd w); EvUnlink lpath] ++ t2
          /\ Forall (fun e => fs_event e = false) t2
          /\ files w' !! lpath = None
          /\ lfds w' !! next_fd w = None)
  /\ (forall w w',
        sync_recv rpath lpath w = Ret false w' ->
        (exists t, trace w' = trace w ++ t
                   /\ Forall (fun e => created e = false) t)
        \/ (exists lfd t0 t1 t2,
               0 <= lfd
               /\ trace w' =
                  trace w ++ t0 ++ [EvCreat lpath lfd] ++ t1
                    ++ [EvClose lfd; EvUnlink lpath] ++ t2
               /\ Forall (fun e => created e = false) t0
               /\ Forall (fun e => fs_event e = false) t2
               /\ files w' !! lpath = None
               /\ lfds w' !! lfd = None)).
Proof.
  split; [|split].
  { intros lfd size fuel bc w _ Hfail.
    destruct (sync_recv_loop_fails rpath lpath lfd size fuel bc w Hfail)
      as [w' E].
    exists w'. split; [exact E|].
    eapply sync_recv_loop_false. exact E. }
  { intros mode size time chunks tail w Hp Hb Hc Hfd Hmax Hi Hall Hdisk Hsz
           Hfail.
    rewrite (sync_recv_starts rpath lpath mode size time _ w Hp Hb Hc Hfd Hi).
    set (w0 := recv_started rpath lpath (stat_reply mode size time)
                            (concat (map data_frame chunks) ++ tail) w).
    assert (Hfuel : exists k,
               S (length (concat (map data_frame chunks) ++ tail))
               = (length chunks + S k)%nat).
    { exists (length (concat (map data_frame chunks) ++ tail)
              - length chunks)%nat.
      rewrite length_app. pose proof (length_frames chunks). lia. }
    destruct Hfuel as [k ->].
    destruct (sync_recv_loop_chunks rpath lpath (next_fd w) (u32 size)
                chunks (S k) 0 w0 0 tail)
      as (w1 & bc' & t & E & Hi1 & Hm1 & Hd1 & Ht1).
    - reflexivity.
    - exact Hall.
    - apply lookup_insert_eq.
    - exact Hdisk.
    - exact Hsz.
    - destruct (sync_recv_loop_fails rpath lpath (next_fd w) (u32 size)
                  k bc' w1) as [w' E'].
      { rewrite Hi1, Hm1, Hd1. exact Hfail. }
      rewrite (bind_ret_eq _ _ _ _ _ (eq_trans E E')). cbn [negb].
      apply sync_recv_loop_false in E' as (Hf & Hd & t1 & t2 & Ht & Hq).
      exists w', (t ++ t1), t2. split; [reflexivity|].
      split.
      { rewrite Ht, Ht1. subst w0.
        cbn [trace recv_started log set_net set_fs].
        rewrite <- !app_assoc. reflexivity. }
      auto. }
  intros w w' H.
  unfold sync_recv in H.
  apply bind_inv in H as ([] & w1 & E1 & H).
  injection E1 as <-.
  apply bind_inv in H as (st & w2 & E2 & H).
  apply sync_stat_trace in E2 as (t2 & Ht2 & Hq2).
  cbn [trace log] in Ht2.
  destruct st as [[[ts mode] size]|].
  2:{ left. injection H as <-. exists (EvPrint rpath :: t2).
      rewrite Ht2, <- app_assoc. split; [reflexivity|].
      apply Forall_created_of_fs. constructor; auto. }
  apply bind_inv in H as (ok & w3 & E3 & H).
  apply SendRequest_trace in E3 as (e3 & Ht3 & He3).
  assert (Hpre : trace w3 = trace w ++ EvPrint rpath :: t2 ++ [e3]).
  { rewrite Ht3, Ht2, <- !app_assoc. reflexivity. }
  assert (Hq3 : Forall (fun e => created e = false)
                       (EvPrint rpath :: t2 ++ [e3])).
  { apply Forall_created_of_fs. constructor; [reflexivity|].
    apply Forall_app. auto. }
  clear Ht2 Ht3 Hq2 He3.
  destruct ok; cbn [negb] in H.
  2:{ left. injection H as <-. eauto. }
  apply bind_inv in H as ([] & w4 & E4 & H). injection E4 as <-.
  apply bind_inv in H as ([] & w5 & E5 & H). injection E5 as <-.
  apply bind_inv in H as (lfd & w6 & E6 & H).
  assert (Ht6 : trace w6 = trace w ++ (EvPrint rpath :: t2 ++ [e3])
                             ++ [EvUnlink lpath; EvMkdirs lpath]
                             ++ [EvCreat lpath lfd]).
  { unfold adb_creat in E6. cbn [nocreat next_fd log set_fs] in E6.
    destruct (decide _); injection E6 as <- <-;
      cbn [trace log set_fs]; rewrite Hpre, <- !app_assoc; reflexivity. }
  clear E6 Hpre.
  destruct (Z.ltb_spec lfd 0) as [Hneg|Hpos].
  { left. apply bind_inv in H as ([] & w7 & E7 & H).
    injection E7 as <-. injection H as <-.
    eexists. cbn [trace log]. rewrite Ht6, <- !app_assoc.
    split; [reflexivity|].
    apply Forall_app. split; [exact Hq3|].
    repeat constructor. cbn. apply Z.leb_gt. exact Hneg. }
  apply bind_inv in H as (fuel & w7 & E7 & H). injection E7 as _ <-.
  apply bind_inv in H as (finished & w8 & E8 & H).
  destruct finished; cbn [negb] in H.
  { apply bind_inv in H as ([] & w9 & _ & H). discriminate. }
  injection H as <-.
  apply sync_recv_loop_false in E8 as (Hf & Hd & t1 & t2' & Ht & Hq).
  right.
  exists lfd, ((EvPrint rpath :: t2 ++ [e3])
                 ++ [EvUnlink lpath; EvMkdirs lpath]), t1, t2'.
  split; [exact Hpos|]. split.
  { rewrite Ht, Ht6, <- !app_assoc. reflexivity. }
  split.
  { apply Forall_app. split; [exact Hq3 | repeat constructor]. }
  auto.
Qed.

(** C3. A DATA header whose length field exceeds the chunk limit of
    the session ends the pull: wherever in the receive loop it
    arrives, the loop reports the error, closes the destination
    descriptor, unlinks the destination path and returns false, and
    the bytes after the header are still unread.  In particular a
    pull whose first frame is oversized returns false with the
    payload unread and no destination file. *)
Theorem oversized_DATA_is_fatal (rpath lpath : string) :
  (forall lfd size fuel bytes_copied n rest w,
      inp w = data_header n ++ rest ->
      0 <= max w ->
      max w < n < 2 ^ 32 ->
      exists w',
        sync_recv_loop (S fuel) rpath lpath lfd size bytes_copied w
        = Ret false w'
        /\ inp w' = rest
        /\ trace w' =
           trace w ++
             [EvRead sizeof_data (Some (data_header n));
              EvError "msg.data.size too large: %u (max %zu)"
                      [AInt n; AInt (max w)];
              EvClose lfd; EvUnlink lpath]
        /\ files w' !! lpath = None
        /\ lfds w' !! lfd = None
        /\ total_bytes w' = total_bytes w)
  /\ (forall mode size time n rest w,
        strlen rpath <= 1024 ->
        2 * (8 + strlen rpath) <= wbudget w ->
        lpath ∉ nocreat w ->
        0 <= next_fd w ->
        inp w = stat_reply mode size time ++ data_header n ++ rest ->
        0 <= max w ->
        max w < n < 2 ^ 32 ->
        exists w',
          sync_recv rpath lpath w = Ret false w'
          /\ inp w' = rest
          /\ files w' !! lpath = None
          /\ lfds w' !! next_fd w = None
          /\ total_bytes w' = total_bytes w
          /\ trace w' =
             trace w ++
               [EvPrint rpath;
                EvWrite (request ID_STAT rpath) true;
                stat_read (stat_reply mode size time);
                EvWrite (request ID_RECV rpath) true;
                EvUnlink lpath; EvMkdirs lpath;
                EvCreat lpath (next_fd w);
                EvRead sizeof_data (Some (data_header n));
                EvError "msg.data.size too large: %u (max %zu)"
                        [AInt n; AInt (max w)];
                EvClose (next_fd w); EvUnlink lpath]).
Proof.
  split.
  { intros. apply sync_recv_loop_oversized; assumption. }
  intros mode size time n rest w Hp Hb Hc Hfd Hi Hm Hn.
  rewrite (sync_recv_starts rpath lpath mode size time
             (data_header n ++ rest) w Hp Hb Hc Hfd Hi).
  destruct (sync_recv_loop_oversized rpath lpath (next_fd w) (u32 size)
              (length (data_header n ++ rest)) 0 n rest
              (recv_started rpath lpath (stat_reply mode size time)
                            (data_header n ++ rest) w))
    as (w' & E & Hi' & Ht & Hf & Hd & Hb'); [reflexivity | exact Hm | exact Hn |].
  exists w'. rewrite (bind_ret_eq _ _ _ _ _ E). cbn [negb].
  split; [reflexivity|].
  cbn [trace total_bytes max recv_started log set_net set_fs] in Ht, Hb'.
  rewrite Ht, <- !app_assoc. auto 10.
Qed.

End ReceiveFile.

(** ** Pushing one file *)

Section Send.

(** CopyDone only reads and reports. *)
Lemma CopyDone_writes_nothing from to w :
  exists b w', CopyDone from to w = Ret b w'
               /\ stream_writes (trace w') = stream_writes (trace w).
Proof.
  unfold CopyDone, ReportCopyFailure, ReadFdExactly, ReadFdExactly_no_room,
    bind, Error, emit, ret.
  repeat case_match; simplify_eq; eexists _, _; (split; [reflexivity|]);
    cbn [trace log set_net]; rewrite ?stream_writes_app; cbn [stream_writes]; rewrite ?app_nil_r;
    reflexivity.
Qed.

Variables (lfd : Z) (lpath rpath : string) (total_size : Z).

(** The loop of SendLargeFile on an open regular file: it returns,
    and what it hands to the connection is a sequence of DATA frames
    whose payloads are successive non-empty pieces of the file, none
    longer than the chunk limit; when it leaves by [break] the pieces
    make up the rest of the file. *)
Lemma SendLargeFile_loop_frames fuel : forall bytes_copied w nd off,
  lfds w !! lfd = Some (lpath, off) ->
  files w !! lpath = Some nd ->
  0 <= off ->
  (length (n_data nd) - Z.to_nat off < fuel)%nat ->
  total_size <> 0 ->
  exists b w' chunks tail,
    SendLargeFile_loop fuel lfd lpath rpath total_size bytes_copied w
    = Ret b w'
    /\ stream_writes (trace w')
       = stream_writes (trace w) ++ map data_frame chunks
    /\ Forall (fun c => 0 < blen c <= max w) chunks
    /\ skipn (Z.to_nat off) (n_data nd) = concat chunks ++ tail
    /\ (b = true -> tail = [] \/ max w <= 0).
Proof.
  induction fuel as [|fuel IH]; intros bc w nd off Hd Hf Hoff Hfuel Hts;
    [lia|].
  cbn [SendLargeFile_loop].
  unfold bind at 1, get at 1. unfold bind at 1, adb_read.
  rewrite Hd, Hf.
  destruct (rd_fails nd off).
  { unfold bind, Error, emit, adb_close, ret.
    eexists false, _, [], (skipn (Z.to_nat off) (n_data nd)).
    split; [reflexivity|].
    cbn [trace log set_fs map concat app].
    rewrite !stream_writes_app; cbn [stream_writes]; rewrite ?app_nil_r.
    repeat split; auto; discriminate. }
  set (rest := skipn (Z.to_nat off) (n_data nd)) in *.
  set (chunk := firstn (Z.to_nat (max w)) rest).
  assert (Hrest : rest = chunk ++ skipn (Z.to_nat (max w)) rest)
    by (symmetry; apply firstn_skipn).
  assert (Hcl : blen chunk <= Z.max 0 (max w)).
  { unfold blen, chunk. rewrite length_firstn. lia. }
  destruct (Z.leb_spec (blen chunk) 0) as [Hz|Hnz].
  { unfold ret. eexists true, _, [], rest. split; [reflexivity|].
    cbn [trace log set_fs map concat app].
    rewrite !stream_writes_app; cbn [stream_writes]; rewrite ?app_nil_r.
    repeat split; auto. intros _.
    assert (chunk = []) as Hc by
      (destruct chunk; [reflexivity | cbn in Hz; unfold blen in Hz; cbn in Hz; lia]).
    unfold chunk in Hc.
    destruct (Z.leb_spec (max w) 0); [right; assumption | left].
    destruct rest as [|x rest']; [reflexivity|].
    destruct (Z.to_nat (max w)) eqn:En; [lia | discriminate]. }
  unfold bind at 1, WriteFdExactly. cbn [wbudget log set_fs].
  destruct (_ <=? wbudget w); cbn [negb].
  2:{ unfold bind, adb_close, ret.
      eexists false, _, [chunk], (skipn (Z.to_nat (max w)) rest).
      split; [reflexivity|].
      cbn [trace log set_fs set_net map concat app].
      rewrite !stream_writes_app; cbn [stream_writes]; rewrite ?app_nil_r.
      split; [reflexivity|]. split; [repeat constructor; lia|].
      split; [exact Hrest | discriminate]. }
  unfold bind at 1, add_total_bytes.
  destruct (Z.eqb_spec total_size 0); [contradiction|].
  unfold bind at 1, Printf, emit.
  match goal with |- context [SendLargeFile_loop fuel _ _ _ _ ?bc' ?w4] =>
    destruct (IH bc' w4 nd (off + blen chunk))
      as (b & w' & chunks & tail & E & Hw & Hall & Hcat & Hb)
  end.
  { cbn [lfds log set_fs set_net set_total_bytes set_conn].
    apply lookup_insert_eq. }
  { exact Hf. }
  { lia. }
  { assert (length chunk <= length rest)%nat
      by (unfold chunk; rewrite length_firstn; lia).
    unfold rest in H. rewrite length_skipn in H.
    unfold blen in *. lia. }
  { exact Hts. }
  exists b, w', (chunk :: chunks), tail. split; [exact E|].
  cbn [trace max log set_fs set_net set_total_bytes set_conn] in Hw, Hall, Hb.
  rewrite !stream_writes_app in Hw; cbn [stream_writes] in Hw;
    rewrite ?app_nil_r in Hw.
  split; [rewrite Hw, <- app_assoc; reflexivity|].
  split; [constructor; [lia | exact Hall]|].
  split; [|exact Hb].
  assert (Hk : skipn (Z.to_nat (off + blen chunk)) (n_data nd)
               = skipn (Z.to_nat (max w)) rest).
  { replace (Z.to_nat (off + blen chunk))
      with (length chunk + Z.to_nat off)%nat by (unfold blen; lia).
    rewrite <- skipn_skipn. change (skipn (Z.to_nat off) (n_data nd)) with rest.
    rewrite Hrest at 1.
    rewrite skipn_app, skipn_all, Nat.sub_diag. reflexivity. }
  cbn [concat]. rewrite <- app_assoc, <- Hcat, Hk. exact Hrest.
Qed.

End Send.

Section SendFile.

Ltac writes_norm :=
  cbn [trace max log set_fs set_net set_total_bytes set_conn];
  rewrite ?stream_writes_app; cbn [stream_writes];
  rewrite ?app_nil_r, <- ?app_assoc; cbn [app].

(** SendLargeFile on an existing file returns, and hands to the
    connection the bare SEND request, then DATA frames, then (if it
    got that far) the DONE frame, each in a write of its own. *)
Lemma SendLargeFile_frames pm lpath rpath mtime w nd :
  files w !! lpath = Some nd ->
  strlen pm <= 1024 ->
  u64 (n_size nd) <> 0 ->
  exists b w' chunks fin tail,
    SendLargeFile pm lpath rpath mtime w = Ret b w'
    /\ stream_writes (trace w')
       = stream_writes (trace w)
           ++ request ID_SEND pm :: map data_frame chunks ++ fin
    /\ (fin = [] \/ fin = [done_frame mtime])
    /\ Forall (fun c => 0 < blen c <= max w) chunks
    /\ n_data nd = concat chunks ++ tail
    /\ (b = true ->
        fin = [done_frame mtime] /\ (tail = [] \/ max w <= 0)).
Proof.
  intros Hf Hp Hsz. unfold SendLargeFile.
  unfold bind at 1. rewrite SendRequest_short by assumption.
  unfold WriteFdExactly.
  destruct (_ <=? wbudget w); cbn [negb].
  2:{ unfold bind, Error, emit, ret.
      eexists false, _, [], [], (n_data nd). split; [reflexivity|].
      writes_norm. repeat split; auto; discriminate. }
  unfold bind at 1, stat. cbn [files log set_net]. rewrite Hf.
  unfold bind at 1, adb_open. cbn [files log set_net next_fd]. rewrite Hf.
  destruct (n_noopen nd).
  { change (-1 <? 0) with true.
    unfold bind, Error, emit, ret.
    eexists false, _, [], [], (n_data nd). split; [reflexivity|].
    writes_norm. repeat split; auto; discriminate. }
  destruct (Z.ltb_spec (next_fd w) 0).
  { unfold bind, Error, emit, ret.
    eexists false, _, [], [], (n_data nd). split; [reflexivity|].
    writes_norm. repeat split; auto; discriminate. }
  unfold bind at 1, get at 1. cbn [files log set_net set_fs]. rewrite Hf.
  unfold bind at 1.
  lazymatch goal with
  | |- context [SendLargeFile_loop ?f ?d lpath rpath ?ts 0 ?w4] =>
      destruct (SendLargeFile_loop_frames d lpath rpath ts f 0 w4 nd 0)
        as (b & w5 & chunks & tail & E & Hw & Hall & Hcat & Hb)
  end.
  { cbn [lfds log set_fs]. apply lookup_insert_eq. }
  { exact Hf. }
  { lia. }
  { cbn. lia. }
  { exact Hsz. }
  rewrite E. revert Hw Hall. writes_norm. intros Hw Hall.
  cbn [skipn Z.to_nat] in Hcat.
  destruct b; cbn [negb].
  2:{ unfold ret. eexists false, _, chunks, [], tail.
      split; [reflexivity|]. rewrite Hw, app_nil_r.
      repeat split; auto; discriminate. }
  unfold bind at 1 2, adb_close, WriteFdExactly.
  cbn [wbudget log set_fs].
  destruct (_ <=? wbudget w5); cbn [negb];
    unfold bind, Error, emit, ret;
    [eexists true, _, chunks, [done_frame mtime], tail
    |eexists false, _, chunks, [done_frame mtime], tail];
    (split; [reflexivity|]); writes_norm; rewrite Hw, <- ?app_assoc;
    repeat split; auto; discriminate.
Qed.


End SendFile.

(** ** The progress percentage *)

Section Progress.

Lemma SendSmallFile_returns pm rpath data mtime w :
  exists b w', SendSmallFile pm rpath data mtime w = Ret b w'.
Proof.
  unfold SendSmallFile, WriteFdExactly, add_total_bytes, bind, Print, Error,
    emit, ret.
  repeat case_match; simplify_eq; eauto.
Qed.

(** A push never divides by zero: SendLargeFile is entered only with
    a stat size of at least SYNC_DATA_MAX, and the loop ends before the
    file does. *)
Lemma sync_send_returns lpath rpath mtime mode w :
  (forall nd, files w !! lpath = Some nd -> n_size nd < 2 ^ 64) ->
  exists b w', sync_send lpath rpath mtime mode w = Ret b w'.
Proof.
  intros Hsz. unfold sync_send.
  set (pm := (rpath ++ "," ++ fmt_d mode)%string).
  destruct (S_ISLNK mode).
  { unfold bind at 1, readlink.
    destruct (match files w !! lpath with Some _ => _ | None => _ end)
      as [target|].
    - unfold bind at 1.
      destruct (SendSmallFile_returns pm rpath (target ++ [x00]) mtime w)
        as (b & w1 & ->).
      destruct b; cbn [negb]; [|unfold ret; eauto].
      destruct (CopyDone_writes_nothing lpath rpath w1) as (b & w' & -> & _).
      eauto.
    - unfold bind, Error, emit, ret. eauto. }
  destruct (S_ISREG mode); cbn [negb];
    [|unfold bind, Error, emit, ret; eauto].
  unfold bind at 1, stat.
  destruct (files w !! lpath) as [nd|] eqn:Hf;
    [|unfold bind, Error, emit, ret; eauto].
  destruct (Z.ltb_spec (n_size nd) SYNC_DATA_MAX).
  - unfold bind at 1, ReadFileToString. rewrite Hf.
    destruct (_ || _); [unfold bind, Error, emit, ret; eauto|].
    unfold bind at 1.
    destruct (SendSmallFile_returns pm rpath (n_data nd) mtime w)
      as (b & w1 & ->).
    destruct b; cbn [negb]; [|unfold ret; eauto].
    destruct (CopyDone_writes_nothing lpath rpath w1) as (b & w' & -> & _).
    eauto.
  - unfold bind at 1.
    assert (E : exists b w1, SendLargeFile pm lpath rpath mtime w = Ret b w1).
    { destruct (Z.le_gt_cases (strlen pm) 1024) as [Hp|Hp].
      - destruct (SendLargeFile_frames pm lpath rpath mtime w nd Hf Hp)
          as (b & w1 & _ & _ & _ & E & _); [|eauto].
        specialize (Hsz nd eq_refl).
        rewrite u64_small; unfold SYNC_DATA_MAX in *; lia.
      - unfold SendLargeFile, SendRequest.
        destruct (Z.ltb_spec 1024 (strlen pm)); [|lia].
        unfold bind, Error, emit, ret. eauto. }
    destruct E as (b & w1 & ->).
    destruct b; cbn [negb]; [|unfold ret; eauto].
    destruct (CopyDone_writes_nothing lpath rpath w1) as (b & w' & -> & _).
    eauto.
Qed.

(** One iteration of the receive loop with a zero size: the chunk is
    stored, counted, and the percentage divides by zero. *)
Lemma sync_recv_loop_zero_size rpath lpath lfd fuel bytes_copied
    payload rest w p off :
  inp w = data_frame payload ++ rest ->
  blen payload <= max w ->
  blen payload < 2 ^ 32 ->
  lfds w !! lfd = Some (p, off) ->
  blen payload <= disk_free w ->
  exists w',
    sync_recv_loop (S fuel) rpath lpath lfd 0 bytes_copied w
    = Fault DivByZero w'
    /\ files w' = alter (append_data payload) p (files w)
    /\ total_bytes w' = u64 (total_bytes w + blen payload).
Proof.
  intros Hi Hmax H32 Hfd Hdisk.
  pose proof (blen_nonneg payload) as Hnn.
  assert (Hi0 : inp w = data_header (blen payload) ++ payload ++ rest).
  { rewrite Hi. unfold data_frame, data_header.
    rewrite <- !app_assoc. reflexivity. }
  cbn [sync_recv_loop].
  change sizeof_data with (blen (data_header (blen payload))).
  rewrite (bind_ret_eq _ _ _ _ _ (ReadFdExactly_delivers _ _ _ Hi0)).
  rewrite rd32_data_header_0, rd32_data_header_4 by lia.
  change (ID_DATA =? ID_DONE) with false.
  change (ID_DATA =? ID_DATA) with true. cbn [negb].
  unfold bind at 1, get at 1. cbn [max log set_net].
  destruct (Z.ltb_spec (max w) (blen payload)); [lia|].
  lazymatch goal with
  | |- context [bind (ReadFdExactly (blen payload)) _ ?w2] =>
      rewrite (bind_ret_eq _ _ _ _ _
                 (ReadFdExactly_delivers payload rest w2 eq_refl))
  end.
  unfold bind at 1, WriteFdExactly_file.
  cbn [lfds disk_free log set_net]. rewrite Hfd.
  destruct (Z.leb_spec (blen payload) (disk_free w)); [|lia].
  cbn [negb]. unfold bind at 1, add_total_bytes.
  change (0 =? 0) with true. cbv beta iota. unfold fault.
  eexists. split; [reflexivity|].
  cbn [files total_bytes log set_fs set_net set_total_bytes set_conn].
  split; reflexivity.
Qed.

(** Whatever the DATA frame that follows a STAT reply of size 0, the
    pull stores it and then divides by zero. *)
Lemma sync_recv_zero_size rpath lpath mode time payload rest w :
  strlen rpath <= 1024 ->
  2 * (8 + strlen rpath) <= wbudget w ->
  lpath ∉ nocreat w ->
  0 <= next_fd w ->
  inp w = stat_reply mode 0 time ++ data_frame payload ++ rest ->
  blen payload <= max w ->
  blen payload < 2 ^ 32 ->
  blen payload <= disk_free w ->
  exists w',
    sync_recv rpath lpath w = Fault DivByZero w'
    /\ files w' !! lpath
       = Some (append_data payload
                           (empty_file (Z.land 420 (Z.lnot (umask w))))).
Proof.
  intros Hp Hb Hc Hfd Hi Hmax H32 Hdisk.
  rewrite (sync_recv_starts rpath lpath mode 0 time
             (data_frame payload ++ rest) w Hp Hb Hc Hfd Hi).
  destruct (sync_recv_loop_zero_size rpath lpath (next_fd w)
              (length (data_frame payload ++ rest)) 0 payload rest
              (recv_started rpath lpath (stat_reply mode 0 time)
                            (data_frame payload ++ rest) w)
              lpath 0)
    as (w' & E & Hf & _); try assumption.
  - reflexivity.
  - apply lookup_insert_eq.
  - exists w'. change (u32 0) with 0.
    rewrite (bind_ret_fault _ _ _ _ _ E). split; [reflexivity|].
    rewrite Hf. cbn [files recv_started log set_fs].
    rewrite lookup_alter_eq, lookup_insert_eq. reflexivity.
Qed.

(** C10 fails in sync_recv.  The peer answers STAT with size 0 and
    then sends a DATA frame; the frame is stored in the destination
    file, and the percentage is computed with a zero divisor. *)
Theorem sync_recv_divides_by_zero :
  exists w',
    sync_recv "/proc/version" "version" zero_size_pull = Fault DivByZero w'
    /\ files w' !! "version"
       = Some (append_data ["L"; "i"; "n"; "u"; "x"]%byte (empty_file 420))
    /\ total_bytes w' = 5.
Proof. eexists. repeat (match goal with |- _ /\ _ => split end); vm_compute; reflexivity. Qed.

End Progress.
(** ** Requests, replies and verdicts *)

Section Replies.

Lemma rd32_firstn (off n : nat) (bs : list byte) :
  (off + 4 <= n)%nat -> rd32 off (firstn n bs) = rd32 off bs.
Proof.
  intros H. unfold rd32.
  rewrite !nth_firstn.
  destruct (Nat.ltb_spec off n); [|lia].
  destruct (Nat.ltb_spec (off + 1) n); [|lia].
  destruct (Nat.ltb_spec (off + 2) n); [|lia].
  destruct (Nat.ltb_spec (off + 3) n); [|lia].
  reflexivity.
Qed.

Lemma stream_reads_app t1 t2 :
  stream_reads (t1 ++ t2) = stream_reads t1 ++ stream_reads t2.
Proof.
  induction t1 as [|e t1 IH]; [reflexivity|].
  destruct e; cbn; rewrite IH; reflexivity.
Qed.

Lemma skipn_request id path :
  skipn 8 (request id path) = list_byte_of_string path.
Proof. reflexivity. Qed.

(** X1 (SendRequest).  A request whose path has at most 1024 bytes
    is handed to the connection as one buffer of 8 + strlen(path)
    bytes: the identifier, the length of the path, and the path
    itself without a terminating NUL.  The call returns true exactly
    when the peer takes the whole buffer, and it reads nothing. *)
Theorem SendRequest_wire_format id path w :
  strlen path <= 1024 ->
  exists ok buf w',
    SendRequest id path w = Ret ok w'
    /\ trace w' = trace w ++ [EvWrite buf ok]
    /\ inp w' = inp w
    /\ (ok = true <-> 8 + strlen path <= wbudget w)
    /\ blen buf = 8 + strlen path
    /\ rd32 0 buf = u32 id
    /\ rd32 4 buf = strlen path
    /\ skipn 8 buf = list_byte_of_string path.
Proof.
  intros Hp. rewrite SendRequest_short by assumption.
  pose proof (strlen_nonneg path) as Hn.
  assert (Hl : rd32 4 (request id path) = strlen path).
  { unfold request. rewrite rd32_4. apply Z.mod_small. lia. }
  assert (H0 : rd32 0 (request id path) = u32 id).
  { unfold request. rewrite rd32_0. reflexivity. }
  destruct (Z.le_gt_cases (8 + strlen path) (wbudget w)) as [Hb|Hb].
  - rewrite WriteFdExactly_fits by (rewrite blen_request; lia).
    eexists true, (request id path), _. split; [reflexivity|].
    split; [reflexivity|]. split; [reflexivity|].
    split; [tauto|]. rewrite blen_request, skipn_request. auto.
  - rewrite WriteFdExactly_refused by (rewrite blen_request; lia).
    eexists false, (request id path), _. split; [reflexivity|].
    split; [reflexivity|]. split; [reflexivity|].
    split; [split; [discriminate | lia]|].
    rewrite blen_request, skipn_request. auto.
Qed.


(** sync_finish_stat succeeds exactly on sixteen bytes that begin
    with the identifier STAT, and decodes the three fields. *)
Lemma sync_finish_stat_spec w :
  exists r w',
    sync_finish_stat w = Ret r w'
    /\ (r <> None <-> 16 <= blen (inp w) /\ rd32 0 (inp w) = ID_STAT)
    /\ (r <> None ->
        r = Some (rd32 12 (inp w), rd32 4 (inp w), rd32 8 (inp w))
        /\ inp w' = skipn 16 (inp w))
    /\ stream_writes (trace w') = stream_writes (trace w).
Proof.
  unfold sync_finish_stat, bind, ReadFdExactly, sizeof_stat, ret.
  destruct (Z.ltb_spec (blen (inp w)) 16) as [Hs|Hs].
  - eexists None, _. split; [reflexivity|].
    split; [split; [congruence | lia]|]. split; [congruence|].
    cbn [trace log set_net]. rewrite stream_writes_app. cbn.
    apply app_nil_r.
  - change (Z.to_nat 16) with 16%nat.
    rewrite (rd32_firstn 0 16), (rd32_firstn 4 16), (rd32_firstn 8 16),
      (rd32_firstn 12 16) by lia.
    destruct (Z.eqb_spec (rd32 0 (inp w)) ID_STAT) as [E|E]; cbn [negb].
    + eexists (Some _), _. split; [reflexivity|].
      split; [split; [intros _; split; [lia | exact E] | congruence]|].
      split; [intros _; split; reflexivity|].
      cbn [trace log set_net]. rewrite stream_writes_app. cbn.
      apply app_nil_r.
    + eexists None, _. split; [reflexivity|].
      split; [split; [congruence | tauto]|]. split; [congruence|].
      cbn [trace log set_net]. rewrite stream_writes_app. cbn.
      apply app_nil_r.
Qed.

(** X2 (sync_stat, sync_finish_stat).  sync_stat always returns.  It
    succeeds exactly when the request is well formed and accepted and
    the next sixteen bytes of the peer begin with the identifier
    STAT; it then delivers the timestamp, mode and size read from
    offsets 12, 4 and 8 of the reply, and consumes exactly these
    sixteen bytes. *)
Theorem sync_stat_decodes path w :
  exists r w',
    sync_stat path w = Ret r w'
    /\ (r <> None <->
        strlen path <= 1024 /\ 8 + strlen path <= wbudget w
        /\ 16 <= blen (inp w) /\ rd32 0 (inp w) = ID_STAT)
    /\ (r <> None ->
        r = Some (rd32 12 (inp w), rd32 4 (inp w), rd32 8 (inp w))
        /\ inp w' = skipn 16 (inp w)).
Proof.
  unfold sync_stat. pose proof (strlen_nonneg path) as Hnn.
  destruct (Z.le_gt_cases (strlen path) 1024) as [Hp|Hp].
  - destruct (Z.le_gt_cases (8 + strlen path) (wbudget w)) as [Hb|Hb].
    + rewrite (bind_ret_eq _ _ _ _ _ (SendRequest_goes_out ID_STAT path w Hp Hb)).
      cbn [negb].
      match goal with |- context [sync_finish_stat ?w1] =>
        destruct (sync_finish_stat_spec w1) as (r & w' & E2 & Hr & Hd & _)
      end.
      cbn [inp log set_net] in Hr, Hd.
      exists r, w'. split; [exact E2|]. split; [|exact Hd].
      rewrite Hr. tauto.
    + rewrite (bind_ret_eq _ _ _ _ _
                 (eq_trans (SendRequest_short ID_STAT path w Hp)
                    (WriteFdExactly_refused (request ID_STAT path) w
                       ltac:(rewrite blen_request; lia)))).
      cbn [negb]. eexists None, _. split; [reflexivity|].
      split; [|congruence].
      split; [congruence|]. intros (_ & Hb' & _). lia.
  - unfold SendRequest. destruct (Z.ltb_spec 1024 (strlen path)); [|lia].
    eexists None, _. split; [reflexivity|].
    split; [|congruence]. split; [congruence | lia].
Qed.

(** X3 (CopyDone).  CopyDone always returns, writes nothing to the
    connection, and accepts the transfer exactly when the peer's
    next eight bytes begin with the identifier OKAY; it then has
    consumed these eight bytes and nothing more. *)
Theorem CopyDone_verdict from to w :
  exists b w',
    CopyDone from to w = Ret b w'
    /\ (b = true <-> 8 <= blen (inp w) /\ rd32 0 (inp w) = ID_OKAY)
    /\ (b = true ->
        inp w' = skipn 8 (inp w)
        /\ trace w' = trace w ++ [EvRead 8 (Some (firstn 8 (inp w)))])
    /\ stream_writes (trace w') = stream_writes (trace w).
Proof.
  destruct (CopyDone_writes_nothing from to w) as (b & w' & E & Hw).
  exists b, w'. split; [exact E|]. split; [|split; [|exact Hw]].
  - revert E. unfold CopyDone, sizeof_status.
    unfold bind at 1. unfold ReadFdExactly.
    destruct (Z.ltb_spec (blen (inp w)) 8) as [Hs|Hs].
    + unfold bind, Error, emit, ret. intros [= <- <-].
      split; [discriminate | lia].
    + change (Z.to_nat 8) with 8%nat. rewrite (rd32_firstn 0 8) by lia.
      destruct (Z.eqb_spec (rd32 0 (inp w)) ID_OKAY) as [E|E].
      * unfold ret. intros [= <- <-]. split; auto.
      * intros H. split; [|tauto]. intros ->. exfalso.
        destruct (negb _) in H.
        -- unfold bind, Error, emit, ret in H. discriminate.
        -- apply ReportCopyFailure_quiet in H as [H _]. discriminate.
  - intros ->. revert E. unfold CopyDone, sizeof_status.
    unfold bind at 1. unfold ReadFdExactly.
    destruct (Z.ltb_spec (blen (inp w)) 8) as [Hs|Hs].
    + unfold bind, Error, emit, ret. discriminate.
    + change (Z.to_nat 8) with 8%nat.
      destruct (rd32 0 (firstn 8 (inp w)) =? ID_OKAY).
      * unfold ret. intros [= <-]. split; reflexivity.
      * intros H. exfalso.
        destruct (negb _) in H.
        -- unfold bind, Error, emit, ret in H. discriminate.
        -- apply ReportCopyFailure_quiet in H as [H _]. discriminate.
Qed.


(** X4 (CopyDone, ReportCopyFailure).  When the peer answers FAIL
    with a message of less than 2^32 - 1 bytes, so that the buffer of
    one byte more can be made, CopyDone reads the message in full,
    reports it as the reason of the failure and returns false; what
    the peer sent after the message stays unread. *)
Theorem CopyDone_reports_reason from to msg rest w :
  strlen msg < 2 ^ 32 - 1 ->
  inp w = fail_reply msg ++ rest ->
  exists w',
    CopyDone from to w = Ret false w'
    /\ inp w' = rest
    /\ trace w'
       = trace w
         ++ [EvRead 8 (Some (le32 ID_FAIL ++ le32 (strlen msg)));
             EvRead (strlen msg) (Some (list_byte_of_string msg));
             EvError "failed to copy '%s' to '%s': %s"
                     [AStr from; AStr to;
                      ABytes (c_str (list_byte_of_string msg))]].
Proof.
  intros Hm Hi. pose proof (strlen_nonneg msg) as Hn.
  unfold CopyDone, sizeof_status.
  unfold fail_reply in Hi. rewrite !app_assoc, <- (app_assoc _ _ rest) in Hi.
  change 8 with (blen (le32 ID_FAIL ++ le32 (strlen msg))) at 1.
  rewrite (bind_ret_eq _ _ _ _ _ (ReadFdExactly_delivers _ _ _ Hi)).
  rewrite rd32_0.
  change (ID_FAIL mod 2 ^ 32 =? ID_OKAY) with false.
  change (negb (ID_FAIL mod 2 ^ 32 =? ID_FAIL)) with false.
  cbv iota.
  rewrite <- (app_nil_r (le32 (strlen msg))), rd32_4.
  rewrite Z.mod_small by lia.
  unfold ReportCopyFailure. cbv zeta.
  assert (Hbuf : (u32 (strlen msg + 1) =? 0) = false).
  { apply Z.eqb_neq. unfold u32. rewrite Z.mod_small; lia. }
  rewrite Hbuf.
  assert (Hl : blen (list_byte_of_string msg) = strlen msg).
  { unfold blen, strlen. now rewrite length_list_byte_of_string. }
  match goal with
  | |- context [bind (ReadFdExactly (strlen msg)) _ ?w1] =>
      assert (E2 := ReadFdExactly_delivers (list_byte_of_string msg) rest w1
                      eq_refl)
  end.
  rewrite Hl in E2. rewrite (bind_ret_eq _ _ _ _ _ E2).
  unfold bind, Error, emit, ret. eexists. split; [reflexivity|].
  cbn [inp trace log set_net]. split; [reflexivity|].
  rewrite app_nil_r, <- !app_assoc. reflexivity.
Qed.

End Replies.
(** ** The list of a directory push *)

Section PushList.

Lemma untouched_refl w : untouched w w.
Proof. unfold untouched. auto 10. Qed.

Lemma untouched_trans w1 w2 w3 :
  untouched w1 w2 -> untouched w2 w3 -> untouched w1 w3.
Proof.
  unfold untouched. intros H1 H2.
  destruct H1 as (? & ? & ? & ? & ? & ? & ? & ?).
  destruct H2 as (? & ? & ? & ? & ? & ? & ? & ?).
  repeat (match goal with |- _ /\ _ => split end); congruence.
Qed.

Lemma untouched_Error fmt args w : untouched w (log (EvError fmt args) w).
Proof.
  unfold untouched. cbn [inp wbudget files lfds total_bytes fd trace log].
  rewrite stream_writes_app, stream_reads_app. cbn. rewrite !app_nil_r.
  auto 10.
Qed.


Lemma marked_refl ci : marked ci ci.
Proof. unfold marked. auto 10. Qed.

Lemma mark_skip_marked ci timestamp mode size :
  marked ci (mark_skip ci timestamp mode size).
Proof.
  unfold mark_skip.
  destruct (size =? ci_size ci); [|apply marked_refl].
  destruct (_ || _); [|apply marked_refl].
  unfold marked, set_flag. cbn. auto 10.
Qed.

Lemma zip_with_decided_marked filelist : forall replies,
  length replies = length filelist ->
  Forall2 marked filelist (zip_with decided filelist replies).
Proof.
  induction filelist as [|ci rest IH]; intros [|m replies] Hl;
    try discriminate; cbn [zip_with]; constructor.
  - apply mark_skip_marked.
  - apply IH. now injection Hl.
Qed.

(** The timestamp check keeps the length of the list. *)
Lemma check_timestamps_block_length filelist w filelist' w' :
  check_timestamps_block filelist w = Ret (Some filelist') w' ->
  length filelist' = length filelist.
Proof.
  unfold check_timestamps_block. intros H.
  apply bind_inv in H as (ok & w1 & _ & H).
  destruct ok; cbn [negb] in H; [|discriminate].
  destruct (stat_reply_loop_trace filelist w1)
    as (r & w2 & rs & E & _ & _ & Hr).
  rewrite E in H. injection H as -> <-.
  destruct Hr as (replies & _ & _ & _ & Hl & ->).
  symmetry. eapply Forall2_length, zip_with_decided_marked, Hl.
Qed.

(** X5 (copy_local_dir_remote, the check_timestamps block).  The
    timestamp check decides only whether an item is skipped: when it
    succeeds the list has the same items in the same order, each
    with its source, destination, time, mode and size as before, and
    a flag that is either unchanged or set to 1. *)
Theorem check_timestamps_only_marks filelist w filelist' w' :
  check_timestamps_block filelist w = Ret (Some filelist') w' ->
  Forall2 marked filelist filelist'.
Proof.
  unfold check_timestamps_block. intros H.
  apply bind_inv in H as (ok & w1 & _ & H).
  destruct ok; cbn [negb] in H; [|discriminate].
  destruct (stat_reply_loop_trace filelist w1)
    as (r & w2 & rs & E & _ & _ & Hr).
  rewrite E in H. injection H as -> <-.
  destruct Hr as (replies & _ & _ & _ & Hl & ->).
  apply zip_with_decided_marked. exact Hl.
Qed.


Lemma to_push_length filelist :
  (length (to_push filelist) <= length filelist)%nat.
Proof. apply filter_length_le. Qed.

(** The counters of the transfer loop: every item is counted once,
    as pushed when its flag is 0 and as skipped otherwise. *)
Lemma push_loop_counts list_only filelist :
  forall pushed skipped w pushed' skipped' w',
    push_loop list_only filelist pushed skipped w
    = Ret (Some (pushed', skipped')) w' ->
    pushed' = pushed + Z.of_nat (length (to_push filelist))
    /\ skipped' = skipped + Z.of_nat (length filelist
                                      - length (to_push filelist)).
Proof.
  induction filelist as [|ci rest IH];
    intros pushed skipped w pushed' skipped' w' H.
  - injection H as <- <- <-. cbn. lia.
  - pose proof (to_push_length rest) as Hle.
    cbn [push_loop] in H. unfold to_push in *. cbn [List.filter length].
    destruct (ci_flag ci =? 0).
    + assert (Hk : exists w1,
                 push_loop list_only rest (pushed + 1) skipped w1
                 = Ret (Some (pushed', skipped')) w').
      { destruct list_only.
        - apply bind_inv in H as (u & w1 & _ & H). eauto.
        - apply bind_inv in H as (ok & w1 & _ & H).
          destruct ok; cbn [negb] in H; [eauto | discriminate]. }
      destruct Hk as (w1 & Hk). apply IH in Hk. cbn [length]. lia.
    + apply IH in H. lia.
Qed.

(** In a dry run the loop only announces the items it would push. *)
Lemma push_loop_list_only filelist :
  forall pushed skipped w,
  exists w',
    push_loop true filelist pushed skipped w
    = Ret (Some (pushed + Z.of_nat (length (to_push filelist)),
                 skipped + Z.of_nat (length filelist
                                     - length (to_push filelist)))) w'
    /\ trace w' = trace w ++ map would_push (to_push filelist)
    /\ untouched w w'.
Proof.
  induction filelist as [|ci rest IH]; intros pushed skipped w.
  - exists w. cbn. rewrite !Z.add_0_r, app_nil_r.
    unfold untouched. auto 10.
  - pose proof (to_push_length rest) as Hle.
    cbn [push_loop]. unfold to_push in *. cbn [List.filter length].
    destruct (ci_flag ci =? 0).
    + unfold bind at 1. unfold fprintf_stderr, emit.
      match goal with |- context [push_loop true rest _ _ ?w1] =>
        destruct (IH (pushed + 1) skipped w1) as (w' & E & Ht & Hu) end.
      exists w'. split.
      { rewrite E. do 3 f_equal; cbn [length]; lia. }
      split.
      { rewrite Ht. cbn [trace log map]. rewrite <- app_assoc. reflexivity. }
      unfold untouched in *. cbn [inp wbudget files lfds total_bytes fd trace log] in Hu.
      rewrite stream_writes_app, stream_reads_app in Hu. cbn in Hu.
      rewrite !app_nil_r in Hu. exact Hu.
    + destruct (IH pushed (skipped + 1) w) as (w' & E & Ht & Hu).
      exists w'. split; [|auto].
      rewrite E. do 3 f_equal. lia.
Qed.

(** X7 (copy_local_dir_remote, the transfer loop and the summary).
    A directory push that succeeds ends with the summary line, and
    its two counters account for every item of the list exactly
    once; without timestamp check the pushed items are those whose
    flag was 0. *)
Theorem summary_counts_every_item filelist rpath check_timestamps list_only
    w w' :
  copy_local_dir_remote filelist rpath check_timestamps list_only w
  = Ret true w' ->
  exists pushed skipped t,
    trace w' = t ++ [summary rpath pushed skipped]
    /\ pushed + skipped = Z.of_nat (length filelist)
    /\ 0 <= pushed /\ 0 <= skipped
    /\ (check_timestamps = false ->
        pushed = Z.of_nat (length (to_push filelist))).
Proof.
  unfold copy_local_dir_remote. intros H.
  apply bind_inv in H as (checked & w1 & E1 & H).
  destruct checked as [filelist1|]; [|discriminate].
  apply bind_inv in H as (counts & w2 & E2 & H).
  destruct counts as [[pushed skipped]|]; [|discriminate].
  apply push_loop_counts in E2 as (-> & ->).
  pose proof (to_push_length filelist1) as Hle.
  unfold bind, Printf, emit, ret in H. injection H as <-.
  assert (Hlen : length filelist1 = length filelist
                 /\ (check_timestamps = false -> filelist1 = filelist)).
  { destruct check_timestamps.
    - apply check_timestamps_block_length in E1.
      split; [exact E1 | discriminate].
    - injection E1 as -> _. auto. }
  destruct Hlen as (Hlen & Hsame).
  eexists _, _, _. split; [reflexivity|].
  split; [lia|]. split; [lia|]. split; [lia|].
  intros Hc. rewrite (Hsame Hc). lia.
Qed.

End PushList.
(** ** A pull that the peer completes, and one that cannot start *)

Section Pull.

Variables (rpath lpath : string) (lfd : Z) (size : Z).

(** The turn that meets DONE leaves the loop. *)
Lemma sync_recv_loop_done fuel bytes_copied mtime rest w :
  inp w = done_frame mtime ++ rest ->
  sync_recv_loop (S fuel) rpath lpath lfd size bytes_copied w
  = Ret true (log (EvRead 8 (Some (done_frame mtime)))
                  (set_net rest (wbudget w) w)).
Proof.
  intros Hi. cbn [sync_recv_loop].
  change sizeof_data with (blen (done_frame mtime)).
  rewrite (bind_ret_eq _ _ _ _ _ (ReadFdExactly_delivers _ _ _ Hi)).
  unfold done_frame. rewrite rd32_0.
  change (ID_DONE mod 2 ^ 32 =? ID_DONE) with true. reflexivity.
Qed.

(** The loop on the frames of a complete pull. *)
Lemma sync_recv_loop_completes chunks :
  forall fuel bytes_copied w off nd mtime rest,
    inp w = concat (map data_frame chunks) ++ done_frame mtime ++ rest ->
    Forall (chunk_ok (max w)) chunks ->
    lfds w !! lfd = Some (lpath, off) ->
    files w !! lpath = Some nd ->
    n_size nd = blen (n_data nd) ->
    blen (concat chunks) <= disk_free w ->
    0 <= total_bytes w < 2 ^ 64 ->
    (chunks <> [] -> size <> 0) ->
    (length chunks < fuel)%nat ->
    exists w',
      sync_recv_loop fuel rpath lpath lfd size bytes_copied w = Ret true w'
      /\ inp w' = rest
      /\ files w' !! lpath = Some (append_data (concat chunks) nd)
      /\ (forall p, p <> lpath -> files w' !! p = files w !! p)
      /\ (exists off', lfds w' = <[lfd := (lpath, off')]> (lfds w))
      /\ total_bytes w' = u64 (total_bytes w + blen (concat chunks))
      /\ stream_writes (trace w') = stream_writes (trace w).
Proof.
  induction chunks as [|c chunks IH];
    intros fuel bc w off nd mtime rest Hi Hall Hfd Hf Hnd Hdisk Htb Hsz Hfuel;
    (destruct fuel as [|fuel]; [cbn in Hfuel; lia|]).
  - cbn [map concat app] in Hi.
    rewrite (sync_recv_loop_done _ _ _ _ _ Hi).
    eexists. split; [reflexivity|].
    cbn [inp files lfds total_bytes trace log set_net].
    rewrite stream_writes_app. cbn [stream_writes concat].
    rewrite app_nil_r.
    split; [reflexivity|]. split.
    { rewrite Hf. f_equal. destruct nd. unfold append_data. cbn in *.
      rewrite app_nil_r. congruence. }
    split; [reflexivity|]. split.
    { exists off. symmetry. apply insert_id. exact Hfd. }
    split; [|reflexivity].
    change (blen []) with 0. rewrite Z.add_0_r.
    symmetry. apply u64_small. exact Htb.
  - cbn [map concat] in Hi. rewrite <- app_assoc in Hi.
    apply Forall_cons_1 in Hall as [Hc Hall].
    cbn [concat] in Hdisk. rewrite blen_app in Hdisk.
    pose proof (blen_nonneg c) as Hc0.
    pose proof (blen_nonneg (concat chunks)) as Hcs0.
    destruct (sync_recv_loop_step rpath lpath lfd size fuel bc c _ w off
                Hi Hc Hfd)
      as (w1 & bc' & -> & Hi1 & Hm1 & Hfd1 & Hf1 & Hd1 & Ht1 & Hw1 & _);
      [lia | apply Hsz; discriminate |].
    destruct (IH fuel bc' w1 (off + blen c) (append_data c nd) mtime rest)
      as (w' & E & Hi' & Hf' & Hother & (off' & Hfd') & Ht' & Hw').
    + exact Hi1.
    + rewrite Hm1. exact Hall.
    + rewrite Hfd1. apply lookup_insert_eq.
    + rewrite Hf1, lookup_alter_eq, Hf. reflexivity.
    + reflexivity.
    + lia.
    + rewrite Ht1. apply u64_range.
    + intros _. apply Hsz. discriminate.
    + cbn [length] in Hfuel. lia.
    + exists w'. split; [exact E|]. split; [exact Hi'|].
      split.
      { rewrite Hf', append_data_app. reflexivity. }
      split.
      { intros p Hp. rewrite (Hother p Hp), Hf1.
        apply lookup_alter_ne. congruence. }
      split.
      { exists off'. rewrite Hfd', Hfd1. apply insert_insert_eq. }
      split; [|congruence].
      rewrite Ht', Ht1, u64_add_l. cbn [concat]. rewrite blen_app.
      f_equal. lia.
Qed.

End Pull.

Section PullFile.

Ltac returns_false H :=
  repeat (apply bind_inv in H as (? & ? & _ & H)); discriminate H.

Lemma SendRequest_true_inv id path w w1 :
  SendRequest id path w = Ret true w1 ->
  stream_writes (trace w1) = stream_writes (trace w) ++ [request id path]
  /\ files w1 = files w.
Proof.
  unfold SendRequest.
  destruct (1024 <? strlen path).
  { unfold bind, Error, emit, ret. discriminate. }
  unfold WriteFdExactly.
  destruct (_ <=? _); intros [= <-].
  cbn [trace files log set_net]. rewrite stream_writes_app. auto.
Qed.

Lemma sync_finish_stat_quiet w r w1 :
  sync_finish_stat w = Ret r w1 ->
  stream_writes (trace w1) = stream_writes (trace w) /\ files w1 = files w.
Proof.
  destruct (sync_finish_stat_event w) as (r' & rest & e & -> & He & _).
  intros [= _ <-]. cbn [trace files log set_net].
  rewrite stream_writes_app.
  destruct e; try discriminate. cbn [stream_writes].
  rewrite app_nil_r. auto.
Qed.

(** A receive loop that is left by DONE wrote nothing to the
    connection and removed no local file. *)
Lemma sync_recv_loop_true rpath lpath lfd size fuel : forall bc w w',
  sync_recv_loop fuel rpath lpath lfd size bc w = Ret true w' ->
  stream_writes (trace w') = stream_writes (trace w)
  /\ forall p, is_Some (files w !! p) -> is_Some (files w' !! p).
Proof.
  induction fuel as [|fuel IH]; intros bc w w' H; [discriminate|].
  cbn [sync_recv_loop] in H.
  apply bind_inv in H as (r & w1 & E1 & H).
  destruct r as [msg|]; [|returns_false H].
  apply ReadFdExactly_inv in E1 as (rest1 & Hi & Hl & ->);
    [|vm_compute; discriminate].
  destruct (rd32 0 msg =? ID_DONE).
  { injection H as <-. cbn [trace files log set_net].
    rewrite stream_writes_app. cbn [stream_writes].
    rewrite app_nil_r. auto. }
  destruct (rd32 0 msg =? ID_DATA); cbn [negb] in H; [|returns_false H].
  apply bind_inv in H as (limit & w2 & E2 & H). injection E2 as <- <-.
  destruct (_ <? _); [returns_false H|].
  apply bind_inv in H as (r2 & w3 & E3 & H).
  destruct r2 as [buffer|]; [|returns_false H].
  apply ReadFdExactly_inv in E3 as (rest2 & Hi2 & Hl2 & ->);
    [|apply rd32_range].
  apply bind_inv in H as (ok & w4 & E4 & H).
  destruct ok; cbn [negb] in H; [|returns_false H].
  apply bind_inv in H as ([] & w5 & E5 & H). injection E5 as <-.
  destruct (size =? 0); [discriminate|].
  apply bind_inv in H as ([] & w6 & E6 & H). injection E6 as <-.
  apply IH in H as [Hw Hf].
  unfold WriteFdExactly_file in E4. cbn [lfds disk_free log set_net] in E4.
  destruct (lfds w !! lfd) as [[p off]|]; [|discriminate].
  destruct (_ <=? _); [|discriminate]. injection E4 as <-.
  cbn [trace files log set_net set_fs set_total_bytes set_conn] in Hw, Hf.
  split.
  - rewrite Hw, !stream_writes_app. cbn [stream_writes].
    rewrite !app_nil_r. reflexivity.
  - intros q Hq. apply Hf.
    destruct (decide (p = q)) as [->|Hne].
    + rewrite lookup_alter_eq. apply fmap_is_Some. exact Hq.
    + rewrite lookup_alter_ne by exact Hne. exact Hq.
Qed.

(** A pull that succeeds wrote the STAT and the RECV request for
    the remote path, left the destination in place, and removed no
    other local file. *)
Lemma sync_recv_true rpath lpath w w' :
  sync_recv rpath lpath w = Ret true w' ->
  stream_writes (trace w')
  = stream_writes (trace w)
      ++ [request ID_STAT rpath; request ID_RECV rpath]
  /\ is_Some (files w' !! lpath)
  /\ forall p, is_Some (files w !! p) -> is_Some (files w' !! p).
Proof.
  unfold sync_recv. intros H.
  apply bind_inv in H as ([] & w1 & E1 & H). injection E1 as <-.
  apply bind_inv in H as (st & w2 & E2 & H).
  destruct st as [[[ts mode] size]|]; [|discriminate].
  unfold sync_stat in E2. apply bind_inv in E2 as (ok & w1' & E2a & E2).
  destruct ok; cbn [negb] in E2; [|discriminate].
  apply SendRequest_true_inv in E2a as [Hw1 Hf1].
  apply sync_finish_stat_quiet in E2 as [Hw2 Hf2].
  apply bind_inv in H as (ok & w3 & E3 & H).
  destruct ok; cbn [negb] in H; [|discriminate].
  apply SendRequest_true_inv in E3 as [Hw3 Hf3].
  apply bind_inv in H as ([] & w4 & E4 & H). injection E4 as <-.
  apply bind_inv in H as ([] & w5 & E5 & H). injection E5 as <-.
  apply bind_inv in H as (lfd & w6 & E6 & H).
  unfold adb_creat in E6. cbn [nocreat next_fd log set_fs] in E6.
  destruct (decide _); injection E6 as <- <-; [returns_false H|].
  destruct (_ <? 0); [returns_false H|].
  apply bind_inv in H as (fuel & w7 & E7 & H). injection E7 as _ <-.
  apply bind_inv in H as (fin & w8 & E8 & H).
  destruct fin; cbn [negb] in H; [|discriminate].
  apply bind_inv in H as ([] & w9 & E9 & H). injection E9 as <-.
  injection H as <-.
  apply sync_recv_loop_true in E8 as [Hw8 Hf8].
  cbn [trace files log set_fs] in *.
  rewrite !stream_writes_app in Hw8. cbn [stream_writes] in Hw8.
  rewrite !app_nil_r in Hw8.
  split.
  { rewrite stream_writes_app. cbn [stream_writes].
    rewrite app_nil_r, Hw8, Hw3, Hw2, Hw1, stream_writes_app.
    cbn [stream_writes]. rewrite app_nil_r, <- app_assoc. reflexivity. }
  split.
  { apply Hf8. rewrite lookup_insert_eq. eauto. }
  intros p Hp. apply Hf8.
  destruct (decide (lpath = p)) as [->|Hne].
  - rewrite lookup_insert_eq. eauto.
  - rewrite lookup_insert_ne, lookup_delete_ne by exact Hne.
    rewrite Hf3, Hf2, Hf1. exact Hp.
Qed.

(** The pull of a file that the peer serves in full. *)
Lemma sync_recv_completes rpath lpath mode size time chunks rest w :
  strlen rpath <= 1024 ->
  2 * (8 + strlen rpath) <= wbudget w ->
  lpath ∉ nocreat w ->
  0 <= next_fd w ->
  0 <= total_bytes w < 2 ^ 64 ->
  max w <= SYNC_DATA_MAX ->
  inp w = stat_reply mode size time ++ pull_body chunks ++ rest ->
  Forall (chunk_ok (max w)) chunks ->
  blen (concat chunks) <= disk_free w ->
  (chunks <> [] -> u32 size <> 0) ->
  exists w',
    sync_recv rpath lpath w = Ret true w'
    /\ files w' !! lpath
       = Some (regular_file (Z.land 420 (Z.lnot (umask w))) (concat chunks))
    /\ (forall p, p <> lpath -> files w' !! p = files w !! p)
    /\ lfds w' = delete (next_fd w) (lfds w)
    /\ total_bytes w' = u64 (total_bytes w + blen (concat chunks))
    /\ inp w' = rest.
Proof.
  intros Hp Hb Hc Hfd Htb Hmax Hi Hall Hdisk Hsz.
  unfold pull_body in Hi. rewrite <- app_assoc in Hi.
  rewrite (sync_recv_starts rpath lpath mode size time _ w Hp Hb Hc Hfd Hi).
  match goal with |- context [bind (sync_recv_loop ?fuel _ _ _ _ _) _ ?w0] =>
    destruct (sync_recv_loop_completes rpath lpath (next_fd w) (u32 size)
                chunks fuel 0 w0 0
                (empty_file (Z.land 420 (Z.lnot (umask w)))) 0 rest)
      as (w1 & E & Hi1 & Hf1 & Hother & (off' & Hfd1) & Ht1 & _)
  end.
  - reflexivity.
  - exact Hall.
  - apply lookup_insert_eq.
  - apply lookup_insert_eq.
  - reflexivity.
  - exact Hdisk.
  - exact Htb.
  - exact Hsz.
  - rewrite length_app. pose proof (length_frames chunks). lia.
  - rewrite (bind_ret_eq _ _ _ _ _ E). cbn [negb].
    unfold bind, adb_close, ret. eexists. split; [reflexivity|].
    cbn [files lfds total_bytes inp log set_fs].
    split; [rewrite Hf1; reflexivity|].
    split.
    { intros p Hne. rewrite (Hother p Hne).
      cbn [files recv_started log set_fs set_net].
      rewrite lookup_insert_ne by congruence.
      apply lookup_delete_ne. congruence. }
    split.
    { rewrite Hfd1. cbn [lfds recv_started log set_fs set_net].
      rewrite insert_insert_eq, delete_insert_eq. reflexivity. }
    split; [exact Ht1 | exact Hi1].
Qed.


(** X8 (sync_recv).  A pull that the peer completes stores the
    file: when the peer answers the STAT request, sends DATA frames
    none of which exceeds the chunk limit, and closes with DONE,
    sync_recv returns true, the destination is a new regular file
    whose permission bits are 0644 less the bits of the creation mask
    of the process and whose content is the payloads in the order of
    arrival, no other local file is touched, the descriptor is closed
    again, total_bytes has grown by the length of the content, what
    the peer sent after DONE is still unread, and the buffers handed
    to the connection are the STAT and the RECV request. *)
Theorem sync_recv_stores_the_file rpath lpath mode size time chunks rest w :
  strlen rpath <= 1024 ->
  2 * (8 + strlen rpath) <= wbudget w ->
  lpath ∉ nocreat w ->
  0 <= next_fd w ->
  lfds w !! next_fd w = None ->
  0 <= total_bytes w < 2 ^ 64 ->
  max w <= SYNC_DATA_MAX ->
  inp w = stat_reply mode size time ++ pull_body chunks ++ rest ->
  Forall (chunk_ok (max w)) chunks ->
  blen (concat chunks) <= disk_free w ->
  (chunks <> [] -> u32 size <> 0) ->
  exists w',
    sync_recv rpath lpath w = Ret true w'
    /\ files w' !! lpath
       = Some (regular_file (Z.land 420 (Z.lnot (umask w))) (concat chunks))
    /\ (forall p, p <> lpath -> files w' !! p = files w !! p)
    /\ lfds w' = lfds w
    /\ total_bytes w' = u64 (total_bytes w + blen (concat chunks))
    /\ inp w' = rest
    /\ stream_writes (trace w')
       = stream_writes (trace w)
           ++ [request ID_STAT rpath; request ID_RECV rpath].
Proof.
  intros Hp Hb Hc Hfd Hfresh Htb Hmax Hi Hall Hdisk Hsz.
  destruct (sync_recv_completes rpath lpath mode size time chunks rest w
              Hp Hb Hc Hfd Htb Hmax Hi Hall Hdisk Hsz)
    as (w' & E & Hf & Hother & Hfds & Ht & Hi').
  exists w'. split; [exact E|]. split; [exact Hf|].
  split; [exact Hother|].
  split; [rewrite Hfds; apply delete_id; exact Hfresh|].
  split; [exact Ht|]. split; [exact Hi'|].
  apply sync_recv_true in E as (Hw & _). exact Hw.
Qed.

(** X9 (sync_recv).  A pull that cannot start leaves the local side
    alone: when the path is too long for a request, or the peer does
    not take the STAT and the RECV request, or its answer is not a
    STAT reply, sync_recv returns false before the destination is
    unlinked; the local files and descriptors are as they were. *)
Theorem sync_recv_fails_before_unlink rpath lpath w :
  1024 < strlen rpath \/ wbudget w < 2 * (8 + strlen rpath)
  \/ blen (inp w) < 16 \/ rd32 0 (inp w) <> ID_STAT ->
  exists w' t,
    sync_recv rpath lpath w = Ret false w'
    /\ files w' = files w /\ lfds w' = lfds w
    /\ trace w' = trace w ++ t
    /\ Forall (fun e => fs_event e = false) t.
Proof.
  intros H. pose proof (strlen_nonneg rpath) as Hnn.
  unfold sync_recv. unfold bind at 1, Print, emit. cbv beta iota.
  unfold sync_stat. unfold bind at 1 2.
  destruct (Z.le_gt_cases (strlen rpath) 1024) as [Hp|Hp].
  2:{ unfold SendRequest. destruct (Z.ltb_spec 1024 (strlen rpath)); [|lia].
      unfold bind, Error, emit, ret. cbn [negb].
      eexists _, [_; _]. split; [reflexivity|].
      cbn [files lfds trace log]. rewrite <- app_assoc.
      repeat (match goal with |- _ /\ _ => split end);
        try reflexivity. repeat constructor. }
  destruct (Z.le_gt_cases (8 + strlen rpath) (wbudget w)) as [Hb|Hb].
  2:{ rewrite SendRequest_short by assumption.
      rewrite WriteFdExactly_refused
        by (rewrite blen_request; cbn [wbudget log]; lia).
      cbn [negb]. unfold ret.
      eexists _, [_; _]. split; [reflexivity|].
      cbn [files lfds trace log set_net]. rewrite <- app_assoc.
      repeat (match goal with |- _ /\ _ => split end);
        try reflexivity. repeat constructor. }
  rewrite SendRequest_goes_out by (cbn [wbudget log]; lia).
  cbn [negb].
  match goal with |- context [sync_finish_stat ?w1] =>
    destruct (sync_finish_stat_spec w1) as (r & w2 & E & Hr & Hd & _);
    destruct (sync_finish_stat_event w1) as (r' & rest' & e & E' & _ & He)
  end.
  rewrite E in E'. injection E' as <- Ew. rewrite E. subst w2.
  cbn [inp wbudget log set_net] in *.
  destruct r as [[[timestamp mode'] size']|].
  - assert (Hok : 16 <= blen (inp w) /\ rd32 0 (inp w) = ID_STAT)
      by (apply Hr; discriminate).
    unfold bind at 1.
    rewrite SendRequest_short by assumption.
    rewrite WriteFdExactly_refused
      by (rewrite blen_request; cbn [wbudget log set_net]; lia).
    cbn [negb]. unfold ret.
    eexists _, [_; _; _; _]. split; [reflexivity|].
    cbn [files lfds trace log set_net]. rewrite <- !app_assoc.
    repeat (match goal with |- _ /\ _ => split end);
      try reflexivity. repeat constructor. exact He.
  - unfold ret.
    eexists _, [_; _; _]. split; [reflexivity|].
    cbn [files lfds trace log set_net]. rewrite <- !app_assoc.
    repeat (match goal with |- _ /\ _ => split end);
      try reflexivity. repeat constructor. exact He.
Qed.

End PullFile.
(** ** A push and the local side *)

Section Tidy.

Lemma tidy_ret {A} (a : A) : tidy (ret a).
Proof. intros w a' w' Hf [= <- <-]. auto. Qed.

Lemma tidy_bind {A B} (c : M A) (k : A -> M B) :
  tidy c -> (forall a, tidy (k a)) -> tidy (bind c k).
Proof.
  intros Hc Hk w b w' Hf H.
  apply bind_inv in H as (a & w1 & E1 & E2).
  destruct (Hc w a w1 Hf E1) as (Hf1 & Hl1 & Hfr1).
  destruct (Hk a w1 b w' Hfr1 E2) as (Hf2 & Hl2 & Hfr2).
  split; [congruence|]. split; [congruence | exact Hfr2].
Qed.

Lemma tidy_emit e : tidy (emit e).
Proof. intros w a w' Hf [= <- <-]. auto. Qed.

Lemma tidy_get {A} (f : world -> A) : tidy (get f).
Proof. intros w a w' Hf [= <- <-]. auto. Qed.

Lemma tidy_ReadFdExactly len : tidy (ReadFdExactly len).
Proof.
  intros w a w' Hf. unfold ReadFdExactly.
  destruct (_ <? _); intros [= <- <-]; auto.
Qed.

Lemma tidy_WriteFdExactly buf : tidy (WriteFdExactly buf).
Proof.
  intros w a w' Hf. unfold WriteFdExactly.
  destruct (_ <=? _); intros [= <- <-]; auto.
Qed.

Lemma tidy_add_total_bytes n : tidy (add_total_bytes n).
Proof. intros w a w' Hf [= <- <-]. auto. Qed.

Lemma tidy_stat p : tidy (stat p).
Proof. intros w a w' Hf [= <- <-]. auto. Qed.

Lemma tidy_readlink p n : tidy (readlink p n).
Proof. intros w a w' Hf [= <- <-]. auto. Qed.

Lemma tidy_ReadFileToString p : tidy (ReadFileToString p).
Proof. intros w a w' Hf [= <- <-]. auto. Qed.

Lemma tidy_ReadOrderlyShutdown : tidy ReadOrderlyShutdown.
Proof. intros w a w' Hf [= <- <-]. auto. Qed.

Lemma tidy_if {A} (b : bool) (x y : M A) :
  tidy x -> tidy y -> tidy (if b then x else y).
Proof. destruct b; auto. Qed.

Ltac tidy :=
  repeat first
    [ apply tidy_ret | apply tidy_emit | apply tidy_get
    | apply tidy_ReadFdExactly | apply tidy_WriteFdExactly
    | apply tidy_add_total_bytes | apply tidy_stat | apply tidy_readlink
    | apply tidy_ReadFileToString | apply tidy_ReadOrderlyShutdown
    | apply tidy_bind | apply tidy_if
    | match goal with |- forall _ : _, _ => intro end
    | match goal with
      | |- tidy (match ?x with _ => _ end) => destruct x
      end ].

Lemma tidy_SendRequest id path : tidy (SendRequest id path).
Proof. unfold SendRequest, Error. tidy. Qed.

Lemma tidy_SendSmallFile pm rpath data mtime :
  tidy (SendSmallFile pm rpath data mtime).
Proof. unfold SendSmallFile, Print, Error. tidy. Qed.

Lemma tidy_ReadFdExactly_no_room len : tidy (ReadFdExactly_no_room len).
Proof. intros w a w' Hf [= <- <-]. auto. Qed.

Lemma tidy_ReportCopyFailure from to msglen :
  tidy (ReportCopyFailure from to msglen).
Proof.
  unfold ReportCopyFailure, Error. cbv zeta.
  apply tidy_bind.
  - apply tidy_if;
      [apply tidy_ReadFdExactly_no_room | apply tidy_ReadFdExactly].
  - intros [buf|]; tidy.
Qed.

Lemma tidy_CopyDone from to : tidy (CopyDone from to).
Proof.
  unfold CopyDone, Error.
  apply tidy_bind; [apply tidy_ReadFdExactly|].
  intros [msg|]; [|tidy].
  repeat apply tidy_if; try apply tidy_ReportCopyFailure; tidy.
Qed.

Lemma tidy_sync_finish_stat : tidy sync_finish_stat.
Proof. unfold sync_finish_stat. tidy. Qed.

Lemma adb_read_fs lfd count w r w1 :
  adb_read lfd count w = Ret r w1 ->
  files w1 = files w /\ next_fd w1 = next_fd w
  /\ delete lfd (lfds w1) = delete lfd (lfds w).
Proof.
  unfold adb_read.
  destruct (lfds w !! lfd) as [[p off]|]; [|intros [= <- <-]; auto].
  destruct (files w !! p) as [nd|]; [|intros [= <- <-]; auto].
  destruct (rd_fails nd off); intros [= <- <-]; auto.
  cbn [files next_fd lfds log set_fs].
  split; [reflexivity|]. split; [reflexivity|]. apply delete_insert_eq.
Qed.

(** The loop of SendLargeFile keeps the local files, allocates no
    descriptor, touches no descriptor but its own, and has closed
    its own when it returns false. *)
Lemma SendLargeFile_loop_fs lfd lpath rpath total_size fuel :
  forall bytes_copied w b w',
    SendLargeFile_loop fuel lfd lpath rpath total_size bytes_copied w
    = Ret b w' ->
    files w' = files w /\ next_fd w' = next_fd w
    /\ delete lfd (lfds w') = delete lfd (lfds w)
    /\ (b = false -> lfds w' !! lfd = None).
Proof.
  induction fuel as [|fuel IH]; intros bc w b w' H; [discriminate|].
  cbn [SendLargeFile_loop] in H.
  apply bind_inv in H as (count & w0 & E0 & H).
  injection E0 as <- <-.
  apply bind_inv in H as (r & w1 & E1 & H).
  apply adb_read_fs in E1 as (Hf1 & Hn1 & Hd1).
  destruct r as [chunk|].
  - destruct (blen chunk <=? 0).
    { injection H as <- <-. split; [exact Hf1|]. split; [exact Hn1|].
      split; [exact Hd1 | discriminate]. }
    apply bind_inv in H as (ok & w2 & E2 & H).
    unfold WriteFdExactly in E2.
    assert (Hw2 : files w2 = files w1 /\ next_fd w2 = next_fd w1
                  /\ lfds w2 = lfds w1).
    { destruct (_ <=? _) in E2; injection E2 as <- <-; auto. }
    destruct Hw2 as (Hf2 & Hn2 & Hl2).
    destruct ok; cbn [negb] in H.
    + apply bind_inv in H as (u & w3 & E3 & H).
      injection E3 as <- <-.
      destruct (total_size =? 0); [discriminate|].
      apply bind_inv in H as (u' & w4 & E4 & H).
      injection E4 as <- <-.
      apply IH in H as (Hf & Hn & Hd & Hb).
      cbn [files next_fd lfds log set_total_bytes set_conn] in Hf, Hn, Hd.
      split; [congruence|]. split; [congruence|].
      split; [congruence | exact Hb].
    + unfold bind, adb_close, ret in H. injection H as <- <-.
      cbn [files next_fd lfds log set_fs].
      split; [congruence|]. split; [congruence|].
      split; [|intros _; apply lookup_delete_eq].
      rewrite delete_delete_eq. congruence.
  - unfold bind, Error, emit, adb_close, ret in H. injection H as <- <-.
    cbn [files next_fd lfds log set_fs].
    split; [congruence|]. split; [congruence|].
    split; [|intros _; apply lookup_delete_eq].
    rewrite delete_delete_eq. congruence.
Qed.

Lemma fresh_fds_step w w' :
  fresh_fds w -> lfds w' = lfds w -> next_fd w <= next_fd w' ->
  fresh_fds w'.
Proof.
  unfold fresh_fds. intros [H0 Hf] Hl Hn. split; [lia|].
  intros k Hk. rewrite Hl. apply Hf. lia.
Qed.

Lemma tidy_SendLargeFile pm lpath rpath mtime :
  tidy (SendLargeFile pm lpath rpath mtime).
Proof.
  unfold SendLargeFile.
  apply tidy_bind; [apply tidy_SendRequest|]. intros ok.
  destruct ok; cbn [negb]; [|unfold Error; tidy].
  apply tidy_bind; [apply tidy_stat|]. intros [[st_mode st_size]|];
    [|unfold Error; tidy].
  intros w b w' Hfr H.
  apply bind_inv in H as (lfd & w1 & E1 & H).
  unfold adb_open in E1.
  destruct (files w !! lpath) as [nd|].
  2:{ injection E1 as <- <-. cbn in H. injection H as <- <-. auto. }
  destruct (n_noopen nd).
  { injection E1 as <- <-. cbn in H. injection H as <- <-. auto. }
  injection E1 as <- <-.
  destruct Hfr as [H0 Hfr].
  destruct (Z.ltb_spec (next_fd w) 0); [lia|].
  apply bind_inv in H as (fuel & w2 & E2 & H). injection E2 as <- <-.
  apply bind_inv in H as (finished & w3 & E3 & H).
  apply SendLargeFile_loop_fs in E3 as (Hf3 & Hn3 & Hd3 & Hb3).
  cbn [files next_fd lfds log set_fs] in Hf3, Hn3, Hd3.
  rewrite delete_insert_eq in Hd3.
  rewrite (delete_id (lfds w)) in Hd3 by (apply Hfr; lia).
  destruct finished; cbn [negb] in H.
  - apply bind_inv in H as (u & w4 & E4 & H).
    unfold adb_close in E4. injection E4 as <- <-.
    apply bind_inv in H as (ok & w5 & E5 & H).
    assert (Hw5 : files w5 = files w /\ lfds w5 = lfds w
                  /\ next_fd w5 = next_fd w + 1).
    { unfold WriteFdExactly in E5.
      destruct (_ <=? _) in E5; injection E5 as <- <-;
        cbn [files next_fd lfds log set_fs set_net]; auto. }
    destruct Hw5 as (Hf5 & Hl5 & Hn5).
    assert (Hw' : files w' = files w5 /\ lfds w' = lfds w5
                  /\ next_fd w' = next_fd w5).
    { destruct ok; cbn [negb] in H.
      - injection H as <- <-. auto.
      - unfold bind, Error, emit, ret in H. injection H as <- <-. auto. }
    destruct Hw' as (Hf' & Hl' & Hn').
    split; [congruence|]. split; [congruence|].
    split; [lia|]. intros k Hk. rewrite Hl', Hl5. apply Hfr. lia.
  - injection H as <- <-.
    rewrite <- (delete_id (lfds w3) (next_fd w)) by (apply Hb3; reflexivity).
    split; [congruence|]. split; [congruence|].
    split; [lia|]. intros k Hk.
    rewrite <- (delete_id (lfds w3) (next_fd w)) by (apply Hb3; reflexivity).
    rewrite Hd3. apply Hfr. lia.
Qed.

Lemma tidy_sync_send lpath rpath mtime mode :
  tidy (sync_send lpath rpath mtime mode).
Proof.
  unfold sync_send, Error.
  repeat first
    [ apply tidy_SendSmallFile | apply tidy_CopyDone
    | apply tidy_SendLargeFile
    | apply tidy_ret | apply tidy_emit | apply tidy_stat
    | apply tidy_readlink | apply tidy_ReadFileToString
    | apply tidy_bind | apply tidy_if
    | match goal with |- forall _ : _, _ => intro end
    | match goal with
      | |- tidy (match ?x with _ => _ end) => destruct x
      end ].
Qed.

Lemma tidy_stat_request_loop filelist : tidy (stat_request_loop filelist).
Proof.
  induction filelist as [|ci rest IH]; cbn [stat_request_loop];
    [apply tidy_ret|].
  apply tidy_bind; [apply tidy_SendRequest|].
  intros ok. destruct ok; cbn [negb]; [exact IH | apply tidy_ret].
Qed.

Lemma tidy_stat_reply_loop filelist : tidy (stat_reply_loop filelist).
Proof.
  induction filelist as [|ci rest IH]; cbn [stat_reply_loop];
    [apply tidy_ret|].
  apply tidy_bind; [apply tidy_sync_finish_stat|].
  intros [[[timestamp mode] size]|]; [|apply tidy_ret].
  apply tidy_bind; [exact IH | intros; apply tidy_ret].
Qed.

Lemma tidy_push_loop list_only filelist :
  forall pushed skipped, tidy (push_loop list_only filelist pushed skipped).
Proof.
  induction filelist as [|ci rest IH]; intros pushed skipped;
    cbn [push_loop]; [apply tidy_ret|].
  destruct (ci_flag ci =? 0); [|apply IH].
  destruct list_only.
  - apply tidy_bind; [apply tidy_emit | intros; apply IH].
  - apply tidy_bind; [apply tidy_sync_send|].
    intros ok. destruct ok; cbn [negb]; [apply IH | apply tidy_ret].
Qed.

Lemma tidy_copy_local_dir_remote filelist rpath check_timestamps list_only :
  tidy (copy_local_dir_remote filelist rpath check_timestamps list_only).
Proof.
  unfold copy_local_dir_remote.
  apply tidy_bind.
  { destruct check_timestamps; [|apply tidy_ret].
    unfold check_timestamps_block.
    apply tidy_bind; [apply tidy_stat_request_loop|].
    intros ok. destruct ok; cbn [negb];
      [apply tidy_stat_reply_loop | apply tidy_ret]. }
  intros [filelist'|]; [|apply tidy_ret].
  apply tidy_bind; [apply tidy_push_loop|].
  intros [[pushed skipped]|]; [|apply tidy_ret].
  unfold Printf. tidy.
Qed.

(** X10 (SendLargeFile, sync_send, copy_local_dir_remote).  A push
    never changes a local file and never leaks a descriptor:
    whenever sync_send returns, with true or with false, the local
    files and the set of open descriptors are what they were before
    the call, and so for the push of a whole list. *)
Theorem push_leaves_local_side_as_it_was w :
  fresh_fds w ->
  (forall lpath rpath mtime mode b w',
      sync_send lpath rpath mtime mode w = Ret b w' ->
      files w' = files w /\ lfds w' = lfds w)
  /\ (forall filelist rpath check_timestamps list_only b w',
        copy_local_dir_remote filelist rpath check_timestamps list_only w
        = Ret b w' ->
        files w' = files w /\ lfds w' = lfds w).
Proof.
  intros Hfr. split.
  - intros lpath rpath mtime mode b w' H.
    destruct (tidy_sync_send lpath rpath mtime mode w b w' Hfr H)
      as (Hf & Hl & _). auto.
  - intros filelist rpath ct lo b w' H.
    destruct (tidy_copy_local_dir_remote filelist rpath ct lo w b w' Hfr H)
      as (Hf & Hl & _). auto.
Qed.

End Tidy.

Section Modes.

(** SendSmallFile with a path that fits hands the burst to the
    connection, and nothing else. *)
Lemma SendSmallFile_writes_the_burst pm rpath data mtime w :
  strlen pm <= 1024 ->
  exists b w',
    SendSmallFile pm rpath data mtime w = Ret b w'
    /\ stream_writes (trace w')
       = stream_writes (trace w) ++ [burst pm data mtime]
    /\ stream_reads (trace w') = stream_reads (trace w)
    /\ inp w' = inp w.
Proof.
  intros Hp. unfold SendSmallFile.
  unfold bind at 1, Print, emit. cbv beta iota.
  destruct (Z.ltb_spec 1024 (strlen pm)); [lia|].
  fold (burst pm data mtime).
  unfold bind, WriteFdExactly, add_total_bytes, ret. cbn [wbudget log].
  destruct (_ <=? wbudget w); cbn [negb];
    eexists _, _; (split; [reflexivity|]);
    cbn [trace inp log set_net set_total_bytes set_conn];
    rewrite !stream_writes_app, !stream_reads_app;
    cbn [stream_writes stream_reads]; rewrite ?app_nil_r; auto.
Qed.

(** X26 (sync_send).  What sync_send does with an item that is not
    a regular file.  A symbolic link is pushed in the burst form,
    and the payload is the text of the link, cut at PATH_MAX - 1
    bytes, with a terminating NUL; the file the link points to is
    not read.  An item of any other mode is refused: sync_send
    reports the mode and returns false without writing to or
    reading from the connection. *)
Theorem sync_send_link_or_refusal lpath rpath mtime mode w :
  let path_and_mode := (rpath ++ "," ++ fmt_d mode)%string in
  (S_ISLNK mode = true ->
   strlen path_and_mode <= 1024 ->
   forall nd,
     files w !! lpath = Some nd ->
     S_ISLNK (n_mode nd) = true ->
     exists b w',
       sync_send lpath rpath mtime mode w = Ret b w'
       /\ stream_writes (trace w')
          = stream_writes (trace w)
              ++ [burst path_and_mode
                        (firstn (Z.to_nat (PATH_MAX - 1)) (n_data nd)
                           ++ [x00])
                        mtime])
  /\ (S_ISLNK mode = false -> S_ISREG mode = false ->
      exists w',
        sync_send lpath rpath mtime mode w = Ret false w'
        /\ trace w'
           = trace w ++ [EvError "local file '%s' has unsupported mode: 0o%o"
                                 [AStr lpath; AInt mode]]
        /\ untouched w w').
Proof.
  intros pm. split.
  - intros Hl Hp nd Hf Hnl. unfold sync_send. fold pm. rewrite Hl.
    unfold bind at 1, readlink. rewrite Hf, Hnl.
    destruct (SendSmallFile_writes_the_burst pm rpath
                (firstn (Z.to_nat (PATH_MAX - 1)) (n_data nd) ++ [x00])
                mtime w Hp) as (ok & w1 & E1 & Hw1 & _).
    rewrite (bind_ret_eq _ _ _ _ _ E1).
    destruct ok; cbn [negb].
    + destruct (CopyDone_writes_nothing lpath rpath w1) as (b & w' & E & Hw).
      exists b, w'. split; [exact E|]. rewrite Hw. exact Hw1.
    + exists false, w1. split; [reflexivity | exact Hw1].
  - intros Hl Hr. unfold sync_send. rewrite Hl, Hr. cbn [negb].
    unfold bind, Error, emit, ret. eexists. split; [reflexivity|].
    split; [reflexivity|]. apply untouched_Error.
Qed.

End Modes.
(** ** A large file that goes through *)

Section Stream.

Variables (lfd : Z) (lpath rpath : string) (total_size : Z).

Lemma full_but_last_nonempty n chunks :
  0 < n -> full_but_last n chunks -> chunks <> [] -> concat chunks <> [].
Proof.
  intros Hn. destruct chunks as [|c rest]; [congruence|].
  intros H _. cbn [concat].
  assert (Hc : 0 < blen c).
  { cbn [full_but_last] in H. destruct rest; [lia | destruct H; lia]. }
  destruct c; [unfold blen in Hc; cbn in Hc; lia | discriminate].
Qed.

(** The loop on a readable file with a peer that takes every frame:
    it leaves by [break] after sending the rest of the file in
    pieces of the chunk limit, the last one possibly shorter. *)
Lemma SendLargeFile_loop_completes fuel : forall bytes_copied w nd off,
  lfds w !! lfd = Some (lpath, off) ->
  files w !! lpath = Some nd ->
  n_rdlimit nd = None ->
  0 <= off <= blen (n_data nd) ->
  (length (n_data nd) - Z.to_nat off < fuel)%nat ->
  total_size <> 0 ->
  0 < max w ->
  9 * (blen (n_data nd) - off) <= wbudget w ->
  0 <= total_bytes w < 2 ^ 64 ->
  exists w' chunks,
    SendLargeFile_loop fuel lfd lpath rpath total_size bytes_copied w
    = Ret true w'
    /\ stream_writes (trace w')
       = stream_writes (trace w) ++ map data_frame chunks
    /\ concat chunks = skipn (Z.to_nat off) (n_data nd)
    /\ full_but_last (max w) chunks
    /\ total_bytes w' = u64 (total_bytes w + (blen (n_data nd) - off))
    /\ wbudget w - 9 * (blen (n_data nd) - off) <= wbudget w'
    /\ inp w' = inp w.
Proof.
  induction fuel as [|fuel IH];
    intros bc w nd off Hd Hf Hrd Hoff Hfuel Hts Hmax Hbud Htb; [lia|].
  cbn [SendLargeFile_loop].
  unfold bind at 1, get at 1. unfold bind at 1, adb_read.
  rewrite Hd, Hf. unfold rd_fails. rewrite Hrd.
  set (rest := skipn (Z.to_nat off) (n_data nd)) in *.
  set (chunk := firstn (Z.to_nat (max w)) rest).
  assert (Hrest : rest = chunk ++ skipn (Z.to_nat (max w)) rest)
    by (symmetry; apply firstn_skipn).
  assert (Hlr : blen rest = blen (n_data nd) - off).
  { unfold blen, rest in *. rewrite length_skipn. lia. }
  assert (Hcl : blen chunk = Z.min (max w) (blen rest)).
  { unfold blen, chunk. rewrite length_firstn. lia. }
  destruct (Z.leb_spec (blen chunk) 0) as [Hz|Hnz].
  { unfold ret. exists (log (EvFileRead lfd (max w) (blen chunk))
                     (set_fs (files w) (<[lfd := (lpath, off + blen chunk)]> (lfds w))
                             (next_fd w) (disk_free w) w)), [].
    split; [reflexivity|].
    cbn [trace total_bytes wbudget inp log set_fs map concat].
    rewrite stream_writes_app. cbn [stream_writes]. rewrite !app_nil_r.
    assert (Hr0 : blen rest = 0) by lia.
    split; [reflexivity|]. split.
    { destruct rest; [reflexivity | cbn in Hr0; unfold blen in Hr0; cbn in Hr0; lia]. }
    split; [exact I|]. split; [|split; [lia | reflexivity]].
    rewrite <- Hlr, Hr0, Z.add_0_r. symmetry. apply u64_small. exact Htb. }
  unfold bind at 1, WriteFdExactly. cbn [wbudget log set_fs].
  assert (Hfl : blen (le32 ID_DATA ++ le32 (blen chunk) ++ chunk)
                = 8 + blen chunk) by apply blen_data_frame.
  rewrite Hfl.
  destruct (Z.leb_spec (8 + blen chunk) (wbudget w)); [|lia].
  cbn [negb].
  unfold bind at 1, add_total_bytes.
  destruct (Z.eqb_spec total_size 0); [contradiction|].
  unfold bind at 1, Printf, emit.
  assert (Hk : skipn (Z.to_nat (off + blen chunk)) (n_data nd)
               = skipn (Z.to_nat (max w)) rest).
  { replace (Z.to_nat (off + blen chunk))
      with (length chunk + Z.to_nat off)%nat by (unfold blen; lia).
    rewrite <- skipn_skipn. change (skipn (Z.to_nat off) (n_data nd)) with rest.
    rewrite Hrest at 1.
    rewrite skipn_app, skipn_all, Nat.sub_diag. reflexivity. }
  match goal with |- context [SendLargeFile_loop fuel _ _ _ _ ?bc' ?w4] =>
    destruct (IH bc' w4 nd (off + blen chunk))
      as (w' & chunks & E & Hw & Hcat & Hfull & Ht & Hb & Hi)
  end.
  { cbn [lfds log set_fs set_net set_total_bytes set_conn].
    apply lookup_insert_eq. }
  { exact Hf. }
  { exact Hrd. }
  { lia. }
  { unfold blen in *. lia. }
  { exact Hts. }
  { cbn [max log set_fs set_net set_total_bytes set_conn]. exact Hmax. }
  { cbn [wbudget log set_fs set_net set_total_bytes set_conn]. lia. }
  { cbn [total_bytes log set_fs set_net set_total_bytes set_conn].
    apply u64_range. }
  exists w', (chunk :: chunks). split; [exact E|].
  cbn [trace max total_bytes wbudget inp
       log set_fs set_net set_total_bytes set_conn] in Hw, Hfull, Ht, Hb, Hi.
  rewrite !stream_writes_app in Hw; cbn [stream_writes] in Hw;
    rewrite ?app_nil_r in Hw.
  split; [rewrite Hw, <- app_assoc; reflexivity|].
  split.
  { cbn [concat]. rewrite Hcat, Hk. symmetry. exact Hrest. }
  split.
  { cbn [full_but_last]. destruct chunks as [|c2 chunks2] eqn:Ec; [lia|].
    split; [|exact Hfull].
    assert (Hne : concat (c2 :: chunks2) <> [])
      by (apply (full_but_last_nonempty (max w)); [lia | exact Hfull | discriminate]).
    rewrite Hcat, Hk in Hne.
    assert (Z.to_nat (max w) < length rest)%nat.
    { destruct (Nat.lt_ge_cases (Z.to_nat (max w)) (length rest)); [assumption|].
      rewrite skipn_all2 in Hne by lia. congruence. }
    unfold blen in *. lia. }
  split.
  { rewrite Ht, u64_add_l. f_equal. lia. }
  split; [lia | exact Hi].
Qed.

End Stream.

Section StreamFile.

(** X11 (SendLargeFile).  A large file that can be read, sent to a
    peer that takes every frame, goes out as the SEND request, DATA
    frames and DONE, each in a write of its own: the payloads put
    together are the content of the file, every payload but the last
    has exactly the chunk limit of the session, the last is not
    empty; the call returns true, total_bytes has grown by the
    length of the file, and the descriptor is closed again. *)
Theorem SendLargeFile_streams_the_file pm lpath rpath mtime w nd :
  files w !! lpath = Some nd ->
  n_noopen nd = false ->
  n_rdlimit nd = None ->
  u64 (n_size nd) <> 0 ->
  strlen pm <= 1024 ->
  0 < max w ->
  16 + strlen pm + 9 * blen (n_data nd) <= wbudget w ->
  0 <= total_bytes w < 2 ^ 64 ->
  fresh_fds w ->
  exists w' chunks,
    SendLargeFile pm lpath rpath mtime w = Ret true w'
    /\ stream_writes (trace w')
       = stream_writes (trace w)
           ++ request ID_SEND pm :: map data_frame chunks
           ++ [done_frame mtime]
    /\ concat chunks = n_data nd
    /\ full_but_last (max w) chunks
    /\ total_bytes w' = u64 (total_bytes w + blen (n_data nd))
    /\ lfds w' = lfds w.
Proof.
  intros Hf Hno Hrd Hsz Hp Hmax Hbud Htb Hfr.
  pose proof (strlen_nonneg pm) as Hnn.
  pose proof (blen_nonneg (n_data nd)) as Hdn.
  assert (Hex : exists b w', SendLargeFile pm lpath rpath mtime w = Ret b w'
                             /\ (b = true -> exists chunks,
    stream_writes (trace w')
       = stream_writes (trace w)
           ++ request ID_SEND pm :: map data_frame chunks
           ++ [done_frame mtime]
    /\ concat chunks = n_data nd
    /\ full_but_last (max w) chunks
    /\ total_bytes w' = u64 (total_bytes w + blen (n_data nd))) /\ b = true).
  { unfold SendLargeFile.
    unfold bind at 1.
    rewrite SendRequest_goes_out by lia. cbn [negb].
    unfold bind at 1, stat. cbn [files log set_net]. rewrite Hf.
    unfold bind at 1, adb_open. cbn [files log set_net]. rewrite Hf, Hno.
    cbn [next_fd log set_net].
    destruct Hfr as [H0 Hfr].
    destruct (Z.ltb_spec (next_fd w) 0); [lia|].
    unfold bind at 1, get at 1. cbn [files log set_net set_fs]. rewrite Hf.
    match goal with |- context [bind (SendLargeFile_loop ?fuel _ _ _ _ _) _ ?w0] =>
      destruct (SendLargeFile_loop_completes (next_fd w) lpath rpath
                  (u64 (n_size nd)) fuel 0 w0 nd 0)
        as (w1 & chunks & E & Hw & Hcat & Hfull & Ht & Hb & Hi)
    end.
    { cbn [lfds log set_fs set_net]. apply lookup_insert_eq. }
    { exact Hf. }
    { exact Hrd. }
    { lia. }
    { cbn. lia. }
    { exact Hsz. }
    { exact Hmax. }
    { cbn [wbudget log set_fs set_net]. lia. }
    { exact Htb. }
    rewrite (bind_ret_eq _ _ _ _ _ E). cbn [negb].
    unfold bind at 1, adb_close.
    unfold bind at 1, WriteFdExactly.
    cbn [wbudget trace max total_bytes log set_fs set_net] in *.
    assert (Hdl : blen (le32 ID_DONE ++ le32 mtime) = 8) by reflexivity.
    rewrite Hdl.
    destruct (Z.leb_spec 8 (wbudget w1)); [|lia].
    cbn [negb]. unfold ret. eexists true, _. split; [reflexivity|].
    split; [|reflexivity]. intros _. exists chunks.
    cbn [trace total_bytes log set_fs set_net].
    rewrite !stream_writes_app in *. cbn [stream_writes] in *.
    rewrite ?app_nil_r in *.
    split.
    { rewrite Hw, <- !app_assoc. reflexivity. }
    split; [exact Hcat|]. split; [exact Hfull|].
    rewrite Ht. f_equal. lia. }
  destruct Hex as (b & w' & E & Hprops & ->).
  destruct (Hprops eq_refl) as (chunks & Hw & Hcat & Hfull & Ht).
  exists w', chunks. split; [exact E|].
  split; [exact Hw|]. split; [exact Hcat|]. split; [exact Hfull|].
  split; [exact Ht|].
  apply (tidy_SendLargeFile pm lpath rpath mtime w true w' Hfr E).
Qed.

End StreamFile.
(** ** The walk over the local directory *)

Section Names.

(** X12 (IsDotOrDotDot).  On a name as readdir or the peer delivers
    it, a C string, the test holds for the two names "." and ".."
    and for no other: not for the empty name, not for a name that
    only begins with a dot. *)
Theorem IsDotOrDotDot_exactly name :
  no_nul name = true ->
  IsDotOrDotDot name = true <-> name = "."%string \/ name = ".."%string.
Proof.
  intros Hn. unfold IsDotOrDotDot, char_at.
  destruct name as [|c0 [|c1 [|c2 rest]]]; cbn [String.get no_nul] in *.
  - split; [discriminate | intros [H|H]; discriminate].
  - destruct (Ascii.eqb_spec c0 "."); cbn.
    + subst. split; auto.
    + split; [discriminate | intros [H|H]; congruence].
  - apply andb_prop in Hn as [_ Hn]. apply andb_prop in Hn as [H1 _].
    destruct (Ascii.eqb_spec c0 "."); cbn.
    + destruct (Ascii.eqb_spec c1 zero); [discriminate|].
      destruct (Ascii.eqb_spec c1 "."); cbn.
      * subst. split; auto.
      * split; [discriminate | intros [H|H]; congruence].
    + split; [discriminate | intros [H|H]; congruence].
  - apply andb_prop in Hn as [_ Hn]. apply andb_prop in Hn as [H1 Hn].
    apply andb_prop in Hn as [H2 _].
    destruct (Ascii.eqb_spec c0 "."); cbn.
    + destruct (Ascii.eqb_spec c1 zero); [discriminate|].
      destruct (Ascii.eqb_spec c2 zero); [discriminate|].
      rewrite andb_false_r. cbn.
      split; [discriminate | intros [H|H]; discriminate].
    + split; [discriminate | intros [H|H]; congruence].
Qed.

End Names.

Section Walk.

Lemma string_app_assoc (a b c : string) :
  ((a ++ b) ++ c = a ++ b ++ c)%string.
Proof.
  induction a as [|x a IH]; [reflexivity|].
  change (String x ((a ++ b) ++ c) = String x (a ++ b ++ c))%string.
  now rewrite IH.
Qed.

Lemma string_app_nil_r (a : string) : (a ++ EmptyString = a)%string.
Proof.
  induction a as [|x a IH]; [reflexivity|].
  change (String x (a ++ EmptyString) = String x a)%string.
  now rewrite IH.
Qed.

Lemma land_u32_fmt m : Z.land (u32 m) S_IFMT = Z.land m S_IFMT.
Proof.
  unfold u32. change (2 ^ 32) with (2 ^ 32)%Z.
  rewrite <- Z.land_ones by lia.
  rewrite <- Z.land_assoc. f_equal.
Qed.

Lemma only_reports_refl w : only_reports w w.
Proof. exists []. rewrite app_nil_r. auto. Qed.

Lemma only_reports_trans w1 w2 w3 :
  only_reports w1 w2 -> only_reports w2 w3 -> only_reports w1 w3.
Proof.
  intros (t1 & H1 & F1) (t2 & H2 & F2). exists (t1 ++ t2).
  rewrite H2, H1, <- app_assoc. split; [reflexivity|].
  apply Forall_app. auto.
Qed.

Lemma only_reports_Error fmt args w : only_reports w (log (EvError fmt args) w).
Proof. exists [EvError fmt args]. split; [reflexivity|]. repeat constructor. Qed.

Variables (lpath rpath : string).

Lemma item_under_file name st_mtime st_mode st_size :
  S_ISREG st_mode = true \/ S_ISLNK st_mode = true ->
  item_under lpath rpath
    (set_stat (u32 st_mtime) (u32 st_mode) (u64 st_size)
              (mkcopyinfo lpath rpath name false)).
Proof.
  intros Hm. unfold item_under, set_stat, mkcopyinfo. cbn.
  split; [exists name; split; f_equal; apply string_app_nil_r|].
  split; [reflexivity|].
  unfold S_ISREG, S_ISLNK in *. rewrite land_u32_fmt. exact Hm.
Qed.

Lemma item_under_deeper name ci :
  item_under (lpath ++ name ++ "/") (rpath ++ name ++ "/") ci ->
  item_under lpath rpath ci.
Proof.
  intros ((rel & Hs & Hd) & Hf & Hm). split; [|auto].
  exists (name ++ "/" ++ rel)%string.
  rewrite Hs, Hd, !string_app_assoc. auto.
Qed.

(** One entry of the directory: at most one item is added to one of
    the two lists, and nothing but a report happens. *)
Lemma local_entry_adds name t s w :
  exists dl fl w',
    local_entry lpath rpath name t s w = Ret (fst s ++ dl, snd s ++ fl) w'
    /\ (forall ci, In ci fl <-> file_entry lpath rpath name t ci)
    /\ dl = (if is_subdir lpath name t
             then [mkcopyinfo lpath rpath name true] else [])
    /\ only_reports w w' /\ untouched w w'.
Proof.
  unfold local_entry, is_subdir, file_entry.
  destruct (IsDotOrDotDot name); cbn [negb andb].
  { exists [], [], w. rewrite !app_nil_r. unfold ret. destruct s.
    split; [reflexivity|].
    split; [intros ci; split; [intros [] | intros [? _]; discriminate]|].
    auto using only_reports_refl, untouched_refl. }
  destruct (Z.ltb_spec PATH_MAX (strlen lpath + strlen name + 1));
    cbn [negb andb].
  { exists [], []. eexists. rewrite !app_nil_r.
    unfold bind, Error, emit, ret. destruct s.
    split; [reflexivity|].
    split; [intros ci; split; [intros [] | intros (_ & ? & _); lia]|].
    auto using only_reports_Error, untouched_Error. }
  destruct (l_stat t) as [[[st_mode st_mtime] st_size]|].
  2:{ exists [], []. eexists. rewrite !app_nil_r.
      unfold bind, Error, emit, ret. destruct s.
      split; [reflexivity|].
      split; [intros ci; split;
              [intros [] | intros (_ & _ & ? & ? & ? & ? & _); discriminate]|].
      auto using only_reports_Error, untouched_Error. }
  destruct (S_ISDIR st_mode) eqn:Ed.
  { exists [mkcopyinfo lpath rpath name true], [], w.
    rewrite !app_nil_r. unfold ret.
    split; [reflexivity|].
    split; [intros ci; split;
            [intros [] | intros (_ & _ & ? & ? & ? & [= <- <- <-] & ? & _);
                         congruence]|].
    auto using only_reports_refl, untouched_refl. }
  destruct (S_ISREG st_mode) eqn:Er; destruct (S_ISLNK st_mode) eqn:El;
    cbn [negb andb].
  4:{ exists [], []. eexists. rewrite !app_nil_r.
      unfold bind, Error, emit, ret. destruct s.
      split; [reflexivity|].
      split; [intros ci; split;
              [intros [] | intros (_ & _ & ? & ? & ? & [= <- <- <-] & _ & [?|?] & _);
                           congruence]|].
      auto using only_reports_Error, untouched_Error. }
  all: exists [], [set_stat (u32 st_mtime) (u32 st_mode) (u64 st_size)
                        (mkcopyinfo lpath rpath name false)], w;
    rewrite !app_nil_r; unfold ret; split; [reflexivity|];
    (split;
     [intros ci; split;
      [intros [<-|[]]; split; [reflexivity|]; split; [lia|];
       exists st_mode, st_mtime, st_size; auto
      |intros (_ & _ & ? & ? & ? & [= <- <- <-] & _ & _ & ->); left; reflexivity]|]);
    auto using only_reports_refl, untouched_refl.
Qed.

(** The readdir loop: the files of the directory go on filelist and
    its subdirectories on dirlist, both in the order of readdir. *)
Lemma readdir_loop_adds entries : forall s w,
  exists dl fl w',
    readdir_loop lpath rpath entries s w = Ret (fst s ++ dl, snd s ++ fl) w'
    /\ (forall ci, In ci fl <->
                   exists name t, In (name, t) entries
                                  /\ file_entry lpath rpath name t ci)
    /\ dl = map (fun e => mkcopyinfo lpath rpath (fst e) true)
                (List.filter (fun e => is_subdir lpath (fst e) (snd e))
                             entries)
    /\ only_reports w w' /\ untouched w w'.
Proof.
  induction entries as [|[name t] rest IH]; intros s w.
  - exists [], [], w. rewrite !app_nil_r. cbn. destruct s.
    split; [reflexivity|].
    split; [intros ci; split; [intros [] | intros (? & ? & [] & _)]|].
    auto using only_reports_refl, untouched_refl.
  - cbn [readdir_loop].
    destruct (local_entry_adds name t s w)
      as (dl1 & fl1 & w1 & E1 & Hfl1 & Hdl1 & Hr1 & Hu1).
    rewrite (bind_ret_eq _ _ _ _ _ E1).
    destruct (IH (fst s ++ dl1, snd s ++ fl1) w1)
      as (dl2 & fl2 & w2 & E2 & Hfl2 & Hdl2 & Hr2 & Hu2).
    cbn [fst snd] in E2. rewrite <- !app_assoc in E2.
    exists (dl1 ++ dl2), (fl1 ++ fl2), w2. split; [exact E2|].
    split.
    { intros ci. rewrite in_app_iff, Hfl1, Hfl2. split.
      - intros [H|(n & t' & Hin & H)].
        + exists name, t. split; [left; reflexivity | exact H].
        + exists n, t'. split; [right; exact Hin | exact H].
      - intros (n & t' & [Heq|Hin] & Hfe).
        + injection Heq as <- <-. left. exact Hfe.
        + right. exists n, t'. auto. }
    split.
    { cbn [List.filter fst snd]. rewrite Hdl1, Hdl2.
      destruct (is_subdir lpath name t); reflexivity. }
    split; [eapply only_reports_trans | eapply untouched_trans]; eauto.
Qed.

End Walk.

Section WalkAll.

Lemma dirlist_loop_adds lpath rpath entries :
  Forall (fun e => walks (snd e)) entries ->
  forall filelist w,
  exists new w',
    dirlist_loop local_build_list lpath rpath entries filelist w
    = Ret (filelist ++ new) w'
    /\ (forall ci, In ci new <->
          exists name t,
            In (name, t) entries /\ is_subdir lpath name t = true
            /\ reachable t (lpath ++ name ++ "/")%string
                         (rpath ++ name ++ "/")%string ci)
    /\ only_reports w w' /\ untouched w w'.
Proof.
  induction 1 as [|[name t] rest Ht _ IH]; intros filelist w.
  - exists [], w. rewrite app_nil_r. split; [reflexivity|].
    split; [intros ci; split; [intros [] | intros (? & ? & [] & _)]|].
    auto using only_reports_refl, untouched_refl.
  - cbn [dirlist_loop]. cbn [snd] in Ht.
    destruct (is_subdir lpath name t) eqn:Es.
    + cbn [mkcopyinfo ci_src ci_dst].
      destruct (Ht filelist (lpath ++ name ++ "/")%string
                   (rpath ++ name ++ "/")%string w)
        as (r & new1 & w1 & E1 & Hn1 & Hr1 & Hu1 & _).
      rewrite (bind_ret_eq _ _ _ _ _ E1). cbn [snd].
      destruct (IH (filelist ++ new1) w1) as (new2 & w2 & E2 & Hn2 & Hr2 & Hu2).
      rewrite <- app_assoc in E2.
      exists (new1 ++ new2), w2. split; [exact E2|].
      split.
      { intros ci. rewrite in_app_iff, Hn1, Hn2. split.
        - intros [H|(n & t' & Hin & H)].
          + exists name, t. split; [left; reflexivity | auto].
          + exists n, t'. split; [right; exact Hin | exact H].
        - intros (n & t' & [Heq|Hin] & Hs & Hre).
          + injection Heq as <- <-. left. exact Hre.
          + right. exists n, t'. auto. }
      split; [eapply only_reports_trans | eapply untouched_trans]; eauto.
    + destruct (IH filelist w) as (new2 & w2 & E2 & Hn2 & Hr2 & Hu2).
      exists new2, w2. split; [exact E2|].
      split; [|auto].
      intros ci. rewrite Hn2. split.
      * intros (n & t' & Hin & H). exists n, t'. split; [right; exact Hin | exact H].
      * intros (n & t' & [Heq|Hin] & Hs & Hre).
        -- injection Heq as <- <-. congruence.
        -- exists n, t'. auto.
Qed.

Lemma local_build_list_walks t : walks t.
Proof.
  induction t as [st|st entries IH] using lnode_below_ind;
    intros filelist lpath rpath w.
  - cbn [local_build_list]. unfold bind, Error, emit, ret.
    exists (-1), []. eexists. rewrite app_nil_r.
    split; [reflexivity|].
    split.
    { intros ci. split; [intros []|].
      intros H. inversion H; subst; cbn in *; discriminate. }
    split; [apply only_reports_Error|].
    split; [apply untouched_Error|].
    right. auto.
  - cbn [local_build_list].
    destruct (readdir_loop_adds lpath rpath entries ([], filelist) w)
      as (dl & fl & w1 & E1 & Hfl & _ & Hr1 & Hu1).
    rewrite (bind_ret_eq _ _ _ _ _ E1). cbn [fst snd].
    destruct (dirlist_loop_adds lpath rpath entries IH (filelist ++ fl) w1)
      as (new & w2 & E2 & Hnew & Hr2 & Hu2).
    rewrite (bind_ret_eq _ _ _ _ _ E2). unfold ret.
    rewrite <- app_assoc.
    exists 0, (fl ++ new), w2. split; [reflexivity|].
    split.
    { intros ci. rewrite in_app_iff, Hfl, Hnew. split.
      - intros [(n & t' & Hin & H)|(n & t' & Hin & Hs & H)].
        + eapply reach_here; eauto; reflexivity.
        + eapply reach_below; eauto; reflexivity.
      - intros H. inversion H as [? ? ? ? n c ? Hd Hin He|? ? ? ? n c ? Hd Hin Hs Hr];
          subst; cbn in Hd; injection Hd as <-.
        + left. eauto.
        + right. eauto. }
    split; [eapply only_reports_trans; eauto|].
    split; [eapply untouched_trans; eauto|].
    left. split; [reflexivity | discriminate].
Qed.

Lemma file_entry_item_under lpath rpath name t ci :
  file_entry lpath rpath name t ci -> item_under lpath rpath ci.
Proof.
  intros (_ & _ & m & mt & sz & _ & _ & Hm & ->).
  apply item_under_file. exact Hm.
Qed.

Lemma reachable_item_under t lpath rpath ci :
  reachable t lpath rpath ci -> item_under lpath rpath ci.
Proof.
  induction 1 as [? ? ? ? ? ? ? _ _ He|? ? ? ? ? ? ? _ _ _ _ IH].
  - eapply file_entry_item_under, He.
  - eapply item_under_deeper, IH.
Qed.

(** X13 (local_build_list).  The walk lists exactly the files it can
    reach: the items it appends to the list are those of the regular
    files and symbolic links found in the directory or below it
    through subdirectories, with their times, modes and sizes as
    lstat gave them; what was on the list stays in front.  The walk
    only reports: it sends nothing, reads nothing and changes no
    file. *)
Theorem local_build_list_lists_what_it_reaches t filelist lpath rpath w :
  exists r new w',
    local_build_list t filelist lpath rpath w = Ret (r, filelist ++ new) w'
    /\ (forall ci, In ci new <-> reachable t lpath rpath ci)
    /\ only_reports w w' /\ untouched w w'.
Proof.
  destruct (local_build_list_walks t filelist lpath rpath w)
    as (r & new & w' & E & Hn & Hr & Hu & _).
  exists r, new, w'. auto.
Qed.

(** X14 (local_build_list, mkcopyinfo).  Every item of the list
    names a source below the local directory and a destination at
    the same relative place below the remote directory, has the mode
    of a regular file or a symbolic link, and is not marked as
    skipped. *)
Theorem local_build_list_items t filelist lpath rpath w r filelist' w' :
  local_build_list t filelist lpath rpath w = Ret (r, filelist') w' ->
  exists new,
    filelist' = filelist ++ new /\ Forall (item_under lpath rpath) new.
Proof.
  destruct (local_build_list_walks t filelist lpath rpath w)
    as (r0 & new & w0 & E & Hn & _).
  rewrite E. intros [= <- <- <-]. exists new. split; [reflexivity|].
  apply List.Forall_forall. intros ci Hin.
  eapply reachable_item_under. apply Hn. exact Hin.
Qed.

(** X15 (local_build_list).  The walk fails only at its root: it
    returns -1 exactly when the directory it is called on cannot be
    opened, and then it has reported that and left the list as it
    was; a subdirectory that cannot be opened is reported and passed
    over, and the result is 0. *)
Theorem local_build_list_fails_only_at_the_root t filelist lpath rpath w :
  exists r filelist' w',
    local_build_list t filelist lpath rpath w = Ret (r, filelist') w'
    /\ (r = 0 /\ l_dir t <> None
        \/ r = -1 /\ l_dir t = None /\ filelist' = filelist
           /\ trace w' = trace w ++ [EvError "cannot open '%s': %s"
                                            [AStr lpath; AErrno]]).
Proof.
  destruct (local_build_list_walks t filelist lpath rpath w)
    as (r & new & w' & E & _ & _ & _ & [[-> Hd]|(-> & Hd & -> & Ht)]).
  - exists 0, (filelist ++ new), w'. auto.
  - exists (-1), filelist, w'. rewrite app_nil_r in E. auto 10.
Qed.

End WalkAll.
(** ** The entry points: sync and ls *)

Section Slash.

Lemma get_app_end (p : string) (c : ascii) :
  String.get (String.length p) (p ++ String c EmptyString) = Some c.
Proof. induction p as [|x p IH]; [reflexivity | exact IH]. Qed.

Lemma length_app_one (p : string) (c : ascii) :
  String.length (p ++ String c EmptyString) = S (String.length p).
Proof.
  induction p as [|x p IH]; [reflexivity|].
  change (S (String.length (p ++ String c EmptyString))
          = S (S (String.length p))).
  now rewrite IH.
Qed.

Lemma with_slash_ends p : no_slash_at_end (with_slash p) = false.
Proof.
  unfold with_slash. destruct (no_slash_at_end p) eqn:E; [|exact E].
  unfold no_slash_at_end, char_at.
  rewrite length_app_one. cbn [Nat.sub]. rewrite Nat.sub_0_r.
  rewrite get_app_end. reflexivity.
Qed.

Lemma with_slash_idem p : with_slash (with_slash p) = with_slash p.
Proof.
  unfold with_slash at 1. rewrite with_slash_ends. reflexivity.
Qed.

Lemma with_slash_first p :
  Ascii.eqb (char_at p 0) zero = false ->
  char_at (with_slash p) 0 = char_at p 0.
Proof.
  unfold with_slash. destruct (no_slash_at_end p); [|reflexivity].
  destruct p as [|c p]; [discriminate | reflexivity].
Qed.

(** X16 (copy_local_dir_remote).  A slash at the end of either
    directory path makes no difference: with non-empty paths, the
    push of a directory does the same with and without it, because
    the function first brings both paths to the form that ends in a
    slash.  With an empty path it returns false at once. *)
Theorem trailing_slash_makes_no_difference t lpath rpath check_timestamps
    list_only w :
  Ascii.eqb (char_at lpath 0) zero = false ->
  Ascii.eqb (char_at rpath 0) zero = false ->
  copy_local_dir_remote_full t (with_slash lpath) (with_slash rpath)
                             check_timestamps list_only w
  = copy_local_dir_remote_full t lpath rpath check_timestamps list_only w
  /\ copy_local_dir_remote_full t EmptyString rpath
                                check_timestamps list_only w = Ret false w
  /\ copy_local_dir_remote_full t lpath EmptyString
                                check_timestamps list_only w = Ret false w.
Proof.
  intros Hl Hr. unfold copy_local_dir_remote_full.
  split; [|split].
  - rewrite !with_slash_first, Hl, Hr by assumption.
    rewrite !with_slash_idem. reflexivity.
  - reflexivity.
  - rewrite Hl. reflexivity.
Qed.

End Slash.

Section DryRun.

Lemma sends_only_refl P w : sends_only P w w.
Proof.
  unfold sends_only. do 4 (split; [reflexivity|]).
  exists []. rewrite app_nil_r. auto.
Qed.

Lemma sends_only_trans P w1 w2 w3 :
  sends_only P w1 w2 -> sends_only P w2 w3 -> sends_only P w1 w3.
Proof.
  intros (Hf1 & Hl1 & Ht1 & Hd1 & b1 & Hw1 & F1)
         (Hf2 & Hl2 & Ht2 & Hd2 & b2 & Hw2 & F2).
  do 4 (split; [congruence|]).
  exists (b1 ++ b2). rewrite Hw2, Hw1, <- app_assoc.
  split; [reflexivity|]. apply Forall_app. auto.
Qed.

Lemma untouched_sends_only P w w' : untouched w w' -> sends_only P w w'.
Proof.
  intros (_ & _ & Hf & Hl & Ht & Hd & Hw & _).
  do 4 (split; [assumption|]).
  exists []. rewrite app_nil_r. auto.
Qed.

Lemma sends_only_log_quiet P e w :
  stream_writes [e] = [] -> sends_only P w (log e w).
Proof.
  intros He. do 4 (split; [reflexivity|]).
  exists []. cbn [trace log]. rewrite stream_writes_app, He. auto.
Qed.

Lemma SendRequest_sends_only (P : list byte -> Prop) id path w :
  P (request id path) ->
  exists ok w', SendRequest id path w = Ret ok w' /\ sends_only P w w'.
Proof.
  intros HP. unfold SendRequest.
  destruct (1024 <? strlen path).
  - unfold bind, Error, emit, ret. eexists _, _. split; [reflexivity|].
    apply sends_only_log_quiet. reflexivity.
  - fold (request id path). unfold WriteFdExactly.
    destruct (_ <=? _); eexists _, _; (split; [reflexivity|]);
      do 4 (split; [reflexivity|]);
      exists [request id path]; cbn [trace log set_net];
      rewrite stream_writes_app; cbn [stream_writes]; auto.
Qed.

Lemma rd32_0_request id path : rd32 0 (request id path) = u32 id.
Proof. unfold request. apply rd32_0. Qed.

Lemma stat_request_loop_sends filelist : forall w,
  exists ok w', stat_request_loop filelist w = Ret ok w'
                /\ sends_only stat_request w w'.
Proof.
  induction filelist as [|ci rest IH]; intros w.
  - exists true, w. split; [reflexivity | apply sends_only_refl].
  - cbn [stat_request_loop].
    destruct (SendRequest_sends_only stat_request ID_STAT (ci_dst ci) w)
      as (ok & w1 & E1 & H1).
    { apply rd32_0_request. }
    rewrite (bind_ret_eq _ _ _ _ _ E1).
    destruct ok; cbn [negb].
    + destruct (IH w1) as (ok & w2 & E2 & H2).
      exists ok, w2. split; [exact E2|].
      eapply sends_only_trans; eauto.
    + exists false, w1. split; [reflexivity | exact H1].
Qed.

Lemma sync_finish_stat_sends P w :
  exists r w', sync_finish_stat w = Ret r w' /\ sends_only P w w'.
Proof.
  destruct (sync_finish_stat_event w) as (r & rest & e & E & He & _).
  eexists _, _. split; [exact E|].
  do 4 (split; [reflexivity|]).
  exists []. cbn [trace log set_net]. rewrite stream_writes_app.
  destruct e; try discriminate. auto.
Qed.

Lemma stat_reply_loop_sends filelist : forall w,
  exists r w', stat_reply_loop filelist w = Ret r w'
               /\ sends_only stat_request w w'.
Proof.
  induction filelist as [|ci rest IH]; intros w.
  - eexists _, w. split; [reflexivity | apply sends_only_refl].
  - cbn [stat_reply_loop].
    destruct (sync_finish_stat_sends stat_request w) as (r & w1 & E1 & H1).
    rewrite (bind_ret_eq _ _ _ _ _ E1).
    destruct r as [[[timestamp mode] size]|].
    + destruct (IH w1) as (r & w2 & E2 & H2).
      rewrite (bind_ret_eq _ _ _ _ _ E2). unfold ret.
      eexists _, w2. split; [reflexivity|].
      eapply sends_only_trans; eauto.
    + eexists _, w1. split; [reflexivity | exact H1].
Qed.

(** A dry run of the list: STAT requests at most. *)
Lemma copy_local_dir_remote_list_only filelist rpath w :
  exists b w',
    copy_local_dir_remote filelist rpath true true w = Ret b w'
    /\ sends_only stat_request w w'.
Proof.
  unfold copy_local_dir_remote, check_timestamps_block.
  destruct (stat_request_loop_sends filelist w) as (ok & w1 & E1 & H1).
  unfold bind at 1 2. rewrite E1.
  destruct ok; cbn [negb].
  2:{ unfold ret. exists false, w1. auto. }
  destruct (stat_reply_loop_sends filelist w1) as (r & w2 & E2 & H2).
  rewrite E2.
  destruct r as [filelist'|].
  2:{ unfold ret. exists false, w2. split; [reflexivity|].
      eapply sends_only_trans; eauto. }
  destruct (push_loop_list_only filelist' 0 0 w2) as (w3 & E3 & _ & Hu3).
  rewrite (bind_ret_eq _ _ _ _ _ E3).
  unfold bind, Printf, emit, ret. eexists true, _. split; [reflexivity|].
  eapply sends_only_trans; [exact H1|].
  eapply sends_only_trans; [exact H2|].
  eapply sends_only_trans; [apply untouched_sends_only, Hu3|].
  apply sends_only_log_quiet. reflexivity.
Qed.

(** X6 (copy_local_dir_remote, the transfer loop with list_only).  A
    dry run of the push of a list announces exactly the items the
    timestamp check left unmarked.

    First, it always returns, hands nothing but STAT requests to the
    connection, and leaves the local files, the descriptors and
    total_bytes as they were.

    Second, its result follows the timestamp check: when the check
    fails the dry run returns false in the world the check ended in;
    when the check returns a list, the dry run returns true, and
    after the check it has announced the items of that list whose
    flag is 0, in list order, and closed with the summary that counts
    them as pushed and the others as skipped, touching neither the
    connection nor the local files.

    Third, on a peer that answers every STAT request the events of
    the dry run are the requests, the replies, the announcements of
    the items that the replies at their positions leave unmarked,
    and the summary.

    Fourth, without timestamp check the dry run returns true and
    announces every item of the list whose flag is 0, without
    touching the connection. *)
Theorem list_only_announces_the_unmarked filelist rpath :
  (forall check_timestamps w,
      exists b w',
        copy_local_dir_remote filelist rpath check_timestamps true w
        = Ret b w'
        /\ sends_only stat_request w w')
  /\ (forall w,
        exists r w1,
          check_timestamps_block filelist w = Ret r w1
          /\ match r with
             | None =>
                 copy_local_dir_remote filelist rpath true true w
                 = Ret false w1
             | Some filelist' =>
                 exists w',
                   copy_local_dir_remote filelist rpath true true w
                   = Ret true w'
                   /\ trace w'
                      = trace w1 ++ map would_push (to_push filelist')
                          ++ [summary rpath
                                (Z.of_nat (length (to_push filelist')))
                                (Z.of_nat (length filelist'
                                           - length (to_push filelist')))]
                   /\ untouched w1 w'
             end)
  /\ (forall replies rest w,
        Forall (fun ci => strlen (ci_dst ci) <= 1024) filelist ->
        stat_traffic filelist <= wbudget w ->
        length replies = length filelist ->
        Forall is_stat_reply replies ->
        inp w = concat replies ++ rest ->
        let filelist' := zip_with decided filelist replies in
        exists w',
          copy_local_dir_remote filelist rpath true true w = Ret true w'
          /\ trace w'
             = trace w ++ map stat_write filelist ++ map stat_read replies
                 ++ map would_push (to_push filelist')
                 ++ [summary rpath
                       (Z.of_nat (length (to_push filelist')))
                       (Z.of_nat (length filelist'
                                  - length (to_push filelist')))]
          /\ inp w' = rest)
  /\ (forall w,
        exists w',
          copy_local_dir_remote filelist rpath false true w = Ret true w'
          /\ trace w'
             = trace w ++ map would_push (to_push filelist)
                 ++ [summary rpath
                       (Z.of_nat (length (to_push filelist)))
                       (Z.of_nat (length filelist
                                  - length (to_push filelist)))]
          /\ untouched w w').
Proof.
  assert (Hpush : forall filelist' w1,
             exists w',
               bind (push_loop true filelist' 0 0)
                    (fun counts =>
                       match counts with
                       | None => ret false
                       | Some (pushed, skipped) =>
                           bind (Printf
                                   "%s: %d file%s pushed. %d file%s skipped.%s\n"
                                   [AStr rpath; AInt pushed;
                                    AStr (plural pushed); AInt skipped;
                                    AStr (plural skipped); ATransferRate])
                                (fun _ => ret true)
                       end) w1 = Ret true w'
               /\ trace w'
                  = trace w1 ++ map would_push (to_push filelist')
                      ++ [summary rpath
                            (Z.of_nat (length (to_push filelist')))
                            (Z.of_nat (length filelist'
                                       - length (to_push filelist')))]
               /\ untouched w1 w').
  { intros filelist' w1.
    destruct (push_loop_list_only filelist' 0 0 w1) as (w2 & E2 & Ht2 & Hu2).
    rewrite (bind_ret_eq _ _ _ _ _ E2). rewrite !Z.add_0_l.
    unfold bind, Printf, emit, ret. eexists. split; [reflexivity|].
    split.
    { cbn [trace log]. rewrite Ht2, <- app_assoc. reflexivity. }
    eapply untouched_trans; [exact Hu2|].
    unfold untouched. cbn [inp wbudget files lfds total_bytes fd trace log].
    rewrite stream_writes_app, stream_reads_app. cbn.
    rewrite !app_nil_r. auto 10. }
  split; [|split; [|split]].
  - intros check_timestamps w. destruct check_timestamps.
    + apply copy_local_dir_remote_list_only.
    + unfold copy_local_dir_remote.
      rewrite (bind_ret_eq _ _ _ _ _ (eq_refl : ret (Some filelist) w = _)).
      destruct (Hpush filelist w) as (w' & E & _ & Hu).
      exists true, w'. split; [exact E|].
      apply untouched_sends_only, Hu.
  - intros w.
    destruct (check_timestamps_block_returns filelist w) as (r & w1 & E1).
    exists r, w1. split; [exact E1|].
    unfold copy_local_dir_remote.
    rewrite (bind_ret_eq _ _ _ _ _ E1).
    destruct r as [filelist'|]; [|reflexivity].
    apply Hpush.
  - intros replies rest w Hp Hb Hlen Hall Hi filelist'.
    destruct (stat_request_loop_goes_out filelist w Hp Hb)
      as (w1 & E1 & Ht1 & Hi1 & _).
    destruct (stat_reply_loop_delivers filelist replies rest w1 Hlen Hall)
      as (w2 & E2 & Ht2 & Hi2 & _); [congruence|].
    destruct (Hpush filelist' w2) as (w' & E & Ht & Hu).
    exists w'. unfold copy_local_dir_remote, check_timestamps_block.
    split.
    { rewrite (bind_ret_eq _ _ _ _ _
                 (eq_trans (bind_ret_eq _ _ _ _ _ E1) E2)).
      exact E. }
    split.
    { rewrite Ht, Ht2, Ht1, <- !app_assoc. reflexivity. }
    destruct Hu as (Hin & _). congruence.
  - intros w. unfold copy_local_dir_remote.
    rewrite (bind_ret_eq _ _ _ _ _ (eq_refl : ret (Some filelist) w = _)).
    apply Hpush.
Qed.

Lemma copy_local_dir_remote_full_list_only t lpath rpath w :
  exists b w',
    copy_local_dir_remote_full t lpath rpath true true w = Ret b w'
    /\ sends_only stat_request w w'.
Proof.
  unfold copy_local_dir_remote_full.
  destruct (_ || _).
  { exists false, w. split; [reflexivity | apply sends_only_refl]. }
  destruct (local_build_list_walks t [] (with_slash lpath) (with_slash rpath) w)
    as (r & new & w1 & E1 & _ & _ & Hu1 & _).
  rewrite (bind_ret_eq _ _ _ _ _ E1). cbn [fst snd].
  destruct (r =? 0); cbn [negb].
  - destruct (copy_local_dir_remote_list_only ([] ++ new) (with_slash rpath) w1)
      as (b & w2 & E2 & H2).
    exists b, w2. split; [exact E2|].
    eapply sends_only_trans; [apply untouched_sends_only, Hu1 | exact H2].
  - exists false, w1. split; [reflexivity|].
    apply untouched_sends_only, Hu1.
Qed.

Lemma SyncConnection_dtor_quits w :
  exists w', SyncConnection_dtor w = Ret tt w'
             /\ files w' = files w /\ lfds w' = lfds w
             /\ total_bytes w' = total_bytes w
             /\ stream_writes (trace w')
                = stream_writes (trace w)
                    ++ (if 0 <=? fd w then [request ID_QUIT EmptyString]
                        else []).
Proof.
  unfold SyncConnection_dtor, IsValid, SendQuit, bind, get.
  destruct (0 <=? fd w); cbn [negb].
  2:{ unfold ret. exists w. rewrite app_nil_r. auto. }
  rewrite SendRequest_short by (vm_compute; discriminate).
  unfold WriteFdExactly, ReadOrderlyShutdown, adb_close_conn, emit, ret.
  destruct (_ <=? _); (eexists; split; [reflexivity|]);
    cbn [files lfds total_bytes trace log set_net];
    rewrite !stream_writes_app; cbn [stream_writes]; rewrite ?app_nil_r;
    auto.
Qed.

(** X17 (do_sync_sync, copy_local_dir_remote).  A dry run of sync
    (list_only) on a connected session always returns, and it
    transfers nothing: the only buffers it hands to the connection
    are STAT requests and then the closing QUIT; no SEND or DATA
    goes out, total_bytes stays 0, and the local files and
    descriptors are as they were. *)
Theorem do_sync_sync_list_only_transfers_nothing connected t lpath rpath w :
  0 <= connected ->
  exists b w' bufs,
    do_sync_sync connected t lpath rpath true w = Ret b w'
    /\ stream_writes (trace w')
       = stream_writes (trace w) ++ bufs ++ [request ID_QUIT EmptyString]
    /\ Forall stat_request bufs
    /\ total_bytes w' = 0
    /\ files w' = files w /\ lfds w' = lfds w.
Proof.
  intros Hc. unfold do_sync_sync.
  unfold bind at 1, SyncConnection_ctor.
  destruct (Z.ltb_spec connected 0); [lia|].
  unfold bind at 1, IsValid, get. cbn [fd set_conn].
  destruct (Z.leb_spec 0 connected); [|lia]. cbn [negb].
  destruct (copy_local_dir_remote_full_list_only t lpath rpath
              (set_conn connected 0 SYNC_DATA_MAX w))
    as (b & w1 & E1 & Hf1 & Hl1 & Ht1 & Hd1 & bufs & Hw1 & Hb1).
  rewrite (bind_ret_eq _ _ _ _ _ E1).
  destruct (SyncConnection_dtor_quits w1) as (w2 & E2 & Hf2 & Hl2 & Ht2 & Hq).
  rewrite (bind_ret_eq _ _ _ _ _ E2). unfold ret.
  cbn [files lfds total_bytes fd trace set_conn] in Hf1, Hl1, Ht1, Hd1, Hw1.
  rewrite Hd1 in Hq.
  destruct (Z.leb_spec 0 connected); [|lia].
  exists b, w2, bufs. split; [reflexivity|].
  split; [rewrite Hq, Hw1, <- app_assoc; reflexivity|].
  split; [exact Hb1|]. split; [congruence|].
  split; congruence.
Qed.

(** X18 (do_sync_sync, do_sync_ls, SyncConnection).  When the
    connection cannot be made, both entry points report it and
    return false; nothing is written to or read from a connection,
    no QUIT is attempted, and for ls nothing is printed. *)
Theorem entry_points_fail_without_connection connected w :
  connected < 0 ->
  let w' := log (EvError "connect failed: %s" [AErrno])
                (set_conn connected 0 SYNC_DATA_MAX w) in
  (forall t lpath rpath list_only,
      do_sync_sync connected t lpath rpath list_only w = Ret false w')
  /\ (forall path, do_sync_ls connected path w = Ret (false, EmptyString) w').
Proof.
  intros Hc. cbv zeta.
  split; intros; unfold do_sync_sync, do_sync_ls, SyncConnection_ctor,
    SyncConnection_dtor, IsValid, bind, Error, emit, get, ret;
    (destruct (Z.ltb_spec connected 0); [|lia]);
    assert (Hv : (0 <=? connected) = false) by (apply Z.leb_gt; lia);
    cbn [fd log set_conn]; rewrite Hv; cbn [negb fd log set_conn];
    rewrite Hv; reflexivity.
Qed.

End DryRun.

Section Ls.

Lemma hex_digit_value_digit d :
  0 <= d < 16 -> hex_digit_value (hex_digit d) = d.
Proof.
  intros H.
  assert (Hd : d = 0 \/ d = 1 \/ d = 2 \/ d = 3 \/ d = 4 \/ d = 5 \/ d = 6
               \/ d = 7 \/ d = 8 \/ d = 9 \/ d = 10 \/ d = 11 \/ d = 12
               \/ d = 13 \/ d = 14 \/ d = 15) by lia.
  repeat (destruct Hd as [->|Hd]; [reflexivity|]). subst. reflexivity.
Qed.

Lemma hex_value_from_app a : forall acc b,
  hex_value_from acc (a ++ b) = hex_value_from (hex_value_from acc a) b.
Proof.
  induction a as [|c a IH]; intros acc b; [reflexivity|].
  change (hex_value_from (16 * acc + hex_digit_value c) (a ++ b)
          = hex_value_from (hex_value_from (16 * acc + hex_digit_value c) a) b).
  apply IH.
Qed.

Lemma hex_value_from_digits n : forall acc v,
  hex_value_from acc (hex_digits n v) = acc * 16 ^ Z.of_nat n + v mod 16 ^ Z.of_nat n.
Proof.
  induction n as [|n IH]; intros acc v.
  - cbn [hex_digits hex_value_from]. change (16 ^ Z.of_nat 0) with 1.
    rewrite Z.mod_1_r. lia.
  - cbn [hex_digits]. rewrite hex_value_from_app, IH.
    cbn [hex_value_from].
    rewrite hex_digit_value_digit by (apply Z.mod_pos_bound; lia).
    rewrite Nat2Z.inj_succ, Z.pow_succ_r by lia.
    rewrite (Z.rem_mul_r v 16 (16 ^ Z.of_nat n)) by lia.
    lia.
Qed.

Lemma length_hex_digits n v : String.length (hex_digits n v) = n.
Proof.
  revert v. induction n as [|n IH]; intros v; [reflexivity|].
  cbn [hex_digits]. rewrite length_app_one, IH. reflexivity.
Qed.

Lemma deliver_ls_line ds : forall out,
  deliver ls_line ds out = (out ++ lines (map dent_line ds))%string.
Proof.
  unfold deliver.
  induction ds as [|d ds IH]; intros out.
  - cbn. symmetry. apply string_app_nil_r.
  - cbn [fold_left map lines]. rewrite IH. unfold ls_line, dent_line.
    rewrite !string_app_assoc. reflexivity.
Qed.

(** X19 (do_sync_ls).  ls of a directory whose listing the peer
    closes with DONE prints one line per entry, in the order of
    arrival, and returns true: each line is the mode, the size and
    the time of the entry, then its name.  Each of the three numbers
    is printed as exactly eight hexadecimal digits, and its value
    can be read back from them. *)
Theorem do_sync_ls_prints_the_listing connected path ds rest w :
  0 <= connected ->
  strlen path <= 1024 ->
  8 + strlen path <= wbudget w ->
  Forall valid_dent ds ->
  inp w = dent_bytes ds ++ done_reply ++ rest ->
  (exists w',
      do_sync_ls connected path w = Ret (true, lines (map dent_line ds)) w')
  /\ (forall v, String.length (fmt_08x v) = 8%nat
                /\ hex_value (fmt_08x v) = u32 v).
Proof.
  intros Hc Hp Hb Hds Hi. split.
  - unfold do_sync_ls.
    unfold bind at 1, SyncConnection_ctor.
    destruct (Z.ltb_spec connected 0); [lia|].
    unfold bind at 1, IsValid, get. cbn [fd set_conn].
    destruct (Z.leb_spec 0 connected); [|lia]. cbn [negb].
    assert (Hls : exists w2,
               sync_ls path ls_line EmptyString
                       (set_conn connected 0 SYNC_DATA_MAX w)
               = Ret (true, deliver ls_line ds EmptyString) w2).
    { unfold sync_ls.
      rewrite (bind_ret_eq _ _ _ _ _
                 (SendRequest_goes_out ID_LIST path
                    (set_conn connected 0 SYNC_DATA_MAX w) Hp Hb)).
      cbn [negb]. unfold bind at 1, get at 1.
      match goal with |- context [sync_ls_loop ?fuel _ _ ?w1] =>
        destruct (sync_ls_loop_run ls_line ds fuel EmptyString w1 done_reply
                    rest Hds) as [Hdone _]
      end.
      { cbn [inp log set_net set_conn]. rewrite Hi, length_app.
        pose proof (dent_bytes_length ds Hds). lia. }
      { reflexivity. }
      { cbn [inp log set_net set_conn]. exact Hi. }
      destruct (Hdone eq_refl) as (w2 & E2 & _). eauto. }
    destruct Hls as (w2 & E2).
    rewrite (bind_ret_eq _ _ _ _ _ E2).
    destruct (SyncConnection_dtor_quits w2) as (w3 & E3 & _).
    rewrite (bind_ret_eq _ _ _ _ _ E3). unfold ret.
    exists w3. rewrite deliver_ls_line. reflexivity.
  - intros v. unfold fmt_08x, hex_value.
    split; [apply length_hex_digits|].
    rewrite hex_value_from_digits.
    change (16 ^ Z.of_nat 8) with (2 ^ 32).
    unfold u32. rewrite Z.mod_mod by lia. lia.
Qed.

End Ls.
(** ** The list of a remote directory *)

Section RemoteList.

(** With a callback that only acts on its own state, the general
    form of sync_ls is the one used for the listing. *)
Lemma sync_ls_cb_loop_pure {S : Type}
    (func : Z -> Z -> Z -> list byte -> S -> S) fuel : forall s w,
  sync_ls_cb_loop fuel (fun m sz t n st => ret (func m sz t n st)) s w
  = sync_ls_loop fuel func s w.
Proof.
  induction fuel as [|fuel IH]; intros s w; [reflexivity|].
  cbn [sync_ls_cb_loop sync_ls_loop]. unfold bind.
  destruct (ReadFdExactly sizeof_dent w) as [[msg|] w1|]; try reflexivity.
  destruct (rd32 0 msg =? ID_DONE); [reflexivity|].
  destruct (negb _); [reflexivity|].
  destruct (256 <? _); [reflexivity|].
  destruct (ReadFdExactly _ w1) as [[buf|] w2|]; try reflexivity.
  apply IH.
Qed.

Lemma sync_ls_cb_pure {S : Type}
    (func : Z -> Z -> Z -> list byte -> S -> S) path s w :
  sync_ls_cb path (fun m sz t n st => ret (func m sz t n st)) s w
  = sync_ls path func s w.
Proof.
  unfold sync_ls_cb, sync_ls, bind.
  destruct (SendRequest ID_LIST path w) as [ok w1|]; [|reflexivity].
  destruct (negb ok); [reflexivity|].
  unfold get. apply sync_ls_cb_loop_pure.
Qed.

Lemma sends_only_read P len r w :
  sends_only P w (log (EvRead len r) (set_net (skipn (Z.to_nat len) (inp w)) (wbudget w) w)).
Proof.
  do 4 (split; [reflexivity|]). exists [].
  cbn [trace log set_net]. rewrite stream_writes_app. cbn. auto.
Qed.

(** A read keeps the local side and shortens what is in flight. *)
Lemma ReadFdExactly_shortens P len w :
  0 <= len ->
  exists r w',
    ReadFdExactly len w = Ret r w' /\ sends_only P w w'
    /\ (length (inp w') <= length (inp w))%nat
    /\ (r <> None -> Z.of_nat (length (inp w')) + len
                     = Z.of_nat (length (inp w))).
Proof.
  intros Hl. unfold ReadFdExactly.
  destruct (Z.ltb_spec (blen (inp w)) len).
  - eexists None, _. split; [reflexivity|]. split.
    { do 4 (split; [reflexivity|]). exists [].
      cbn [trace log set_net]. rewrite stream_writes_app. cbn. auto. }
    cbn [inp log set_net length]. split; [lia | congruence].
  - eexists (Some _), _. split; [reflexivity|]. split.
    { do 4 (split; [reflexivity|]). exists [].
      cbn [trace log set_net]. rewrite stream_writes_app. cbn. auto. }
    cbn [inp log set_net]. rewrite length_skipn. unfold blen in *.
    split; [lia|]. intros _. lia.
Qed.

Variables (rpath lpath : string).

(** The callback of remote_build_list adds at most one item to one
    of the two lists, and at most prints. *)
Lemma remote_entry_adds mode size time name s w :
  exists dl fl w',
    remote_entry rpath lpath mode size time name s w
    = Ret (fst s ++ dl, snd s ++ fl) w'
    /\ Forall (subdir_item rpath lpath) dl
    /\ Forall (item_under rpath lpath) fl
    /\ sends_only list_request w w' /\ inp w' = inp w.
Proof.
  unfold remote_entry.
  destruct (S_ISDIR mode).
  { destruct (IsDotOrDotDot _) eqn:Ed.
    - exists [], [], w. rewrite !app_nil_r. unfold ret. destruct s.
      split; [reflexivity|]. auto using sends_only_refl.
    - eexists [_], [], w. rewrite !app_nil_r. unfold ret.
      split; [reflexivity|].
      split; [|auto using sends_only_refl].
      constructor; [|constructor].
      eexists. split; [exact Ed|]. split; reflexivity. }
  destruct (S_ISREG mode) eqn:Er; [|destruct (S_ISLNK mode) eqn:El];
    cbn [orb].
  3:{ exists [], []. eexists. rewrite !app_nil_r.
      unfold bind, Print, emit, ret. destruct s.
      split; [reflexivity|].
      split; [constructor|]. split; [constructor|].
      split; [apply sends_only_log_quiet; reflexivity | reflexivity]. }
  all: eexists [], [_], w; rewrite !app_nil_r; unfold ret;
    (split; [reflexivity|]); (split; [constructor|]);
    (split; [|auto using sends_only_refl]);
    (constructor; [|constructor]);
    (split; [eexists; split; cbn; f_equal; apply string_app_nil_r|]);
    (split; [reflexivity|]); cbn; auto.
Qed.

Ltac leave_loop :=
  rewrite !app_nil_r; unfold ret;
  match goal with s : (_ * _)%type |- _ => destruct s end;
  (split; [reflexivity|]); (split; [constructor|]);
  (split; [constructor|]);
  (split; [first [assumption | eapply sends_only_trans; eassumption]|]);
  (split; [lia | first [discriminate | intros _; lia]]).

(** The listing loop with this callback. *)
Lemma sync_ls_cb_loop_remote fuel : forall s w,
  (length (inp w) < fuel)%nat ->
  exists ok dl fl w',
    sync_ls_cb_loop fuel (remote_entry rpath lpath) s w
    = Ret (ok, (fst s ++ dl, snd s ++ fl)) w'
    /\ Forall (subdir_item rpath lpath) dl
    /\ Forall (item_under rpath lpath) fl
    /\ sends_only list_request w w'
    /\ (length (inp w') <= length (inp w))%nat
    /\ (ok = true -> (length (inp w') + 20 <= length (inp w))%nat).
Proof.
  induction fuel as [|fuel IH]; intros s w Hfuel; [lia|].
  cbn [sync_ls_cb_loop].
  destruct (ReadFdExactly_shortens list_request sizeof_dent w)
    as (r & w1 & E1 & H1 & Hl1 & Hs1); [vm_compute; discriminate|].
  rewrite (bind_ret_eq _ _ _ _ _ E1).
  destruct r as [msg|].
  2:{ exists false, [], [], w1. leave_loop. }
  assert (Hs : (length (inp w1) + 20 <= length (inp w))%nat).
  { unfold sizeof_dent in Hs1. specialize (Hs1 ltac:(discriminate)). lia. }
  destruct (rd32 0 msg =? ID_DONE).
  { exists true, [], [], w1. leave_loop. }
  destruct (negb _).
  { exists false, [], [], w1. leave_loop. }
  destruct (256 <? _).
  { exists false, [], [], w1. leave_loop. }
  destruct (ReadFdExactly_shortens list_request (rd32 16 msg) w1)
    as (r2 & w2 & E2 & H2 & Hl2 & _); [apply rd32_range|].
  rewrite (bind_ret_eq _ _ _ _ _ E2).
  destruct r2 as [buf|].
  2:{ exists false, [], [], w2. leave_loop. }
  destruct (remote_entry_adds (rd32 4 msg) (rd32 8 msg) (rd32 12 msg)
              (c_str buf) s w2) as (dl1 & fl1 & w3 & E3 & Hd1 & Hf1 & H3 & Hi3).
  rewrite (bind_ret_eq _ _ _ _ _ E3).
  destruct (IH (fst s ++ dl1, snd s ++ fl1) w3)
    as (ok & dl2 & fl2 & w4 & E4 & Hd2 & Hf2 & H4 & Hl4 & Hok);
    [rewrite Hi3; lia|].
  cbn [fst snd] in E4. rewrite <- !app_assoc in E4.
  exists ok, (dl1 ++ dl2), (fl1 ++ fl2), w4. split; [exact E4|].
  split; [apply Forall_app; auto|]. split; [apply Forall_app; auto|].
  split.
  { eapply sends_only_trans; [exact H1|].
    eapply sends_only_trans; [exact H2|].
    eapply sends_only_trans; [exact H3 | exact H4]. }
  rewrite Hi3 in *. split; [lia|]. intros _. lia.
Qed.

Lemma sync_ls_cb_remote s w :
  exists ok dl fl w',
    sync_ls_cb rpath (remote_entry rpath lpath) s w
    = Ret (ok, (fst s ++ dl, snd s ++ fl)) w'
    /\ Forall (subdir_item rpath lpath) dl
    /\ Forall (item_under rpath lpath) fl
    /\ sends_only list_request w w'
    /\ (length (inp w') <= length (inp w))%nat
    /\ (ok = true -> (length (inp w') + 20 <= length (inp w))%nat).
Proof.
  unfold sync_ls_cb.
  destruct (SendRequest_sends_only list_request ID_LIST rpath w)
    as (ok & w1 & E1 & H1); [apply rd32_0_request|].
  assert (Hi1 : inp w1 = inp w).
  { destruct (SendRequest_event ID_LIST rpath w) as (ok' & bud & e & E' & _).
    rewrite E1 in E'. injection E' as _ ->. reflexivity. }
  rewrite (bind_ret_eq _ _ _ _ _ E1).
  destruct ok; cbn [negb].
  2:{ exists false, [], [], w1. rewrite Hi1 in *. clear Hi1. leave_loop. }
  unfold bind at 1, get at 1.
  destruct (sync_ls_cb_loop_remote (S (length (inp w1))) s w1)
    as (ok & dl & fl & w2 & E2 & Hd & Hf & H2 & Hl2 & Hok); [lia|].
  exists ok, dl, fl, w2. split; [exact E2|].
  split; [exact Hd|]. split; [exact Hf|].
  split; [eapply sends_only_trans; eauto|].
  rewrite Hi1 in *. auto.
Qed.

End RemoteList.

Section RemoteTree.

Lemma dirlist_pop_loop_remote fuel rpath lpath :
  lists_remote fuel ->
  forall stack filelist w,
    Forall (subdir_item rpath lpath) stack ->
    (length (inp w) < fuel)%nat ->
    exists ok new w',
      dirlist_pop_loop (remote_build_list fuel) stack filelist w
      = Ret (ok, filelist ++ new) w'
      /\ Forall (item_under rpath lpath) new
      /\ sends_only list_request w w'
      /\ (length (inp w') <= length (inp w))%nat.
Proof.
  intros Hrec stack. induction stack as [|current stack IH];
    intros filelist w Hst Hfuel.
  - exists true, [], w. rewrite app_nil_r. split; [reflexivity|].
    split; [constructor|]. split; [apply sends_only_refl | lia].
  - apply Forall_cons_1 in Hst as [(name & _ & Hs & Hd) Hst].
    cbn [dirlist_pop_loop].
    destruct (Hrec filelist (ci_src current) (ci_dst current) w Hfuel)
      as (ok1 & new1 & w1 & E1 & Hn1 & H1 & Hl1).
    rewrite (bind_ret_eq _ _ _ _ _ E1). cbn [fst snd].
    assert (Hn1' : Forall (item_under rpath lpath) new1).
    { eapply List.Forall_impl; [|exact Hn1].
      intros ci Hci. rewrite Hs, Hd in Hci.
      eapply item_under_deeper, Hci. }
    destruct ok1; cbn [negb].
    + destruct (IH (filelist ++ new1) w1 Hst) as (ok & new2 & w2 & E2 & Hn2 & H2 & Hl2);
        [lia|].
      rewrite <- app_assoc in E2.
      exists ok, (new1 ++ new2), w2. split; [exact E2|].
      split; [apply Forall_app; auto|].
      split; [eapply sends_only_trans; eauto | lia].
    + exists false, new1, w1. split; [reflexivity|]. auto.
Qed.

Lemma remote_build_list_lists fuel : lists_remote fuel.
Proof.
  induction fuel as [|fuel IH]; intros filelist rpath lpath w Hfuel; [lia|].
  cbn [remote_build_list].
  destruct (sync_ls_cb_remote rpath lpath ([], filelist) w)
    as (ok & dl & fl & w1 & E1 & Hd & Hf & H1 & Hl1 & Hok).
  rewrite (bind_ret_eq _ _ _ _ _ E1). cbn [fst snd app].
  destruct ok; cbn [negb].
  - specialize (Hok eq_refl).
    destruct (dirlist_pop_loop_remote fuel rpath lpath IH (rev dl)
                (filelist ++ fl) w1)
      as (ok & new & w2 & E2 & Hn & H2 & Hl2).
    { apply Forall_rev. exact Hd. }
    { lia. }
    rewrite <- app_assoc in E2.
    exists ok, (fl ++ new), w2. split; [exact E2|].
    split; [apply Forall_app; auto|].
    split; [eapply sends_only_trans; eauto | lia].
  - exists false, fl, w1. split; [reflexivity|]. auto.
Qed.

Lemma file_dent_not_dir d :
  file_dent d -> S_ISDIR (rd32 4 (fst d)) = false.
Proof.
  unfold file_dent, S_ISDIR, S_ISREG, S_ISLNK. intros H.
  apply orb_true_iff in H as [H|H]; apply Z.eqb_eq in H; rewrite H;
    reflexivity.
Qed.

(** The listing loop on dents that all announce files. *)
Lemma sync_ls_cb_loop_files rpath lpath ds : forall fuel dl fl w rest,
  Forall valid_dent ds ->
  Forall file_dent ds ->
  (length ds < fuel)%nat ->
  inp w = dent_bytes ds ++ done_reply ++ rest ->
  exists w',
    sync_ls_cb_loop fuel (remote_entry rpath lpath) (dl, fl) w
    = Ret (true, (dl, fl ++ map (remote_item rpath lpath) ds)) w'
    /\ advanced 0 rest w w'
    /\ stream_writes (trace w') = stream_writes (trace w).
Proof.
  induction ds as [|[m name] ds IH]; intros fuel dl fl w rest Hv Hf Hfuel Hi;
    (destruct fuel as [|fuel]; [cbn in Hfuel; lia|]);
    cbn [sync_ls_cb_loop].
  - cbn [dent_bytes map concat app] in Hi.
    change sizeof_dent with (blen done_reply).
    rewrite (bind_ret_eq _ _ _ _ _ (ReadFdExactly_delivers _ _ _ Hi)).
    change (rd32 0 done_reply =? ID_DONE) with true. cbv iota.
    cbn [map]. rewrite app_nil_r. unfold ret. eexists.
    split; [reflexivity|]. split.
    { unfold advanced.
      cbn [inp wbudget fd total_bytes max files lfds next_fd nocreat
           disk_free umask log set_net].
      rewrite Z.sub_0_r. auto 15. }
    cbn [trace log set_net]. rewrite stream_writes_app. cbn [stream_writes].
    apply app_nil_r.
  - apply Forall_cons_1 in Hv as [(Hl & Hid & Hn & H256) Hv].
    apply Forall_cons_1 in Hf as [Hfile Hf].
    cbn [fst snd] in Hl, Hid, Hn, H256.
    unfold dent_bytes in Hi. cbn [map concat fst snd] in Hi.
    fold (dent_bytes ds) in Hi. rewrite <- !app_assoc in Hi.
    rewrite <- Hl.
    rewrite (bind_ret_eq _ _ _ _ _ (ReadFdExactly_delivers _ _ _ Hi)).
    rewrite Hid.
    change (ID_DENT =? ID_DONE) with false.
    change (negb (ID_DENT =? ID_DENT)) with false. cbv iota zeta.
    destruct (Z.ltb_spec 256 (rd32 16 m)); [lia|].
    rewrite Hn.
    match goal with |- context [bind (ReadFdExactly (blen name)) _ ?w1] =>
      rewrite (bind_ret_eq _ _ _ _ _
                 (ReadFdExactly_delivers name _ w1 eq_refl))
    end.
    unfold remote_entry at 1.
    pose proof (file_dent_not_dir (m, name) Hfile) as Hdir.
    unfold file_dent in Hfile. cbn [fst] in Hfile, Hdir.
    rewrite Hdir, Hfile.
    rewrite (bind_ret_eq _ _ _ _ _ eq_refl). cbn [fst snd].
    match goal with |- context [sync_ls_cb_loop fuel _ _ ?w2] =>
      destruct (IH fuel dl
                  (fl ++ [remote_item rpath lpath (m, name)]) w2 rest Hv Hf)
        as (w' & E & Hi' & Hw'); [cbn in Hfuel; lia | reflexivity |]
    end.
    exists w'. split; [|split].
    { rewrite <- app_assoc in E. exact E. }
    { unfold advanced in *.
      cbn [inp wbudget fd total_bytes max files lfds next_fd nocreat
           disk_free umask log set_net] in Hi'.
      exact Hi'. }
    rewrite Hw'. cbn [trace log set_net]. rewrite !stream_writes_app.
    cbn [stream_writes]. rewrite !app_nil_r. reflexivity.
Qed.

(** The list of a directory in which the peer shows only files. *)
Lemma remote_build_list_flat fuel filelist rpath lpath ds rest w :
  strlen rpath <= 1024 ->
  8 + strlen rpath <= wbudget w ->
  Forall valid_dent ds ->
  Forall file_dent ds ->
  inp w = dent_bytes ds ++ done_reply ++ rest ->
  exists w',
    remote_build_list (S fuel) filelist rpath lpath w
    = Ret (true, filelist ++ map (remote_item rpath lpath) ds) w'
    /\ advanced (8 + strlen rpath) rest w w'
    /\ stream_writes (trace w')
       = stream_writes (trace w) ++ [request ID_LIST rpath].
Proof.
  intros Hp Hb Hv Hf Hi.
  assert (Els : exists w',
             sync_ls_cb rpath (remote_entry rpath lpath) ([], filelist) w
             = Ret (true, ([], filelist ++ map (remote_item rpath lpath) ds))
                   w'
             /\ advanced (8 + strlen rpath) rest w w'
             /\ stream_writes (trace w')
                = stream_writes (trace w) ++ [request ID_LIST rpath]).
  { unfold sync_ls_cb.
    rewrite (bind_ret_eq _ _ _ _ _
               (SendRequest_goes_out ID_LIST rpath w Hp Hb)).
    cbn [negb]. unfold bind at 1, get at 1.
    match goal with |- context [sync_ls_cb_loop ?f _ _ ?w1] =>
      destruct (sync_ls_cb_loop_files rpath lpath ds f [] filelist w1 rest
                  Hv Hf)
        as (w' & E & Ha & Hw'); [|exact Hi|]
    end.
    { cbn [inp log set_net]. rewrite Hi, length_app.
      pose proof (dent_bytes_length ds Hv). lia. }
    exists w'. split; [exact E|]. split.
    { unfold advanced in *.
      cbn [inp wbudget fd total_bytes max files lfds next_fd nocreat
           disk_free umask log set_net] in Ha.
      rewrite Z.sub_0_r in Ha. exact Ha. }
    rewrite Hw'. cbn [trace log set_net]. rewrite stream_writes_app.
    reflexivity. }
  destruct Els as (w' & E & Ha & Hw').
  cbn [remote_build_list].
  rewrite (bind_ret_eq _ _ _ _ _ E). cbn [fst snd negb rev dirlist_pop_loop].
  exists w'. split; [reflexivity|]. auto.
Qed.

(** X20 (remote_build_list, sync_ls).  Building the list of a
    remote directory comes to an end on whatever the peer sends,
    however directories are nested in its answers.  Every item put
    on the list has as source the remote directory path followed by
    some text and as destination the local path followed by the
    same text, has the mode of a regular file or a symbolic link, and
    is not marked as skipped; what was on the list stays in front.
    The only buffers handed to the connection are LIST requests, and
    the local files are not touched.

    The text is made of the names the peer sends, and the names of
    files are not examined: when the peer answers the LIST request
    with dents that all announce regular files or links, closed by
    DONE, the list is returned with one item per dent, in the order
    of arrival, whose paths are the two directory paths followed by
    the name as it was sent, whatever it is. *)
Theorem remote_build_list_terminates_with_items filelist rpath lpath :
  (forall fuel w,
      (length (inp w) < fuel)%nat ->
      exists ok new w',
        remote_build_list fuel filelist rpath lpath w
        = Ret (ok, filelist ++ new) w'
        /\ Forall (item_under rpath lpath) new
        /\ sends_only list_request w w')
  /\ (forall fuel ds rest w,
        strlen rpath <= 1024 ->
        8 + strlen rpath <= wbudget w ->
        Forall valid_dent ds ->
        Forall file_dent ds ->
        inp w = dent_bytes ds ++ done_reply ++ rest ->
        exists w',
          remote_build_list (S fuel) filelist rpath lpath w
          = Ret (true, filelist ++ map (remote_item rpath lpath) ds) w'
          /\ inp w' = rest
          /\ stream_writes (trace w')
             = stream_writes (trace w) ++ [request ID_LIST rpath]).
Proof.
  split.
  { intros fuel w Hfuel.
    destruct (remote_build_list_lists fuel filelist rpath lpath w Hfuel)
      as (ok & new & w' & E & Hn & Hs & _).
    exists ok, new, w'. auto. }
  intros fuel ds rest w Hp Hb Hv Hf Hi.
  destruct (remote_build_list_flat fuel filelist rpath lpath ds rest w
              Hp Hb Hv Hf Hi) as (w' & E & (Hi' & _) & Hw').
  exists w'. auto.
Qed.

End RemoteTree.

Section PullDir.

Lemma set_time_and_mode_quiet lpath time mode w r w' :
  set_time_and_mode lpath time mode w = Ret r w' ->
  trace w' = trace w
  /\ forall p, is_Some (files w !! p) -> is_Some (files w' !! p).
Proof.
  unfold set_time_and_mode, bind, utime, get, chmod, ret.
  destruct (files w !! lpath) as [nd|] eqn:E; intros [= _ <-];
    [|auto].
  cbn [trace files set_fs]. split; [reflexivity|].
  intros p Hp. destruct (decide (lpath = p)) as [->|Hne].
  - rewrite lookup_insert_eq. eauto.
  - rewrite lookup_insert_ne by exact Hne. exact Hp.
Qed.

(** The pull loop on a list without marked items: every item is
    received by sync_recv, in list order, and counted as pulled. *)
Lemma pull_loop_receives copy_attrs filelist :
  Forall (fun ci => ci_flag ci = 0) filelist ->
  forall pulled skipped w pulled' skipped' w',
    pull_loop copy_attrs filelist pulled skipped w
    = Ret (Some (pulled', skipped')) w' ->
    pulled' = pulled + Z.of_nat (length filelist) /\ skipped' = skipped
    /\ stream_writes (trace w')
       = stream_writes (trace w) ++ concat (map recv_requests filelist)
    /\ (forall p, is_Some (files w !! p) -> is_Some (files w' !! p))
    /\ (forall ci, In ci filelist -> is_Some (files w' !! ci_dst ci)).
Proof.
  induction 1 as [|ci rest Hci _ IH];
    intros pulled skipped w pulled' skipped' w' H.
  - injection H as <- <- <-. cbn. rewrite app_nil_r.
    repeat (match goal with |- _ /\ _ => split end); auto; try lia.
  - cbn [pull_loop] in H. rewrite Hci in H.
    change (0 =? 0) with true in H. cbv iota in H.
    apply bind_inv in H as ([] & w1 & E1 & H). injection E1 as <-.
    apply bind_inv in H as (ok & w2 & E2 & H).
    destruct ok; cbn [negb] in H; [|discriminate].
    apply sync_recv_true in E2 as (Hw2 & Hdst & Hf2).
    cbn [trace files log] in Hw2, Hf2.
    rewrite stream_writes_app in Hw2. cbn [stream_writes] in Hw2.
    rewrite app_nil_r in Hw2.
    apply bind_inv in H as (failed & w3 & E3 & H).
    assert (H3 : trace w3 = trace w2
                 /\ forall p, is_Some (files w2 !! p)
                              -> is_Some (files w3 !! p)).
    { destruct copy_attrs.
      - apply bind_inv in E3 as (r & w3' & E3 & E3').
        injection E3' as _ <-.
        eapply set_time_and_mode_quiet. exact E3.
      - injection E3 as _ <-. auto. }
    destruct H3 as [Ht3 Hf3].
    destruct failed; [discriminate|].
    apply IH in H as (-> & -> & Hw & Hf & Hall).
    split; [cbn [length]; lia|]. split; [reflexivity|].
    split.
    { rewrite Hw, Ht3, Hw2. cbn [map concat]. rewrite <- app_assoc.
      reflexivity. }
    split.
    { intros p Hp. apply Hf, Hf3, Hf2, Hp. }
    intros c [<-|Hin]; [apply Hf, Hf3, Hdst | apply Hall, Hin].
Qed.

(** X27 (copy_remote_dir_local, remote_build_list, sync_recv).  A
    directory pull never skips a file.

    First, remote_build_list marks no item, so that when the pull
    succeeds every file of the list it built was received by
    sync_recv: after the LIST requests of remote_build_list the
    buffers handed to the connection are the STAT and the RECV
    request for the source of each item, in list order, and nothing
    else; on return every destination of the list is a local file;
    and the closing line reports the length of the list as pulled
    and 0 as skipped.  With an empty path the pull does not succeed.

    Second, the pull of a directory in which the peer shows one file
    and then serves it does succeed: the LIST request, the STAT and
    the RECV request for the file go out, the destination holds the
    payloads in the order of arrival, and the closing line reports 1
    file pulled and 0 skipped. *)
Theorem pull_receives_every_listed_file rpath lpath :
  (forall copy_attrs w w',
      copy_remote_dir_local rpath lpath copy_attrs w = Ret true w' ->
      exists fuel filelist w1 t,
        remote_build_list fuel [] (with_slash rpath) (with_slash lpath)
                          (log (EvPrint "pull: building file list...") w)
        = Ret (true, filelist) w1
        /\ Forall (item_under (with_slash rpath) (with_slash lpath)) filelist
        /\ stream_writes (trace w')
           = stream_writes (trace w1) ++ concat (map recv_requests filelist)
        /\ (forall ci, In ci filelist -> is_Some (files w' !! ci_dst ci))
        /\ trace w'
           = t ++ [pull_summary rpath (Z.of_nat (length filelist)) 0]
        /\ rpath <> EmptyString /\ lpath <> EmptyString)
  /\ (forall d mode size time chunks rest copy_attrs w,
        let item := remote_item (with_slash rpath) (with_slash lpath) d in
        rpath <> EmptyString -> lpath <> EmptyString ->
        valid_dent d -> file_dent d ->
        strlen (with_slash rpath) <= 1024 ->
        strlen (ci_src item) <= 1024 ->
        8 + strlen (with_slash rpath) + 2 * (8 + strlen (ci_src item))
        <= wbudget w ->
        ci_dst item ∉ nocreat w ->
        0 <= next_fd w ->
        0 <= total_bytes w < 2 ^ 64 ->
        max w <= SYNC_DATA_MAX ->
        inp w = dent_bytes [d] ++ done_reply
                  ++ stat_reply mode size time ++ pull_body chunks ++ rest ->
        Forall (chunk_ok (max w)) chunks ->
        blen (concat chunks) <= disk_free w ->
        (chunks <> [] -> u32 size <> 0) ->
        exists w' t,
          copy_remote_dir_local rpath lpath copy_attrs w = Ret true w'
          /\ n_data <$> files w' !! ci_dst item = Some (concat chunks)
          /\ stream_writes (trace w')
             = stream_writes (trace w)
                 ++ request ID_LIST (with_slash rpath) :: recv_requests item
          /\ trace w' = t ++ [pull_summary rpath 1 0]
          /\ inp w' = rest).
Proof.
  split.
  { unfold copy_remote_dir_local. intros copy_attrs w w' H.
    destruct (String.eqb_spec rpath EmptyString) as [|Hr]; [discriminate|].
    destruct (String.eqb_spec lpath EmptyString) as [|Hl]; [discriminate|].
    cbn [orb] in H.
    apply bind_inv in H as (u & w0 & E0 & H). injection E0 as _ <-.
    apply bind_inv in H as (fuel & w0' & E0 & H). injection E0 as <- <-.
    apply bind_inv in H as (r & w1 & E1 & H).
    match type of E1 with
    | remote_build_list ?f _ _ _ ?w0 = _ =>
        destruct (remote_build_list_lists f [] (with_slash rpath)
                    (with_slash lpath) w0 (Nat.lt_succ_diag_r _))
          as (ok & new & w1' & E1' & Hn & _)
    end.
    rewrite E1 in E1'. injection E1' as -> <-. cbn [fst snd app] in H, E1.
    destruct ok; cbn [negb] in H; [|discriminate].
    apply bind_inv in H as (counts & w2 & E2 & H).
    destruct counts as [[pulled skipped]|]; [|discriminate].
    apply pull_loop_receives in E2 as (-> & -> & Hw & _ & Hall).
    2:{ eapply List.Forall_impl; [|exact Hn].
        intros ci (_ & Hf & _). exact Hf. }
    unfold bind, Printf, emit, ret in H. injection H as <-.
    eexists _, new, w1, _. split; [exact E1|]. split; [exact Hn|].
    cbn [trace files log]. rewrite stream_writes_app. cbn [stream_writes].
    rewrite app_nil_r.
    split; [exact Hw|]. split; [exact Hall|].
    split; [reflexivity | auto]. }
  intros d mode size time chunks rest copy_attrs w item Hr Hl Hv Hfile
         Hrp Hsrc Hb Hc Hfd Htb Hmax Hi Hall Hdisk Hsz.
  pose proof (strlen_nonneg (with_slash rpath)) as Hn1.
  pose proof (strlen_nonneg (ci_src item)) as Hn2.
  (* the list *)
  destruct (remote_build_list_flat
              (length (inp w)) [] (with_slash rpath) (with_slash lpath) [d]
              (stat_reply mode size time ++ pull_body chunks ++ rest)
              (log (EvPrint "pull: building file list...") w) Hrp)
    as (w1 & E1 & Ha1 & Hw1).
  { cbn [wbudget log]. lia. }
  { constructor; [exact Hv | constructor]. }
  { constructor; [exact Hfile | constructor]. }
  { exact Hi. }
  destruct Ha1 as (Hi1 & Hb1 & _ & Htb1 & Hm1 & _ & _ & Hnx1 & Hnc1
                   & Hdf1 & _).
  cbn [wbudget total_bytes max next_fd nocreat disk_free trace log]
    in Hb1, Htb1, Hm1, Hnx1, Hnc1, Hdf1, Hw1.
  rewrite stream_writes_app in Hw1. cbn [stream_writes] in Hw1.
  rewrite app_nil_r in Hw1.
  cbn [map app] in E1. fold item in E1.
  (* the file *)
  destruct (sync_recv_completes (ci_src item) (ci_dst item) mode size time
              chunks rest
              (log (EvPrintf "pull: %s -> %s"
                             [AStr (ci_src item); AStr (ci_dst item)]) w1))
    as (w3 & E3 & Hf3 & _ & _ & _ & Hi3);
    cbn [wbudget total_bytes max next_fd nocreat disk_free inp log];
    rewrite ?Hb1, ?Htb1, ?Hm1, ?Hnx1, ?Hnc1, ?Hdf1;
    try assumption; try lia.
  pose proof (sync_recv_true _ _ _ _ E3) as (Hw3 & _).
  cbn [trace log] in Hw3. rewrite stream_writes_app in Hw3.
  cbn [stream_writes] in Hw3. rewrite app_nil_r in Hw3.
  (* the attributes *)
  assert (Hattr : exists w4,
             (if copy_attrs then
                bind (set_time_and_mode (ci_dst item) (ci_time item)
                                        (ci_mode item))
                     (fun r => ret (negb (r =? 0)))
              else ret false) w3 = Ret false w4
             /\ trace w4 = trace w3 /\ inp w4 = inp w3
             /\ n_data <$> files w4 !! ci_dst item = Some (concat chunks)).
  { destruct copy_attrs.
    - unfold set_time_and_mode, bind, utime, get, chmod, ret.
      rewrite Hf3. change (0 =? 0) with true. cbv iota.
      change (negb (0 =? 0)) with false.
      eexists. split; [reflexivity|].
      cbn [trace inp files set_fs]. rewrite lookup_insert_eq. auto.
    - exists w3. rewrite Hf3. auto. }
  destruct Hattr as (w4 & E4 & Ht4 & Hi4 & Hd4).
  assert (Epull : pull_loop copy_attrs [item] 0 0 w1
                  = Ret (Some (0 + 1, 0)) w4).
  { cbn [pull_loop]. change (ci_flag item =? 0) with true. cbv iota.
    unfold bind at 1, Printf, emit.
    rewrite (bind_ret_eq _ _ _ _ _ E3). cbn [negb].
    rewrite (bind_ret_eq _ _ _ _ _ E4). reflexivity. }
  unfold copy_remote_dir_local.
  destruct (String.eqb_spec rpath EmptyString); [contradiction|].
  destruct (String.eqb_spec lpath EmptyString); [contradiction|].
  cbn [orb]. unfold bind at 1, Print, emit.
  unfold bind at 1, get at 1. cbn [inp log].
  rewrite (bind_ret_eq _ _ _ _ _ E1). cbn [fst snd negb].
  rewrite (bind_ret_eq _ _ _ _ _ Epull).
  unfold bind, Printf, emit, ret. eexists _, (trace w4).
  split; [reflexivity|]. cbn [files trace inp log].
  split; [exact Hd4|].
  split.
  { rewrite stream_writes_app. cbn [stream_writes].
    rewrite app_nil_r, Ht4, Hw3, Hw1, <- app_assoc. reflexivity. }
  split; [reflexivity|]. congruence.
Qed.

End PullDir.
(** ** The atomic operations of libcutils *)

Section Atomics.

Import Atomic.

Lemma abind_ret_eq {T U} (c : A T) (k : T -> A U) s a s1 :
  c s = ARet a s1 -> abind c k s = k a s1.
Proof. intros E. unfold abind. rewrite E. reflexivity. Qed.

Lemma abind_fault_eq {T U} (c : A T) (k : T -> A U) s why s1 :
  c s = AFault why s1 -> abind c k s = AFault why s1.
Proof. intros E. unfold abind. rewrite E. reflexivity. Qed.

Lemma abind_inv {T U} (c : A T) (k : T -> A U) s b s' :
  abind c k s = ARet b s' ->
  exists a s1, c s = ARet a s1 /\ k a s1 = ARet b s'.
Proof.
  unfold abind. destruct (c s) as [a s1|]; [eauto | discriminate].
Qed.

Lemma edx_low addr : low_word addr -> edx addr = addr.
Proof. intros H. apply Z.mod_small. exact H. Qed.

Lemma same_words_refl s : same_words s s.
Proof. intros a. reflexivity. Qed.

Lemma same_words_trans s1 s2 s3 :
  same_words s1 s2 -> same_words s2 s3 -> same_words s1 s3.
Proof. intros H1 H2 a. rewrite (H2 a). apply H1. Qed.

(** What the other threads do before an access: they may leave a
    value in a mapped word, which uses up one of their turns. *)
Lemma interfere_spec s :
  exists s1 t,
    interfere s = ARet tt s1
    /\ history s1 = history s ++ t
    /\ Forall (fun e => swapped e = false) t
    /\ same_words s s1
    /\ (length (others s1) <= length (others s))%nat
    /\ (forall a, memory s1 !! a <> memory s !! a ->
                  (length (others s1) < length (others s))%nat)
    /\ (others s = [] -> s1 = s).
Proof.
  unfold interfere. destruct (others s) as [|[[a v]|] rest] eqn:E.
  - exists s, []. rewrite app_nil_r. rewrite E.
    repeat (match goal with |- _ /\ _ => split end);
      auto using same_words_refl; try lia. congruence.
  - eexists _, [Other a v]. split; [reflexivity|]. cbn.
    repeat (match goal with |- _ /\ _ => split end);
      auto; try lia; try discriminate.
    intros b. cbn [memory]. destruct (decide (a = b)) as [->|Hne].
    + rewrite lookup_alter_eq. apply fmap_is_Some.
    + rewrite lookup_alter_ne by exact Hne. reflexivity.
  - eexists _, []. split; [reflexivity|]. cbn. rewrite app_nil_r.
    repeat (match goal with |- _ /\ _ => split end);
      auto using same_words_refl; try lia; try congruence; try discriminate.
    intros b. reflexivity.
Qed.

Lemma load_spec addr s :
  is_Some (memory s !! addr) ->
  exists v s1 t,
    load addr s = ARet v s1
    /\ memory s1 !! addr = Some v
    /\ history s1 = history s ++ t
    /\ Forall (fun e => swapped e = false) t
    /\ same_words s s1
    /\ (length (others s1) <= length (others s))%nat
    /\ (others s = [] ->
        memory s1 = memory s /\ others s1 = []
        /\ history s1 = history s ++ [Load addr v]).
Proof.
  intros Hm. unfold load.
  destruct (interfere_spec s) as (s1 & t & E & Hh & Ht & Hs & Hl & _ & Hq).
  rewrite (abind_ret_eq _ _ _ _ _ E).
  destruct (memory s1 !! addr) as [v|] eqn:Ev.
  2:{ apply Hs in Hm. rewrite Ev in Hm. destruct Hm. discriminate. }
  exists v, {| memory := memory s1; others := others s1;
               history := history s1 ++ [Load addr v] |},
    (t ++ [Load addr v]).
  split; [reflexivity|]. cbn.
  split; [exact Ev|].
  split; [rewrite Hh, app_assoc; reflexivity|].
  split; [apply Forall_app; split; [exact Ht | repeat constructor]|].
  split; [exact Hs|]. split; [exact Hl|].
  intros Ho. rewrite (Hq Ho). auto.
Qed.

(** A load that returns found the word mapped. *)
Lemma load_inv addr s v s1 :
  load addr s = ARet v s1 -> is_Some (memory s !! addr).
Proof.
  unfold load.
  destruct (interfere_spec s) as (s0 & t & E & _ & _ & Hs & _).
  rewrite (abind_ret_eq _ _ _ _ _ E).
  destruct (memory s0 !! addr) as [v0|] eqn:Ev; [|discriminate].
  intros _. apply Hs. rewrite Ev. eauto.
Qed.

Lemma cas_spec oldvalue newvalue addr s :
  is_Some (memory s !! edx addr) ->
  exists seen s1 t,
    cas oldvalue newvalue addr s
    = ARet (if seen =? oldvalue then 0 else 1) s1
    /\ history s1 = history s ++ t ++ [Cas (edx addr) oldvalue newvalue seen]
    /\ Forall (fun e => swapped e = false) t
    /\ memory s1 !! edx addr
       = Some (if seen =? oldvalue then newvalue else seen)
    /\ same_words s s1
    /\ (length (others s1) <= length (others s))%nat
    /\ (memory s !! edx addr <> Some seen ->
        (length (others s1) < length (others s))%nat)
    /\ (others s = [] ->
        memory s !! edx addr = Some seen /\ t = [] /\ others s1 = []).
Proof.
  intros Hm. unfold cas.
  destruct (interfere_spec s) as (s1 & t & E & Hh & Ht & Hs & Hl & Hc & Hq).
  rewrite (abind_ret_eq _ _ _ _ _ E).
  destruct (memory s1 !! edx addr) as [seen|] eqn:Ev.
  2:{ apply Hs in Hm. rewrite Ev in Hm. destruct Hm. discriminate. }
  assert (Hquiet : others s = [] ->
                   memory s !! edx addr = Some seen /\ t = []
                   /\ others s1 = []).
  { intros Ho. rewrite (Hq Ho) in *. split; [exact Ev|]. split; [|exact Ho].
    apply (f_equal (@length _)) in Hh. rewrite length_app in Hh.
    destruct t; [reflexivity | cbn in Hh; lia]. }
  assert (Hturn : memory s !! edx addr <> Some seen ->
                  (length (others s1) < length (others s))%nat).
  { intros Hne. apply (Hc (edx addr)). congruence. }
  exists seen.
  destruct (seen =? oldvalue) eqn:Ew.
  - eexists _, t. split; [reflexivity|]. cbn.
    split; [rewrite Hh, <- app_assoc; reflexivity|].
    split; [exact Ht|]. split; [apply lookup_insert_eq|].
    split.
    { intros a. cbn [memory]. rewrite <- (Hs a).
      destruct (decide (edx addr = a)) as [<-|Hne].
      - rewrite lookup_insert_eq, Ev. split; eauto.
      - rewrite lookup_insert_ne by exact Hne. reflexivity. }
    auto.
  - eexists _, t. split; [reflexivity|]. cbn.
    split; [rewrite Hh, <- app_assoc; reflexivity|].
    auto 10.
Qed.

Lemma release_cas_spec oldvalue newvalue addr s :
  is_Some (memory s !! edx addr) ->
  exists seen s1 t,
    android_atomic_release_cas oldvalue newvalue addr s
    = ARet (if seen =? oldvalue then 0 else 1) s1
    /\ history s1 = history s ++ t ++ [Cas (edx addr) oldvalue newvalue seen]
    /\ Forall (fun e => swapped e = false) t
    /\ memory s1 !! edx addr
       = Some (if seen =? oldvalue then newvalue else seen)
    /\ same_words s s1
    /\ (length (others s1) <= length (others s))%nat
    /\ (memory s !! edx addr <> Some seen ->
        (length (others s1) < length (others s))%nat)
    /\ (others s = [] ->
        memory s !! edx addr = Some seen /\ t = [Membar] /\ others s1 = []).
Proof.
  intros Hm.
  unfold android_atomic_release_cas, ANDROID_MEMBAR_FULL, note.
  unfold abind at 1.
  match goal with |- context [cas _ _ _ ?s0] =>
    destruct (cas_spec oldvalue newvalue addr s0 Hm)
      as (seen & s1 & t & E & Hh & Ht & Hw & Hs & Hl & Hc & Hq)
  end.
  cbn [history memory others] in *.
  exists seen, s1, (Membar :: t). split; [exact E|].
  split; [rewrite Hh, <- !app_assoc; reflexivity|].
  split; [constructor; [reflexivity | exact Ht]|].
  split; [exact Hw|]. split; [exact Hs|]. split; [exact Hl|].
  split; [exact Hc|].
  intros Ho. destruct (Hq Ho) as (Hv & -> & ->). auto.
Qed.

Lemma cas_cas_like : cas_like cas.
Proof.
  intros o n addr s Hm.
  destruct (cas_spec o n addr s Hm)
    as (seen & s1 & t & E & Hh & Ht & Hw & Hs & Hl & Hc & _).
  exists seen, s1, t. auto 10.
Qed.

Lemma release_cas_cas_like : cas_like android_atomic_release_cas.
Proof.
  intros o n addr s Hm.
  destruct (release_cas_spec o n addr s Hm)
    as (seen & s1 & t & E & Hh & Ht & Hw & Hs & Hl & Hc & _).
  exists seen, s1, t. auto 10.
Qed.

(** Without a word at the address lock cmpxchg uses, the
    compare-and-swap ends the process. *)
Lemma cas_unmapped oldvalue newvalue addr s :
  memory s !! edx addr = None ->
  exists s', cas oldvalue newvalue addr s = AFault Segv s'
             /\ same_words s s'.
Proof.
  intros Hm. unfold cas.
  destruct (interfere_spec s) as (s1 & t & E & _ & _ & Hs & _).
  rewrite (abind_ret_eq _ _ _ _ _ E).
  destruct (memory s1 !! edx addr) as [seen|] eqn:Ev.
  { assert (H : is_Some (memory s !! edx addr))
      by (apply Hs; rewrite Ev; eauto).
    rewrite Hm in H. destruct H. discriminate. }
  exists s1. auto.
Qed.

Lemma load_returns_or_faults addr s :
  exists s1,
    ((exists v, load addr s = ARet v s1) \/ load addr s = AFault Segv s1)
    /\ same_words s s1.
Proof.
  unfold load.
  destruct (interfere_spec s) as (s1 & t & E & _ & _ & Hs & _).
  rewrite (abind_ret_eq _ _ _ _ _ E).
  destruct (memory s1 !! addr) as [v|].
  - eexists. split; [left; eexists; reflexivity|]. exact Hs.
  - exists s1. auto.
Qed.

Section Retry.

(** A loop on a word that lock cmpxchg reaches: it reads the word,
    computes the new value and retries the compare-and-swap until
    it swaps. *)
Variables (addr : Z) (f : Z -> Z) (casf : Z -> Z -> Z -> A Z)
          (loop : nat -> A Z).

Hypothesis addr_low : low_word addr.
Hypothesis casf_cas : cas_like casf.
Hypothesis loop_O : forall s, loop O s = AFault Spinning s.
Hypothesis loop_S : forall fuel s,
  loop (S fuel) s
  = abind (load addr) (fun oldValue =>
    abind (casf oldValue (f oldValue) addr) (fun failed =>
    if negb (failed =? 0) then loop fuel else aret oldValue)) s.

Lemma retry_updates_atomically fuel : forall s old s',
  loop fuel s = ARet old s' ->
  updates_atomically addr f old s s'.
Proof.
  induction fuel as [|fuel IH]; intros s old s' H.
  { rewrite loop_O in H. discriminate. }
  rewrite loop_S in H.
  assert (Hm : is_Some (memory s !! addr)).
  { apply abind_inv in H as (o & s1 & E & _). eapply load_inv, E. }
  destruct (load_spec addr s Hm) as (v & s1 & t1 & E1 & Hv & Hh1 & Ht1 & _).
  rewrite (abind_ret_eq _ _ _ _ _ E1) in H.
  destruct (casf_cas v (f v) addr s1)
    as (seen & s2 & t2 & E3 & Hh2 & Ht2 & Hw2 & _).
  { rewrite (edx_low addr addr_low), Hv. eauto. }
  rewrite (edx_low addr addr_low) in Hh2, Hw2.
  rewrite (abind_ret_eq _ _ _ _ _ E3) in H.
  destruct (Z.eqb_spec seen v) as [->|Hne].
  - change (negb (0 =? 0)) with false in H. cbv iota in H.
    injection H as <- <-.
    exists (t1 ++ t2). rewrite Hh2, Hh1, <- !app_assoc.
    split; [reflexivity|]. split; [apply Forall_app; auto | exact Hw2].
  - change (negb (1 =? 0)) with true in H. cbv iota in H.
    apply IH in H as (t & Hh & Ht & Hw).
    exists (t1 ++ t2 ++ [Cas addr v (f v) seen] ++ t).
    rewrite Hh, Hh2, Hh1, <- !app_assoc. split; [reflexivity|].
    split; [|exact Hw].
    apply Forall_app. split; [exact Ht1|].
    apply Forall_app. split; [exact Ht2|].
    apply Forall_app. split; [|exact Ht].
    constructor; [|constructor]. cbn. apply Z.eqb_neq. exact Hne.
Qed.

Lemma retry_comes_to_an_end fuel : forall s,
  is_Some (memory s !! addr) ->
  (length (others s) < fuel)%nat ->
  exists old s', loop fuel s = ARet old s'.
Proof.
  induction fuel as [|fuel IH]; intros s Hm Hfuel; [lia|].
  rewrite loop_S.
  destruct (load_spec addr s Hm)
    as (v & s1 & t1 & E1 & Hv & _ & _ & Hs1 & Hl1 & _).
  rewrite (abind_ret_eq _ _ _ _ _ E1).
  destruct (casf_cas v (f v) addr s1)
    as (seen & s2 & t2 & E3 & _ & _ & _ & Hs2 & Hl2 & Hc2).
  { rewrite (edx_low addr addr_low), Hv. eauto. }
  rewrite (edx_low addr addr_low) in Hc2.
  rewrite (abind_ret_eq _ _ _ _ _ E3).
  destruct (Z.eqb_spec seen v) as [->|Hne].
  - exists v, s2. reflexivity.
  - change (negb (1 =? 0)) with true. cbv iota.
    apply IH.
    + apply Hs2, Hs1, Hm.
    + assert (memory s1 !! addr <> Some seen) by (rewrite Hv; congruence).
      specialize (Hc2 ltac:(assumption)). lia.
Qed.

End Retry.

Section OutOfReach.

(** A loop on a word for which nothing is mapped at the address
    lock cmpxchg uses. *)
Variables (addr : Z) (f : Z -> Z) (casf : Z -> Z -> Z -> A Z)
          (loop : nat -> A Z).

Hypothesis casf_faults : forall oldvalue newvalue s,
  memory s !! edx addr = None ->
  exists s', casf oldvalue newvalue addr s = AFault Segv s'.
Hypothesis loop_S : forall fuel s,
  loop (S fuel) s
  = abind (load addr) (fun oldValue =>
    abind (casf oldValue (f oldValue) addr) (fun failed =>
    if negb (failed =? 0) then loop fuel else aret oldValue)) s.

Lemma retry_faults fuel s :
  memory s !! edx addr = None ->
  exists s', loop (S fuel) s = AFault Segv s'.
Proof.
  intros Hm. rewrite loop_S.
  destruct (load_returns_or_faults addr s) as (s1 & [[v E]|E] & Hs).
  - rewrite (abind_ret_eq _ _ _ _ _ E).
    destruct (casf_faults v (f v) s1) as (s' & E').
    { destruct (memory s1 !! edx addr) as [x|] eqn:Ex; [|reflexivity].
      assert (H : is_Some (memory s !! edx addr))
        by (apply Hs; rewrite Ex; eauto).
      rewrite Hm in H. destruct H. discriminate. }
    exists s'. apply abind_fault_eq. exact E'.
  - exists s1. apply abind_fault_eq. exact E.
Qed.

End OutOfReach.

Lemma release_cas_unmapped addr oldvalue newvalue s :
  memory s !! edx addr = None ->
  exists s', android_atomic_release_cas oldvalue newvalue addr s
             = AFault Segv s'.
Proof.
  intros Hm. unfold android_atomic_release_cas, ANDROID_MEMBAR_FULL, note.
  unfold abind at 1.
  match goal with |- context [cas _ _ _ ?s0] =>
    destruct (cas_unmapped oldvalue newvalue addr s0 Hm) as (s' & E & _)
  end.
  eauto.
Qed.

Lemma plain_cas_unmapped addr oldvalue newvalue s :
  memory s !! edx addr = None ->
  exists s', cas oldvalue newvalue addr s = AFault Segv s'.
Proof.
  intros Hm. destruct (cas_unmapped oldvalue newvalue addr s Hm)
    as (s' & E & _). eauto.
Qed.

(** X21 (android_atomic_add, android_atomic_and, android_atomic_or,
    android_atomic_inc, android_atomic_dec).  On a word whose address
    fits in 32 bits the read-modify-write operations are atomic:
    whenever one of them returns, the value it returns is the value
    its last compare-and-swap found in the word and replaced, in
    that one instruction, by the sum modulo 2^32 (the conjunction,
    the disjunction) with the operand; none of its earlier attempts
    changed a word, and this thread did nothing after the swap. *)
Theorem read_modify_write_is_atomic fuel value addr s old s' :
  low_word addr ->
  (android_atomic_add fuel value addr s = ARet old s' ->
   updates_atomically addr (fun o => wrap32 (o + value)) old s s')
  /\ (android_atomic_and fuel value addr s = ARet old s' ->
      updates_atomically addr (fun o => Z.land o value) old s s')
  /\ (android_atomic_or fuel value addr s = ARet old s' ->
      updates_atomically addr (fun o => Z.lor o value) old s s').
Proof.
  intros Hlow. split; [|split]; intros H.
  - apply (retry_updates_atomically addr (fun o => wrap32 (o + value))
             android_atomic_release_cas
             (fun n => android_atomic_add_loop n value addr)
             Hlow release_cas_cas_like
             (fun _ => eq_refl) (fun _ _ => eq_refl) fuel s old s' H).
  - apply (retry_updates_atomically addr (fun o => Z.land o value)
             android_atomic_release_cas
             (fun n => android_atomic_and_loop n value addr)
             Hlow release_cas_cas_like
             (fun _ => eq_refl) (fun _ _ => eq_refl) fuel s old s' H).
  - apply (retry_updates_atomically addr (fun o => Z.lor o value)
             android_atomic_release_cas
             (fun n => android_atomic_or_loop n value addr)
             Hlow release_cas_cas_like
             (fun _ => eq_refl) (fun _ _ => eq_refl) fuel s old s' H).
Qed.

(** X22 (android_atomic_add, android_atomic_and, android_atomic_or,
    android_atomic_acquire_swap, android_atomic_release_swap).  On a
    mapped word whose address fits in 32 bits the loops retry only
    when another thread got in between: once the other threads have
    no more than [fuel - 1] turns left, every operation returns
    within [fuel] turns of its loop. *)
Theorem retries_end_when_the_others_rest fuel value addr s :
  low_word addr ->
  is_Some (memory s !! addr) ->
  (length (others s) < fuel)%nat ->
  (exists old s', android_atomic_add fuel value addr s = ARet old s')
  /\ (exists old s', android_atomic_and fuel value addr s = ARet old s')
  /\ (exists old s', android_atomic_or fuel value addr s = ARet old s')
  /\ (exists old s',
         android_atomic_acquire_swap fuel value addr s = ARet old s')
  /\ (exists old s',
         android_atomic_release_swap fuel value addr s = ARet old s').
Proof.
  intros Hlow Hm Hfuel.
  assert (Hswap : forall s0,
             is_Some (memory s0 !! addr) ->
             (length (others s0) < fuel)%nat ->
             exists old s', swap_loop fuel value addr s0 = ARet old s').
  { intros s0 Hm0 H0.
    apply (retry_comes_to_an_end addr (fun _ => value) cas
             (fun n => swap_loop n value addr)
             Hlow cas_cas_like (fun _ _ => eq_refl) fuel s0 Hm0 H0). }
  split; [|split; [|split; [|split]]].
  - apply (retry_comes_to_an_end addr (fun o => wrap32 (o + value))
             android_atomic_release_cas
             (fun n => android_atomic_add_loop n value addr)
             Hlow release_cas_cas_like (fun _ _ => eq_refl) fuel s Hm Hfuel).
  - apply (retry_comes_to_an_end addr (fun o => Z.land o value)
             android_atomic_release_cas
             (fun n => android_atomic_and_loop n value addr)
             Hlow release_cas_cas_like (fun _ _ => eq_refl) fuel s Hm Hfuel).
  - apply (retry_comes_to_an_end addr (fun o => Z.lor o value)
             android_atomic_release_cas
             (fun n => android_atomic_or_loop n value addr)
             Hlow release_cas_cas_like (fun _ _ => eq_refl) fuel s Hm Hfuel).
  - unfold android_atomic_acquire_swap.
    destruct (Hswap s Hm Hfuel) as (old & s' & E).
    rewrite (abind_ret_eq _ _ _ _ _ E).
    unfold abind, ANDROID_MEMBAR_FULL, note, aret. eauto.
  - unfold android_atomic_release_swap, ANDROID_MEMBAR_FULL, note.
    unfold abind at 1. apply Hswap; cbn; assumption.
Qed.

Lemma edx_idem addr : edx (edx addr) = edx addr.
Proof. unfold edx. apply Z.mod_mod. discriminate. Qed.

(** X23 (cas, android_atomic_acquire_cas, android_atomic_release_cas,
    android_atomic_add, android_atomic_and, android_atomic_or,
    android_atomic_acquire_swap, android_atomic_release_swap).  lock
    cmpxchg addresses the word through [(%edx)], the low 32 bits of
    the pointer: a compare-and-swap called with a pointer does what
    it does when called with the low half of that pointer.  Hence,
    when nothing is mapped at that address, every operation that
    swaps ends the process at its first compare-and-swap, whether
    the word itself is mapped or not; this is the case of an
    ordinary word of an x86_64 process, which lies above 4 GiB. *)
Theorem cmpxchg_uses_the_low_half_of_the_address
    fuel oldvalue value addr :
  (forall s,
      cas oldvalue value addr s = cas oldvalue value (edx addr) s
      /\ android_atomic_acquire_cas oldvalue value addr s
         = android_atomic_acquire_cas oldvalue value (edx addr) s
      /\ android_atomic_release_cas oldvalue value addr s
         = android_atomic_release_cas oldvalue value (edx addr) s)
  /\ (forall s,
        memory s !! edx addr = None ->
        (exists s', android_atomic_add (S fuel) value addr s = AFault Segv s')
        /\ (exists s',
               android_atomic_and (S fuel) value addr s = AFault Segv s')
        /\ (exists s',
               android_atomic_or (S fuel) value addr s = AFault Segv s')
        /\ (exists s',
               android_atomic_acquire_swap (S fuel) value addr s
               = AFault Segv s')
        /\ (exists s',
               android_atomic_release_swap (S fuel) value addr s
               = AFault Segv s')
        /\ (exists s',
               android_atomic_acquire_cas oldvalue value addr s
               = AFault Segv s')
        /\ (exists s',
               android_atomic_release_cas oldvalue value addr s
               = AFault Segv s')).
Proof.
  split.
  { intros s.
    unfold android_atomic_acquire_cas, android_atomic_release_cas, cas.
    rewrite edx_idem. auto. }
  intros s Hm.
  assert (Hswap : forall s0, memory s0 !! edx addr = None ->
             exists s', swap_loop (S fuel) value addr s0 = AFault Segv s').
  { intros s0 H0.
    apply (retry_faults addr (fun _ => value) cas
             (fun n => swap_loop n value addr)
             (plain_cas_unmapped addr) (fun _ _ => eq_refl) fuel s0 H0). }
  repeat (match goal with |- _ /\ _ => split end).
  - apply (retry_faults addr (fun o => wrap32 (o + value))
             android_atomic_release_cas
             (fun n => android_atomic_add_loop n value addr)
             (release_cas_unmapped addr) (fun _ _ => eq_refl) fuel s Hm).
  - apply (retry_faults addr (fun o => Z.land o value)
             android_atomic_release_cas
             (fun n => android_atomic_and_loop n value addr)
             (release_cas_unmapped addr) (fun _ _ => eq_refl) fuel s Hm).
  - apply (retry_faults addr (fun o => Z.lor o value)
             android_atomic_release_cas
             (fun n => android_atomic_or_loop n value addr)
             (release_cas_unmapped addr) (fun _ _ => eq_refl) fuel s Hm).
  - destruct (Hswap s Hm) as (s' & E). exists s'.
    unfold android_atomic_acquire_swap. apply abind_fault_eq. exact E.
  - unfold android_atomic_release_swap, ANDROID_MEMBAR_FULL, note.
    unfold abind at 1. apply Hswap. exact Hm.
  - destruct (plain_cas_unmapped addr oldvalue value s Hm) as (s' & E).
    exists s'. unfold android_atomic_acquire_cas.
    apply abind_fault_eq. exact E.
  - apply release_cas_unmapped. exact Hm.
Qed.

(** X24 (android_atomic_acquire_swap, android_atomic_release_swap).
    On a word whose address fits in 32 bits a swap returns the value
    it replaced: whenever it returns, its last compare-and-swap
    found the returned value in the word and stored the new one, no
    earlier attempt changed a word, and the word holds the new value
    at the return.  The acquire form has its barrier after the swap,
    the release form before the loop. *)
Theorem swap_returns_what_it_replaced fuel value addr s old s' :
  low_word addr ->
  (android_atomic_acquire_swap fuel value addr s = ARet old s' ->
   exists t,
     history s' = history s ++ t ++ [Cas addr old value old; Membar]
     /\ Forall (fun e => swapped e = false) t
     /\ memory s' !! addr = Some value)
  /\ (android_atomic_release_swap fuel value addr s = ARet old s' ->
      exists t,
        history s' = history s ++ Membar :: t ++ [Cas addr old value old]
        /\ Forall (fun e => swapped e = false) t
        /\ memory s' !! addr = Some value).
Proof.
  intros Hlow.
  assert (Hloop : forall s0 s1,
             swap_loop fuel value addr s0 = ARet old s1 ->
             updates_atomically addr (fun _ => value) old s0 s1).
  { intros s0 s1 H.
    apply (retry_updates_atomically addr (fun _ => value) cas
             (fun n => swap_loop n value addr)
             Hlow cas_cas_like
             (fun _ => eq_refl) (fun _ _ => eq_refl) fuel s0 old s1 H). }
  split; intros H.
  - unfold android_atomic_acquire_swap in H.
    apply abind_inv in H as (o & s1 & E & H).
    unfold abind, ANDROID_MEMBAR_FULL, note, aret in H.
    injection H as -> <-.
    destruct (Hloop s s1 E) as (t & Hh & Ht & Hw).
    exists t. cbn [history memory]. rewrite Hh, <- !app_assoc. auto.
  - unfold android_atomic_release_swap, ANDROID_MEMBAR_FULL, note in H.
    unfold abind in H.
    match type of H with swap_loop _ _ _ ?s0 = _ =>
      destruct (Hloop s0 s' H) as (t & Hh & Ht & Hw)
    end.
    cbn [history] in Hh.
    exists t. rewrite Hh, <- !app_assoc. auto.
Qed.

Lemma wrap32_int32 z : is_int32 z = true -> wrap32 z = z.
Proof.
  unfold is_int32, wrap32, INT32_MIN, INT32_MAX.
  intros H. apply andb_true_iff in H as [H1 H2].
  apply Z.leb_le in H1, H2. rewrite Z.mod_small; lia.
Qed.

Lemma wrap32_back w : is_int32 w = true -> wrap32 (wrap32 (w + 1) + -1) = w.
Proof.
  unfold is_int32, wrap32, INT32_MIN, INT32_MAX.
  intros H. apply andb_true_iff in H as [H1 H2].
  apply Z.leb_le in H1, H2.
  destruct (Z.eq_dec w (2 ^ 31 - 1)) as [->|Hne]; [reflexivity|].
  rewrite (Z.mod_small (w + 1 + 2 ^ 31)) by lia.
  rewrite Z.mod_small; lia.
Qed.

(** An addition that no other thread disturbs. *)
Lemma add_uncontended fuel value addr w h :
  low_word addr ->
  android_atomic_add (S fuel) value addr (quiet addr w h)
  = ARet w (quiet addr (wrap32 (w + value))
                  (h ++ [Load addr w; Membar;
                         Cas addr w (wrap32 (w + value)) w])).
Proof.
  intros Hlow.
  cbv beta iota delta
    [abind load interfere android_atomic_release_cas
     ANDROID_MEMBAR_FULL note cas aret afault quiet android_atomic_add
     android_atomic_add_loop memory others history].
  rewrite lookup_singleton_eq.
  cbv beta iota delta [memory others history].
  rewrite (edx_low addr Hlow), lookup_singleton_eq.
  rewrite Z.eqb_refl. cbv beta iota.
  change (0 =? 0) with true. cbn [negb].
  rewrite insert_singleton_eq, <- !app_assoc. reflexivity.
Qed.

(** X25 (android_atomic_inc, android_atomic_dec, android_atomic_add).
    When no other thread is about, an increment of a word whose
    address fits in 32 bits goes through in the first turn of its
    loop and returns the value before it, and a decrement after it
    brings the word back; each is one load, one barrier and one
    compare-and-swap.  The sum is taken modulo 2^32: below INT32_MAX
    the increment leaves the value plus one, and from INT32_MAX it
    returns INT32_MAX and leaves INT32_MIN in the word. *)
Theorem inc_then_dec_restores_the_word addr w h :
  low_word addr ->
  is_int32 w = true ->
  abind (android_atomic_inc 1 addr)
        (fun a => abind (android_atomic_dec 1 addr) (fun b => aret (a, b)))
        (quiet addr w h)
  = ARet (w, wrap32 (w + 1))
         (quiet addr w
                (h ++ [Load addr w; Membar; Cas addr w (wrap32 (w + 1)) w]
                   ++ [Load addr (wrap32 (w + 1)); Membar;
                       Cas addr (wrap32 (w + 1)) w (wrap32 (w + 1))]))
  /\ (w < INT32_MAX -> wrap32 (w + 1) = w + 1)
  /\ (forall fuel,
         android_atomic_inc (S fuel) addr (quiet addr INT32_MAX h)
         = ARet INT32_MAX
                (quiet addr INT32_MIN
                       (h ++ [Load addr INT32_MAX; Membar;
                              Cas addr INT32_MAX INT32_MIN INT32_MAX]))).
Proof.
  intros Hlow Hw. split; [|split].
  - unfold android_atomic_inc, android_atomic_dec.
    rewrite (abind_ret_eq _ _ _ _ _ (add_uncontended 0 1 addr w h Hlow)).
    rewrite (abind_ret_eq _ _ _ _ _
               (add_uncontended 0 (-1) addr (wrap32 (w + 1)) _ Hlow)).
    unfold aret. rewrite (wrap32_back w Hw), <- !app_assoc. reflexivity.
  - intros Hlt. apply wrap32_int32.
    unfold is_int32, INT32_MIN, INT32_MAX in *.
    apply andb_true_iff in Hw as [H1 H2]. apply Z.leb_le in H1, H2.
    apply andb_true_iff. split; apply Z.leb_le; lia.
  - intros fuel. unfold android_atomic_inc.
    rewrite (add_uncontended fuel 1 addr INT32_MAX h Hlow). reflexivity.
Qed.

End Atomics.

(** ** The statements at concrete inputs *)

Section Scenarios.

(** A pull cut off after one DATA frame: the chunk was stored, the
    peer closes where the next header is due, and the destination
    is closed and unlinked. *)
Lemma sync_recv_failure_removes_destination_witness :
  exists w' t1 t2,
    sync_recv "r/f" "l/f" dropped_pull = Ret false w'
    /\ trace w' =
       trace dropped_pull ++
         [EvPrint "r/f";
          EvWrite (request ID_STAT "r/f") true;
          stat_read (stat_reply (Z.lor S_IFREG 420) 100 7);
          EvWrite (request ID_RECV "r/f") true;
          EvUnlink "l/f"; EvMkdirs "l/f";
          EvCreat "l/f" (next_fd dropped_pull)]
         ++ t1 ++ [EvClose (next_fd dropped_pull); EvUnlink "l/f"] ++ t2
    /\ Forall (fun e => fs_event e = false) t2
    /\ files w' !! "l/f" = None
    /\ lfds w' !! next_fd dropped_pull = None.
Proof.
  apply (proj1 (proj2 (sync_recv_failure_removes_destination "r/f" "l/f"))
           (Z.lor S_IFREG 420) 100 7 [["a"; "b"; "c"]%byte] []
           dropped_pull).
  - vm_compute. discriminate.
  - vm_compute. discriminate.
  - apply not_elem_of_empty.
  - vm_compute. discriminate.
  - vm_compute. discriminate.
  - reflexivity.
  - constructor; [|constructor]. split; vm_compute; [discriminate|reflexivity].
  - vm_compute. discriminate.
  - intros _. vm_compute. discriminate.
  - apply short_header. vm_compute. reflexivity.
Defined.

Example dropped_pull_leaves_no_file :
  exists w',
    sync_recv "r/f" "l/f" dropped_pull = Ret false w'
    /\ In (EvCreat "l/f" 4) (trace w')
    /\ In (EvFileWrite 4 ["a"; "b"; "c"]%byte true) (trace w')
    /\ files w' !! "l/f" = None.
Proof.
  eexists. split; [vm_compute; reflexivity|].
  split; [|split]; vm_compute; auto 20.
Qed.

Example completed_pull_stores_the_file :
  exists w',
    sync_recv "r/f" "l/f" completed_pull = Ret true w'
    /\ n_data <$> files w' !! "l/f" = Some ["L"; "i"; "n"; "u"; "x"]%byte
    /\ lfds w' !! 4 = None
    /\ total_bytes w' = 5
    /\ In (EvPrintf "%s: %d%%" [AStr "r/f"; AInt 100]) (trace w').
Proof.
  eexists. split; [vm_compute; reflexivity|].
  repeat (match goal with |- _ /\ _ => split end);
    try (vm_compute; reflexivity).
  vm_compute. auto 20.
Qed.

(** The peer fails the pull after one DATA frame: the destination is
    unlinked and the reason reported. *)
Example failed_pull_reports_the_reason :
  exists w',
    sync_recv "/r/f" "/l/f" failed_pull = Ret false w'
    /\ files w' !! "/l/f" = None
    /\ last (trace w')
       = Some (EvError "failed to copy '%s' to '%s': %s"
                       [AStr "/r/f"; AStr "/l/f";
                        ABytes (list_byte_of_string "disk full")]).
Proof.
  eexists. repeat (match goal with |- _ /\ _ => split end);
    vm_compute; reflexivity.
Qed.

Lemma oversized_DATA_is_fatal_witness :
  exists w',
    sync_recv "r/f" "l/f" oversized_pull = Ret false w'
    /\ inp w' = ["a"; "b"]%byte
    /\ files w' !! "l/f" = None.
Proof.
  destruct (proj2 (oversized_DATA_is_fatal "r/f" "l/f")
              (Z.lor S_IFREG 420) 100 7 (SYNC_DATA_MAX + 1)
              ["a"; "b"]%byte oversized_pull)
    as (w' & E & Hi & Hf & _).
  - vm_compute. discriminate.
  - vm_compute. discriminate.
  - apply not_elem_of_empty.
  - vm_compute. discriminate.
  - reflexivity.
  - vm_compute. discriminate.
  - split; vm_compute; reflexivity.
  - exists w'. auto.
Defined.


(** With the chunk limit lowered to 4, ten bytes are streamed as
    frames of 4, 4 and 2 bytes, with progress 40, 80 and 100. *)
Example ten_bytes_in_three_frames :
  exists w',
    SendLargeFile "r/t,33188" "l/t" "r/t" 42 ten_bytes = Ret true w'
    /\ stream_writes (trace w')
       = [request ID_SEND "r/t,33188";
          data_frame (list_byte_of_string "0123");
          data_frame (list_byte_of_string "4567");
          data_frame (list_byte_of_string "89");
          done_frame 42]
    /\ List.filter (fun e => match e with EvPrintf _ _ => true | _ => false end)
              (trace w')
       = [EvPrintf "%s: %d%%" [AStr "r/t"; AInt 40];
          EvPrintf "%s: %d%%" [AStr "r/t"; AInt 80];
          EvPrintf "%s: %d%%" [AStr "r/t"; AInt 100]]
    /\ total_bytes w' = 10.
Proof. eexists. repeat (match goal with |- _ /\ _ => split end); vm_compute; reflexivity. Qed.

(** The peer answers both STAT requests: the first file is found
    unchanged and marked, the second is not. *)
Lemma stat_requests_before_replies_witness :
  exists w',
    check_timestamps_block [file_a; file_b] two_stats
    = Ret (Some (zip_with decided [file_a; file_b]
                   [stat_reply (Z.lor S_IFREG 420) 10 5;
                    stat_reply (Z.lor S_IFREG 420) 11 5])) w'
    /\ trace w' =
       trace two_stats ++ map stat_write [file_a; file_b]
         ++ map stat_read [stat_reply (Z.lor S_IFREG 420) 10 5;
                           stat_reply (Z.lor S_IFREG 420) 11 5]
    /\ inp w' = []
    /\ forall (N : nat) (ci : copyinfo) (m : list byte),
         [file_a; file_b] !! N = Some ci ->
         [stat_reply (Z.lor S_IFREG 420) 10 5;
          stat_reply (Z.lor S_IFREG 420) 11 5] !! N = Some m ->
         zip_with decided [file_a; file_b]
           [stat_reply (Z.lor S_IFREG 420) 10 5;
            stat_reply (Z.lor S_IFREG 420) 11 5] !! N
         = Some (decided ci m).
Proof.
  apply (proj2 (stat_requests_before_replies [file_a; file_b])
           [stat_reply (Z.lor S_IFREG 420) 10 5;
            stat_reply (Z.lor S_IFREG 420) 11 5] [] two_stats).
  - repeat constructor; vm_compute; discriminate.
  - vm_compute. discriminate.
  - reflexivity.
  - repeat constructor; vm_compute; reflexivity.
  - reflexivity.
Defined.

Example first_file_is_marked :
  zip_with decided [file_a; file_b]
    [stat_reply (Z.lor S_IFREG 420) 10 5;
     stat_reply (Z.lor S_IFREG 420) 11 5]
  = [set_flag 1 file_a; file_b].
Proof. vm_compute. reflexivity. Qed.

(** The unchanged file is skipped, the other one would be pushed. *)
Example sync_skips_the_unchanged_file :
  exists w',
    copy_local_dir_remote [file_a; file_b] "r/" true true two_stats
    = Ret true w'
    /\ trace w' =
       [stat_write file_a; stat_write file_b;
        stat_read (stat_reply (Z.lor S_IFREG 420) 10 5);
        stat_read (stat_reply (Z.lor S_IFREG 420) 11 5);
        EvStderr "would push: %s -> %s\n" [AStr "l/b"; AStr "r/b"];
        EvPrintf "%s: %d file%s pushed. %d file%s skipped.%s\n"
                 [AStr "r/"; AInt 1; AStr EmptyString; AInt 1;
                  AStr EmptyString; ATransferRate]].
Proof. eexists. split; vm_compute; reflexivity. Qed.

Lemma three_dents_valid : Forall valid_dent three_dents.
Proof.
  repeat constructor; try (vm_compute; reflexivity);
    vm_compute; discriminate.
Defined.

Lemma sync_ls_until_DONE_witness :
  exists w',
    sync_ls "/d" collect [] listing
    = Ret (true, deliver collect three_dents []) w'
    /\ inp w' = [].
Proof.
  destruct (sync_ls_until_DONE collect "/d" [] listing) as (_ & H & _).
  - vm_compute. discriminate.
  - vm_compute. discriminate.
  - destruct (H three_dents done_reply [] three_dents_valid) as [Hdone _].
    + reflexivity.
    + reflexivity.
    + apply Hdone. reflexivity.
Defined.

Example listing_delivers_three_entries :
  deliver collect three_dents []
  = [ (Z.lor S_IFDIR 493, 0, 100, ["a"]%byte);
      (Z.lor S_IFREG 420, 7, 200, ["b"; "."; "t"; "x"; "t"]%byte);
      (Z.lor S_IFLNK 511, 9, 300, ["l"]%byte) ].
Proof. vm_compute. reflexivity. Qed.

(** A small send of two bytes on a fresh session: the counter goes
    from 0 to 2. *)
Lemma total_bytes_counts_payload_witness :
  let w := session [] 4096 in
  let w' := world_of (SendSmallFile "r/a,33188" "r/a" ["h"; "i"]%byte 42 w) in
  exists t,
    trace w' = trace w ++ t
    /\ 0 <= moved t
    /\ total_bytes w' = u64 (total_bytes w + moved t)
    /\ (total_bytes w + moved t < 2 ^ 64 ->
        total_bytes w' = total_bytes w + moved t
        /\ total_bytes w <= total_bytes w').
Proof.
  apply (proj1 (proj2 total_bytes_counts_payload)
           "r/a,33188"%string "r/a"%string ["h"; "i"]%byte 42
           (session [] 4096)).
  vm_compute. split; [discriminate | reflexivity].
Defined.

Example small_push_counts_its_payload :
  exists w',
    SendSmallFile "r/a,33188" "r/a" ["h"; "i"]%byte 42 (session [] 4096)
    = Ret true w'
    /\ stream_writes (trace w') = [burst "r/a,33188" ["h"; "i"]%byte 42]
    /\ moved (trace w') = 2
    /\ total_bytes w' = 2.
Proof. eexists. repeat (match goal with |- _ /\ _ => split end); vm_compute; reflexivity. Qed.

End Scenarios.

(** ** The further statements at concrete inputs *)

Section MoreScenarios.

Lemma SendRequest_wire_format_witness :
  exists ok buf w',
    SendRequest ID_STAT "r/a" (session [] 64) = Ret ok w'
    /\ trace w' = trace (session [] 64) ++ [EvWrite buf ok]
    /\ inp w' = inp (session [] 64)
    /\ (ok = true <-> 8 + strlen "r/a" <= wbudget (session [] 64))
    /\ blen buf = 8 + strlen "r/a"
    /\ rd32 0 buf = u32 ID_STAT
    /\ rd32 4 buf = strlen "r/a"
    /\ skipn 8 buf = list_byte_of_string "r/a".
Proof.
  apply (SendRequest_wire_format ID_STAT "r/a" (session [] 64)).
  vm_compute. discriminate.
Defined.

Lemma CopyDone_reports_reason_witness :
  exists w',
    CopyDone "l/a" "r/a" (session (fail_reply "disk full") 64) = Ret false w'
    /\ inp w' = []
    /\ trace w'
       = trace (session (fail_reply "disk full") 64)
         ++ [EvRead 8 (Some (le32 ID_FAIL ++ le32 (strlen "disk full")));
             EvRead (strlen "disk full")
                    (Some (list_byte_of_string "disk full"));
             EvError "failed to copy '%s' to '%s': %s"
                     [AStr "l/a"; AStr "r/a";
                      ABytes (c_str (list_byte_of_string "disk full"))]].
Proof.
  apply (CopyDone_reports_reason "l/a" "r/a" "disk full" []
           (session (fail_reply "disk full") 64)).
  - vm_compute. reflexivity.
  - vm_compute. reflexivity.
Defined.

Lemma check_timestamps_only_marks_witness :
  Forall2 marked [file_a; file_b] [set_flag 1 file_a; file_b].
Proof.
  apply (check_timestamps_only_marks [file_a; file_b] two_stats
           [set_flag 1 file_a; file_b]
           (world_of (check_timestamps_block [file_a; file_b] two_stats))).
  vm_compute. reflexivity.
Defined.

Lemma summary_counts_every_item_witness :
  let w' := world_of (copy_local_dir_remote [file_a; file_b] "r/" true true
                                            two_stats) in
  exists pushed skipped t,
    trace w' = t ++ [summary "r/" pushed skipped]
    /\ pushed + skipped = Z.of_nat (length [file_a; file_b])
    /\ 0 <= pushed /\ 0 <= skipped
    /\ (true = false -> pushed = Z.of_nat (length (to_push [file_a; file_b]))).
Proof.
  intros w'.
  apply (summary_counts_every_item [file_a; file_b] "r/" true true
           two_stats w').
  vm_compute. reflexivity.
Defined.

Lemma sync_recv_stores_the_file_witness :
  exists w',
    sync_recv "r/f" "l/f" completed_pull = Ret true w'
    /\ files w' !! "l/f"
       = Some (regular_file (Z.land 420 (Z.lnot (umask completed_pull)))
                            (concat [["L"; "i"; "n"; "u"; "x"]%byte]))
    /\ (forall p, p <> "l/f"%string ->
                  files w' !! p = files completed_pull !! p)
    /\ lfds w' = lfds completed_pull
    /\ total_bytes w'
       = u64 (total_bytes completed_pull
              + blen (concat [["L"; "i"; "n"; "u"; "x"]%byte]))
    /\ inp w' = []
    /\ stream_writes (trace w')
       = stream_writes (trace completed_pull)
           ++ [request ID_STAT "r/f"; request ID_RECV "r/f"].
Proof.
  apply (sync_recv_stores_the_file "r/f" "l/f" (Z.lor S_IFREG 420) 5 7
           [["L"; "i"; "n"; "u"; "x"]%byte] [] completed_pull).
  - vm_compute. discriminate.
  - vm_compute. discriminate.
  - apply not_elem_of_empty.
  - vm_compute. discriminate.
  - reflexivity.
  - vm_compute. split; [discriminate | reflexivity].
  - vm_compute. discriminate.
  - vm_compute. reflexivity.
  - repeat constructor; vm_compute; try discriminate; reflexivity.
  - vm_compute. discriminate.
  - intros _. vm_compute. discriminate.
Defined.

(** Under the creation mask 077 the pulled file is 0600. *)
Example pulled_file_under_umask_077 :
  exists w',
    sync_recv "r/f" "l/f"
      {| fd := 3; total_bytes := 0; max := SYNC_DATA_MAX;
         inp := inp completed_pull; wbudget := 4096;
         files := ∅; lfds := ∅; next_fd := 4; nocreat := ∅;
         disk_free := 2 ^ 40; umask := 63; trace := [] |}
    = Ret true w'
    /\ n_mode <$> files w' !! "l/f" = Some (Z.lor S_IFREG 384).
Proof. eexists. split; vm_compute; reflexivity. Qed.

Lemma sync_recv_fails_before_unlink_witness :
  exists w' t,
    sync_recv "r/f" "l/f" (with_file "l/f" (regular ["o"; "l"; "d"]%byte)
                                     (session [] 4096))
    = Ret false w'
    /\ files w' = files (with_file "l/f" (regular ["o"; "l"; "d"]%byte)
                                   (session [] 4096))
    /\ lfds w' = lfds (with_file "l/f" (regular ["o"; "l"; "d"]%byte)
                                 (session [] 4096))
    /\ trace w' = trace (with_file "l/f" (regular ["o"; "l"; "d"]%byte)
                                   (session [] 4096)) ++ t
    /\ Forall (fun e => fs_event e = false) t.
Proof.
  apply (sync_recv_fails_before_unlink "r/f" "l/f").
  right. right. left. vm_compute. reflexivity.
Defined.

Lemma session_fresh_fds input budget : fresh_fds (session input budget).
Proof.
  split; [vm_compute; discriminate|]. intros k _. apply lookup_empty.
Defined.

Lemma push_leaves_local_side_as_it_was_witness :
  let w' := world_of (sync_send "l/a" "r/a" 5 (Z.lor S_IFREG 420)
                                refused_push) in
  files w' = files refused_push /\ lfds w' = lfds refused_push.
Proof.
  intros w'.
  apply (proj1 (push_leaves_local_side_as_it_was refused_push
                  (session_fresh_fds _ _))
           "l/a" "r/a" 5 (Z.lor S_IFREG 420) false w').
  vm_compute. reflexivity.
Defined.

Lemma SendLargeFile_streams_the_file_witness :
  exists w' chunks,
    SendLargeFile "r/t,33188" "l/t" "r/t" 42 ten_bytes = Ret true w'
    /\ stream_writes (trace w')
       = stream_writes (trace ten_bytes)
           ++ request ID_SEND "r/t,33188" :: map data_frame chunks
           ++ [done_frame 42]
    /\ concat chunks = n_data (regular (list_byte_of_string "0123456789"))
    /\ full_but_last (max ten_bytes) chunks
    /\ total_bytes w'
       = u64 (total_bytes ten_bytes
              + blen (n_data (regular (list_byte_of_string "0123456789"))))
    /\ lfds w' = lfds ten_bytes.
Proof.
  apply (SendLargeFile_streams_the_file "r/t,33188" "l/t" "r/t" 42 ten_bytes
           (regular (list_byte_of_string "0123456789"))).
  - vm_compute. reflexivity.
  - reflexivity.
  - reflexivity.
  - vm_compute. discriminate.
  - vm_compute. discriminate.
  - vm_compute. reflexivity.
  - vm_compute. discriminate.
  - vm_compute. split; [discriminate | reflexivity].
  - split; [vm_compute; discriminate|]. intros k _. apply lookup_empty.
Defined.

Lemma IsDotOrDotDot_exactly_witness :
  IsDotOrDotDot ".." = true <-> ".."%string = "."%string \/ ".."%string = ".."%string.
Proof. apply (IsDotOrDotDot_exactly ".."). reflexivity. Defined.

(** The walk over the sample tree: two items, and a report for the
    device and for the directory that cannot be opened. *)
Example sample_walk :
  exists w',
    local_build_list sample_tree [] "l/" "r/" (session [] 0)
    = Ret (0, [item_a_txt; item_sub_b]) w'
    /\ trace w'
       = [EvError "skipping special file '%s'" [AStr "l/"];
          EvError "cannot open '%s': %s" [AStr "l/locked/"; AErrno]].
Proof. eexists. split; vm_compute; reflexivity. Qed.

Lemma local_build_list_items_witness :
  exists new,
    [item_a_txt; item_sub_b] = [] ++ new
    /\ Forall (item_under "l/" "r/") new.
Proof.
  apply (local_build_list_items sample_tree [] "l/" "r/" (session [] 0) 0
           [item_a_txt; item_sub_b]
           (world_of (local_build_list sample_tree [] "l/" "r/"
                                       (session [] 0)))).
  vm_compute. reflexivity.
Defined.

Lemma trailing_slash_makes_no_difference_witness :
  copy_local_dir_remote_full sample_tree (with_slash "l") (with_slash "r")
                             true true (session [] 64)
  = copy_local_dir_remote_full sample_tree "l" "r" true true (session [] 64)
  /\ copy_local_dir_remote_full sample_tree EmptyString "r" true true
                                (session [] 64)
     = Ret false (session [] 64)
  /\ copy_local_dir_remote_full sample_tree "l" EmptyString true true
                                (session [] 64)
     = Ret false (session [] 64).
Proof.
  apply (trailing_slash_makes_no_difference sample_tree "l" "r" true true
           (session [] 64)); reflexivity.
Defined.

Lemma do_sync_sync_list_only_transfers_nothing_witness :
  exists b w' bufs,
    do_sync_sync 3 sample_tree "l" "r" true (session [] 64) = Ret b w'
    /\ stream_writes (trace w')
       = stream_writes (trace (session [] 64)) ++ bufs
           ++ [request ID_QUIT EmptyString]
    /\ Forall stat_request bufs
    /\ total_bytes w' = 0
    /\ files w' = files (session [] 64) /\ lfds w' = lfds (session [] 64).
Proof.
  apply (do_sync_sync_list_only_transfers_nothing 3 sample_tree "l" "r"
           (session [] 64)).
  vm_compute. discriminate.
Defined.

Lemma list_only_announces_the_unmarked_witness :
  exists w',
    copy_local_dir_remote [file_a; file_b] "r/" true true two_stats
    = Ret true w'
    /\ trace w'
       = trace two_stats ++ map stat_write [file_a; file_b]
           ++ map stat_read [stat_reply (Z.lor S_IFREG 420) 10 5;
                             stat_reply (Z.lor S_IFREG 420) 11 5]
           ++ map would_push
                (to_push (zip_with decided [file_a; file_b]
                            [stat_reply (Z.lor S_IFREG 420) 10 5;
                             stat_reply (Z.lor S_IFREG 420) 11 5]))
           ++ [summary "r/"
                 (Z.of_nat
                    (length
                       (to_push (zip_with decided [file_a; file_b]
                                   [stat_reply (Z.lor S_IFREG 420) 10 5;
                                    stat_reply (Z.lor S_IFREG 420) 11 5]))))
                 (Z.of_nat
                    (length (zip_with decided [file_a; file_b]
                               [stat_reply (Z.lor S_IFREG 420) 10 5;
                                stat_reply (Z.lor S_IFREG 420) 11 5])
                     - length
                         (to_push (zip_with decided [file_a; file_b]
                                     [stat_reply (Z.lor S_IFREG 420) 10 5;
                                      stat_reply (Z.lor S_IFREG 420) 11 5]))))]
    /\ inp w' = [].
Proof.
  apply (proj1 (proj2 (proj2 (list_only_announces_the_unmarked
                                [file_a; file_b] "r/")))
           [stat_reply (Z.lor S_IFREG 420) 10 5;
            stat_reply (Z.lor S_IFREG 420) 11 5] [] two_stats).
  - repeat constructor; vm_compute; discriminate.
  - vm_compute. discriminate.
  - reflexivity.
  - repeat constructor; vm_compute; reflexivity.
  - reflexivity.
Defined.

(** The dry run of the sample tree against a peer that has a.txt
    unchanged and no sub/b. *)
Example sample_dry_run :
  exists w',
    do_sync_sync 3 sample_tree "l" "r" true
      (session (stat_reply (Z.lor S_IFREG 420) 10 5 ++ stat_reply 0 0 0) 64)
    = Ret true w'
    /\ stream_writes (trace w')
       = [request ID_STAT "r/a.txt"; request ID_STAT "r/sub/b";
          request ID_QUIT EmptyString]
    /\ In (would_push item_sub_b) (trace w')
    /\ In (summary "r/" 1 1) (trace w').
Proof.
  eexists. split; [vm_compute; reflexivity|].
  split; [vm_compute; reflexivity|].
  split; vm_compute; auto 20.
Qed.

Lemma entry_points_fail_without_connection_witness :
  do_sync_ls (-1) "/d" (session [] 64)
  = Ret (false, EmptyString)
        (log (EvError "connect failed: %s" [AErrno])
             (set_conn (-1) 0 SYNC_DATA_MAX (session [] 64))).
Proof.
  apply (proj2 (entry_points_fail_without_connection (-1) (session [] 64)
                  ltac:(vm_compute; reflexivity))).
Defined.

Lemma do_sync_ls_prints_the_listing_witness :
  exists w',
    do_sync_ls 3 "/d" listing = Ret (true, lines (map dent_line three_dents)) w'.
Proof.
  apply (proj1 (do_sync_ls_prints_the_listing 3 "/d" three_dents [] listing
                  ltac:(vm_compute; discriminate)
                  ltac:(vm_compute; discriminate)
                  ltac:(vm_compute; discriminate)
                  three_dents_valid
                  ltac:(vm_compute; reflexivity))).
Defined.

(** What ls prints for the listing of three entries. *)
Example listing_as_printed :
  lines (map dent_line three_dents)
  = ("000041ed 00000000 00000064 a" ++ newline
     ++ "000081a4 00000007 000000c8 b.txt" ++ newline
     ++ "0000a1ff 00000009 0000012c l" ++ newline)%string.
Proof. vm_compute. reflexivity. Qed.

Lemma remote_build_list_terminates_with_items_witness :
  exists w',
    remote_build_list 1 [] "r/" "l/" escaping_listing
    = Ret (true,
           [] ++ map (remote_item "r/" "l/")
                     [dent_reply (Z.lor S_IFREG 420) 5 200 "../../x"]) w'
    /\ inp w' = []
    /\ stream_writes (trace w')
       = stream_writes (trace escaping_listing) ++ [request ID_LIST "r/"].
Proof.
  apply (proj2 (remote_build_list_terminates_with_items [] "r/" "l/")
           0%nat [dent_reply (Z.lor S_IFREG 420) 5 200 "../../x"] []
           escaping_listing).
  - vm_compute. discriminate.
  - vm_compute. discriminate.
  - repeat constructor; vm_compute; try reflexivity; discriminate.
  - repeat constructor.
  - reflexivity.
Defined.

(** The peer names the file "../../x": the item it gets is to be
    stored outside the local directory. *)
Example peer_chooses_the_destination :
  map (remote_item "r/" "l/")
      [dent_reply (Z.lor S_IFREG 420) 5 200 "../../x"]
  = [ {| ci_src := "r/../../x"; ci_dst := "l/../../x"; ci_time := 200;
         ci_mode := Z.lor S_IFREG 420; ci_size := 5; ci_flag := 0 |} ].
Proof. vm_compute. reflexivity. Qed.

Lemma sync_send_link_or_refusal_witness :
  exists w',
    sync_send "l/d" "r/d" 5 (Z.lor S_IFDIR 493) (session [] 64) = Ret false w'
    /\ trace w'
       = trace (session [] 64)
           ++ [EvError "local file '%s' has unsupported mode: 0o%o"
                       [AStr "l/d"; AInt (Z.lor S_IFDIR 493)]]
    /\ untouched (session [] 64) w'.
Proof.
  apply (proj2 (sync_send_link_or_refusal "l/d" "r/d" 5 (Z.lor S_IFDIR 493)
                  (session [] 64))); reflexivity.
Defined.

(** A link to "target" is pushed as the text of the link and a NUL. *)
Example link_goes_out_as_its_text :
  exists w',
    sync_send "l/s" "r/s" 5 (Z.lor S_IFLNK 511)
              (with_file "l/s" (symlink (list_byte_of_string "target"))
                         (session okay_reply 4096))
    = Ret true w'
    /\ stream_writes (trace w')
       = [burst "r/s,41471" (list_byte_of_string "target" ++ [x00]) 5].
Proof. eexists. split; vm_compute; reflexivity. Qed.

Lemma pull_receives_every_listed_file_witness :
  exists w' t,
    copy_remote_dir_local "r" "l" true one_file_pull = Ret true w'
    /\ n_data <$> files w'
                  !! ci_dst (remote_item (with_slash "r") (with_slash "l")
                               (dent_reply (Z.lor S_IFREG 420) 5 200 "a"))
       = Some (concat [["L"; "i"; "n"; "u"; "x"]%byte])
    /\ stream_writes (trace w')
       = stream_writes (trace one_file_pull)
           ++ request ID_LIST (with_slash "r")
              :: recv_requests
                   (remote_item (with_slash "r") (with_slash "l")
                      (dent_reply (Z.lor S_IFREG 420) 5 200 "a"))
    /\ trace w' = t ++ [pull_summary "r" 1 0]
    /\ inp w' = [].
Proof.
  apply (proj2 (pull_receives_every_listed_file "r" "l")
           (dent_reply (Z.lor S_IFREG 420) 5 200 "a")
           (Z.lor S_IFREG 420) 5 200 [["L"; "i"; "n"; "u"; "x"]%byte] []
           true one_file_pull).
  - discriminate.
  - discriminate.
  - repeat split; vm_compute; try reflexivity; discriminate.
  - reflexivity.
  - vm_compute. discriminate.
  - vm_compute. discriminate.
  - vm_compute. discriminate.
  - apply not_elem_of_empty.
  - vm_compute. discriminate.
  - vm_compute. split; [discriminate | reflexivity].
  - vm_compute. discriminate.
  - reflexivity.
  - repeat constructor; vm_compute; try discriminate; reflexivity.
  - vm_compute. discriminate.
  - intros _. vm_compute. discriminate.
Defined.

(** The pull of the one file: listed, received, counted. *)
Example one_file_is_pulled :
  exists w',
    copy_remote_dir_local "r" "l" true one_file_pull = Ret true w'
    /\ n_data <$> files w' !! "l/a" = Some ["L"; "i"; "n"; "u"; "x"]%byte
    /\ n_mode <$> files w' !! "l/a" = Some (Z.lor S_IFREG 420)
    /\ stream_writes (trace w')
       = [request ID_LIST "r/"; request ID_STAT "r/a"; request ID_RECV "r/a"]
    /\ last (trace w') = Some (pull_summary "r" 1 0).
Proof.
  eexists. repeat (match goal with |- _ /\ _ => split end);
    vm_compute; reflexivity.
Qed.

Import Atomic.

(** Another thread changes the word from 5 to 9 between the load and
    the compare-and-swap of the first turn: the addition of 2 retries
    and returns 9, leaving 11. *)
Example contended_add :
  android_atomic_add 3 2 64 contended
  = ARet 9 {| memory := {[64 := 11]}; others := [];
              history := [Load 64 5; Membar; Other 64 9; Cas 64 5 7 9;
                          Load 64 9; Membar; Cas 64 9 11 9] |}.
Proof. vm_compute. reflexivity. Qed.

(** On a word above 4 GiB the load goes through and the
    compare-and-swap, which looks at the low half of the address,
    ends the process. *)
Example high_word_faults :
  android_atomic_inc 1 0x7ffd00001000 high_word
  = AFault Segv {| memory := {[0x7ffd00001000 := 5]}; others := [];
                   history := [Load 0x7ffd00001000 5; Membar] |}.
Proof. vm_compute. reflexivity. Qed.

Lemma low_word_64 : low_word 64.
Proof. unfold low_word. lia. Defined.

Lemma read_modify_write_is_atomic_witness :
  updates_atomically 64 (fun o => wrap32 (o + 2)) 9 contended
                     (state_of (android_atomic_add 3 2 64 contended)).
Proof.
  apply (proj1 (read_modify_write_is_atomic 3 2 64 contended 9
                  (state_of (android_atomic_add 3 2 64 contended))
                  low_word_64)).
  vm_compute. reflexivity.
Defined.

Lemma retries_end_when_the_others_rest_witness :
  exists old s', android_atomic_or 3 8 64 contended = ARet old s'.
Proof.
  apply (retries_end_when_the_others_rest 3 8 64 contended low_word_64).
  - vm_compute. eauto.
  - vm_compute. lia.
Defined.

Lemma cmpxchg_uses_the_low_half_of_the_address_witness :
  exists s', android_atomic_add 1 1 0x7ffd00001000 high_word
             = AFault Segv s'.
Proof.
  apply (proj2 (cmpxchg_uses_the_low_half_of_the_address
                  0 0 1 0x7ffd00001000) high_word).
  vm_compute. reflexivity.
Defined.

Lemma swap_returns_what_it_replaced_witness :
  exists t,
    history (state_of (android_atomic_acquire_swap 3 1 64 contended))
    = history contended ++ t ++ [Cas 64 9 1 9; Membar]
    /\ Forall (fun e => swapped e = false) t
    /\ memory (state_of (android_atomic_acquire_swap 3 1 64 contended))
       !! 64 = Some 1.
Proof.
  apply (proj1 (swap_returns_what_it_replaced 3 1 64 contended 9
                  (state_of (android_atomic_acquire_swap 3 1 64 contended))
                  low_word_64)).
  vm_compute. reflexivity.
Defined.

Lemma inc_then_dec_restores_the_word_witness :
  abind (android_atomic_inc 1 64)
        (fun a => abind (android_atomic_dec 1 64) (fun b => aret (a, b)))
        (quiet 64 41 [])
  = ARet (41, wrap32 (41 + 1))
         (quiet 64 41
                ([] ++ [Load 64 41; Membar; Cas 64 41 (wrap32 (41 + 1)) 41]
                    ++ [Load 64 (wrap32 (41 + 1)); Membar;
                        Cas 64 (wrap32 (41 + 1)) 41 (wrap32 (41 + 1))])).
Proof.
  apply (proj1 (inc_then_dec_restores_the_word 64 41 [] low_word_64 eq_refl)).
Defined.

(** At INT32_MAX the increment wraps around. *)
Example inc_wraps_around :
  android_atomic_inc 1 64 (quiet 64 INT32_MAX [])
  = ARet INT32_MAX
         (quiet 64 INT32_MIN
                [Load 64 INT32_MAX; Membar;
                 Cas 64 INT32_MAX INT32_MIN INT32_MAX]).
Proof. vm_compute. reflexivity. Qed.

End MoreScenarios.
